(* ===== verification/_CoqProject ===== *)
-Q . S2P
Prelude.v
CText.v
Mem.v
Blocks.v
LibStr.v
Printf.v
VM.v
KTables.v
Machine.v
Hardware.v
Keyboard.v
Wp.v
Pages.v
Loader.v
Boot.v
Kernel.v
KernelInv.v
KernelSafe.v
KernelStart.v
Process.v
Fork.v
RoundRobin.v
LinkedList.v
InkConfig.v
MkBootDisk.v
BootDisk.v
Startup.v
Stencil.v
Shell.v
Filters.v
Alloc.v
Snake.v
GameOver.v
Logs.v
LogTest.v
NoGrab.v
AutoGrader.v
RevTest.v
ArenaTest.v
ListTest.v
Instr.v
