(* ===== verification/Prelude.v ===== *)
(** * A verification library for the systems code of the course repository

    The repository holds the C and C++ programs of a systems course.  The
    development models the ones with logic of their own and proves what makes
    them correct.  Its files, in dependency order:

    - [Prelude]: outcomes of C code ([res]), machine integers as [Z] with
      explicit wrap-around, bit operations as arithmetic, arrays indexed by C
      integers, and the automation shared by all files.  [CText]: numbers as text
      ([atoi], decimal output) with their round trip.  [Mem]: byte-addressed
      memory with little-endian loads and stores, and [Blocks] the heap of a program,
      where every access must be inside a live block.
    - WeensyOS (src/modules/m3), from the bottom up:
      [LibStr] and [Printf] are lib.c; [VM] is the page tables of k-hardware.c,
      and [KTables] what the kernel's own tables contain;
      [Machine] is the hardware and kernel state, the ports and the kernel's
      monad (x86-64.h, kernel.h); [Hardware] and [Keyboard] are the rest of
      k-hardware.c; [Wp] is the program logic of the monad; [Pages] and [Kernel]
      are kernel.c; [Loader] is k-loader.c; [Boot] is boot.c; [KernelInv] and
      [KernelSafe] hold the kernel's invariant and its theorems, and
      [KernelStart] its start from power-on; [Process] is process.h, process.c
      and p-allocator.c, and [Fork] is p-fork.c and p-forkexit.c; [Instr] has the
      instructions of x86-64.h that the kernel does not use.
    - [NoGrab] is build/qemu-nograb.c, the library preloaded into the emulator.
    - [MkBootDisk] is build/mkbootdisk.c, [BootDisk] composes it with [Boot], and
      [Startup] composes both with [KernelStart].
    - [RoundRobin] is the scheduler of assignments/a2/scheduling_rr/main.c, [Logs]
      its log threads and the whole program, and [LogTest] the test of its log
      files, tests/test_log_files.c with the macros of tests/minunit.h.
    - [LinkedList] is modules/m2/double_link/linked_list/linked_list.c and [ListTest]
      its test linked_list_test.c; [Shell] is
      modules/m2/shell/412shell.c; [Snake] is assignments/a2/src (board, food
      and drawing), [GameOver] its curses set-up and game-over screen, and
      [AutoGrader] the program that grades it, assignments/a2/test/autograder.c.
    - [RevTest] is the test program of the first exercise, modules/m1/revtest.c.
    - [Filters] is the line filters of assignments/a1 and labs/lab2 and
      modules/m2/double_link/insecure, [Alloc] is assignments/a3 (dmalloc.c,
      basealloc.c, arenas), and [ArenaTest] the test of the arena, arena_tests.c.
    - [InkConfig] is assignments/a4/inklings/cink (configuration and start), and
      [Stencil] is assignments/a4/a4_cpp/stencil_old (the C++ front end).

    ** How state and operations correspond to the code

    A definition keeps the name of the C function, type or macro it models; a
    loop or a part of a function that is a definition of its own carries a
    comment with the lines it stands for.  The lines are given as
    "@src file first-last symbol".

    - Pure or failing code returns [res]: [AssertFail] is a failed assert, [UB]
      what C leaves undefined, [NoFuel] the end of a loop's fuel.
    - The kernel, the boot loader and the devices they use run in the monad [M] of
      [Machine] over one record [machine] with the memory, the console, the
      processor, and the static variables of k-hardware.c and kernel.c under
      their own names.  A kernel function returns, halts (user mode is resumed, the
      machine is powered off or rebooted) or faults.
    - The devices are not code of the repository: they are the class [PortBus],
      with no assumption at all in the kernel's theorems and with the ATA read
      protocol, [AtaDisk], in those of the boot loader.
    - mkbootdisk, the C++ front end and the list programs have state records and
      monads of their own; threads are step relations with explicit program
      counters, so that every interleaving is covered.

    ** Interfaces between components

    [Printer] (what printf needs of an output), [PageAllocatorLaws] (what
    virtual_memory_map needs of an allocator), [PortBus] and [AtaDisk] (devices),
    [Malloc] (the heap the linked list uses), [Os] and [OsLaws] (what a process
    needs of the kernel), [ForkLaws] (what the processes that fork need of it),
    [Game], [ArenaLib] and [ListLib] (the functions that students write for
    the autograder and the tests of the arena and the list), [CHeap] (the C library's heap under dmalloc).  Each has an instance: the
    console, the log and the string buffer print; a bump allocator and the NULL
    allocator allocate; [pio_ata] is a disk; [kernel_laws] derives the contract of
    the system calls from the kernel's theorems.

    ** What the theorems show

    - The kernel (KernelSafe): from the invariant [kernel_inv], an exception of a
      runnable process fails no assertion and has no undefined behaviour, and ends
      by resuming a runnable process on the kernel's page table, with the
      invariant; this holds for ever, whatever devices and user code do, as long as
      user code stores nothing into the kernel's own memory; nothing enforces that,
      because all of physical memory is mapped writable for user code, and one such
      store can break the invariant ([trespass_breaks]).  Under the same condition
      pages in use keep their owner and suspended processes their registers, and no
      runnable process is passed over NPROC - 1 times.  Scheduling is round-robin;
      each system call and a page fault do what they are meant to do, to no other
      process, and a page is refused exactly when it is not free.
    - Start-up (KernelStart): from power-on, with program images that meet the
      layout of the linker scripts, kernel() reaches user mode with the invariant
      established, every program loaded byte for byte into its process, and
      each process the owner of exactly its pages; so the theorems about the
      running system, with their condition, hold from power-on.
    - Page tables (VM): mapping implements its specification on any memory,
      fails only when the allocator gave no page, lookup finds what was mapped, initialisation identity-maps memory; and the
      one request at the top of the address space that fails when it should not.
    - Output and strings (Printf, LibStr): formats terminate, type-checked formats
      are safe on the console (widths that overflow an int are not accepted), printed integers read back, snprintf keeps to its
      buffer; the string functions meet their specifications, overlapping copies
      included.
    - From disk to user mode (MkBootDisk, Boot, BootDisk, Startup): mkbootdisk
      writes the reference image however its writes are split, and with a partition
      table finds the right partition and stays inside it; the boot loader loads
      every segment of a loadable executable, and does so from that image; and
      the kernel it loads starts the programs in its file.
    - Processes: the allocator process owns every page it writes to, and the
      buffer of panic is never overrun; the processes that fork keep distinct
      pids and heaps of their own in every interleaving, on any kernel with the
      promised system calls, and p-fork fails an assertion exactly once for each
      fork that is refused; this kernel panics on them.
    - Round-robin threads: every interleaving computes the sequential schedule,
      no deadlock or lost wakeup, termination, correct times, bounded waiting; with
      the log threads it ends too, with its files as they should be, or the error
      of the call that failed reported, and then its test accepts them.
    - Graders and tests (AutoGrader, RevTest, LogTest, ArenaTest, ListTest): what each writes
      or counts, for implementations of the code under test with the stated
      properties, and which of a list of implementations pass.
    - The preloaded library (NoGrab): it changes one flag of one block at most,
      and when; it reads memory that is gone exactly when the handler it remembers, or
      the name of that handler, is not in a live block.
    - Lists and inklings: reversal and removal on well-formed lists; configuration
      files parse back and always fit; the front end's start-up, keyboard, grid and
      event loop, with the inputs on which they go wrong.
    - Shell and snake: every command line is parsed into its parts or has undefined
      behaviour, and which; whole sessions; placing food ends exactly on boards
      with room; a board is drawn cell by cell inside the terminal; the game-over
      screen fits boards of 21 columns, but not the default board of 20.
    - Filters and allocators: copying programs copy; makewords and linebreaker
      store past their block on every line; dcalloc zeroes what it allocates and
      allocates too little when its product wraps; the arena's size check.

    ** Bounds and fuel

    Loops whose bound the code gives recurse on that bound.  Waiting loops (the
    panic and scheduling loops that poll the keyboard) take fuel [spin]; the
    theorems hold for every [spin], and say in which cases the loop may go on for
    ever ([may_wait]).  The disk's waits have enough fuel above [ata_limit], the
    largest number of polls the disk asks for.  printf, the string functions, the
    table walks and the round-robin schedule have theorems that give enough fuel
    from the length of the input; find_partition is the one function shown to need
    more than any.

    ** Not modelled

    The assembly files (their effect is the argument of [exception] and the result
    [Resume]); the instructions of x86-64.h that act on state no code reads; the
    tests assignments/a3/test0xx.cc of an allocator that is left to students; the Go
    and Python programs; the empty stubs handed to students (the moves of the snake,
    the arena and the inklings); and labs/, which repeats files of assignments/. *)
From stdpp Require Import base tactics numbers list list_numbers gmap option.
From Stdlib Require Import ZArith Lia.
From Stdlib Require Ascii String.
Export String.StringSyntax.

#[global] Set Default Goal Selector "!".
#[global] Unset Lia Cache.
#[global] Unset Nia Cache.
#[global] Open Scope Z_scope.

Declare Scope machine_scope.
Delimit Scope machine_scope with machine.

(** ** Outcomes of C code

    A C function that can abort returns a [res]: [AssertFail] is a failed
    [assert], [UB] an access C leaves undefined (an index out of bounds, a
    variadic argument of the wrong type, a NULL dereference), and [NoFuel] the
    exhaustion of the fuel of a loop, which the termination theorems exclude. *)
Inductive fault := AssertFail | UB | NoFuel.

Inductive res (A : Type) := Ok (a : A) | Err (e : fault).
Arguments Ok {A} a.
Arguments Err {A} e.

#[global] Instance fault_eq_dec : EqDecision fault.
Proof. solve_decision. Defined.
#[global] Instance res_eq_dec `{EqDecision A} : EqDecision (res A).
Proof. solve_decision. Defined.

#[global] Instance res_ret : MRet res := λ A a, Ok a.
#[global] Instance res_bind : MBind res := λ A B k m,
  match m with Ok a => k a | Err e => Err e end.

Definition assert_ (b : bool) : res unit := if b then Ok tt else Err AssertFail.

Definition of_option {A} (e : fault) (o : option A) : res A :=
  match o with Some a => Ok a | None => Err e end.

Section res_lemmas.
Context {A B : Type}.

Lemma bind_ok (m : res A) (k : A → res B) b :
(m ≫= k) = Ok b ↔ ∃ a, m = Ok a ∧ k a = Ok b.
Proof.
destruct m as [a|e]; cbn; split.
- by exists a.
- by intros (? & [= ->] & ?).
- done.
- by intros (? & [=] & ?).
Qed.

Lemma assert_ok b (k : unit → res B) r :
(assert_ b ≫= k) = Ok r ↔ b = true ∧ k tt = Ok r.
Proof. destruct b; cbn; [tauto|]. split; [done|by intros [[=] _]]. Qed.

Lemma assert_true (k : unit → res B) : (assert_ true ≫= k) = k tt.
Proof. reflexivity. Qed.
End res_lemmas.

(** ** Machine integers

    A w-bit unsigned value is a [Z] in [0, 2^w); [wrapU w] is the conversion
    to it, [wrapS w] the (two's complement) conversion to a signed type. *)
Definition wrapU (w z : Z) : Z := z mod 2 ^ w.
Definition wrapS (w z : Z) : Z := (z + 2 ^ (w - 1)) mod 2 ^ w - 2 ^ (w - 1).

#[global] Arguments wrapU : simpl never.
#[global] Arguments wrapS : simpl never.

Abbreviation u8 := (wrapU 8).
Abbreviation u16 := (wrapU 16).
Abbreviation u32 := (wrapU 32).
Abbreviation u64 := (wrapU 64).
Abbreviation i8 := (wrapS 8).
Abbreviation i32 := (wrapS 32).
Abbreviation i64 := (wrapS 64).

Lemma wrapU_small w z : 0 ≤ z < 2 ^ w → wrapU w z = z.
Proof. intros. apply Z.mod_small; lia. Qed.

Lemma wrapU_range w z : 0 ≤ w → 0 ≤ wrapU w z < 2 ^ w.
Proof. intros. apply Z.mod_pos_bound. lia. Qed.

Lemma wrapS_small w z :
  0 < w → - 2 ^ (w - 1) ≤ z < 2 ^ (w - 1) → wrapS w z = z.
Proof.
  intros Hw Hz. unfold wrapS.
  assert (2 ^ w = 2 * 2 ^ (w - 1)) as E
    by (rewrite <- Z.pow_succ_r by lia; f_equal; lia).
  rewrite Z.mod_small; lia.
Qed.

Lemma wrapS_range w z : 0 < w → - 2 ^ (w - 1) ≤ wrapS w z < 2 ^ (w - 1).
Proof.
  intros Hw. unfold wrapS.
  assert (2 ^ w = 2 * 2 ^ (w - 1)) as E
    by (rewrite <- Z.pow_succ_r by lia; f_equal; lia).
  pose proof (Z.mod_pos_bound (z + 2 ^ (w - 1)) (2 ^ w)). lia.
Qed.

(** The bytes of a string literal. *)
Definition str (s : String.string) : list Z :=
  (λ c, Z.of_N (Ascii.N_of_ascii c)) <$> String.list_ascii_of_string s.
Arguments str s%_string_scope.

(** A character literal, written as a one-character string. *)
Definition chr (s : String.string) : Z := default 0 (head (str s)).
Arguments chr s%_string_scope.

(** C truth values. *)
Definition c_bool (b : bool) : Z := if b then 1 else 0.
Definition c_true (z : Z) : bool := negb (z =? 0).

(** ** Bit operations as arithmetic *)
Create HintDb mach discriminated.
Create Rewrite HintDb mach.

Lemma land_low a n : 0 ≤ n → Z.land a (Z.ones n) = a mod 2 ^ n.
Proof. apply Z.land_ones. Qed.

Lemma testbit_mod_0 a n i : a mod 2 ^ n = 0 → i < n → Z.testbit a i = false.
Proof.
  intros H Hi. destruct (decide (i < 0)); [by apply Z.testbit_neg_r|].
  rewrite <- (Z.mod_pow2_bits_low a n i), H by lia. apply Z.bits_0.
Qed.

Lemma testbit_small b n i : 0 ≤ b < 2 ^ n → n ≤ i → Z.testbit b i = false.
Proof.
  intros Hb Hi. destruct (decide (0 ≤ n)).
  - rewrite <- (Z.mod_small b (2 ^ n)) by lia. apply Z.mod_pow2_bits_high. lia.
  - rewrite Z.pow_neg_r in Hb; lia.
Qed.

(** Or-ing flags into an aligned address is an addition. *)
Lemma lor_add a b n : a mod 2 ^ n = 0 → 0 ≤ b < 2 ^ n → Z.lor a b = a + b.
Proof.
  intros Ha Hb. symmetry. apply Z.add_nocarry_lor. apply Z.bits_inj'. intros i _.
  rewrite Z.land_spec, Z.bits_0. destruct (decide (i < n)).
  - by rewrite (testbit_mod_0 a n).
  - rewrite (testbit_small b n) by lia. apply andb_false_r.
Qed.

(** Masking the low [n] bits of a [w]-bit value away rounds it down. *)
Lemma round_down_ldiff a n : 0 ≤ n → a - a mod 2 ^ n = Z.ldiff a (Z.ones n).
Proof.
  intros Hn. rewrite Z.ldiff_ones_r, Z.shiftl_mul_pow2, Z.shiftr_div_pow2 by lia.
  pose proof (Z.div_mod a (2 ^ n)). lia.
Qed.

Lemma land_clear a n w :
  0 ≤ n ≤ w → 0 ≤ a < 2 ^ w → Z.land a (2 ^ w - 2 ^ n) = a - a mod 2 ^ n.
Proof.
  intros Hn Ha. rewrite round_down_ldiff by lia.
  replace (2 ^ w - 2 ^ n) with (Z.shiftl (Z.ones (w - n)) n).
  2:{ rewrite Z.shiftl_mul_pow2, Z.ones_equiv by lia.
      replace (2 ^ w) with (2 ^ (w - n) * 2 ^ n); [lia|].
      rewrite <- Z.pow_add_r by lia. f_equal. lia. }
  apply Z.bits_inj'. intros i Hi.
  rewrite Z.land_spec, Z.ldiff_spec, Z.shiftl_spec by lia.
  destruct (decide (w ≤ i)).
  { by rewrite (testbit_small a w) by lia. }
  f_equal. destruct (decide (i < n)).
  - rewrite Z.testbit_neg_r, Z.ones_spec_low by lia. reflexivity.
  - rewrite Z.ones_spec_low, Z.ones_spec_high by lia. reflexivity.
Qed.

Lemma div_add_aligned a b n :
  0 < n → a mod n = 0 → 0 ≤ b < n → (a + b) / n = a / n.
Proof.
  intros Hn Ha Hb. rewrite (Z.div_mod a n) at 1 by lia.
  rewrite Ha, Z.add_0_r, Z.mul_comm, Z.div_add_l, (Z.div_small b) by lia. lia.
Qed.

Lemma mod_add_aligned a b n :
  0 < n → a mod n = 0 → 0 ≤ b < n → (a + b) mod n = b.
Proof.
  intros Hn Ha Hb. rewrite Z.add_mod, Ha, Z.add_0_l, Z.mod_mod by lia.
  apply Z.mod_small. lia.
Qed.

(** Single-bit tests, as C writes them ([x & FLAG]). *)
Definition has (flag x : Z) : bool := c_true (Z.land x flag).

Lemma has_pow2 x k : 0 ≤ k → has (2 ^ k) x = Z.testbit x k.
Proof.
  intros Hk. unfold has, c_true.
  assert (Z.land x (2 ^ k) = if Z.testbit x k then 2 ^ k else 0) as ->.
  - apply Z.bits_inj'. intros i Hi. rewrite Z.land_spec.
    destruct (decide (i = k)) as [->|].
    + rewrite Z.pow2_bits_true, andb_true_r by lia.
      destruct (Z.testbit x k); [by rewrite Z.pow2_bits_true by lia|by rewrite Z.bits_0].
    + rewrite Z.pow2_bits_false, andb_false_r by lia.
      destruct (Z.testbit x k); [by rewrite Z.pow2_bits_false by lia|].
      by rewrite Z.bits_0.
  - destruct (Z.testbit x k); [|done].
    destruct (Z.eqb_spec (2 ^ k) 0) as [E|]; [|done].
    pose proof (Z.pow_pos_nonneg 2 k). lia.
Qed.

(** ** Lists *)
Fixpoint iota (a : Z) (n : nat) : list Z :=
  match n with O => [] | S n => a :: iota (a + 1) n end.

Lemma elem_of_iota a n x : x ∈ iota a n ↔ a ≤ x < a + Z.of_nat n.
Proof.
  revert a. induction n as [|n IH]; intros a; cbn [iota].
  - split; [by intros ?%elem_of_nil|lia].
  - rewrite elem_of_cons, IH. lia.
Qed.

Lemma length_iota a n : length (iota a n) = n.
Proof. revert a. induction n; intros; cbn; auto. Qed.

Lemma lookup_iota a n i : (i < n)%nat → iota a n !! i = Some (a + Z.of_nat i).
Proof.
  revert a i. induction n as [|n IH]; intros a i Hi; [lia|].
  destruct i as [|i]; cbn.
  - f_equal. lia.
  - rewrite IH by lia. f_equal. lia.
Qed.

(** Arrays indexed by a C integer; out of range is [None] on reading. *)
Definition zget {A} (l : list A) (i : Z) : option A :=
  if decide (0 ≤ i) then l !! Z.to_nat i else None.
Definition zset {A} (l : list A) (i : Z) (x : A) : list A :=
  if decide (0 ≤ i) then <[Z.to_nat i := x]> l else l.

Section zarray.
Context {A : Type}.
Implicit Types (l : list A) (i j : Z) (x : A).

Lemma length_zset l i x : length (zset l i x) = length l.
Proof. unfold zset. case_decide; [apply length_insert|done]. Qed.

Lemma zget_some l i x : zget l i = Some x → 0 ≤ i < Z.of_nat (length l).
Proof. unfold zget. case_decide; [|done]. intros ?%lookup_lt_Some. lia. Qed.

Lemma zget_is_some l i : 0 ≤ i < Z.of_nat (length l) → ∃ x, zget l i = Some x.
Proof.
intros. unfold zget. rewrite decide_True by lia.
destruct (lookup_lt_is_Some_2 l (Z.to_nat i)) as [x ?]; [lia|eauto].
Qed.

Lemma zget_zset_eq l i x :
0 ≤ i < Z.of_nat (length l) → zget (zset l i x) i = Some x.
Proof.
intros. unfold zget, zset. rewrite !decide_True by lia.
apply list_lookup_insert_eq. lia.
Qed.

Lemma zget_zset_ne l i j x : i ≠ j → zget (zset l i x) j = zget l j.
Proof.
intros. unfold zget, zset. repeat case_decide; try done.
apply list_lookup_insert_ne. lia.
Qed.

Lemma zget_zset l i j x :
0 ≤ i < Z.of_nat (length l) →
zget (zset l i x) j = if decide (i = j) then Some x else zget l j.
Proof.
intros. case_decide as E; [subst; by apply zget_zset_eq|by apply zget_zset_ne].
Qed.
End zarray.

#[export] Hint Rewrite @length_zset : mach.

(** ** Automation *)
Ltac dmatch :=
  match goal with
  | |- context [match ?x with _ => _ end] => destruct x eqn:?
  | H : context [match ?x with _ => _ end] |- _ => destruct x eqn:?
  end.

Lemma c_true_nz z : z ≠ 0 → c_true z = true.
Proof. intros. unfold c_true. by destruct (Z.eqb_spec z 0). Qed.

#[export] Hint Rewrite c_true_nz using lia : mach.

(** Split on every [decide], closing the impossible cases by arithmetic. *)
Ltac solve_decide := repeat (case_decide; try (exfalso; lia)).

(** Turn boolean comparisons in the context into propositions. *)
Ltac zify_bool :=
  repeat match goal with
  | H : (_ <? _) = true |- _ => apply Z.ltb_lt in H
  | H : (_ <? _) = false |- _ => apply Z.ltb_ge in H
  | H : (_ <=? _) = true |- _ => apply Z.leb_le in H
  | H : (_ <=? _) = false |- _ => apply Z.leb_gt in H
  | H : (_ =? _) = true |- _ => apply Z.eqb_eq in H
  | H : (_ =? _) = false |- _ => apply Z.eqb_neq in H
  | H : negb _ = true |- _ => apply negb_true_iff in H
  | H : negb _ = false |- _ => apply negb_false_iff in H
  | H : (_ && _)%bool = true |- _ => apply andb_true_iff in H as [? ?]
  | H : (_ || _)%bool = false |- _ => apply orb_false_iff in H as [? ?]
  end.
