(* ===== verification/CText.v ===== *)
(** * Numbers as text in the C library

    The conversions the programs of the course use: [isspace], [isdigit], [atoi]
    on strings without their NUL, and the decimal text of an [int] as [printf]
    and C++ streams write it, with the proof that [atoi] reads it back; and the
    lines that [fgets] takes from a stream. *)
From stdpp Require Import base tactics numbers list option.
From Stdlib Require Import ZArith Lia.
From S2P Require Import Prelude.

Abbreviation bytes := (list Z).

Definition isspace (c : Z) : bool := (c =? 32) || (9 <=? c) && (c <=? 13).
Definition isdigit (c : Z) : bool := (48 <=? c) && (c <=? 57).
(** atoi: undefined when the number is not an int. *)
Fixpoint digits_value (acc : Z) (l : bytes) : Z :=
  match l with
  | [] => acc
  | c :: l => if isdigit c then digits_value (10 * acc + (c - 48)) l else acc
  end.

Fixpoint skip_space (l : bytes) : bytes :=
  match l with [] => [] | c :: l' => if isspace c then skip_space l' else l end.

Definition atoi (l : bytes) : res Z :=
  let v := match skip_space l with
           | c :: l => if c =? 45 then - digits_value 0 l
                       else if c =? 43 then digits_value 0 l else digits_value 0 (c :: l)
           | [] => 0
           end in
  if decide (- 2 ^ 31 ≤ v < 2 ^ 31) then Ok v else Err UB.

Fixpoint show_digits (fuel : nat) (n : Z) : bytes :=
  match fuel with
  | O => []
  | S fuel => if n <? 10 then [48 + n] else show_digits fuel (n / 10) ++ [48 + n mod 10]
  end.
Definition show_int (z : Z) : bytes :=
  if z <? 0 then 45 :: show_digits 10 (- z) else show_digits 10 z.

(** The values of an [int]. *)
Definition int_ok (z : Z) : Prop := - 2 ^ 31 ≤ z < 2 ^ 31.

Lemma digits_value_app acc l d :
  forallb isdigit l = true → isdigit d = true →
  digits_value acc (l ++ [d]) = 10 * digits_value acc l + (d - 48).
Proof.
  revert acc. induction l as [|c l IH]; intros acc; cbn; [by intros _ ->|].
  intros [Hc Hl]%andb_true_iff Hd. rewrite Hc. by apply IH.
Qed.

Lemma show_digits_spec fuel n :
  0 ≤ n < 10 ^ Z.of_nat fuel → (0 < fuel)%nat →
  forallb isdigit (show_digits fuel n) = true ∧ digits_value 0 (show_digits fuel n) = n ∧
  show_digits fuel n ≠ [] ∧ (length (show_digits fuel n) ≤ fuel)%nat.
Proof.
  revert n. induction fuel as [|fuel IH]; intros n Hn Hf; [lia|]. cbn [show_digits].
  assert (∀ d, 0 ≤ d < 10 → isdigit (48 + d) = true) as Hdig by (intros d Hd; unfold isdigit; lia).
  destruct (Z.ltb_spec n 10).
  - cbn. rewrite (Hdig n) by lia. cbn. split_and!; [done|lia|done|lia].
  - rewrite Nat2Z.inj_succ, Z.pow_succ_r in Hn by lia.
    assert (0 < fuel)%nat by (destruct fuel; [cbn in Hn; lia|lia]).
    pose proof (Z.div_mod n 10). pose proof (Z.mod_pos_bound n 10).
    destruct (IH (n / 10)) as (F1 & F2 & F3 & F4); [|done|].
    { split; [apply Z.div_pos; lia|]. apply Z.div_lt_upper_bound; lia. }
    rewrite forallb_app, digits_value_app, F1, F2, length_app by (done || apply Hdig; lia).
    cbn. rewrite (Hdig (n mod 10)) by lia. split_and!; [done|lia| |lia].
    intros E. apply app_eq_nil in E as [_ E]. done.
Qed.

Lemma isdigit_not_space c : isdigit c = true → isspace c = false ∧ c ≠ 0 ∧ c ≠ 10 ∧ c ≠ 34.
Proof. unfold isdigit, isspace. lia. Qed.

(** The digits of an int as a value. *)
Lemma show_int_chars z c : int_ok z → c ∈ show_int z → isspace c = false ∧ c ≠ 0 ∧ c ≠ 10 ∧ c ≠ 34.
Proof.
  unfold int_ok, show_int. intros Hz Hc.
  assert (c = 45 ∨ isdigit c = true) as [->|Hd]; [|done|by apply isdigit_not_space].
  assert (∀ n, 0 ≤ n ≤ 2 ^ 31 → c ∈ show_digits 10 n → isdigit c = true) as H.
  { intros n Hn Hin. destruct (show_digits_spec 10 n) as (Hf & _); [lia|lia|].
    rewrite forallb_forall in Hf. by apply Hf, list_elem_of_In. }
  destruct (Z.ltb_spec z 0).
  - apply elem_of_cons in Hc as [->|Hc]; [by left|right]. apply (H (- z)); [lia|done].
  - right. apply (H z); [lia|done].
Qed.

Lemma show_int_nonempty z : int_ok z → show_int z ≠ [].
Proof.
  unfold int_ok, show_int. intros Hz. destruct (Z.ltb_spec z 0); [done|].
  by apply (show_digits_spec 10 z); lia.
Qed.

Lemma atoi_show z : int_ok z → atoi (show_int z) = Ok z.
Proof.
  intros Hz. unfold atoi.
  assert (skip_space (show_int z) = show_int z) as ->.
  { pose proof (show_int_chars z) as Hc. destruct (show_int z) as [|c l]; [done|]. cbn.
    destruct (Hc c Hz) as [-> _]; [left|done]. }
  unfold int_ok, show_int in *. destruct (Z.ltb_spec z 0).
  - cbn -[show_digits digits_value Z.pow]. destruct (show_digits_spec 10 (- z)) as (_ & -> & _); [lia|lia|]. rewrite decide_True by lia. f_equal. lia.
  - destruct (show_digits_spec 10 z) as (Hd & Hv & Hne & _); [lia|lia|].
    destruct (show_digits 10 z) as [|c l]; [done|]. cbn [forallb] in Hd. apply andb_true_iff in Hd as [Hd _].
    unfold isdigit in Hd. destruct (Z.eqb_spec c 45); [lia|]. destruct (Z.eqb_spec c 43); [lia|].
    rewrite Hv, decide_True by lia. done.
Qed.

(** ** Lines and strings *)

Definition NEWLINE : Z := 10.

(** The bytes [fgets] takes from the stream: at most [n], up to a newline. *)
Fixpoint take_line (n : nat) (stream : bytes) : bytes * bytes :=
  match n, stream with
  | O, _ => ([], stream)
  | S n, [] => ([], [])
  | S n, c :: stream =>
      if c =? NEWLINE then ([c], stream)
      else let '(l, rest) := take_line n stream in (c :: l, rest)
  end.

(** The text before the first [c]: with 0, the string a C function sees in a
    buffer. *)
Fixpoint upto (c : Z) (l : bytes) : bytes :=
  match l with [] => [] | x :: l => if x =? c then [] else x :: upto c l end.

Lemma take_line_spec n s :
  let '(l, rest) := take_line n s in
  s = l ++ rest ∧ (length l ≤ n)%nat ∧ (s ≠ [] → (0 < n)%nat → (length rest < length s)%nat).
Proof.
  revert s. induction n as [|n IH]; intros [|c s]; cbn [take_line]; [by split_and!; try (cbn; lia)..|].
  destruct (c =? NEWLINE); [by split_and!; cbn; try lia|].
  specialize (IH s). destruct (take_line n s) as [l rest]. destruct IH as (-> & ? & _).
  split_and!; [done|cbn; lia|]. intros _ _. cbn. rewrite length_app. lia.
Qed.

Lemma upto_none c l : c ∉ l → upto c l = l.
Proof.
  induction l as [|x l IH]; cbn; [done|]. intros [? ?]%not_elem_of_cons.
  destruct (Z.eqb_spec x c); [congruence|]. by rewrite IH.
Qed.

Lemma upto_app c l l' : c ∉ l → upto c (l ++ c :: l') = l.
Proof.
  induction l as [|x l IH]; cbn; [by rewrite Z.eqb_refl|]. intros [? ?]%not_elem_of_cons.
  destruct (Z.eqb_spec x c); [congruence|]. by rewrite IH.
Qed.

Lemma length_upto c l : (length (upto c l) ≤ length l)%nat.
Proof. induction l as [|x l IH]; cbn; [done|]. destruct (x =? c); cbn; lia. Qed.

