(* ===== verification/Mem.v ===== *)
(** * Byte-addressed memory

    Memory as the C code sees it: a map from addresses to bytes, read as 0
    where nothing was stored.  Multi-byte objects are little-endian, as on
    x86-64.  Two memories that answer every read alike are [mem_eq], which is
    coarser than equality of the maps. *)
From stdpp Require Import base tactics numbers list gmap.
From Stdlib Require Import ZArith Lia.
From S2P Require Import Prelude.


Abbreviation mem := (gmap Z Z).

Definition rd (m : mem) (a : Z) : Z := u8 (default 0 (m !! a)).
Definition wr (m : mem) (a v : Z) : mem := <[a := u8 v]> m.

#[global] Arguments rd : simpl never.
#[global] Arguments wr : simpl never.

(** [n]-byte little-endian loads and stores. *)
Fixpoint ldn (n : nat) (m : mem) (a : Z) : Z :=
  match n with
  | O => 0
  | S n => rd m a + 256 * ldn n m (a + 1)
  end.

Fixpoint stn (n : nat) (m : mem) (a v : Z) : mem :=
  match n with
  | O => m
  | S n => stn n (wr m a v) (a + 1) (v / 256)
  end.

Abbreviation ld16 := (ldn 2).
Abbreviation ld32 := (ldn 4).
Abbreviation ld64 := (ldn 8).
Abbreviation st64 := (stn 8).

Definition mem_eq (m m' : mem) : Prop := ∀ a, rd m a = rd m' a.

(** The bytes of [l] lie at [a]. *)
Definition bytes_at (m : mem) (a : Z) (l : list Z) : Prop :=
  ∀ i v, l !! i = Some v → rd m (a + Z.of_nat i) = v.

(** Storing a list of bytes. *)
Fixpoint wr_list (m : mem) (a : Z) (l : list Z) : mem :=
  match l with [] => m | v :: l => wr_list (wr m a v) (a + 1) l end.

(** Reading back a C string of at most [n] characters. *)
Fixpoint read_cstr (n : nat) (m : mem) (a : Z) : list Z :=
  match n with
  | O => []
  | S n => if rd m a =? 0 then [] else rd m a :: read_cstr n m (a + 1)
  end.

Section mem.
Implicit Types (m : mem) (a b v : Z) (n k : nat).

#[export] Instance mem_eq_equiv : Equivalence mem_eq.
Proof.
split; unfold mem_eq; intros m; intros; [done|done|etrans; eauto].
Qed.

#[export] Instance rd_proper : Proper (mem_eq ==> eq ==> eq) rd.
Proof. intros m m' H a ? <-. apply H. Qed.

Lemma rd_range m a : 0 ≤ rd m a < 256.
Proof. apply (wrapU_range 8). lia. Qed.

Lemma rd_wr m a b v : rd (wr m a v) b = if decide (a = b) then u8 v else rd m b.
Proof.
unfold rd, wr. rewrite lookup_insert. case_decide; cbn; [|done].
unfold wrapU. by rewrite Z.mod_mod.
Qed.

Lemma wr_u8 m a v : wr m a (u8 v) = wr m a v.
Proof. unfold wr, wrapU. by rewrite Z.mod_mod. Qed.

Lemma rd_wr_eq m a v : rd (wr m a v) a = u8 v.
Proof. rewrite rd_wr. by rewrite decide_True. Qed.

Lemma rd_wr_ne m a b v : a ≠ b → rd (wr m a v) b = rd m b.
Proof. intros. rewrite rd_wr. by rewrite decide_False. Qed.

#[export] Instance wr_proper : Proper (mem_eq ==> eq ==> eq ==> mem_eq) wr.
Proof.
intros m m' H a ? <- v ? <- b. rewrite !rd_wr. case_decide; [done|apply H].
Qed.

Lemma ldn_ext n m m' a :
(∀ b, a ≤ b < a + Z.of_nat n → rd m b = rd m' b) → ldn n m a = ldn n m' a.
Proof.
revert a. induction n as [|n IH]; intros a H; cbn [ldn]; [done|].
rewrite H by lia. f_equal. f_equal. apply IH. intros. apply H. lia.
Qed.

#[export] Instance ldn_proper n : Proper (mem_eq ==> eq ==> eq) (ldn n).
Proof. intros m m' H a ? <-. apply ldn_ext. intros. apply H. Qed.

Lemma ldn_shift n m m' a b :
(∀ i, 0 ≤ i < Z.of_nat n → rd m (a + i) = rd m' (b + i)) → ldn n m a = ldn n m' b.
Proof.
revert a b. induction n as [|n IH]; intros a b H; cbn [ldn]; [done|].
pose proof (H 0) as H0. rewrite !Z.add_0_r in H0. rewrite H0 by lia. f_equal. f_equal.
apply IH. intros i Hi. rewrite <- !Z.add_assoc. apply H. lia.
Qed.

Lemma ldn_range n m a : 0 ≤ ldn n m a < 2 ^ (8 * Z.of_nat n).
Proof.
revert a. induction n as [|n IH]; intros a; cbn [ldn]; [lia|].
specialize (IH (a + 1)). pose proof (rd_range m a).
replace (8 * Z.of_nat (S n)) with (8 + 8 * Z.of_nat n) by lia.
rewrite Z.pow_add_r by lia. lia.
Qed.

Lemma rd_stn_out n m a b v :
¬ (a ≤ b < a + Z.of_nat n) → rd (stn n m a v) b = rd m b.
Proof.
revert m a v. induction n as [|n IH]; intros m a v H; cbn [stn]; [done|].
rewrite IH by lia. apply rd_wr_ne. lia.
Qed.

Lemma ldn_stn_out n k m a b v :
(b + Z.of_nat k ≤ a ∨ a + Z.of_nat n ≤ b) → ldn k (stn n m a v) b = ldn k m b.
Proof. intros H. apply ldn_ext. intros c Hc. apply rd_stn_out. lia. Qed.

Lemma ldn_stn n m a v :
0 ≤ v < 2 ^ (8 * Z.of_nat n) → ldn n (stn n m a v) a = v.
Proof.
revert m a v. induction n as [|n IH]; intros m a v Hv; cbn [stn ldn].
- change (2 ^ (8 * Z.of_nat 0)) with 1 in Hv. lia.
- replace (8 * Z.of_nat (S n)) with (8 + 8 * Z.of_nat n) in Hv by lia.
  rewrite Z.pow_add_r in Hv by lia. change (2 ^ 8) with 256 in Hv.
  rewrite IH.
  + rewrite rd_stn_out, rd_wr_eq by lia.
    unfold wrapU. change (2 ^ 8) with 256. pose proof (Z.div_mod v 256). lia.
  + split; [apply Z.div_pos; lia|]. apply Z.div_lt_upper_bound; lia.
Qed.

(** Byte [a] of an object copied from [m'] at [b]. *)
Lemma rd_stn_ldn n m m' a b c :
b ≤ c < b + Z.of_nat n → rd (stn n m b (ldn n m' a)) c = rd m' (a + (c - b)).
Proof.
revert m a b. induction n as [|n IH]; intros m a b Hc; cbn [stn ldn]; [lia|].
pose proof (rd_range m' a). pose proof (ldn_range n m' (a + 1)).
replace (rd m' a + 256 * ldn n m' (a + 1)) with (ldn n m' (a + 1) * 256 + rd m' a) by lia.
rewrite Z.div_add_l, (Z.div_small (rd m' a)), Z.add_0_r by lia.
destruct (decide (c = b)) as [->|].
- rewrite rd_stn_out, rd_wr_eq, Z.sub_diag, Z.add_0_r by lia. unfold wrapU.
  change (2 ^ 8) with 256. rewrite Z.add_comm, Z.mod_add, Z.mod_small by lia. done.
- rewrite IH by lia. f_equal. lia.
Qed.

Lemma rd_wr_list m a l b :
rd (wr_list m a l) b =
  if decide (a ≤ b < a + Z.of_nat (length l))
  then u8 (default 0 (l !! Z.to_nat (b - a))) else rd m b.
Proof.
revert m a. induction l as [|v l IH]; intros m a; cbn [wr_list length].
- rewrite decide_False by lia. done.
- rewrite IH, rd_wr by done. solve_decide.
  + replace (Z.to_nat (b - a)) with (S (Z.to_nat (b - (a + 1)))) by lia. done.
  + subst. by rewrite Z.sub_diag.
  + done.
Qed.
End mem.

#[export] Hint Rewrite rd_wr_eq : mach.
