(* ===== verification/Blocks.v ===== *)
(** * Memory with its live blocks

    The heap of a program whose accesses are checked: the contents of memory, and
    the size of each allocated block.  An access outside a live block is
    undefined. *)
From stdpp Require Import base tactics numbers list gmap.
From Stdlib Require Import ZArith Lia.
From S2P Require Import Prelude CText Mem.

Record heap := Heap { cells : mem; live : gmap Z Z }.

(** An access at an offset in a block. *)
Definition in_block (h : heap) (p off n : Z) : bool :=
  match live h !! p with Some sz => (0 <=? off) && (off + n <=? sz) | None => false end.
Definition load (n : nat) (h : heap) (p off : Z) : res Z :=
  if in_block h p off (Z.of_nat n) then Ok (ldn n (cells h) (p + off)) else Err UB.
Definition store (n : nat) (h : heap) (p off v : Z) : res heap :=
  if in_block h p off (Z.of_nat n) then Ok (Heap (stn n (cells h) (p + off) v) (live h)) else Err UB.

(** An access at an address, in whatever block. *)
Definition accessible (h : heap) (a n : Z) : bool :=
  existsb (λ '(p, sz), (p <=? a) && (a + n <=? p + sz)) (map_to_list (live h)).
Definition store_at (n : nat) (h : heap) (a v : Z) : res heap :=
  if accessible h a (Z.of_nat n) then Ok (Heap (stn n (cells h) a v) (live h)) else Err UB.

(** The bytes of a block. *)
Definition block_bytes (m : mem) (p : Z) (n : nat) : bytes := (λ i, rd m (p + i)) <$> iota 0 n.
Definition memcmp_eq (h : heap) (p : Z) (l : bytes) : res bool :=
  if in_block h p 0 (Z.of_nat (length l)) then Ok (bool_decide (block_bytes (cells h) p (length l) = l)) else Err UB.
Definition memcmp_at (h : heap) (a : Z) (l : bytes) : res bool :=
  if accessible h a (Z.of_nat (length l)) then Ok (bool_decide (block_bytes (cells h) a (length l) = l)) else Err UB.

(** What the C library's allocator does: [ptr] is what it returns, NULL or a new
    block. *)
Definition allocate (ptr sz : Z) (h : heap) : heap :=
  if ptr =? 0 then h else Heap (cells h) (<[ptr := sz]> (live h)).

Lemma accessible_block h p sz a n :
  live h !! p = Some sz → p ≤ a → a + n ≤ p + sz → accessible h a n = true.
Proof.
  intros E H1 H2. unfold accessible. apply existsb_exists. exists (p, sz). split.
  - by apply list_elem_of_In, elem_of_map_to_list.
  - apply andb_true_intro. split; apply Z.leb_le; lia.
Qed.

Lemma accessible_null h n :
  (∀ p sz, live h !! p = Some sz → 0 < p) → accessible h 0 n = false.
Proof.
  intros Hp. unfold accessible. apply not_true_is_false. intros ([p sz] & Hin & E)%existsb_exists.
  apply list_elem_of_In, elem_of_map_to_list, Hp in Hin.
  apply andb_prop in E as [E%Z.leb_le _]. lia.
Qed.
