(* ===== verification/LibStr.v ===== *)
(** * The C library subset of WeensyOS: memory, strings, random numbers

    Models src/modules/m3/lib.c lines 9-103.  Each function is the loop of the
    source over the byte memory of Mem.v; pointers are [Z] addresses and a
    region is assumed not to wrap around the address space (C leaves pointer
    overflow undefined).  A string loop, which the source bounds only by the
    NUL byte, takes fuel; the specifications show that the length of the
    string plus one is enough. *)
From stdpp Require Import base tactics numbers list gmap.
From Stdlib Require Import ZArith Lia.
From S2P Require Import Prelude Mem.

(** ** Definitions *)

(** @src modules/m3/lib.c 14-16 memcpy
    The loop of [memcpy]; also the forward branch of [memmove]. *)
Fixpoint copy_up (n : nat) (m : mem) (d s : Z) : mem :=
  match n with
  | O => m
  | S n => copy_up n (wr m d (rd m s)) (d + 1) (s + 1)
  end.

(** @src modules/m3/lib.c 12-18 memcpy *)
Definition memcpy (m : mem) (dst src n : Z) : mem * Z :=
  (copy_up (Z.to_nat n) m dst src, dst).

(** @src modules/m3/lib.c 23-27 memmove
    The backward branch: [*--d = *--s]. *)
Fixpoint copy_down (n : nat) (m : mem) (d s : Z) : mem :=
  match n with
  | O => m
  | S n => copy_down n (wr m (d - 1) (rd m (s - 1))) (d - 1) (s - 1)
  end.

(** @src modules/m3/lib.c 20-34 memmove *)
Definition memmove (m : mem) (dst src n : Z) : mem * Z :=
  if (src <? dst) && (src + n >? dst) then
    (copy_down (Z.to_nat n) m (dst + n) (src + n), dst)
  else (copy_up (Z.to_nat n) m dst src, dst).

(** @src modules/m3/lib.c 37-39 memset *)
Fixpoint set_up (n : nat) (m : mem) (p c : Z) : mem :=
  match n with
  | O => m
  | S n => set_up n (wr m p c) (p + 1) c
  end.

(** @src modules/m3/lib.c 36-41 memset *)
Definition memset (m : mem) (v c n : Z) : mem * Z :=
  (set_up (Z.to_nat n) m v c, v).

(** @src modules/m3/lib.c 44-47 strlen *)
Fixpoint strlen_loop (fuel : nat) (m : mem) (s n : Z) : res Z :=
  match fuel with
  | O => Err NoFuel
  | S fuel =>
      if c_true (rd m s) then strlen_loop fuel m (s + 1) (u64 (n + 1)) else Ok n
  end.

(** @src modules/m3/lib.c 43-49 strlen *)
Definition strlen (fuel : nat) (m : mem) (s : Z) : res Z := strlen_loop fuel m s 0.

(** @src modules/m3/lib.c 52-55 strnlen
    [k] counts the iterations left until [n] reaches [maxlen]. *)
Fixpoint strnlen_loop (k : nat) (m : mem) (s n : Z) : Z :=
  match k with
  | O => n
  | S k => if c_true (rd m s) then strnlen_loop k m (s + 1) (n + 1) else n
  end.

(** @src modules/m3/lib.c 51-57 strnlen *)
Definition strnlen (m : mem) (s maxlen : Z) : Z := strnlen_loop (Z.to_nat maxlen) m s 0.

(** @src modules/m3/lib.c 60-63 strcpy *)
Fixpoint strcpy_loop (fuel : nat) (m : mem) (d s : Z) : res mem :=
  match fuel with
  | O => Err NoFuel
  | S fuel =>
      let c := rd m s in
      let m' := wr m d c in
      if c_true (rd m' d) then strcpy_loop fuel m' (d + 1) (s + 1) else Ok m'
  end.

(** @src modules/m3/lib.c 59-65 strcpy *)
Definition strcpy (fuel : nat) (m : mem) (dst src : Z) : res (mem * Z) :=
  m' ← strcpy_loop fuel m dst src; Ok (m', dst).

(** @src modules/m3/lib.c 67-73 strcmp *)
Fixpoint strcmp (fuel : nat) (m : mem) (a b : Z) : res Z :=
  match fuel with
  | O => Err NoFuel
  | S fuel =>
      let ca := rd m a in let cb := rd m b in
      if c_true ca && c_true cb && (ca =? cb) then strcmp fuel m (a + 1) (b + 1)
      else Ok (c_bool (ca >? cb) - c_bool (ca <? cb))
  end.

(** @src modules/m3/lib.c 75-78 strchr
    The pointer at which the scan of [strchr] stops. *)
Fixpoint strchr_scan (fuel : nat) (m : mem) (s c : Z) : res Z :=
  match fuel with
  | O => Err NoFuel
  | S fuel =>
      if c_true (rd m s) && negb (rd m s =? u8 c) then strchr_scan fuel m (s + 1) c
      else Ok s
  end.

(** @src modules/m3/lib.c 75-84 strchr
    NULL is 0. *)
Definition strchr (fuel : nat) (m : mem) (s c : Z) : res Z :=
  p ← strchr_scan fuel m s c;
  Ok (if rd m p =? u8 c then p else 0).

(** @src modules/m3/lib.c 89-90 rand_seed
    The static state of the generator. *)
Record rand_state := RandState { rand_seed_set : bool; rand_seed : Z }.

(** @src modules/m3/lib.c 100-103 srand *)
Definition srand (seed : Z) : rand_state := RandState true (u32 seed).

(** @src modules/m3/lib.h 50-50 RAND_MAX *)
Definition RAND_MAX : Z := 0x7FFFFFFF.

(** @src modules/m3/lib.c 92-98 rand *)
Definition rand (st : rand_state) : rand_state * Z :=
  let st := if rand_seed_set st then st else srand 819234718 in
  let seed := u32 (rand_seed st * 1664525 + 1013904223) in
  (RandState (rand_seed_set st) seed, Z.land seed RAND_MAX).

(** ** Specifications *)

(** A NUL-terminated string whose characters are [l]. *)
Definition cstr (m : mem) (s : Z) (l : list Z) : Prop :=
  (∀ i v, l !! i = Some v → rd m (s + Z.of_nat i) = v ∧ v ≠ 0) ∧
  rd m (s + Z.of_nat (length l)) = 0.

(** What a copy of [n] bytes promises: the destination holds the bytes the
    source had before the call, and nothing else changed. *)
Definition copied (m m' : mem) (dst src n : Z) : Prop :=
  ∀ b, rd m' b = if decide (dst ≤ b < dst + n) then rd m (src + (b - dst)) else rd m b.

(** Three-way lexicographic comparison, as -1, 0 or 1. *)
Fixpoint lex (a b : list Z) : Z :=
  match a, b with
  | [], [] => 0
  | [], _ :: _ => -1
  | _ :: _, [] => 1
  | x :: a, y :: b => if x =? y then lex a b else if x <? y then -1 else 1
  end.

(** ** Lemmas *)

Lemma copy_up_spec n m d s :
  ¬ (s < d < s + Z.of_nat n) → copied m (copy_up n m d s) d s (Z.of_nat n).
Proof.
  revert m d s. induction n as [|n IH]; intros m d s H b; cbn [copy_up].
  { by rewrite decide_False by lia. }
  rewrite IH, !rd_wr by lia. solve_decide.
  - f_equal. lia.
  - subst. rewrite Z.sub_diag, Z.add_0_r. apply wrapU_small, rd_range.
  - done.
Qed.

Lemma copy_down_spec n m d s :
  s ≤ d → copied m (copy_down n m d s) (d - Z.of_nat n) (s - Z.of_nat n) (Z.of_nat n).
Proof.
  revert m d s. induction n as [|n IH]; intros m d s H b; cbn [copy_down].
  { by rewrite decide_False by lia. }
  rewrite IH, !rd_wr by lia. solve_decide; try done.
  - f_equal. lia.
  - subst. replace (s - Z.of_nat (S n) + _) with (s - 1) by lia.
    apply wrapU_small, rd_range.
Qed.

Lemma set_up_spec n m p c b :
  rd (set_up n m p c) b = if decide (p ≤ b < p + Z.of_nat n) then u8 c else rd m b.
Proof.
  revert m p. induction n as [|n IH]; intros m p; cbn [set_up].
  { by rewrite decide_False by lia. }
  rewrite IH, rd_wr. by solve_decide.
Qed.

Lemma cstr_nil m s : cstr m s [] ↔ rd m s = 0.
Proof.
  unfold cstr. cbn. rewrite Z.add_0_r. split; [by intros [_ ?]|].
  intros ?. split; [|done]. intros i v. by rewrite lookup_nil.
Qed.

Lemma cstr_cons m s x l : cstr m s (x :: l) ↔ rd m s = x ∧ x ≠ 0 ∧ cstr m (s + 1) l.
Proof.
  unfold cstr. cbn [length]. split.
  - intros [H H0]. destruct (H 0%nat x) as [Hx ?]; [done|].
    rewrite Z.add_0_r in Hx. split_and!; [done|done| |].
    + intros i v Hi. destruct (H (S i) v Hi) as [<- ?]. split; [|done].
      f_equal. lia.
    + rewrite <- H0. f_equal. lia.
  - intros (Hx & ? & H & H0). split.
    + intros [|i] v; cbn; [intros [= <-]; by rewrite Z.add_0_r|].
      intros Hi. destruct (H i v Hi) as [<- ?]. split; [|done]. f_equal. lia.
    + rewrite <- H0. f_equal. lia.
Qed.

Lemma strlen_loop_spec fuel m s l n :
  cstr m s l → (length l < fuel)%nat → 0 ≤ n → n + Z.of_nat (length l) < 2 ^ 64 →
  strlen_loop fuel m s n = Ok (n + Z.of_nat (length l)).
Proof.
  revert fuel s n. induction l as [|x l IH]; intros [|fuel] s n; cbn [length strlen_loop];
    try lia; intros Hl ???.
  - apply cstr_nil in Hl as ->. cbn. by rewrite Z.add_0_r.
  - apply cstr_cons in Hl as (-> & ? & ?). rewrite c_true_nz, wrapU_small by lia.
    rewrite IH by (done || lia). f_equal. lia.
Qed.

Lemma strnlen_loop_spec k m s l n :
  cstr m s l → strnlen_loop k m s n = n + Z.of_nat (k `min` length l).
Proof.
  revert k s n. induction l as [|x l IH]; intros [|k] s n Hl; cbn [strnlen_loop];
    try (cbn; lia).
  - apply cstr_nil in Hl as ->. cbn. lia.
  - apply cstr_cons in Hl as (-> & ? & ?). rewrite c_true_nz, IH by done. cbn. lia.
Qed.

Lemma strcpy_loop_spec l fuel m d s :
  cstr m s l → (length l < fuel)%nat →
  (d + Z.of_nat (length l) < s ∨ s + Z.of_nat (length l) < d) →
  ∃ m', strcpy_loop fuel m d s = Ok m' ∧ copied m m' d s (Z.of_nat (length l) + 1).
Proof.
  revert fuel m d s. induction l as [|x l IH]; intros [|fuel] m d s;
    cbn [length strcpy_loop]; try lia; intros Hl ??.
  - apply cstr_nil in Hl. rewrite Hl, rd_wr_eq. cbn. eexists; split; [done|].
    intros b. rewrite rd_wr. solve_decide; subst; try done; try lia.
    replace (s + (b - b)) with s by lia. rewrite Hl. done.
  - apply cstr_cons in Hl as (Hx & ? & Hl).
    rewrite rd_wr_eq, (wrapU_small 8) by apply rd_range.
    rewrite Hx, c_true_nz by done.
    destruct (IH fuel (wr m d x) (d + 1) (s + 1)) as (m' & -> & Hm'); [|lia|lia|].
    + destruct Hl as [Hc Hz]. split.
      * intros i v Hi. rewrite rd_wr_ne by (apply lookup_lt_Some in Hi; lia). by apply Hc.
      * by rewrite rd_wr_ne by lia.
    + eexists; split; [done|]. intros b. rewrite Hm', !rd_wr. solve_decide; try done.
      * f_equal. lia.
      * subst b. replace (s + (d - d)) with s by lia. subst x.
        apply wrapU_small, rd_range.
Qed.

Lemma strchr_scan_spec l fuel m s c :
  cstr m s l → (length l < fuel)%nat →
  ∃ i, strchr_scan fuel m s c = Ok (s + Z.of_nat i) ∧ (i ≤ length l)%nat ∧
    (∀ j, (j < i)%nat → l !! j ≠ Some (u8 c)) ∧
    (rd m (s + Z.of_nat i) = u8 c ∨ i = length l).
Proof.
  revert fuel s. induction l as [|x l IH]; intros [|fuel] s;
    cbn [length strchr_scan]; try lia; intros Hl Hf.
  - apply cstr_nil in Hl. rewrite Hl. exists O. cbn.
    rewrite Z.add_0_r. split_and!; [done|lia|lia|by right].
  - apply cstr_cons in Hl as (Hx & ? & Hl). rewrite Hx, c_true_nz by done. cbn [andb].
    destruct (Z.eqb_spec x (u8 c)) as [E|E]; cbn [negb].
    + exists O. rewrite Z.add_0_r, Hx. split_and!; [done|lia|lia|by left].
    + destruct (IH fuel (s + 1) Hl) as (i & -> & Hi & Hj & Hc); [lia|].
      exists (S i). replace (s + Z.of_nat (S i)) with (s + 1 + Z.of_nat i) by lia.
      split_and!; [done|lia| |destruct Hc; [by left|right; lia]].
      intros [|j] ?; cbn; [congruence|]. apply Hj. lia.
Qed.

(** [lex] is a sound and complete test for equality and reverses with its arguments. *)
Lemma lex_eq a b : lex a b = 0 ↔ a = b.
Proof.
  revert b. induction a as [|x a IH]; intros [|y b]; cbn; try done.
  destruct (Z.eqb_spec x y) as [->|].
  - rewrite IH. split; [by intros ->|by intros [= ->]].
  - split; [destruct (x <? y); lia|by intros [= ? _]].
Qed.

Lemma lex_opp a b : lex b a = - lex a b.
Proof.
  revert b. induction a as [|x a IH]; intros [|y b]; cbn; try done.
  rewrite (Z.eqb_sym y x). destruct (Z.eqb_spec x y); [apply IH|].
  destruct (Z.ltb_spec x y), (Z.ltb_spec y x); lia.
Qed.

Lemma strcmp_lex la lb fuel m a b :
  cstr m a la → cstr m b lb → (length la < fuel)%nat → strcmp fuel m a b = Ok (lex la lb).
Proof.
  revert lb fuel a b. induction la as [|x la IH]; intros lb [|fuel] a b;
    cbn [length strcmp]; try lia; intros Ha Hb ?.
  - apply cstr_nil in Ha as ->. cbn. destruct lb as [|y lb].
    + apply cstr_nil in Hb as ->. done.
    + apply cstr_cons in Hb as (Hy & ? & _). pose proof (rd_range m b).
      rewrite Hy in *. cbn [lex]. f_equal. unfold c_bool.
      rewrite Z.gtb_ltb. by destruct (Z.ltb_spec y 0), (Z.ltb_spec 0 y); try lia.
  - apply cstr_cons in Ha as (Hx & ? & Ha). pose proof (rd_range m a).
    rewrite Hx in *. rewrite c_true_nz by done. cbn [andb]. destruct lb as [|y lb].
    + apply cstr_nil in Hb as ->. cbn. f_equal. unfold c_bool.
      rewrite Z.gtb_ltb. by destruct (Z.ltb_spec 0 x), (Z.ltb_spec x 0); try lia.
    + apply cstr_cons in Hb as (Hy & ? & Hb). rewrite Hy, c_true_nz by done.
      cbn [andb lex]. destruct (Z.eqb_spec x y); [apply IH; [done..|lia]|].
      f_equal. unfold c_bool. rewrite Z.gtb_ltb.
      by destruct (Z.ltb_spec x y), (Z.ltb_spec y x); try lia.
Qed.

Lemma memmove_copied m dst src n : 0 ≤ n → copied m (memmove m dst src n).1 dst src n.
Proof.
  intros Hn. unfold memmove.
  destruct ((src <? dst) && (src + n >? dst)) eqn:E; cbn [fst].
  - apply andb_true_iff in E as [E1%Z.ltb_lt _].
    pose proof (copy_down_spec (Z.to_nat n) m (dst + n) (src + n)) as H.
    rewrite Z2Nat.id in H by done.
    replace (dst + n - n) with dst in H by lia.
    replace (src + n - n) with src in H by lia. apply H. lia.
  - pose proof (copy_up_spec (Z.to_nat n) m dst src) as H.
    rewrite Z2Nat.id in H by done. apply H. lia.
Qed.

Lemma memcpy_copied m dst src n :
  0 ≤ n → ¬ (src < dst < src + n) → copied m (memcpy m dst src n).1 dst src n.
Proof.
  intros Hn Ho. pose proof (copy_up_spec (Z.to_nat n) m dst src) as H.
  rewrite Z2Nat.id in H by done. by apply H.
Qed.

Lemma memset_rd m v c n b :
  0 ≤ n → rd (memset m v c n).1 b = if decide (v ≤ b < v + n) then u8 c else rd m b.
Proof. intros Hn. unfold memset. cbn [fst]. rewrite set_up_spec, Z2Nat.id; done. Qed.

(** A memory holding exactly the bytes [l] at [a]. *)
Definition mem_of (a : Z) (l : list Z) : mem := wr_list ∅ a l.

(** A string written to memory is there. *)
Lemma cstr_mem_of a l : Forall (λ v, 0 < v < 256) l → cstr (mem_of a l) a l.
Proof.
  intros Hl. unfold mem_of. split.
  - intros i v Hi. pose proof (lookup_lt_Some _ _ _ Hi).
    rewrite Forall_lookup in Hl. specialize (Hl i v Hi).
    rewrite rd_wr_list, decide_True by lia.
    replace (Z.to_nat (a + Z.of_nat i - a)) with i by lia. rewrite Hi. cbn.
    rewrite (wrapU_small 8) by lia. lia.
  - rewrite rd_wr_list, decide_False by lia. done.
Qed.

(** ** Properties *)

(** [memmove] copies any two regions, overlapping or not: the destination
    afterwards holds the bytes the source held before the call and no other
    byte changes; [memcpy] produces the same memory whenever the destination
    does not start strictly inside the source region; both return [dst]. *)
Theorem memmove_memcpy_spec m dst src n :
  0 ≤ n →
  copied m (memmove m dst src n).1 dst src n ∧
  (¬ (src < dst < src + n) → mem_eq (memcpy m dst src n).1 (memmove m dst src n).1) ∧
  (memmove m dst src n).2 = dst ∧ (memcpy m dst src n).2 = dst.
Proof.
  intros Hn. pose proof (memmove_copied m dst src n Hn) as H.
  split_and!; [done| |unfold memmove; by destruct (_ && _)|done].
  intros Ho b. by rewrite (H b), (memcpy_copied m dst src n Hn Ho b).
Qed.

Lemma memmove_memcpy_spec_witness :
  let m := mem_of 100 [1; 2; 3; 4; 5] in
  0 ≤ 4 ∧ rd (memmove m 101 100 4).1 104 = 4 ∧ copied m (memmove m 101 100 4).1 101 100 4.
Proof.
  intros m. split_and!; [lia|by vm_compute|].
  exact (proj1 (memmove_memcpy_spec m 101 100 4 ltac:(lia))).
Defined.

(** [strlen] returns the length of the string and [strnlen] that length
    capped by its bound; [length l + 1] iterations suffice. *)
Theorem strlen_strnlen_spec m s l fuel maxlen :
  cstr m s l → Z.of_nat (length l) < 2 ^ 64 → (length l < fuel)%nat → 0 ≤ maxlen →
  strlen fuel m s = Ok (Z.of_nat (length l)) ∧
  strnlen m s maxlen = Z.min maxlen (Z.of_nat (length l)).
Proof.
  intros Hl ???. unfold strlen, strnlen.
  rewrite (strlen_loop_spec _ _ _ l), (strnlen_loop_spec _ _ _ l) by (done || lia).
  split; [f_equal; lia|lia].
Qed.

Lemma strlen_strnlen_spec_witness :
  strlen 6 (mem_of 100 (str "hello")) 100 = Ok 5 ∧
  strnlen (mem_of 100 (str "hello")) 100 3 = Z.min 3 5.
Proof.
  apply (strlen_strnlen_spec (mem_of 100 (str "hello")) 100 (str "hello") 6 3);
    [apply cstr_mem_of; by repeat constructor|by vm_compute|cbn; lia|lia].
Defined.

(** [strcmp] on two strings terminates with the sign of their
    lexicographic comparison as unsigned bytes: it is 0 exactly when the
    strings are equal, and exchanging the arguments negates it. *)
Theorem strcmp_spec m a b la lb fuel :
  cstr m a la → cstr m b lb → (length la < fuel)%nat → (length lb < fuel)%nat →
  ∃ r, strcmp fuel m a b = Ok r ∧ strcmp fuel m b a = Ok (- r) ∧ r = lex la lb ∧
    (r = 0 ↔ la = lb).
Proof.
  intros Ha Hb ??. exists (lex la lb).
  rewrite (strcmp_lex la lb), (strcmp_lex lb la), <- lex_opp by done.
  split_and!; [done|done|done|apply lex_eq].
Qed.

Lemma strcmp_spec_witness :
  let m := wr_list (mem_of 100 (str "fork")) 200 (str "form") in
  ∃ r, strcmp 9 m 100 200 = Ok r ∧ strcmp 9 m 200 100 = Ok (- r) ∧
    r = lex (str "fork") (str "form") ∧ (r = 0 ↔ str "fork" = str "form").
Proof.
  intros m. apply (strcmp_spec m 100 200 (str "fork") (str "form") 9); [| |cbn; lia..].
  - unfold str. cbn. rewrite !cstr_cons, cstr_nil. by vm_compute.
  - unfold str. cbn. rewrite !cstr_cons, cstr_nil. by vm_compute.
Defined.

(** [strchr] returns the address of the first occurrence of the character
    (the terminator for 0), and NULL when the string does not contain it. *)
Theorem strchr_spec m s l c fuel :
  cstr m s l → (length l < fuel)%nat →
  (∃ i, strchr fuel m s c = Ok (s + Z.of_nat i) ∧
        (i ≤ length l)%nat ∧ rd m (s + Z.of_nat i) = u8 c ∧
        ∀ j, (j < i)%nat → l !! j ≠ Some (u8 c)) ∨
  (strchr fuel m s c = Ok 0 ∧ (u8 c ∉ l) ∧ u8 c ≠ 0).
Proof.
  intros Hl Hf. destruct (strchr_scan_spec l fuel m s c Hl Hf) as (i & Hi & Hle & Hj & Hor).
  unfold strchr. rewrite Hi. cbn. destruct (Z.eqb_spec (rd m (s + Z.of_nat i)) (u8 c)) as [E|E].
  - left. exists i. split_and!; done.
  - right. destruct Hor as [|Hor]; [done|]. subst i. split_and!; [done| |].
    + intros (j & Hlk)%list_elem_of_lookup. eapply Hj; [by eapply lookup_lt_Some|done].
    + rewrite (proj2 Hl) in E. congruence.
Qed.

Lemma strchr_spec_witness :
  let m := mem_of 100 (str "hello") in
  (∃ i, strchr 6 m 100 (chr "l") = Ok (100 + Z.of_nat i) ∧
        (i ≤ 5)%nat ∧ rd m (100 + Z.of_nat i) = u8 (chr "l") ∧
        ∀ j, (j < i)%nat → str "hello" !! j ≠ Some (u8 (chr "l"))) ∨
  (strchr 6 m 100 (chr "l") = Ok 0 ∧ (u8 (chr "l") ∉ str "hello") ∧ u8 (chr "l") ≠ 0).
Proof.
  intros m. apply (strchr_spec m 100 (str "hello") (chr "l") 6);
    [apply cstr_mem_of; by repeat constructor|cbn; lia].
Defined.

(** Copying a string to a region disjoint from it reproduces it there,
    terminator included, and leaves the rest of memory alone. *)
Theorem strcpy_spec m dst src l fuel :
  cstr m src l → (length l < fuel)%nat →
  (dst + Z.of_nat (length l) < src ∨ src + Z.of_nat (length l) < dst) →
  ∃ m', strcpy fuel m dst src = Ok (m', dst) ∧ cstr m' dst l ∧
    copied m m' dst src (Z.of_nat (length l) + 1).
Proof.
  intros Hl Hf Hd.
  destruct (strcpy_loop_spec l fuel m dst src Hl Hf Hd) as (m' & E & Hm').
  exists m'. unfold strcpy. rewrite E. split_and!; [done| |done]. split.
  - intros i v Hi. destruct (proj1 Hl i v Hi) as [<- ?]. split; [|done].
    apply lookup_lt_Some in Hi. rewrite Hm', decide_True by lia. f_equal. lia.
  - rewrite Hm', decide_True, <- (proj2 Hl) by lia. f_equal. lia.
Qed.

Lemma strcpy_spec_witness :
  ∃ m', strcpy 6 (mem_of 100 (str "hello")) 200 100 = Ok (m', 200) ∧
    cstr m' 200 (str "hello") ∧ copied (mem_of 100 (str "hello")) m' 200 100 6.
Proof.
  apply (strcpy_spec (mem_of 100 (str "hello")) 200 100 (str "hello") 6);
    [apply cstr_mem_of; by repeat constructor|cbn; lia|cbn; lia].
Defined.
