(* ===== verification/Printf.v ===== *)
(** * The formatted printer of WeensyOS

    Models src/modules/m3/lib.c lines 106-387: [fill_numbuf], the format
    interpreter [printer_vprintf], and its two clients, the CGA console and
    [vsnprintf].  The function pointer [p->putc] is the operation of a type
    class [Printer]; the interpreter is generic in it, and the theorems about
    the console and about [snprintf] are obtained from one fact: every printer
    receives the characters that the recording printer [trace] records.

    A format and a [%s] argument are lists of bytes without the terminator.
    A [va_list] is a list of 8-byte argument slots, as in the x86-64 calling
    convention: an integer conversion truncates the slot to its type.  A
    missing argument, a conversion of the wrong kind, and signed overflow are
    [UB]. *)
From stdpp Require Import base tactics numbers list gmap.
From Stdlib Require Import ZArith Lia.
From S2P Require Import Prelude Mem.

(** ** Definitions *)

(** @src modules/m3/lib.h 148-155 printer
    What a [printer] object offers: the [putc] member. *)
Class Printer (St : Type) := putc : St → Z → Z → res St.

(** @src modules/m3/lib.h 16-18 va_list
    The variadic arguments: a word, or a pointer to a string. *)
Inductive varg := VWord (z : Z) | VStr (l : list Z).

(** @src modules/m3/lib.h 18-18 va_arg
    [va_arg(val, T)] for an integer or pointer type; its caller converts to [T]. *)
Definition va_word (va : list varg) : res (Z * list varg) :=
  match va with VWord z :: va => Ok (z, va) | _ => Err UB end.

(** @src modules/m3/lib.c 227-229 printer_vprintf *)
Definition va_str (va : list varg) : res (list Z * list varg) :=
  match va with VStr l :: va => Ok (l, va) | _ => Err UB end.

(** @src modules/m3/lib.c 113-114 upper_digits *)
Definition upper_digits : list Z := str "0123456789ABCDEF".
Definition lower_digits : list Z := str "0123456789abcdef".

(** @src modules/m3/lib.c 122-127 numbuf_end
    The loop of [fill_numbuf]; [room] bytes are left in the buffer below
    [numbuf_end], and [acc] is the string from [numbuf_end] on. *)
Fixpoint fill_loop (room : nat) (digits : list Z) (base val : Z) (acc : list Z) : res (list Z) :=
  match room with
  | O => Err UB
  | S room =>
      d ← of_option UB (zget digits (val mod base));
      let val := val / base in
      if c_true val then fill_loop room digits base val (d :: acc) else Ok (d :: acc)
  end.

(** @src modules/m3/lib.c 143-144 NUMBUFSIZ *)
Definition NUMBUFSIZ : nat := 24.

(** @src modules/m3/lib.c 112-128 fill_numbuf
    The NUL byte takes the first of the [room] bytes. *)
Definition fill_numbuf (room : nat) (val base : Z) : res (list Z) :=
  let digits := if base <? 0 then lower_digits else upper_digits in
  let base := Z.abs base in
  match room with O => Err UB | S room => fill_loop room digits base val [] end.

(** @src modules/m3/lib.c 130-140 FLAG_ALT *)
Definition FLAG_ALT : Z := 1.
Definition FLAG_ZERO : Z := 2.
Definition FLAG_LEFTJUSTIFY : Z := 4.
Definition FLAG_SPACEPOSITIVE : Z := 8.
Definition FLAG_PLUSPOSITIVE : Z := 16.
Definition flag_chars : list Z := str "#0- +".
Definition FLAG_NUMERIC : Z := 32.
Definition FLAG_SIGNED : Z := 64.
Definition FLAG_NEGATIVE : Z := 128.
Definition FLAG_ALT2 : Z := 256.

(** @src modules/m3/lib.c 153-161 flagc
    [flagc - flag_chars] when [strchr] finds the character. *)
Definition flag_index (c : Z) : option nat := fst <$> list_find (λ x, x = c) flag_chars.

(** @src modules/m3/lib.c 152-161 printer_vprintf *)
Fixpoint flags_loop (fmt : list Z) (flags : Z) : Z * list Z :=
  match fmt with
  | [] => (flags, [])
  | c :: r =>
      match flag_index c with
      | Some i => flags_loop r (Z.lor flags (2 ^ Z.of_nat i))
      | None => (flags, fmt)
      end
  end.

(** @src modules/m3/lib.c 166-166 format *)
Definition is_digit (c : Z) : bool := (chr "0" <=? c) && (c <=? chr "9").

(** @src modules/m3/lib.c 166-168 printer_vprintf
    [10 * width + *format++ - '0'], undefined when [10 * width + *format] overflows
    an [int], before '0' is subtracted. *)
Fixpoint digits_loop (fmt : list Z) (n : Z) : res (Z * list Z) :=
  match fmt with
  | c :: r =>
      if is_digit c then
        if 10 * n + c <? 2 ^ 31 then digits_loop r (10 * n + c - chr "0") else Err UB
      else Ok (n, fmt)
  | [] => Ok (n, [])
  end.

(** @src modules/m3/lib.c 163-172 printer_vprintf *)
Definition parse_width (fmt : list Z) (va : list varg) : res (Z * list Z * list varg) :=
  match fmt with
  | c :: r =>
      if (chr "1" <=? c) && (c <=? chr "9") then
        '(w, fmt) ← digits_loop fmt 0; Ok (w, fmt, va)
      else if c =? chr "*" then
        '(z, va) ← va_word va; Ok (i32 z, r, va)
      else Ok (-1, fmt, va)
  | [] => Ok (-1, fmt, va)
  end.

(** @src modules/m3/lib.c 174-189 printer_vprintf *)
Definition parse_precision (fmt : list Z) (va : list varg) : res (Z * list Z * list varg) :=
  match fmt with
  | c :: r =>
      if c =? chr "." then
        '(p, fmt, va) ←
          match r with
          | d :: r' =>
              if is_digit d then '(p, fmt) ← digits_loop r 0; Ok (p, fmt, va)
              else if d =? chr "*" then '(z, va) ← va_word va; Ok (i32 z, r', va)
              else Ok (-1, r, va)
          | [] => Ok (-1, r, va)
          end;
        Ok (if p <? 0 then 0 else p, fmt, va)
      else Ok (-1, fmt, va)
  | [] => Ok (-1, fmt, va)
  end.

(** @src modules/m3/lib.c 197-202 printer_vprintf
    [case 'l': case 'z': length = 1; ++format; goto again]. *)
Fixpoint length_loop (fmt : list Z) (length : bool) : bool * list Z :=
  match fmt with
  | c :: r =>
      if (c =? chr "l") || (c =? chr "z") then length_loop r true else (length, fmt)
  | [] => (length, [])
  end.

(** @src modules/m3/lib.c 191-246 format
    What the conversion character decides: a new color, or something to print. *)
Inductive conv :=
  | ConvColor (color : Z)
  | ConvData (flags base num : Z) (data : list Z).

(** @src modules/m3/lib.c 228-246 numbuf
    A string of one character; empty when that character is NUL. *)
Definition char_str (c : Z) : list Z := if c_true (u8 c) then [u8 c] else [].

(** @src modules/m3/lib.c 213-218 format_unsigned *)
Definition conv_unsigned (length : bool) (flags base : Z) (va : list varg) :
    res (conv * list varg) :=
  '(z, va) ← va_word va;
  Ok (ConvData (Z.lor flags FLAG_NUMERIC) base (if length then u64 z else u32 z) [], va).

(** @src modules/m3/lib.c 191-246 printer_vprintf
    The [switch] on the conversion character. *)
Definition convert (fmt : list Z) (flags : Z) (length : bool) (va : list varg) :
    res (conv * list Z * list varg) :=
  match fmt with
  | [] => Ok (ConvData flags 10 0 (str "%"), [], va)
  | c :: r =>
      if (c =? chr "d") || (c =? chr "i") then
        '(z, va) ← va_word va;
        let x := if length then i64 z else i32 z in
        let negative := if x <? 0 then FLAG_NEGATIVE else 0 in
        num ← (if x <? 0 then if x =? - 2 ^ 63 then Err UB else Ok (- x) else Ok x);
        Ok (ConvData (Z.lor flags (Z.lor FLAG_NUMERIC (Z.lor FLAG_SIGNED negative)))
              10 num [], r, va)
      else if c =? chr "u" then
        '(k, va) ← conv_unsigned length flags 10 va; Ok (k, r, va)
      else if c =? chr "x" then
        '(k, va) ← conv_unsigned length flags (-16) va; Ok (k, r, va)
      else if c =? chr "X" then
        '(k, va) ← conv_unsigned length flags 16 va; Ok (k, r, va)
      else if c =? chr "p" then
        '(z, va) ← va_word va;
        Ok (ConvData (Z.lor flags (Z.lor FLAG_ALT (Z.lor FLAG_ALT2 FLAG_NUMERIC)))
              (-16) (u64 z) [], r, va)
      else if c =? chr "s" then
        '(l, va) ← va_str va; Ok (ConvData flags 10 0 l, r, va)
      else if c =? chr "C" then
        '(z, va) ← va_word va; Ok (ConvColor (i32 z), r, va)
      else if c =? chr "c" then
        '(z, va) ← va_word va; Ok (ConvData flags 10 0 (char_str z), r, va)
      else Ok (ConvData flags 10 0 (char_str c), r, va)
  end.

(** @src modules/m3/lib.c 252-265 printer_vprintf *)
Definition num_prefix (flags base num : Z) : list Z :=
  if has FLAG_NUMERIC flags && has FLAG_SIGNED flags then
    if has FLAG_NEGATIVE flags then str "-"
    else if has FLAG_PLUSPOSITIVE flags then str "+"
    else if has FLAG_SPACEPOSITIVE flags then str " "
    else []
  else if has FLAG_NUMERIC flags && has FLAG_ALT flags
          && ((base =? 16) || (base =? -16)) && (c_true num || has FLAG_ALT2 flags) then
    if base =? -16 then str "0x" else str "0X"
  else [].

Definition zlen {A} (l : list A) : Z := Z.of_nat (length l).

(** @src modules/m3/lib.c 267-283 printer_vprintf
    [len], [zeros] and the reduced [width]; [strlen] values are converted to
    [int], and the width is computed in [size_t] and converted back. *)
Definition layout (flags width precision : Z) (prefix data : list Z) : Z * Z * Z :=
  let plen := zlen prefix in
  let len :=
    if (0 <=? precision) && negb (has FLAG_NUMERIC flags)
    then Z.min precision (zlen data) else i32 (zlen data) in
  let zeros :=
    if has FLAG_NUMERIC flags && (0 <=? precision) then
      if precision >? len then precision - len else 0
    else if has FLAG_NUMERIC flags && has FLAG_ZERO flags
            && negb (has FLAG_LEFTJUSTIFY flags) && (len + plen <? width) then
      i32 (width - len - plen)
    else 0 in
  (len, zeros, i32 (width - (len + zeros + plen))).

Section printer.
Context {St : Type} `{Printer St}.

(** @src modules/m3/lib.c 284-298 putc *)
Fixpoint putc_n (n : nat) (c color : Z) (s : St) : res St :=
match n with O => Ok s | S n => s ← putc s c color; putc_n n c color s end.

(** @src modules/m3/lib.c 284-298 putc *)
Fixpoint putc_list (l : list Z) (color : Z) (s : St) : res St :=
match l with [] => Ok s | c :: l => s ← putc s c color; putc_list l color s end.

(** @src modules/m3/lib.c 248-298 printer_vprintf
  Printing one converted field. *)
Definition print_field (color flags width precision base num : Z) (data : list Z)
  (s : St) : res St :=
data ← (if has FLAG_NUMERIC flags then fill_numbuf NUMBUFSIZ num base else Ok data);
let prefix := num_prefix flags base num in
let '(len, zeros, width) := layout flags width precision prefix data in
let left := has FLAG_LEFTJUSTIFY flags in
s ← (if left then Ok s else putc_n (Z.to_nat width) (chr " ") color s);
s ← putc_list prefix color s;
s ← putc_n (Z.to_nat zeros) (chr "0") color s;
s ← putc_list (take (Z.to_nat len) data) color s;
if left then putc_n (Z.to_nat width) (chr " ") color s else Ok s.

(** @src modules/m3/lib.c 146-291 format *)
Fixpoint printf_loop (fuel : nat) (color : Z) (fmt : list Z) (va : list varg) (s : St) :
  res St :=
match fuel with
| O => Err NoFuel
| S fuel =>
    match fmt with
    | [] => Ok s
    | c :: r =>
        if negb (c =? chr "%") then
          s ← putc s c color; printf_loop fuel color r va s
        else
          let '(flags, fmt) := flags_loop r 0 in
          '(width, fmt, va) ← parse_width fmt va;
          '(precision, fmt, va) ← parse_precision fmt va;
          let '(length, fmt) := length_loop fmt false in
          '(k, fmt, va) ← convert fmt flags length va;
          match k with
          | ConvColor color => printf_loop fuel color fmt va s
          | ConvData flags base num data =>
              s ← print_field color flags width precision base num data s;
              printf_loop fuel color fmt va s
          end
    end
end.

(** @src modules/m3/lib.c 142-301 printer_vprintf *)
Definition printer_vprintf (s : St) (color : Z) (fmt : list Z) (va : list varg) : res St :=
printf_loop (S (length fmt)) color fmt va s.
End printer.

(** ** The console printer *)

(** @src modules/m3/lib.h 107-113 CONSOLE_COLUMNS *)
Definition CPOS (row col : Z) : Z := row * 80 + col.
Definition CROW (cpos : Z) : Z := cpos ÷ 80.
Definition CCOL (cpos : Z) : Z := Z.rem cpos 80.
Definition CONSOLE_COLUMNS : Z := 80.
Definition CONSOLE_ROWS : Z := 25.
Definition CONSOLE_SIZE : Z := CONSOLE_ROWS * CONSOLE_COLUMNS.

(** @src modules/m3/lib.c 304-307 console_printer
    The cursor is an index into [console]. *)
Record console_printer := ConsolePrinter { cp_console : list Z; cp_cursor : Z }.

(** @src modules/m3/lib.c 317-320 cursor
    [*cp->cursor++ = v] for a [uint16_t] array. *)
Definition console_store (cp : console_printer) (v : Z) : res console_printer :=
  if (0 <=? cp_cursor cp) && (cp_cursor cp <? zlen (cp_console cp)) then
    Ok (ConsolePrinter (zset (cp_console cp) (cp_cursor cp) (u16 v)) (cp_cursor cp + 1))
  else Err UB.

(** @src modules/m3/lib.c 316-318 cursor *)
Fixpoint console_fill (n : nat) (v : Z) (cp : console_printer) : res console_printer :=
  match n with O => Ok cp | S n => cp ← console_store cp v; console_fill n v cp end.

(** @src modules/m3/lib.c 309-322 console_putc *)
Definition console_putc (cp : console_printer) (c color : Z) : res console_printer :=
  let cp := if cp_cursor cp >=? CONSOLE_SIZE then ConsolePrinter (cp_console cp) 0 else cp in
  if u8 c =? 10 then
    let pos := Z.rem (cp_cursor cp) 80 in
    console_fill (Z.to_nat (80 - pos)) (Z.lor (chr " ") color) cp
  else console_store cp (Z.lor (u8 c) color).

(** @src modules/m3/lib.c 324-327 console_putc *)
#[export] Instance console_Printer : Printer console_printer := console_putc.

(** @src modules/m3/lib.c 324-333 console_vprintf
    Returns the console and the final cursor. *)
Definition console_vprintf (console : list Z) (cpos color : Z) (fmt : list Z)
    (va : list varg) : res (list Z * Z) :=
  let cpos := if (cpos <? 0) || (cpos >=? CONSOLE_SIZE) then 0 else cpos in
  cp ← printer_vprintf (ConsolePrinter console cpos) color fmt va;
  Ok (cp_console cp, cp_cursor cp).

(** @src modules/m3/lib.c 335-341 console_printf *)
Definition console_printf := console_vprintf.

(** @src modules/m3/lib.c 382-387 console_clear
    The cleared console and the new [cursorpos]. *)
Definition console_clear : list Z * Z :=
  (replicate (Z.to_nat CONSOLE_SIZE) (Z.lor (chr " ") 0x0700), 0).

(** ** Printing to a buffer *)

(** @src modules/m3/lib.c 344-348 string_printer *)
Record string_printer := StringPrinter { sp_mem : mem; sp_s : Z; sp_end : Z }.

(** @src modules/m3/lib.c 350-356 string_putc *)
Definition string_putc (sp : string_printer) (c color : Z) : res string_printer :=
  Ok (if sp_s sp <? sp_end sp
      then StringPrinter (wr (sp_mem sp) (sp_s sp) (u8 c)) (sp_s sp + 1) (sp_end sp)
      else sp).

(** @src modules/m3/lib.c 358-361 string_putc *)
#[export] Instance string_Printer : Printer string_printer := string_putc.

(** @src modules/m3/lib.c 358-368 vsnprintf
    Returns the memory and the number of characters stored. *)
Definition vsnprintf (m : mem) (s size : Z) (fmt : list Z) (va : list varg) : res (mem * Z) :=
  if c_true size then
    sp ← printer_vprintf (StringPrinter m s (s + size - 1)) 0 fmt va;
    Ok (wr (sp_mem sp) (sp_s sp) 0, i32 (sp_s sp - s))
  else Ok (m, 0).

(** @src modules/m3/lib.c 370-376 snprintf *)
Definition snprintf := vsnprintf.

(** The recording printer, used by the specifications only. *)
Definition trace_putc (tr : list (Z * Z)) (c color : Z) : res (list (Z * Z)) :=
  Ok (tr ++ [(c, color)]).
#[export] Instance trace_Printer : Printer (list (Z * Z)) := trace_putc.

(** The characters a format prints. *)
Definition output (fmt : list Z) (va : list varg) : res (list Z) :=
  tr ← printer_vprintf ([] : list (Z * Z)) 0 fmt va; Ok tr.*1.

Example output_ex1 :
  output (str "a%5d|%-5u|%05x|%#X %s%%%c")
    [VWord (-42); VWord 7; VWord 255; VWord 255; VStr (str "hi"); VWord 65]
  = Ok (str "a  -42|7    |000ff|0XFF hi%A").
Proof. vm_compute. reflexivity. Qed.

(** ** Specifications *)

(** Feeding recorded characters to a printer. *)
Fixpoint replay {St} `{Printer St} (tr : list (Z * Z)) (s : St) : res St :=
  match tr with [] => Ok s | (c, color) :: tr => s ← putc s c color; replay tr s end.

(** Reading a numeral, as a reader would who knows nothing of the code's tables: the
    ten decimal digits and the six letters from [letter] on, anything else is refused;
    so is a digit that the base does not have, an empty numeral, and a leading 0. *)
Definition digit_value (letter c : Z) : option Z :=
  if (48 <=? c) && (c <=? 57) then Some (c - 48)
  else if (letter <=? c) && (c <=? letter + 5) then Some (c - letter + 10)
  else None.

Fixpoint read_digits (letter base : Z) (l : list Z) (acc : Z) : option Z :=
  match l with
  | [] => Some acc
  | c :: l =>
      match digit_value letter c with
      | Some d => if d <? base then read_digits letter base l (acc * base + d) else None
      | None => None
      end
  end.

Definition read_numeral (letter base : Z) (l : list Z) : option Z :=
  match l with
  | [] => None
  | 48 :: _ :: _ => None
  | _ => read_digits letter base l 0
  end.

Abbreviation dec := (read_numeral 97 10).
Abbreviation hex := (read_numeral 97 16).
Abbreviation Hex := (read_numeral 65 16).

Example read_ex : hex (str "2f") = Some 47 ∧ hex (str "2F") = None ∧ Hex (str "2F") = Some 47 ∧
  dec (str "2f") = None ∧ hex (str "0x23") = None ∧ dec (str "007") = None ∧ dec (str "0") = Some 0.
Proof. by vm_compute. Qed.

(** ** Every printer receives what [trace] records *)

Section denotes.
Context {St : Type} `{Printer St}.
Implicit Types (f g : St → res St).

(** [f] sends a fixed list of characters to its printer, then succeeds or
  fails in a fixed way; [f'] is the same computation on the recorder. *)
Definition denotes f (f' : list (Z * Z) → res (list (Z * Z))) : Prop :=
∃ new (o : option fault),
  (∀ tr, f' tr = match o with None => Ok (tr ++ new) | Some e => Err e end) ∧
  (∀ s, f s = (s' ← replay new s; match o with None => Ok s' | Some e => Err e end)).

Lemma replay_app tr1 tr2 (s : St) :
replay (tr1 ++ tr2) s = (s' ← replay tr1 s; replay tr2 s').
Proof.
revert s. induction tr1 as [|[c col] tr1 IH]; intros s; cbn; [done|].
destruct (putc s c col); cbn; [apply IH|done].
Qed.

Lemma denotes_ret : denotes Ok Ok.
Proof. exists [], None. split; intros; cbn; [by rewrite app_nil_r|done]. Qed.

Lemma denotes_err e : denotes (λ _, Err e) (λ _, Err e).
Proof. by exists [], (Some e). Qed.

Lemma denotes_putc c color : denotes (λ s, putc s c color) (λ tr, putc tr c color).
Proof.
exists [(c, color)], None. split; intros; cbn; [done|]. by destruct (putc s c color).
Qed.

Lemma denotes_bind f (f' : list (Z * Z) → res (list (Z * Z))) g (g' : list (Z * Z) → res _) :
denotes f f' → denotes g g' → denotes (λ s, f s ≫= g) (λ tr, f' tr ≫= g').
Proof.
intros (n1 & o1 & H1 & H2) (n2 & o2 & H3 & H4). destruct o1 as [e|].
- exists n1, (Some e). split; intros.
  + by rewrite H1.
  + rewrite H2. by destruct (replay n1 s).
- exists (n1 ++ n2), o2. split; intros.
  + rewrite H1. cbn. rewrite H3. destruct o2; [done|]. by rewrite app_assoc.
  + rewrite H2, replay_app. destruct (replay n1 s); cbn; [apply H4|done].
Qed.

Lemma denotes_res {A} (r : res A) (k : A → St → res St) k' :
(∀ a, denotes (k a) (k' a)) → denotes (λ s, r ≫= λ a, k a s) (λ tr, r ≫= λ a, k' a tr).
Proof. intros Hk. destruct r; cbn; [apply Hk|apply denotes_err]. Qed.

Lemma denotes_putc_n n c color : denotes (putc_n n c color) (putc_n n c color).
Proof.
induction n as [|n IH]; cbn [putc_n]; [apply denotes_ret|].
apply denotes_bind; [apply denotes_putc|exact IH].
Qed.

Lemma denotes_putc_list l color : denotes (putc_list l color) (putc_list l color).
Proof.
induction l as [|c l IH]; cbn [putc_list]; [apply denotes_ret|].
apply denotes_bind; [apply denotes_putc|exact IH].
Qed.

Lemma denotes_field color flags width precision base num data :
denotes (print_field color flags width precision base num data)
        (print_field color flags width precision base num data).
Proof.
unfold print_field. apply denotes_res. intros l.
destruct (layout _ _ _ _ _) as [[len zeros] w].
repeat apply denotes_bind; try case_match;
  auto using denotes_ret, denotes_putc_n, denotes_putc_list.
Qed.

Lemma denotes_printf fuel color fmt va :
denotes (printf_loop fuel color fmt va) (printf_loop fuel color fmt va).
Proof.
revert color fmt va. induction fuel as [|fuel IH]; intros color fmt va; cbn [printf_loop].
{ apply denotes_err. }
destruct fmt as [|c r]; [apply denotes_ret|]. destruct (negb _).
{ apply denotes_bind; [apply denotes_putc|apply IH]. }
destruct (flags_loop r 0) as [flags fmt1].
apply denotes_res. intros [[width fmt2] va2].
apply denotes_res. intros [[precision fmt3] va3].
destruct (length_loop fmt3 false) as [len fmt4].
apply denotes_res. intros [[[color'|flags' base num data] fmt5] va5]; [apply IH|].
apply denotes_bind; [apply denotes_field|apply IH].
Qed.

Lemma printer_replay (s : St) color fmt va tr :
printer_vprintf ([] : list (Z * Z)) color fmt va = Ok tr →
printer_vprintf s color fmt va = replay tr s.
Proof.
destruct (denotes_printf (S (length fmt)) color fmt va) as (new & o & H1 & H2).
unfold printer_vprintf. rewrite H1, H2. destruct o; intros [= <-]. cbn.
by destruct (replay new s).
Qed.

Lemma printer_fails (s : St) color fmt va e :
printer_vprintf ([] : list (Z * Z)) color fmt va = Err e →
∃ e', printer_vprintf s color fmt va = Err e'.
Proof.
destruct (denotes_printf (S (length fmt)) color fmt va) as (new & o & H1 & H2).
unfold printer_vprintf. rewrite H1, H2. destruct o; intros [= ->]. cbn.
destruct (replay new s); eauto.
Qed.

(** An invariant that [putc] keeps, and under which it cannot fail, holds
  throughout. *)
Lemma replay_inv (I : St → Prop) tr s :
(∀ s c color, I s → ∃ s', putc s c color = Ok s' ∧ I s') →
I s → ∃ s', replay tr s = Ok s' ∧ I s'.
Proof.
intros HI. revert s. induction tr as [|[c col] tr IH]; intros s Hs; cbn; [eauto|].
destruct (HI s c col Hs) as (s' & -> & Hs'). cbn. auto.
Qed.
End denotes.

(** ** The interpreter terminates *)

Definition returns {A} (r : res A) : Prop := r ≠ Err NoFuel.

Lemma returns_bind {A B} (r : res A) (k : A → res B) :
  returns r → (∀ a, r = Ok a → returns (k a)) → returns (r ≫= k).
Proof. destruct r as [a|e]; cbn; [auto|]. intros H _ [= ->]. by apply H. Qed.

Lemma returns_ok {A} (a : A) : returns (Ok a).
Proof. done. Qed.
Lemma returns_ub {A} : returns (@Err A UB).
Proof. done. Qed.

Create HintDb returns discriminated.
#[export] Hint Resolve returns_ok returns_ub : returns.

(** Case analysis on a computation in [res], one [match] or bind at a time. *)
Ltac returns :=
  repeat first
    [ progress auto with returns
    | match goal with
      | |- returns (_ ≫= _) => apply returns_bind; [|intros [] ?]
      | |- returns (match ?x with _ => _ end) => destruct x
      | |- returns (if ?x then _ else _) => destruct x
      end ].

Lemma va_word_returns va : returns (va_word va).
Proof. unfold va_word. returns. Qed.
Lemma va_str_returns va : returns (va_str va).
Proof. unfold va_str. returns. Qed.
Lemma digits_loop_returns fmt n : returns (digits_loop fmt n).
Proof. revert n. induction fmt; intros; cbn [digits_loop]; returns. Qed.
#[export] Hint Resolve va_word_returns va_str_returns digits_loop_returns : returns.

Lemma fill_loop_returns room digits base val acc : returns (fill_loop room digits base val acc).
Proof.
  revert val acc. induction room; intros; cbn [fill_loop]; returns.
  destruct (zget digits _); cbn [of_option]; returns.
Qed.

Lemma parse_width_returns fmt va : returns (parse_width fmt va).
Proof. unfold parse_width. returns. Qed.
Lemma parse_precision_returns fmt va : returns (parse_precision fmt va).
Proof. unfold parse_precision. returns. Qed.
Lemma convert_returns fmt flags length va : returns (convert fmt flags length va).
Proof. unfold convert, conv_unsigned. returns. Qed.
#[export] Hint Resolve fill_loop_returns parse_width_returns parse_precision_returns
  convert_returns : returns.

(** Parsing consumes the format. *)
Lemma flags_loop_len fmt flags : (length (flags_loop fmt flags).2 ≤ length fmt)%nat.
Proof.
  revert flags. induction fmt as [|c r IH]; intros flags; cbn [flags_loop]; [done|].
  destruct (flag_index c); cbn [snd length]; [|lia].
  etrans; [apply IH|]. lia.
Qed.

Lemma length_loop_len fmt b : (length (length_loop fmt b).2 ≤ length fmt)%nat.
Proof.
  revert b. induction fmt as [|c r IH]; intros b; cbn [length_loop]; [done|].
  destruct (_ || _); cbn [snd length]; [|lia]. etrans; [apply IH|]. lia.
Qed.

Lemma digits_loop_len fmt n z fmt' :
  digits_loop fmt n = Ok (z, fmt') → (length fmt' ≤ length fmt)%nat.
Proof.
  revert n. induction fmt as [|c r IH]; intros n; cbn [digits_loop].
  { by intros [= _ <-]. }
  destruct (is_digit c); [|by intros [= _ <-]].
  destruct (_ <? _); [|done]. intros ?%IH. cbn. lia.
Qed.

Ltac inv_res :=
  repeat match goal with
  | H : (_ ≫= _) = Ok _ |- _ => apply bind_ok in H as ([] & ? & H)
  | H : Ok _ = Ok _ |- _ => injection H as ?; subst
  | H : Err _ = Ok _ |- _ => discriminate H
  | H : (if ?b then _ else _) = Ok _ |- _ => destruct b
  end; subst.

Lemma parse_width_len fmt va z fmt' va' :
  parse_width fmt va = Ok (z, fmt', va') → (length fmt' ≤ length fmt)%nat.
Proof.
  unfold parse_width. destruct fmt as [|c r]; intros H; inv_res; try (cbn; lia).
  match goal with H : digits_loop _ _ = _ |- _ => by apply digits_loop_len in H end.
Qed.

Lemma parse_precision_len fmt va z fmt' va' :
  parse_precision fmt va = Ok (z, fmt', va') → (length fmt' ≤ length fmt)%nat.
Proof.
  unfold parse_precision. destruct fmt as [|c r]; intros H; [by inv_res|].
  destruct (c =? _); [|by inv_res].
  apply bind_ok in H as ([[p f] v] & H & [= _ <- _]).
  destruct r as [|d r']; [by inv_res; cbn; lia|]. inv_res; cbn; try lia.
  match goal with H : digits_loop _ _ = _ |- _ => apply digits_loop_len in H end.
  cbn in *. lia.
Qed.

Lemma convert_len fmt flags b va k fmt' va' :
  convert fmt flags b va = Ok (k, fmt', va') → (length fmt' ≤ length fmt - 1)%nat.
Proof. unfold convert. destruct fmt as [|c r]; intros H; inv_res; cbn; lia. Qed.

Section terminates.
Context {St : Type} `{Printer St}.
Context (putc_returns : ∀ s c color, returns (putc s c color)).
#[local] Hint Resolve putc_returns : returns.

Lemma putc_n_returns n c color s : returns (putc_n n c color s).
Proof. revert s. induction n; intros; cbn [putc_n]; [done|]. apply returns_bind; auto. Qed.
Lemma putc_list_returns l color s : returns (putc_list l color s).
Proof. revert s. induction l; intros; cbn [putc_list]; [done|]. apply returns_bind; auto. Qed.
#[local] Hint Resolve putc_n_returns putc_list_returns : returns.

Lemma print_field_returns color flags width precision base num data s :
returns (print_field color flags width precision base num data s).
Proof.
unfold print_field, fill_numbuf, NUMBUFSIZ. apply returns_bind; [returns|].
intros l _. destruct (layout _ _ _ _ _) as [[len zeros] w].
destruct (has _ _); repeat (apply returns_bind; [auto with returns|intros ? _]);
  auto with returns.
Qed.

Lemma printf_loop_returns fuel color fmt va s :
(length fmt < fuel)%nat → returns (printf_loop fuel color fmt va s).
Proof.
revert color fmt va s. induction fuel as [|fuel IH]; intros color fmt va s Hf; [lia|].
cbn [printf_loop]. destruct fmt as [|c r]; [done|]. cbn [length] in Hf.
destruct (negb _); [apply returns_bind; [auto with returns|intros; apply IH; lia]|].
pose proof (flags_loop_len r 0). destruct (flags_loop r 0) as [flags f1].
apply returns_bind; [auto with returns|]. intros [[width f2] va2] ?%parse_width_len.
apply returns_bind; [auto with returns|]. intros [[prec f3] va3] ?%parse_precision_len.
pose proof (length_loop_len f3 false). destruct (length_loop f3 false) as [b f4].
apply returns_bind; [auto with returns|]. intros [[k f5] va5] ?%convert_len.
cbn in *. destruct k; [apply IH; lia|].
apply returns_bind; [apply print_field_returns|intros; apply IH; lia].
Qed.
End terminates.

(** ** Digits *)

Section digits.
Variables (digits : list Z) (letter base : Z).
Hypothesis digits_ok :
∀ d, 0 ≤ d < base → ∃ c, zget digits d = Some c ∧ digit_value letter c = Some d.
Hypothesis base_gt : 1 < base.
Hypothesis letter_gt : 58 < letter.

Lemma read_digits_snoc l c d v acc :
read_digits letter base l acc = Some v → digit_value letter c = Some d → d < base →
read_digits letter base (l ++ [c]) acc = Some (v * base + d).
Proof.
intros Hl Hc Hd. revert acc Hl. induction l as [|c' l IH]; intros acc; cbn [read_digits app].
- intros [= ->]. rewrite Hc. by rewrite (proj2 (Z.ltb_lt _ _) Hd).
- destruct (digit_value letter c') as [d'|]; [|done]. destruct (d' <? base); [apply IH|done].
Qed.

Lemma fill_loop_spec room val acc :
0 ≤ val < base ^ Z.of_nat room → (0 < room)%nat →
∃ ds, fill_loop room digits base val acc = Ok (ds ++ acc) ∧
  read_digits letter base ds 0 = Some val ∧ (0 < length ds ≤ room)%nat ∧
  (val ≠ 0 → hd 0 ds ≠ 48) ∧ (val = 0 → length ds = 1%nat).
Proof.
revert val acc. induction room as [|room IH]; intros val acc Hv Hr; [lia|].
cbn [fill_loop]. pose proof (Z.mod_pos_bound val base ltac:(lia)) as Hm.
destruct (digits_ok (val mod base) Hm) as (c & -> & Hc).
cbn [of_option mbind res_bind]. assert (0 ≤ val / base) by (apply Z.div_pos; lia).
pose proof (Z.div_mod val base) as Hdm.
destruct (c_true (val / base)) eqn:E; unfold c_true in E; zify_bool.
- assert (val / base < base ^ Z.of_nat room).
  { apply Z.div_lt_upper_bound; [lia|].
    rewrite Nat2Z.inj_succ, Z.pow_succ_r in Hv; lia. }
  assert (0 < room)%nat by (destruct room; [change (base ^ Z.of_nat 0) with 1 in *|]; lia).
  destruct (IH (val / base) (c :: acc)) as (ds & -> & Hds & Hl & Hd & _); [lia|done|].
  exists (ds ++ [c]). rewrite <- app_assoc, length_app. cbn [length]. split_and!; [done| |lia|lia| |].
  + rewrite (read_digits_snoc ds c _ _ _ Hds Hc) by lia. f_equal. lia.
  + intros _. destruct ds; [cbn in Hl; lia|]. by apply Hd.
  + intros ->. by rewrite Z.div_0_l in E by lia.
- assert (val mod base = val) as Hval by (rewrite E in *; lia).
  exists [c]. cbn [read_digits length app hd]. rewrite Hc, Hval, (proj2 (Z.ltb_lt _ _)) by lia.
  split_and!; [done|f_equal; lia|lia|lia| |done].
  intros Hne ->. rewrite Hval in Hc. by injection Hc as <-.
Qed.

Lemma read_numeral_digits ds v :
read_digits letter base ds 0 = Some v → (0 < length ds)%nat → (v ≠ 0 → hd 0 ds ≠ 48) →
(v = 0 → length ds = 1%nat) → read_numeral letter base ds = Some v.
Proof.
intros Hr Hl Hnz Hz. destruct ds as [|c [|c' ds]]; [cbn in Hl; lia| |].
- destruct c as [|c|c]; try exact Hr. cbn [read_numeral]. by repeat case_match.
- destruct (decide (v = 0)) as [->|Hv]; [by specialize (Hz eq_refl)|].
  specialize (Hnz Hv). cbn [hd] in Hnz. cbn [read_numeral]. repeat case_match; done.
Qed.
End digits.

Lemma digits_table (digits : list Z) letter n :
  forallb (λ d, match zget digits d with
                | Some c => bool_decide (digit_value letter c = Some d) | None => false end) (iota 0 n) = true →
  ∀ d, 0 ≤ d < Z.of_nat n → ∃ c, zget digits d = Some c ∧ digit_value letter c = Some d.
Proof.
  intros H d Hd. rewrite forallb_forall in H. specialize (H d).
  rewrite <- list_elem_of_In, elem_of_iota in H. specialize (H ltac:(lia)).
  destruct (zget digits d) as [c|]; [|done]. exists c. split; [done|]. by apply bool_decide_eq_true in H.
Qed.

(** The letters that [base] asks for: small ones when it is negative. *)
Definition letter_of (base : Z) : Z := if base <? 0 then 97 else 65.

Lemma fill_numbuf_ok base val :
  base = 10 ∨ base = 16 ∨ base = -16 → 0 ≤ val < 2 ^ 64 →
  ∃ ds, fill_numbuf NUMBUFSIZ val base = Ok ds ∧
    read_numeral (letter_of base) (Z.abs base) ds = Some val ∧ (0 < length ds < NUMBUFSIZ)%nat.
Proof.
  intros Hb Hv. set (digits := if base <? 0 then lower_digits else upper_digits).
  assert (∀ d, 0 ≤ d < Z.abs base → ∃ c, zget digits d = Some c ∧
    digit_value (letter_of base) c = Some d) as Ht.
  { intros d Hd. unfold digits. destruct Hb as [->|[->| ->]]; revert d Hd;
      [apply (digits_table _ _ 10)|apply (digits_table _ _ 16)|apply (digits_table _ _ 16)];
      by vm_compute. }
  destruct (fill_loop_spec digits (letter_of base) (Z.abs base) Ht ltac:(lia) 23 val [])
    as (ds & E & H1 & H2 & H3 & H4); [|lia|].
  { split; [lia|]. etrans; [apply Hv|]. destruct Hb as [->|[->| ->]]; by vm_compute. }
  exists ds. rewrite app_nil_r in E. split_and!; [exact E| |lia|unfold NUMBUFSIZ; lia].
  by apply read_numeral_digits; [..|lia| |].
Qed.

(** ** What a field looks like *)

(** Padding, prefix, zeros, (truncated) data, padding. *)
Definition field_text (flags width precision : Z) (prefix data : list Z) : list Z :=
  let '(len, zeros, width) := layout flags width precision prefix data in
  let pad := replicate (Z.to_nat width) (chr " ") in
  let left := has FLAG_LEFTJUSTIFY flags in
  (if left then [] else pad) ++ prefix ++ replicate (Z.to_nat zeros) (chr "0") ++
  take (Z.to_nat len) data ++ (if left then pad else []).

Definition colored (color : Z) (l : list Z) : list (Z * Z) := (λ c, (c, color)) <$> l.

Lemma trace_putc_n n c color tr :
  putc_n n c color tr = Ok (tr ++ colored color (replicate n c)).
Proof.
  revert tr. induction n as [|n IH]; intros tr; cbn; [by rewrite app_nil_r|].
  rewrite IH, <- app_assoc. done.
Qed.

Lemma trace_putc_list l color tr : putc_list l color tr = Ok (tr ++ colored color l).
Proof.
  revert tr. induction l as [|c l IH]; intros tr; cbn; [by rewrite app_nil_r|].
  rewrite IH, <- app_assoc. done.
Qed.

Lemma trace_field color flags width precision base num data tr :
  print_field color flags width precision base num data tr =
    (data ← (if has FLAG_NUMERIC flags then fill_numbuf NUMBUFSIZ num base else Ok data);
     Ok (tr ++ colored color
           (field_text flags width precision (num_prefix flags base num) data))).
Proof.
  unfold print_field, field_text.
  destruct (if has FLAG_NUMERIC flags then _ else _) as [l|e]; [|done].
  cbn. destruct (layout flags width precision (num_prefix flags base num) l)
    as [[len zeros] w]. unfold colored.
  destruct (has FLAG_LEFTJUSTIFY flags); cbn; rewrite ?trace_putc_n; cbn; rewrite ?trace_putc_list; cbn;
    rewrite ?trace_putc_n; cbn; rewrite ?trace_putc_list; cbn; rewrite ?trace_putc_n; cbn;
    unfold colored; rewrite ?fmap_app, ?app_nil_r, <- ?app_assoc; done.
Qed.

Lemma colored_fst color l : (colored color l).*1 = l.
Proof. unfold colored. rewrite <- list_fmap_compose. apply list_fmap_id. Qed.

(** With no width and no precision a numeric field is its prefix and digits. *)
Lemma field_text_plain flags prefix data :
  has FLAG_NUMERIC flags = true → (length prefix ≤ 2)%nat → (length data ≤ 24)%nat →
  field_text flags (-1) (-1) prefix data = prefix ++ data.
Proof.
  intros Hn Hp Hd. unfold field_text, layout, zlen. rewrite Hn. cbn [andb negb Z.leb Z.compare].
  change (0 <=? -1) with false. cbn [andb].
  rewrite (wrapS_small 32 (Z.of_nat (length data))) by lia.
  assert ((Z.of_nat (length data) + Z.of_nat (length prefix) <? -1) = false) as ->.
  { apply Z.ltb_ge. lia. }
  rewrite andb_false_r, wrapS_small, (Z2Nat.nonpos (-1 - _)) by lia. cbn [replicate Z.to_nat].
  rewrite Nat2Z.id, take_ge by lia. destruct (has FLAG_LEFTJUSTIFY flags); cbn;
    by rewrite app_nil_r.
Qed.

(** ** The console stays inside its array *)

Definition console_ok (cp : console_printer) : Prop :=
  zlen (cp_console cp) = CONSOLE_SIZE ∧ 0 ≤ cp_cursor cp ≤ CONSOLE_SIZE.

Lemma console_store_ok cp v :
  console_ok cp → cp_cursor cp < CONSOLE_SIZE →
  ∃ cp', console_store cp v = Ok cp' ∧ console_ok cp' ∧ cp_cursor cp' = cp_cursor cp + 1.
Proof.
  unfold console_ok, console_store, zlen. intros [Hl Hc] Hlt. rewrite Hl.
  destruct (0 <=? cp_cursor cp) eqn:?, (cp_cursor cp <? CONSOLE_SIZE) eqn:?;
    zify_bool; try lia.
  cbn. eexists; split; [done|]. cbn. rewrite length_zset. split_and!; [done|lia..].
Qed.

Lemma console_fill_ok n v cp :
  console_ok cp → cp_cursor cp + Z.of_nat n ≤ CONSOLE_SIZE →
  ∃ cp', console_fill n v cp = Ok cp' ∧ console_ok cp' ∧
    cp_cursor cp' = cp_cursor cp + Z.of_nat n.
Proof.
  revert cp. induction n as [|n IH]; intros cp Hok Hn; cbn [console_fill].
  { eexists; split_and!; [done|done|lia]. }
  destruct (console_store_ok cp v Hok) as (cp' & -> & Hok' & Hc'); [lia|].
  destruct (IH cp' Hok') as (cp'' & E & Hok'' & Hc''); [lia|].
  exists cp''. cbn. split_and!; [done|done|lia].
Qed.

Lemma console_putc_ok cp c color :
  console_ok cp → ∃ cp', putc cp c color = Ok cp' ∧ console_ok cp'.
Proof.
  intros Hok. unfold putc, console_Printer, console_putc.
  set (cp0 := if cp_cursor cp >=? CONSOLE_SIZE then ConsolePrinter (cp_console cp) 0 else cp).
  assert (console_ok cp0 ∧ cp_cursor cp0 < CONSOLE_SIZE) as [Hok0 Hlt].
  { subst cp0. destruct Hok. rewrite Z.geb_leb.
    destruct (Z.leb_spec CONSOLE_SIZE (cp_cursor cp)); [|by split].
    split; [split; [done|cbn; unfold CONSOLE_SIZE, CONSOLE_ROWS, CONSOLE_COLUMNS; lia]|done]. }
  clearbody cp0. destruct (u8 c =? 10).
  - destruct (console_fill_ok (Z.to_nat (80 - Z.rem (cp_cursor cp0) 80))
      (Z.lor (chr " ") color) cp0 Hok0) as (cp' & -> & ? & _); [|eauto].
    destruct Hok0 as [_ Hc]. unfold CONSOLE_SIZE, CONSOLE_ROWS, CONSOLE_COLUMNS in *.
    rewrite Z.rem_mod_nonneg by lia. Z.to_euclidean_division_equations. lia.
  - destruct (console_store_ok cp0 (Z.lor (u8 c) color) Hok0 Hlt) as (cp' & -> & ? & _).
    eauto.
Qed.

Lemma console_vprintf_ok console cpos color fmt va tr :
  zlen console = CONSOLE_SIZE → printer_vprintf ([] : list (Z * Z)) color fmt va = Ok tr →
  ∃ console' cpos', console_vprintf console cpos color fmt va = Ok (console', cpos') ∧
    zlen console' = CONSOLE_SIZE ∧ 0 ≤ cpos' ≤ CONSOLE_SIZE.
Proof.
  intros Hl Htr. unfold console_vprintf. set (p := if (cpos <? 0) || (cpos >=? CONSOLE_SIZE) then 0 else cpos).
  rewrite (printer_replay _ _ _ _ tr Htr).
  destruct (replay_inv console_ok tr (ConsolePrinter console p)) as (cp & E & Hok & Hc).
  - intros. by apply console_putc_ok.
  - subst p. split; [done|]. rewrite Z.geb_leb. cbn.
    destruct (Z.ltb_spec cpos 0), (Z.leb_spec CONSOLE_SIZE cpos); cbn;
      unfold CONSOLE_SIZE, CONSOLE_ROWS, CONSOLE_COLUMNS in *; lia.
  - rewrite E. cbn. eauto 10.
Qed.

(** ** A type checker for format strings

    [fmt_check fuel fmt ks] accepts a format whose directives consume arguments
    of the kinds [ks] (a word or a string, in this order), with neither a [*]
    width or precision nor a [long] signed conversion, whose most negative
    argument C cannot negate. *)
Inductive kind := KWord | KStr.

Definition has_kind (k : kind) (v : varg) : Prop :=
  match k, v with KWord, VWord _ | KStr, VStr _ => True | _, _ => False end.

(** The kind a conversion consumes, if any; [None] for one not accepted. *)
Definition conv_kind (c : Z) (length : bool) : option (option kind) :=
  if (c =? chr "d") || (c =? chr "i") then if length then None else Some (Some KWord)
  else if (c =? chr "u") || (c =? chr "x") || (c =? chr "X") || (c =? chr "p")
          || (c =? chr "C") || (c =? chr "c") then Some (Some KWord)
  else if c =? chr "s" then Some (Some KStr)
  else Some None.

Fixpoint fmt_check (fuel : nat) (fmt : list Z) (ks : list kind) : bool :=
  match fuel with
  | O => false
  | S fuel =>
      match fmt with
      | [] => true
      | c :: r =>
          if negb (c =? chr "%") then fmt_check fuel r ks else
          let '(flags, fmt) := flags_loop r 0 in
          match parse_width fmt [] with
          | Ok (_, fmt, _) =>
              match parse_precision fmt [] with
              | Ok (_, fmt, _) =>
                  let '(long, fmt) := length_loop fmt false in
                  match fmt with
                  | [] => true
                  | c :: r =>
                      match conv_kind c long, ks with
                      | Some None, _ => fmt_check fuel r ks
                      | Some (Some KWord), KWord :: ks => fmt_check fuel r ks
                      | Some (Some KStr), KStr :: ks => fmt_check fuel r ks
                      | _, _ => false
                      end
                  end
              | Err _ => false
              end
          | Err _ => false
          end
      end
  end.

Lemma parse_width_nil fmt w f v va :
  parse_width fmt [] = Ok (w, f, v) → parse_width fmt va = Ok (w, f, va).
Proof.
  unfold parse_width. destruct fmt as [|c r]; [by intros [= <- <- _]|].
  destruct (_ && _).
  - destruct (digits_loop _ _) as [[w' f']|]; [|done]. by intros [= <- <- _].
  - destruct (_ =? _); [done|]. by intros [= <- <- _].
Qed.

Lemma parse_precision_nil fmt w f v va :
  parse_precision fmt [] = Ok (w, f, v) → parse_precision fmt va = Ok (w, f, va).
Proof.
  unfold parse_precision. destruct fmt as [|c r]; [by intros [= <- <- _]|].
  destruct (_ =? _); [|by intros [= <- <- _]].
  destruct r as [|d r]; [by intros [= <- <- _]|].
  destruct (is_digit d).
  - destruct (digits_loop _ _) as [[w' f']|]; [|done]. by intros [= <- <- _].
  - destruct (_ =? _); [done|]. by intros [= <- <- _].
Qed.

Lemma field_prints color flags w p base num data (tr : list (Z * Z)) :
  base = 10 ∨ base = 16 ∨ base = -16 → 0 ≤ num < 2 ^ 64 →
  ∃ tr', print_field color flags w p base num data tr = Ok tr'.
Proof.
  intros Hb Hn. rewrite trace_field. destruct (has FLAG_NUMERIC flags); [|cbn; eauto].
  destruct (fill_numbuf_ok base num Hb Hn) as (ds & -> & _). cbn. eauto.
Qed.

(** What a conversion accepted by [conv_kind] leaves to print. *)
Definition printable (k : conv) : Prop :=
  match k with
  | ConvColor _ => True
  | ConvData _ base num _ => (base = 10 ∨ base = 16 ∨ base = -16) ∧ 0 ≤ num < 2 ^ 64
  end.

Lemma convert_checked c r flags long va k :
  conv_kind c long = Some k →
  match k with
  | None => ∃ cv, convert (c :: r) flags long va = Ok (cv, r, va) ∧ printable cv
  | Some kd => ∀ v va', va = v :: va' → has_kind kd v →
      ∃ cv, convert (c :: r) flags long va = Ok (cv, r, va') ∧ printable cv
  end.
Proof.
  unfold conv_kind, convert, conv_unsigned.
  pose proof (wrapU_range 32) as H32. pose proof (wrapU_range 64) as H64.
  destruct ((c =? chr "d") || (c =? chr "i")) eqn:Hd.
  { destruct long; [done|]. intros [= <-] v va' -> Hv. destruct v as [z|]; [|done].
    cbn [va_word mbind res_bind]. pose proof (wrapS_range 32 z ltac:(lia)).
    destruct (Z.ltb_spec (i32 z) 0).
    - destruct (Z.eqb_spec (i32 z) (- 2 ^ 63)); [lia|]. cbn. eexists. split; [done|].
      cbn. lia.
    - cbn. eexists. split; [done|]. cbn. lia. }
  destruct (c =? chr "u") eqn:Hu; [|destruct (c =? chr "x") eqn:Hx; [|
    destruct (c =? chr "X") eqn:HX; [|destruct (c =? chr "p") eqn:Hp; [|
    destruct (c =? chr "C") eqn:HC; [|destruct (c =? chr "c") eqn:Hc]]]]];
    cbn [orb].
  1-6: intros [= <-] v va' -> Hv; destruct v as [z|]; [|done];
    specialize (H32 z ltac:(lia)); specialize (H64 z ltac:(lia));
    repeat match goal with
    | H : (_ =? _) = true |- _ => apply Z.eqb_eq in H
    end; subst; cbn; eexists; (split; [done|]); cbn; try destruct long; lia || done.
  destruct (c =? chr "s") eqn:Hs.
  - intros [= <-] v va' -> Hv. destruct v; [done|]. cbn. eexists. split; [done|]. cbn. lia.
  - intros [= <-]. eexists. split; [done|]. cbn. lia.
Qed.

Lemma printf_checked fuel fmt ks va fuel' color (tr : list (Z * Z)) :
  fmt_check fuel fmt ks = true → Forall2 has_kind ks va → (length fmt < fuel')%nat →
  ∃ tr', printf_loop fuel' color fmt va tr = Ok tr'.
Proof.
  revert fmt ks va fuel' color tr. induction fuel as [|fuel IH]; [done|].
  intros fmt ks va fuel' color tr Hc Hk Hf. destruct fuel' as [|fuel']; [lia|].
  cbn [fmt_check] in Hc. cbn [printf_loop].
  destruct fmt as [|c r]; [eauto|]. cbn [length] in Hf.
  destruct (negb (c =? chr "%")).
  { cbn. apply (IH _ ks); [done|done|lia]. }
  pose proof (flags_loop_len r 0) as Hlf. destruct (flags_loop r 0) as [flags f1].
  destruct (parse_width f1 []) as [[[w f2] v2]|] eqn:Hw; [|done].
  pose proof (parse_width_len _ _ _ _ _ Hw) as Hl2.
  rewrite (parse_width_nil _ _ _ _ va Hw). cbn [mbind res_bind].
  destruct (parse_precision f2 []) as [[[pr f3] v3]|] eqn:Hp; [|done].
  pose proof (parse_precision_len _ _ _ _ _ Hp) as Hl3.
  rewrite (parse_precision_nil _ _ _ _ va Hp). cbn [mbind res_bind].
  pose proof (length_loop_len f3 false) as Hl4.
  destruct (length_loop f3 false) as [long f4]. cbn [snd] in *.
  assert (∀ k fmt' ks' va', fmt_check fuel fmt' ks' = true → Forall2 has_kind ks' va' →
    (length fmt' < fuel')%nat → printable k →
    ∃ tr', match k with
      | ConvColor color => printf_loop fuel' color fmt' va' tr
      | ConvData flags base num data =>
          s ← print_field color flags w pr base num data tr; printf_loop fuel' color fmt' va' s
      end = Ok tr') as Hgo.
  { intros k fmt' ks' va' Hc' Hk' Hf' Hpr. destruct k as [col|fl base num data].
    - by apply (IH _ ks').
    - destruct Hpr as [Hb Hn]. destruct (field_prints color fl w pr base num data tr Hb Hn) as [tr1 ->].
      cbn. by apply (IH _ ks'). }
  destruct f4 as [|c4 f4]; cbn [length] in *.
  { cbn [convert mbind res_bind]. destruct (field_prints color flags w pr 10 0 (str "%") tr) as [tr1 ->]; [lia..|].
    cbn. destruct fuel'; [lia|]. cbn. eauto. }
  destruct (conv_kind c4 long) as [[kd|]|] eqn:Hck; [| |by destruct ks].
  - pose proof (convert_checked c4 f4 flags long va (Some kd) Hck) as Hcv.
    destruct ks as [|k0 ks]; [by destruct kd|]. inversion Hk as [|? v ? va' Hv Hk']; subst.
    assert (kd = k0 ∧ fmt_check fuel f4 ks = true) as [-> Hc'] by (by destruct kd, k0).
    destruct (Hcv v va' eq_refl Hv) as (cv & -> & Hpr). cbn [mbind res_bind].
    apply (Hgo cv f4 ks va'); [done|done|lia|done].
  - destruct (convert_checked c4 f4 flags long va None Hck) as (cv & -> & Hpr).
    cbn [mbind res_bind]. assert (fmt_check fuel f4 ks = true) by (by destruct ks).
    apply (Hgo cv f4 ks va); [done|done|lia|done].
Qed.

(** A format and its arguments agree. *)
Definition fmt_ok (fmt : list Z) (va : list varg) : Prop :=
  ∃ ks, fmt_check (S (length fmt)) fmt ks = true ∧ Forall2 has_kind ks va.

Lemma fmt_ok_trace fmt va color : fmt_ok fmt va →
  ∃ tr, printer_vprintf ([] : list (Z * Z)) color fmt va = Ok tr.
Proof. intros (ks & Hc & Hk). eapply printf_checked; [done|done|lia]. Qed.

Lemma console_printf_ok console cpos color fmt va :
  zlen console = CONSOLE_SIZE → fmt_ok fmt va →
  ∃ console' cpos', console_printf console cpos color fmt va = Ok (console', cpos') ∧
    zlen console' = CONSOLE_SIZE ∧ 0 ≤ cpos' ≤ CONSOLE_SIZE.
Proof.
  intros Hc Hf. destruct (fmt_ok_trace fmt va color Hf) as [tr Htr].
  by apply (console_vprintf_ok console cpos color fmt va tr).
Qed.

(** ** The string buffer *)

Lemma string_replay_full tr m s e :
  e ≤ s → replay tr (StringPrinter m s e) = Ok (StringPrinter m s e).
Proof.
  intros Hs. induction tr as [|[c col] tr IH]; cbn; [done|].
  unfold string_putc. cbn. destruct (Z.ltb_spec s e); [lia|done].
Qed.

Lemma string_replay tr m s e :
  s ≤ e →
  let n := Z.to_nat (Z.min (e - s) (zlen tr)) in
  replay tr (StringPrinter m s e) =
    Ok (StringPrinter (wr_list m s (take n tr.*1)) (s + Z.of_nat n) e).
Proof.
  revert m s. induction tr as [|[c col] tr IH]; intros m s Hs n.
  { subst n. change (zlen []) with 0. rewrite Z.min_r by lia. cbn. by rewrite Z.add_0_r. }
  subst n. destruct (decide (s = e)) as [->|].
  { rewrite string_replay_full by lia. rewrite Z.sub_diag, Z.min_l by (unfold zlen; lia).
    cbn. by rewrite Z.add_0_r. }
  cbn. unfold string_putc. cbn. destruct (Z.ltb_spec s e); [|lia].
  rewrite wr_u8, IH by lia. unfold zlen. cbn [length].
  replace (Z.to_nat (Z.min (e - s) (Z.of_nat (S (length tr)))))
    with (S (Z.to_nat (Z.min (e - (s + 1)) (Z.of_nat (length tr))))) by lia.
  cbn. f_equal. f_equal. lia.
Qed.

(** ** Properties *)

(** The format interpreter terminates for every format and argument list:
    with [length fmt + 1] iterations, whatever printer it drives (as long as
    [putc] itself returns), the outcome is never fuel exhaustion. *)
Theorem printer_vprintf_terminates {St} `{Printer St} (s : St) color fmt va :
  (∀ s c color, putc s c color ≠ Err NoFuel) →
  printer_vprintf s color fmt va ≠ Err NoFuel.
Proof. intros Hp. apply printf_loop_returns; [exact Hp|lia]. Qed.

Lemma printer_vprintf_terminates_witness :
  printer_vprintf (StringPrinter ∅ 0 9) 0 (str "%5d%") [VWord 3] ≠ Err NoFuel.
Proof. apply printer_vprintf_terminates. intros s c color. done. Defined.

(** [fill_numbuf] is a correct number printer: for every 64-bit value in
    base 10 or 16 it produces at most 23 digits and the NUL byte, so that the
    24-byte [numbuf] is never overrun; the digits denote the value and there is
    no leading zero. *)
Theorem fill_numbuf_roundtrip val base :
  base = 10 ∨ base = 16 ∨ base = -16 → 0 ≤ val < 2 ^ 64 →
  ∃ ds, fill_numbuf NUMBUFSIZ val base = Ok ds ∧
    read_numeral (letter_of base) (Z.abs base) ds = Some val ∧ (length ds < NUMBUFSIZ)%nat.
Proof.
  intros Hb Hv. destruct (fill_numbuf_ok base val Hb Hv) as (ds & ? & ? & ?).
  exists ds. split_and!; [done|done|lia].
Qed.

Lemma fill_numbuf_roundtrip_witness :
  ∃ ds, fill_numbuf NUMBUFSIZ 48879 (-16) = Ok ds ∧
    read_numeral (letter_of (-16)) (Z.abs (-16)) ds = Some 48879 ∧ (length ds < NUMBUFSIZ)%nat.
Proof. apply (fill_numbuf_roundtrip 48879 (-16)); [auto|lia]. Defined.

Lemma output_num (fmt : list Z) va flags base num :
  output fmt va =
    (tr ← (s ← print_field 0 flags (-1) (-1) base num [] ([] : list (Z * Z)); Ok s);
     Ok tr.*1) →
  has FLAG_NUMERIC flags = true → base = 10 ∨ base = 16 ∨ base = -16 → 0 ≤ num < 2 ^ 64 →
  ∃ ds, output fmt va = Ok (num_prefix flags base num ++ ds) ∧
    read_numeral (letter_of base) (Z.abs base) ds = Some num.
Proof.
  intros -> Hf Hb Hn. rewrite trace_field, Hf.
  destruct (fill_numbuf_ok base num Hb Hn) as (ds & -> & Hv & Hl).
  exists ds. split; [|done]. cbn -[field_text]. unfold NUMBUFSIZ in Hl.
  rewrite field_text_plain, colored_fst; [done|done| |lia].
  unfold num_prefix. repeat case_match; cbn; lia.
Qed.

Lemma output_d z :
  i32 z ≠ - 2 ^ 63 →
  output (str "%d") [VWord z] =
    (tr ← (s ← print_field 0
       (Z.lor FLAG_NUMERIC (Z.lor FLAG_SIGNED (if i32 z <? 0 then FLAG_NEGATIVE else 0)))
       (-1) (-1) 10 (Z.abs (i32 z)) [] ([] : list (Z * Z)); Ok s);
     Ok tr.*1).
Proof.
  intros Hz. trans (tr ← ('(k, fmt, va) ← convert (str "d") 0 false [VWord z];
      match k with
      | ConvColor color => printf_loop 2 color fmt va ([] : list (Z * Z))
      | ConvData flags base num data =>
          s ← print_field 0 flags (-1) (-1) base num data []; printf_loop 2 0 fmt va s
      end); Ok tr.*1); [reflexivity|].
  assert (convert (str "d") 0 false [VWord z] =
    Ok (ConvData (Z.lor FLAG_NUMERIC
          (Z.lor FLAG_SIGNED (if i32 z <? 0 then FLAG_NEGATIVE else 0)))
          10 (Z.abs (i32 z)) [], [], [])) as ->.
  { unfold convert. change (str "d") with [100]. 
    change ((100 =? chr "d") || (100 =? chr "i")) with true.
    cbn [va_word mbind res_bind]. rewrite Z.lor_0_l.
    destruct (Z.ltb_spec (i32 z) 0).
    - rewrite (proj2 (Z.eqb_neq _ _) Hz). cbn. rewrite Z.abs_neq by lia. done.
    - cbn. rewrite Z.abs_eq by lia. done. }
  reflexivity.
Qed.

Lemma decimal_letter l : read_numeral 65 10 l = dec l.
Proof.
  assert (∀ acc, read_digits 65 10 l acc = read_digits 97 10 l acc) as E.
  { induction l as [|c l IH]; intros acc; [done|]. cbn [read_digits]. unfold digit_value.
    destruct ((48 <=? c) && (c <=? 57)); [by rewrite IH|].
    destruct ((65 <=? c) && (c <=? 65 + 5)) eqn:E1, ((97 <=? c) && (c <=? 97 + 5)) eqn:E2; [lia| | |done].
    - by rewrite (proj2 (Z.ltb_ge (c - 65 + 10) 10)) by lia.
    - by rewrite (proj2 (Z.ltb_ge (c - 97 + 10) 10)) by lia. }
  unfold read_numeral. repeat case_match; by rewrite ?E.
Qed.

(** C38. Printing an integer and reading it back, with a reader of canonical numerals
    that does not know the code's digit tables: [%d] prints a minus sign exactly for
    a negative argument and then the decimal numeral of its absolute value, as a
    32-bit signed integer; [%u] prints that of the 32-bit unsigned one, [%lx] the
    hexadecimal one of the 64-bit argument in small letters and without a prefix,
    [%#lX] in capitals after the prefix 0X unless it is zero, and [%p] in small
    letters after the prefix 0x. *)
Theorem printf_integer_roundtrip z :
  (∃ ds, output (str "%d") [VWord z] = Ok ((if i32 z <? 0 then str "-" else []) ++ ds) ∧
     dec ds = Some (Z.abs (i32 z))) ∧
  (∃ ds, output (str "%u") [VWord z] = Ok ds ∧ dec ds = Some (u32 z)) ∧
  (∃ ds, output (str "%lx") [VWord z] = Ok ds ∧ hex ds = Some (u64 z)) ∧
  (∃ ds, output (str "%#lX") [VWord z] = Ok ((if u64 z =? 0 then [] else str "0X") ++ ds) ∧
     Hex ds = Some (u64 z)) ∧
  (∃ ds, output (str "%p") [VWord z] = Ok (str "0x" ++ ds) ∧ hex ds = Some (u64 z)).
Proof.
  pose proof (wrapS_range 32 z). pose proof (wrapU_range 32 z). pose proof (wrapU_range 64 z).
  split_and!.
  - destruct (output_num (str "%d") [VWord z] _ 10 (Z.abs (i32 z)) (output_d z ltac:(lia)))
      as (ds & -> & Hv); [by destruct (i32 z <? 0)|auto|lia|].
    exists ds. split; [|by rewrite <- decimal_letter]. by destruct (i32 z <? 0).
  - destruct (output_num (str "%u") [VWord z] FLAG_NUMERIC 10 (u32 z))
      as (ds & -> & Hv); [reflexivity|done|auto|lia|]. exists ds. split; [done|by rewrite <- decimal_letter].
  - destruct (output_num (str "%lx") [VWord z] FLAG_NUMERIC (-16) (u64 z))
      as (ds & -> & Hv); [reflexivity|done|auto|lia|]. by exists ds.
  - destruct (output_num (str "%#lX") [VWord z] (Z.lor FLAG_ALT FLAG_NUMERIC) 16 (u64 z))
      as (ds & -> & Hv); [reflexivity|done|auto|lia|].
    exists ds. split; [|done]. unfold num_prefix, c_true. cbn. by destruct (u64 z =? 0).
  - destruct (output_num (str "%p") [VWord z]
      (Z.lor FLAG_ALT (Z.lor FLAG_ALT2 FLAG_NUMERIC)) (-16) (u64 z))
      as (ds & -> & Hv); [reflexivity|done|auto|lia|].
    exists ds. split; [|done]. unfold num_prefix. cbn. by rewrite orb_true_r.
Qed.

(** C37. Type-checked formats are safe and the console is never overrun: from any
    cursor position, with any color, a format that [fmt_check] accepts for the
    kinds of its arguments prints without undefined behaviour, stores only
    inside the 80x25 array, keeps its size, and leaves the cursor in [0, 2000]. *)
Theorem console_printf_safe console cpos color fmt va :
  zlen console = CONSOLE_SIZE → fmt_ok fmt va →
  ∃ console' cpos', console_printf console cpos color fmt va = Ok (console', cpos') ∧
    zlen console' = CONSOLE_SIZE ∧ 0 ≤ cpos' ≤ CONSOLE_SIZE.
Proof. apply console_printf_ok. Qed.

Lemma console_printf_safe_witness :
  ∃ console' cpos',
    console_printf console_clear.1 (CPOS 24 70) 0x0C00 (str "%s%C%-5d%06X%c") 
      [VStr (str "page fault"); VWord 0x700; VWord 12; VWord 0xfee; VWord 10] = Ok (console', cpos') ∧
    zlen console' = CONSOLE_SIZE ∧ 0 ≤ cpos' ≤ CONSOLE_SIZE.
Proof.
  apply console_printf_safe; [by vm_compute|].
  exists [KStr; KWord; KWord; KWord; KWord]. split; [by vm_compute|by repeat constructor].
Defined.

Lemma snprintf_ok m s size fmt va l :
  output fmt va = Ok l → 0 < size < 2 ^ 31 →
  ∃ m' n, snprintf m s size fmt va = Ok (m', n) ∧ n = Z.min (size - 1) (zlen l) ∧
    (∀ i, 0 ≤ i < n → rd m' (s + i) = u8 (default 0 (l !! Z.to_nat i))) ∧
    rd m' (s + n) = 0 ∧
    (∀ b, ¬ (s ≤ b ≤ s + n) → rd m' b = rd m b).
Proof.
  intros Hl Hs. unfold output in Hl. apply bind_ok in Hl as (tr & Htr & [= <-]).
  unfold snprintf, vsnprintf. rewrite c_true_nz by lia.
  rewrite (printer_replay _ _ _ _ tr Htr), string_replay by lia. cbn [mbind res_bind].
  replace (s + size - 1 - s) with (size - 1) by lia.
  set (n := Z.min (size - 1) (zlen tr)). unfold zlen in *. rewrite length_fmap.
  assert (0 ≤ n < 2 ^ 31 ∧ n ≤ Z.of_nat (length tr)) as [Hn Hnl] by lia.
  eexists _, n. cbn [sp_mem sp_s]. split; [do 2 f_equal|].
  { rewrite Z2Nat.id, wrapS_small by lia. lia. }
  rewrite Z2Nat.id by lia. split_and!; [done| | |].
  - intros i Hi. rewrite rd_wr_ne, rd_wr_list, decide_True by
      (rewrite ?length_take, ?length_fmap; lia).
    f_equal. f_equal. rewrite lookup_take_lt by lia. f_equal. lia.
  - by rewrite rd_wr_eq.
  - intros b Hb. rewrite rd_wr_ne, rd_wr_list, decide_False by
      (rewrite ?length_take, ?length_fmap; lia). done.
Qed.

(** [snprintf] into a buffer of [size] bytes stores the first [size - 1]
    characters of the output (or all of it when it is shorter), terminates them
    with NUL, touches no byte outside the buffer, and returns the number of
    characters stored. *)
Theorem snprintf_spec m s size fmt va l :
  output fmt va = Ok l → 0 < size < 2 ^ 31 →
  ∃ m' n, snprintf m s size fmt va = Ok (m', n) ∧ n = Z.min (size - 1) (zlen l) ∧
    (∀ i, 0 ≤ i < n → rd m' (s + i) = u8 (default 0 (l !! Z.to_nat i))) ∧
    rd m' (s + n) = 0 ∧
    (∀ b, ¬ (s ≤ b ≤ s + n) → rd m' b = rd m b).
Proof. apply snprintf_ok. Qed.

Lemma snprintf_spec_witness :
  ∃ m' n, snprintf ∅ 100 6 (str "pid %d:") [VWord 42] = Ok (m', n) ∧
    n = Z.min (6 - 1) (zlen (str "pid 42:")) ∧
    (∀ i, 0 ≤ i < n → rd m' (100 + i) = u8 (default 0 (str "pid 42:" !! Z.to_nat i))) ∧
    rd m' (100 + n) = 0 ∧
    (∀ b, ¬ (100 ≤ b ≤ 100 + n) → rd m' b = rd ∅ b).
Proof.
  apply (snprintf_spec ∅ 100 6 (str "pid %d:") [VWord 42] (str "pid 42:"));
    [by vm_compute|lia].
Defined.
