(* ===== verification/VM.v ===== *)
(** * Virtual memory: four-level page tables

    Models the page-table code of WeensyOS: the address arithmetic of
    src/modules/m3/x86-64.h and [virtual_memory_init], [virtual_memory_map],
    [lookup_l4pagetable], [virtual_memory_lookup], [set_pagetable] and
    [physical_memory_isreserved] of src/modules/m3/k-hardware.c.

    Page tables live in the byte memory of Mem.v, where an entry is an 8-byte
    little-endian word.  The [allocator] function pointer is an instance of the
    class [PageAllocator] (its NULL is [None]); [PageAllocatorLaws] states what
    the comment of the source demands of it, "a newly allocated page, or NULL". *)
From stdpp Require Import base tactics numbers list gmap.
From Stdlib Require Import ZArith Lia.
From S2P Require Import Prelude Mem LibStr.

(** ** Paged addresses *)

(** @src modules/m3/x86-64.h 15-20 PAGEOFFBITS *)
Definition PAGEOFFBITS : Z := 12.
Definition PAGESIZE : Z := 4096.
Definition PAGEINDEXBITS : Z := 9.
Definition NPAGETABLEENTRIES : Z := 512.
Definition PAGENUMBER (ptr : Z) : Z := i32 (Z.shiftr ptr PAGEOFFBITS).
Definition PAGEADDRESS (pn : Z) : Z := u64 (Z.shiftl (u64 pn) PAGEOFFBITS).

(** @src modules/m3/x86-64.h 29-32 pageindex *)
Definition pageindex (addr level : Z) : res Z :=
  assert_ ((0 <=? level) && (level <=? 3));;
  Ok (Z.land (i32 (Z.shiftr addr (PAGEOFFBITS + (3 - level) * PAGEINDEXBITS))) 0x1FF).

(** @src modules/m3/x86-64.h 38-39 PAGEOFFSET *)
Definition PAGEOFFMASK : Z := PAGESIZE - 1.
Definition PAGEOFFSET (addr : Z) : Z := Z.land addr PAGEOFFMASK.

(** @src modules/m3/x86-64.h 42-42 PTE_ADDR *)
Definition PTE_ADDR (pageentry : Z) : Z := Z.land pageentry (u64 (Z.lnot 0xFFF)).

(** @src modules/m3/x86-64.h 45-53 PTE_FLAGS *)
Definition PTE_FLAGS (pageentry : Z) : Z := Z.land pageentry 0xFFF.
Definition PTE_P : Z := 1.
Definition PTE_W : Z := 2.
Definition PTE_U : Z := 4.
Definition PTE_A : Z := 32.
Definition PTE_D : Z := 64.
Definition PTE_PS : Z := 128.

(** @src modules/m3/kernel.h 32-51 KERNEL_START_ADDR *)
Definition KERNEL_START_ADDR : Z := 0x40000.
Definition KERNEL_STACK_TOP : Z := 0x80000.
Definition PROC_START_ADDR : Z := 0x100000.
Definition MEMSIZE_PHYSICAL : Z := 0x200000.
Definition NPAGES : Z := MEMSIZE_PHYSICAL / PAGESIZE.
Definition MEMSIZE_VIRTUAL : Z := 0x300000.

(** ** Page-table pages in memory *)

(** @src modules/m3/x86-64.h 22-26 x86_64_pagetable
    [pt->entry[i]]; an index is always masked to [0, 512). *)
Definition entry (m : mem) (pt i : Z) : Z := ld64 m (pt + 8 * i).
Definition set_entry (m : mem) (pt i pe : Z) : mem := st64 m (pt + 8 * i) pe.

(** @src modules/m3/k-hardware.c 302-310 allocator
    The [allocator] argument: [None] is the NULL function pointer; a call
    returns the new page, 0 for NULL.  [pa_avail] is ghost: the pages the
    allocator may still hand out. *)
Class PageAllocator (A : Type) := {
  allocator : option (A → A * Z);
  pa_avail : A → Z → Prop
}.

Class PageAllocatorLaws (A : Type) `{PageAllocator A} := {
  pa_fresh : ∀ f a a' p, allocator = Some f → f a = (a', p) →
    (p = 0 ∨ (pa_avail a p ∧ ¬ pa_avail a' p)) ∧ (∀ q, pa_avail a' q → pa_avail a q);
  pa_page : ∀ a q, pa_avail a q → q mod PAGESIZE = 0 ∧ 0 < q < MEMSIZE_PHYSICAL
}.

(** The NULL allocator, the only one the kernel passes. *)
#[export] Instance null_allocator : PageAllocator unit :=
  {| allocator := None; pa_avail := λ _ _, False |}.
#[export] Instance null_allocator_laws : PageAllocatorLaws unit.
Proof. split; [done|intros ? ? []]. Qed.

Section map.
Context {A : Type} `{PageAllocator A}.

(** @src modules/m3/k-hardware.c 350-363 lookup_l4pagetable
  The missing-entry branch: [None] stands for [return NULL]. *)
Definition alloc_entry (m : mem) (a : A) (pt idx perm : Z) : res (option (mem * A * Z)) :=
if negb (has PTE_P perm) then Ok None
else match allocator with
| None => Ok None
| Some f =>
    let '(a, new_pt) := f a in
    if new_pt =? 0 then Ok None
    else
      assert_ (new_pt mod PAGESIZE =? 0);;
      let pe := Z.lor (PTE_ADDR new_pt) (Z.lor PTE_P (Z.lor PTE_W PTE_U)) in
      let m := set_entry m pt idx pe in
      let m := (memset m new_pt 0 PAGESIZE).1 in
      Ok (Some (m, a, pe))
end.

(** @src modules/m3/k-hardware.c 351-358 lookup_l4pagetable
  The state of the allocator after a failed allocation. *)
Definition alloc_state (a : A) (perm : Z) : A :=
if negb (has PTE_P perm) then a
else match allocator with None => a | Some f => (f a).1 end.

(** @src modules/m3/k-hardware.c 345-377 lookup_l4pagetable
  [n] iterations are left, the next at level [i]; the result is the level-4
  table, 0 for NULL. *)
Fixpoint lookup_l4_loop (n : nat) (i : Z) (m : mem) (a : A) (pt va perm : Z) :
  res (mem * A * Z) :=
match n with
| O => Ok (m, a, pt)
| S n =>
    idx ← pageindex va i;
    let pe := entry m pt idx in
    r ← (if negb (has PTE_P pe) then alloc_entry m a pt idx perm
         else Ok (Some (m, a, pe)));
    match r with
    | None => Ok (m, alloc_state a perm, 0)
    | Some (m, a, pe) =>
        assert_ (PTE_ADDR pe <? MEMSIZE_PHYSICAL);;
        assert_ (negb (has PTE_W perm) || has PTE_W pe);;
        assert_ (negb (has PTE_U perm) || has PTE_U pe);;
        lookup_l4_loop n (i + 1) m a (PTE_ADDR pe) va perm
    end
end.

(** @src modules/m3/k-hardware.c 345-377 lookup_l4pagetable *)
Definition lookup_l4pagetable (m : mem) (a : A) (pagetable va perm : Z) : res (mem * A * Z) :=
lookup_l4_loop 3 0 m a pagetable va perm.

(** @src modules/m3/k-hardware.c 326-342 virtual_memory_map
  The loop over the pages of the range. *)
Fixpoint map_loop (fuel : nat) (m : mem) (a : A)
  (pagetable va pa sz perm last_index123 l4pagetable : Z) : res (mem * A * Z) :=
match fuel with
| O => Err NoFuel
| S fuel =>
    if sz =? 0 then Ok (m, a, 0) else
    let cur_index123 := i32 (Z.shiftr va (PAGEOFFBITS + PAGEINDEXBITS)) in
    '(m, a, l4pagetable) ←
      (if negb (cur_index123 =? last_index123)
       then lookup_l4pagetable m a pagetable va perm else Ok (m, a, l4pagetable));
    let next m :=
      map_loop fuel m a pagetable (u64 (va + PAGESIZE)) (u64 (pa + PAGESIZE))
        (u64 (sz - PAGESIZE)) perm cur_index123 l4pagetable in
    idx ← pageindex va 3;
    if has PTE_P perm && c_true l4pagetable then
      next (set_entry m l4pagetable idx (Z.lor pa perm))
    else if c_true l4pagetable then next (set_entry m l4pagetable idx perm)
    else if has PTE_P perm then Ok (m, a, -1)
    else next m
end.

(** @src modules/m3/k-hardware.c 312-343 virtual_memory_map *)
Definition virtual_memory_map (m : mem) (a : A) (pagetable va pa sz perm : Z) :
  res (mem * A * Z) :=
assert_ (va mod PAGESIZE =? 0);;
assert_ (sz mod PAGESIZE =? 0);;
assert_ ((u64 (va + sz) >=? va) || (u64 (va + sz) =? 0));;
(if has PTE_P perm then
   assert_ (pa mod PAGESIZE =? 0);;
   assert_ (u64 (pa + sz) >=? pa);;
   assert_ (u64 (pa + sz) <=? MEMSIZE_PHYSICAL)
 else Ok tt);;
assert_ ((0 <=? perm) && (perm <? 0x1000));;
assert_ (pagetable mod PAGESIZE =? 0);;
map_loop (S (Z.to_nat (sz / PAGESIZE))) m a pagetable va pa sz perm (-1) 0.
End map.

(** @src modules/m3/kernel.h 94-98 vamapping *)
Record vamapping := VaMapping { vam_pn : Z; vam_pa : Z; vam_perm : Z }.

(** @src modules/m3/k-hardware.c 389-393 virtual_memory_lookup *)
Fixpoint lookup_loop (n : nat) (i : Z) (m : mem) (pt va pe perms : Z) : res (Z * Z) :=
  match n with
  | O => Ok (pe, perms)
  | S n =>
      if has PTE_P perms then
        idx ← pageindex va i;
        let pe := entry m pt idx in
        lookup_loop n (i + 1) m (PTE_ADDR pe) va pe (u8 (Z.land perms (PTE_FLAGS pe)))
      else Ok (pe, perms)
  end.

(** @src modules/m3/k-hardware.c 384-401 virtual_memory_lookup *)
Definition virtual_memory_lookup (m : mem) (pagetable va : Z) : res vamapping :=
  '(pe, perms) ← lookup_loop 4 0 m pagetable va 0 (Z.lor PTE_W (Z.lor PTE_U PTE_P));
  Ok (if has PTE_P perms
      then VaMapping (PAGENUMBER pe) (u64 (PTE_ADDR pe + PAGEOFFSET va)) perms
      else VaMapping (-1) (u64 (-1)) 0).

(** The addresses the linker assigns to kernel symbols. *)
Record symbols := Symbols {
  kernel_pagetables : Z;
  start_data : Z;
  end_ : Z;
  default_int_handler : Z;
  virtual_memory_map_addr : Z
}.

(** @src modules/m3/k-hardware.c 268-272 kernel_pagetable *)
Definition kernel_pagetable (sy : symbols) : Z := kernel_pagetables sy.

(** @src modules/m3/k-hardware.c 409-420 set_pagetable
    Returns the new value of %cr3. *)
Definition set_pagetable (sy : symbols) (m : mem) (pagetable : Z) : res Z :=
  let maps pt va := vam ← virtual_memory_lookup m pt va; assert_ (vam_pa vam =? va) in
  assert_ (PAGEOFFSET pagetable =? 0);;
  maps pagetable (default_int_handler sy);;
  maps (kernel_pagetable sy) pagetable;;
  maps pagetable (kernel_pagetable sy);;
  maps pagetable (virtual_memory_map_addr sy);;
  Ok pagetable.

(** @src modules/m3/k-hardware.c 271-287 virtual_memory_init
    Returns the memory and %cr3; the result of the mapping call is dropped, as
    in the source. *)
Definition virtual_memory_init (sy : symbols) (m : mem) : res (mem * Z) :=
  let k i := kernel_pagetables sy + PAGESIZE * i in
  let pte i := Z.lor (k i) (Z.lor PTE_P (Z.lor PTE_W PTE_U)) in
  let m := (memset m (k 0) 0 (5 * PAGESIZE)).1 in
  let m := set_entry m (k 0) 0 (pte 1) in
  let m := set_entry m (k 1) 0 (pte 2) in
  let m := set_entry m (k 2) 0 (pte 3) in
  let m := set_entry m (k 2) 1 (pte 4) in
  '(m, _, _) ← virtual_memory_map m tt (k 0) 0 0 MEMSIZE_PHYSICAL
                 (Z.lor PTE_P (Z.lor PTE_W PTE_U));
  Ok (m, k 0).

(** @src modules/m3/k-hardware.c 426-431 physical_memory_isreserved *)
Definition IOPHYSMEM : Z := 0x000A0000.
Definition EXTPHYSMEM : Z := 0x00100000.
Definition physical_memory_isreserved (pa : Z) : bool :=
  (pa =? 0) || ((pa >=? IOPHYSMEM) && (pa <? EXTPHYSMEM)).


(** ** Specification: the radix tree and its page walk *)

(** The index of [va] at a level, and the part of [va] above it. *)
Definition va_index (va level : Z) : Z := va / 2 ^ (39 - 9 * level) mod 512.
Definition va_prefix (va level : Z) : Z := va / 2 ^ (48 - 9 * level).
Definition canonical (va : Z) : Prop := 0 ≤ va < 2 ^ 48.

(** Follow [n] present entries from the level-[level] table [pt]. *)
Fixpoint walk (n : nat) (level : Z) (m : mem) (pt va : Z) : option Z :=
  match n with
  | O => Some pt
  | S n =>
      let pe := entry m pt (va_index va level) in
      if has PTE_P pe then walk n (level + 1) m (PTE_ADDR pe) va else None
  end.

(** What the leaf table [pt] says of [va]: physical address and permissions. *)
Definition leaf (m : mem) (va pt : Z) : option (Z * Z) :=
  let pe := entry m pt (va_index va 3) in
  if has PTE_P pe then Some (PTE_ADDR pe + va mod PAGESIZE, Z.land 7 pe) else None.

(** The translation the tables at [root] define. *)
Definition translate (m : mem) (root va : Z) : option (Z * Z) :=
  walk 3 0 m root va ≫= leaf m va.

(** The pages of a table tree with their level and address prefix.  A page has
    one entry, so no table is shared. *)
Abbreviation tree := (gmap Z (Z * Z)).

Record pt_wf (m : mem) (root : Z) (t : tree) : Prop := PtWf {
  wf_root : t !! root = Some (0, 0);
  wf_page pt l p : t !! pt = Some (l, p) →
    pt mod PAGESIZE = 0 ∧ 0 < pt < MEMSIZE_PHYSICAL ∧ 0 ≤ l ≤ 3;
  wf_entry pt l p i : t !! pt = Some (l, p) → l < 3 → 0 ≤ i < 512 →
    has PTE_P (entry m pt i) = true →
    has PTE_W (entry m pt i) = true ∧ has PTE_U (entry m pt i) = true ∧
    t !! PTE_ADDR (entry m pt i) = Some (l + 1, p * 512 + i)
}.

(** The bytes of the pages of [t]. *)
Definition in_tree (t : tree) (b : Z) : Prop :=
  ∃ pt, is_Some (t !! pt) ∧ pt ≤ b < pt + PAGESIZE.

(** [m'] extends [m] by table pages only: no translation changes. *)
Record pt_ext (root : Z) (m : mem) (t : tree) (m' : mem) (t' : tree) : Prop := PtExt {
  ext_wf : pt_wf m' root t';
  ext_sub : t ⊆ t';
  ext_entry pt l p i : t !! pt = Some (l, p) → l < 3 → 0 ≤ i < 512 →
    has PTE_P (entry m pt i) = true → entry m' pt i = entry m pt i;
  ext_translate va : canonical va → translate m' root va = translate m root va;
  ext_frame b : ¬ in_tree t' b → rd m' b = rd m b
}.

(** ** Address arithmetic *)
Lemma va_index_range va l : 0 ≤ va_index va l < 512.
Proof. apply Z.mod_pos_bound. lia. Qed.

Lemma va_prefix_root va : canonical va → va_prefix va 0 = 0.
Proof. intros. apply Z.div_small. done. Qed.

Lemma va_prefix_step va l :
  0 ≤ l ≤ 3 → va_prefix va l * 512 + va_index va l = va_prefix va (l + 1).
Proof.
  intros Hl. unfold va_prefix, va_index.
  replace (48 - 9 * (l + 1)) with (39 - 9 * l) by lia.
  replace (48 - 9 * l) with (39 - 9 * l + 9) by lia.
  rewrite Z.pow_add_r, <- Z.div_div by lia. change (2 ^ 9) with 512.
  pose proof (Z.div_mod (va / 2 ^ (39 - 9 * l)) 512). lia.
Qed.

Lemma pageindex_ok va l :
  0 ≤ va → 0 ≤ l ≤ 3 → pageindex va l = Ok (va_index va l).
Proof.
  intros Hva Hl. unfold pageindex, va_index.
  replace ((0 <=? l) && (l <=? 3))%bool with true by lia. rewrite assert_true.
  f_equal. change 0x1FF with (Z.ones 9). rewrite Z.land_ones by lia.
  unfold wrapS. change (2 ^ 9) with 512.
  change PAGEOFFBITS with 12. change PAGEINDEXBITS with 9.
  rewrite Z.shiftr_div_pow2 by lia.
  replace (12 + (3 - l) * 9) with (39 - 9 * l) by lia.
  set (z := va / _). rewrite Zminus_mod.
  change (2 ^ (32 - 1) mod 512) with 0. rewrite Z.sub_0_r, Zmod_mod.
  change (2 ^ 32) with (512 * 2 ^ 23). rewrite Z.rem_mul_r by lia.
  rewrite Zplus_mod, (Z.mul_comm 512), Z_mod_mult, Z.add_0_r, !Zmod_mod.
  rewrite Zplus_mod. change (2 ^ (32 - 1) mod 512) with 0.
  by rewrite Z.add_0_r, Zmod_mod.
Qed.

Lemma PTE_ADDR_spec pe : 0 ≤ pe < 2 ^ 64 → PTE_ADDR pe = pe - pe mod PAGESIZE.
Proof.
  intros. unfold PTE_ADDR. change (u64 (Z.lnot 0xFFF)) with (2 ^ 64 - 2 ^ 12).
  by apply land_clear.
Qed.

Lemma PTE_ADDR_lor pa perm :
  pa mod PAGESIZE = 0 → 0 ≤ pa < 2 ^ 63 → 0 ≤ perm < PAGESIZE →
  PTE_ADDR (Z.lor pa perm) = pa.
Proof.
  intros Ha Hpa Hp. change PAGESIZE with (2 ^ 12) in *.
  rewrite (lor_add _ _ 12) by done.
  rewrite PTE_ADDR_spec by lia. change PAGESIZE with (2 ^ 12).
  rewrite mod_add_aligned by lia. lia.
Qed.

Lemma has_lor_aligned k pa perm :
  pa mod PAGESIZE = 0 → 0 ≤ k < 12 → has (2 ^ k) (Z.lor pa perm) = has (2 ^ k) perm.
Proof.
  intros Ha Hk. rewrite !has_pow2, Z.lor_spec by lia.
  by rewrite (testbit_mod_0 pa 12) by (done || lia).
Qed.

Lemma land7_lor_aligned pa perm :
  pa mod PAGESIZE = 0 → Z.land 7 (Z.lor pa perm) = Z.land 7 perm.
Proof.
  intros Ha. apply Z.bits_inj'. intros i Hi. rewrite !Z.land_spec, Z.lor_spec.
  destruct (decide (i < 12)).
  - by rewrite (testbit_mod_0 pa 12) by done.
  - by rewrite (testbit_small 7 12) by lia.
Qed.

(** ** Entries of distinct pages do not overlap *)
Lemma aligned_disjoint p q :
  p mod PAGESIZE = 0 → q mod PAGESIZE = 0 → p ≠ q → p + PAGESIZE ≤ q ∨ q + PAGESIZE ≤ p.
Proof.
  change PAGESIZE with 4096. intros Hp Hq Hne.
  pose proof (Z.div_mod p 4096). pose proof (Z.div_mod q 4096). lia.
Qed.

Lemma entry_range m pt i : 0 ≤ entry m pt i < 2 ^ 64.
Proof. apply (ldn_range 8). Qed.

Lemma entry_set_entry m pt pt' i i' pe :
  pt mod PAGESIZE = 0 → pt' mod PAGESIZE = 0 → 0 ≤ i < 512 → 0 ≤ i' < 512 →
  0 ≤ pe < 2 ^ 64 →
  entry (set_entry m pt i pe) pt' i' =
    if decide (pt = pt' ∧ i = i') then pe else entry m pt' i'.
Proof.
  intros Hp Hp' Hi Hi' Hpe. unfold entry, set_entry. case_decide as E.
  - destruct E; subst. by apply (ldn_stn 8).
  - apply ldn_stn_out.
    destruct (decide (pt = pt')) as [->|Hne].
    { assert (i ≠ i') by (intros ->; by apply E). lia. }
    pose proof (aligned_disjoint pt pt' Hp Hp' Hne). change PAGESIZE with 4096 in *. lia.
Qed.

Lemma rd_set_entry m pt i pe b :
  0 ≤ i < 512 → ¬ (pt ≤ b < pt + PAGESIZE) → rd (set_entry m pt i pe) b = rd m b.
Proof. intros Hi Hb. apply rd_stn_out. change PAGESIZE with 4096 in *. lia. Qed.

Lemma ldn_zero n m a :
  (∀ b, a ≤ b < a + Z.of_nat n → rd m b = 0) → ldn n m a = 0.
Proof.
  revert a. induction n as [|n IH]; intros a H; cbn [ldn]; [done|].
  rewrite H, IH by (intros; try apply H; lia). done.
Qed.

Lemma entry_memset m q pt i :
  q mod PAGESIZE = 0 → pt mod PAGESIZE = 0 → 0 ≤ i < 512 →
  entry (memset m q 0 PAGESIZE).1 pt i = if decide (q = pt) then 0 else entry m pt i.
Proof.
  intros Hq Hp Hi. unfold entry. case_decide as E.
  - subst. apply ldn_zero. intros b Hb. rewrite memset_rd by done.
    rewrite decide_True; [done|]. change PAGESIZE with 4096. lia.
  - apply ldn_ext. intros b Hb. rewrite memset_rd by done.
    pose proof (aligned_disjoint q pt Hq Hp E).
    rewrite decide_False; [done|]. change PAGESIZE with 4096 in *. lia.
Qed.

(** ** Walks *)
Lemma va_prefix_eq va va' l :
  0 ≤ l ≤ 3 → va_prefix va 3 = va_prefix va' 3 → va_prefix va l = va_prefix va' l.
Proof.
  intros Hl H. unfold va_prefix in *.
  replace (48 - 9 * l) with (48 - 9 * 3 + (27 - 9 * l)) by lia.
  rewrite Z.pow_add_r, <- !Z.div_div by lia. by rewrite H.
Qed.

Lemma va_index_eq va va' l :
  0 ≤ l < 3 → va_prefix va 3 = va_prefix va' 3 → va_index va l = va_index va' l.
Proof.
  intros Hl H. pose proof (va_prefix_step va l). pose proof (va_prefix_step va' l).
  pose proof (va_prefix_eq va va' l). pose proof (va_prefix_eq va va' (l + 1)). lia.
Qed.

Lemma walk_cong n l m pt va va' :
  0 ≤ l → l + Z.of_nat n ≤ 3 → va_prefix va 3 = va_prefix va' 3 →
  walk n l m pt va = walk n l m pt va'.
Proof.
  revert l pt. induction n as [|n IH]; intros l pt Hl Hn H; cbn [walk]; [done|].
  rewrite (va_index_eq va va') by (done || lia). destruct (has _ _); [|done].
  apply IH; (done || lia).
Qed.

(** Translations only read the tables. *)
#[export] Instance entry_proper : Proper (mem_eq ==> eq ==> eq ==> eq) entry.
Proof. intros m m' H pt ? <- i ? <-. unfold entry. by rewrite H. Qed.

#[export] Instance walk_proper n l : Proper (mem_eq ==> eq ==> eq ==> eq) (walk n l).
Proof.
  intros m m' H pt ? <- va ? <-. revert l pt.
  induction n as [|n IH]; intros l pt; cbn [walk]; [done|].
  rewrite (entry_proper _ _ H pt pt eq_refl (va_index va l) _ eq_refl).
  destruct (has _ _); [apply IH|done].
Qed.

#[export] Instance leaf_proper : Proper (mem_eq ==> eq ==> eq ==> eq) leaf.
Proof. intros m m' H va ? <- pt ? <-. unfold leaf. by rewrite (entry_proper _ _ H pt pt eq_refl (va_index va 3) _ eq_refl). Qed.

#[export] Instance translate_proper : Proper (mem_eq ==> eq ==> eq ==> eq) translate.
Proof.
  intros m m' H root ? <- va ? <-. unfold translate.
  rewrite (walk_proper 3 0 _ _ H root _ eq_refl va _ eq_refl).
  destruct (walk 3 0 m' root va) as [pt|]; [|done].
  exact (leaf_proper _ _ H va _ eq_refl pt _ eq_refl).
Qed.

Section wf.
Context {root : Z} {t : tree}.

Lemma walk_tree m va n l pt q :
pt_wf m root t → t !! pt = Some (l, va_prefix va l) → l + Z.of_nat n ≤ 3 →
walk n l m pt va = Some q →
t !! q = Some (l + Z.of_nat n, va_prefix va (l + Z.of_nat n)).
Proof.
intros Hwf. revert l pt. induction n as [|n IH]; intros l pt Hpt Hn; cbn [walk].
- intros [= ->]. by rewrite Z.add_0_r.
- destruct (wf_page _ _ _ Hwf _ _ _ Hpt) as (_ & _ & Hl).
  destruct (has _ _) eqn:Hp; [|done]. intros Hq.
  destruct (wf_entry _ _ _ Hwf _ _ _ _ Hpt ltac:(lia) (va_index_range va l) Hp)
    as (_ & _ & Hnext).
  rewrite va_prefix_step in Hnext by lia.
  specialize (IH _ _ Hnext ltac:(lia) Hq).
  by replace (l + Z.of_nat (S n)) with (l + 1 + Z.of_nat n) by lia.
Qed.

Lemma walk_leaf_table m va q :
pt_wf m root t → canonical va → walk 3 0 m root va = Some q →
t !! q = Some (3, va_prefix va 3).
Proof.
intros Hwf Hva. apply (walk_tree m va 3 0); [done| |done].
rewrite va_prefix_root by done. apply Hwf.
Qed.

(** Walks from pages of the tree only depend on its upper entries. *)
Lemma walk_ext m m' va n l pt :
pt_wf m root t → t !! pt = Some (l, va_prefix va l) → l + Z.of_nat n ≤ 3 →
(∀ pt l p i, t !! pt = Some (l, p) → l < 3 → 0 ≤ i < 512 →
   entry m' pt i = entry m pt i) →
walk n l m' pt va = walk n l m pt va.
Proof.
intros Hwf Hpt Hn Heq. revert l pt Hpt Hn.
induction n as [|n IH]; intros l pt Hpt Hn; cbn [walk]; [done|].
destruct (wf_page _ _ _ Hwf _ _ _ Hpt) as (_ & _ & Hl).
pose proof (va_index_range va l) as Hi.
rewrite (Heq _ _ _ _ Hpt ltac:(lia) Hi).
destruct (has _ _) eqn:Hp; [|done].
destruct (wf_entry _ _ _ Hwf _ _ _ _ Hpt ltac:(lia) Hi Hp) as (_ & _ & Hnext).
rewrite va_prefix_step in Hnext by lia. apply IH; [done|lia].
Qed.

(** Present upper entries kept: successful walks are kept. *)
Lemma walk_mono m m' va n l pt q :
pt_wf m root t → t !! pt = Some (l, va_prefix va l) → l + Z.of_nat n ≤ 3 →
(∀ pt l p i, t !! pt = Some (l, p) → l < 3 → 0 ≤ i < 512 →
   has PTE_P (entry m pt i) = true → entry m' pt i = entry m pt i) →
walk n l m pt va = Some q → walk n l m' pt va = Some q.
Proof.
intros Hwf Hpt Hn Heq. revert l pt Hpt Hn.
induction n as [|n IH]; intros l pt Hpt Hn; cbn [walk]; [done|].
destruct (wf_page _ _ _ Hwf _ _ _ Hpt) as (_ & _ & Hl).
pose proof (va_index_range va l) as Hi.
destruct (has _ _) eqn:Hp; [|done].
rewrite (Heq _ _ _ _ Hpt ltac:(lia) Hi Hp), Hp.
destruct (wf_entry _ _ _ Hwf _ _ _ _ Hpt ltac:(lia) Hi Hp) as (_ & _ & Hnext).
rewrite va_prefix_step in Hnext by lia. apply IH; [done|lia].
Qed.
End wf.

Lemma pt_ext_refl root m t : pt_wf m root t → pt_ext root m t m t.
Proof. by split. Qed.

Lemma in_tree_mono t t' b : t ⊆ t' → in_tree t b → in_tree t' b.
Proof.
  intros Hsub (pt & [x Hx] & ?). exists pt. split; [|done].
  exists x. by eapply lookup_weaken.
Qed.

Lemma pt_ext_trans root m1 t1 m2 t2 m3 t3 :
  pt_ext root m1 t1 m2 t2 → pt_ext root m2 t2 m3 t3 → pt_ext root m1 t1 m3 t3.
Proof.
  intros E1 E2. split.
  - apply E2.
  - etrans; [apply E1|apply E2].
  - intros pt l p i Hpt Hl Hi Hp.
    pose proof (ext_entry _ _ _ _ _ E1 _ _ _ _ Hpt Hl Hi Hp) as H1.
    rewrite <- H1. eapply (ext_entry _ _ _ _ _ E2); [|done..|by rewrite H1].
    eapply lookup_weaken; [done|apply E1].
  - intros va Hva. rewrite (ext_translate _ _ _ _ _ E2) by done. by apply E1.
  - intros b Hb. rewrite (ext_frame _ _ _ _ _ E2) by done. apply E1.
    contradict Hb. eapply in_tree_mono; [apply E2|done].
Qed.

(** ** Adding a zeroed table page *)
Definition new_pe (q : Z) : Z := Z.lor (PTE_ADDR q) (Z.lor PTE_P (Z.lor PTE_W PTE_U)).

Lemma new_pe_spec q :
  q mod PAGESIZE = 0 → 0 < q < MEMSIZE_PHYSICAL →
  0 ≤ new_pe q < 2 ^ 64 ∧ PTE_ADDR (new_pe q) = q ∧
  has PTE_P (new_pe q) = true ∧ has PTE_W (new_pe q) = true ∧ has PTE_U (new_pe q) = true.
Proof.
  intros Hq Hr. unfold new_pe. change MEMSIZE_PHYSICAL with (2 ^ 21) in *.
  rewrite PTE_ADDR_spec, Hq, Z.sub_0_r by lia.
  assert (∀ k, 0 ≤ k < 12 → has (2 ^ k) (Z.lor q (Z.lor PTE_P (Z.lor PTE_W PTE_U)))
    = has (2 ^ k) 7) as Hbit by (intros; by apply has_lor_aligned).
  split_and!; [| |apply PTE_ADDR_lor; (done || lia)|apply (Hbit 0)|apply (Hbit 1)|apply (Hbit 2)];
    try lia; rewrite (lor_add _ _ 12); (done || change (Z.lor PTE_P (Z.lor PTE_W PTE_U)) with 7; lia).
Qed.

Definition add_page (m : mem) (pt i q : Z) : mem :=
  (memset (set_entry m pt i (new_pe q)) q 0 PAGESIZE).1.

Section add_page.
Context (root : Z) (m : mem) (t : tree) (pt l p i q : Z).
Context (Hwf : pt_wf m root t) (Hpt : t !! pt = Some (l, p)) (Hl : l < 3).
Context (Hi : 0 ≤ i < 512) (Habs : has PTE_P (entry m pt i) = false).
Context (Hfresh : t !! q = None) (Hq : q mod PAGESIZE = 0) (Hqr : 0 < q < MEMSIZE_PHYSICAL).

Abbreviation m' := (add_page m pt i q).
Abbreviation t' := (<[q := (l + 1, p * 512 + i)]> t).

Lemma add_page_entry pt' i' :
pt' mod PAGESIZE = 0 → 0 ≤ i' < 512 →
entry m' pt' i' = if decide (q = pt') then 0
                  else if decide (pt = pt' ∧ i = i') then new_pe q else entry m pt' i'.
Proof.
intros Hp' Hi'. destruct (wf_page _ _ _ Hwf _ _ _ Hpt) as (Hpa & _).
unfold add_page. rewrite entry_memset by done. case_decide; [done|].
apply entry_set_entry; try done. by apply new_pe_spec.
Qed.

Lemma add_page_tree_entry pt' l' p' i' :
t !! pt' = Some (l', p') → 0 ≤ i' < 512 →
entry m' pt' i' = if decide (pt = pt' ∧ i = i') then new_pe q else entry m pt' i'.
Proof.
intros Hpt' Hi'. destruct (wf_page _ _ _ Hwf _ _ _ Hpt') as (? & _).
rewrite add_page_entry by done. rewrite decide_False; [done|congruence].
Qed.

Lemma add_page_wf : pt_wf m' root t'.
Proof.
destruct (new_pe_spec q Hq Hqr) as (_ & Hqa & HqP & HqW & HqU).
destruct (wf_page _ _ _ Hwf _ _ _ Hpt) as (Hpa & _ & Hlr).
assert (pt ≠ q) by congruence.
split.
-  rewrite lookup_insert_ne; [apply Hwf|].
  intros ->. by rewrite (wf_root _ _ _ Hwf) in Hfresh.
- intros pt' l' p'.  rewrite lookup_insert. case_decide as E.
  + intros [= <- <-]. subst. lia.
  + apply Hwf.
- intros pt' l' p' i'.  rewrite lookup_insert. case_decide as E.
  + intros [= <- <-] _ Hi'. subst pt'. rewrite add_page_entry, decide_True by done.
    done.
  + intros Hpt' Hl' Hi'. rewrite (add_page_tree_entry _ _ _ _ Hpt' Hi').
    case_decide as E'.
    * destruct E'; subst. intros _. rewrite Hqa. 
      rewrite lookup_insert_eq. by simplify_eq.
    * intros HP. destruct (wf_entry _ _ _ Hwf _ _ _ _ Hpt' Hl' Hi' HP) as (? & ? & Hn).
      split_and!; [done..|].  rewrite lookup_insert_ne; [done|congruence].
Qed.

(** The new page translates nothing. *)
Lemma add_page_empty n va :
0 ≤ l → l + 1 + Z.of_nat n = 3 → walk n (l + 1) m' q va ≫= leaf m' va = None.
Proof.
intros Hl0 Hn. assert (∀ j, 0 ≤ j < 512 → entry m' q j = 0) as Hz.
{ intros. by rewrite add_page_entry, decide_True by done. }
destruct n; cbn [walk mbind option_bind].
- unfold leaf. by rewrite Hz by apply va_index_range.
- by rewrite Hz by apply va_index_range.
Qed.

Lemma add_page_translate n l' pt' va :
t !! pt' = Some (l', va_prefix va l') → l' + Z.of_nat n = 3 →
walk n l' m' pt' va ≫= leaf m' va = walk n l' m pt' va ≫= leaf m va.
Proof.
destruct (new_pe_spec q Hq Hqr) as (_ & Hqa & HqP & _).
revert l' pt'. induction n as [|n IH]; intros l' pt' Hpt' Hn;
  cbn [walk mbind option_bind]; pose proof (va_index_range va l') as Hi';
  destruct (wf_page _ _ _ Hwf _ _ _ Hpt') as (_ & _ & Hl').
- unfold leaf. rewrite (add_page_tree_entry _ _ _ _ Hpt' (va_index_range _ _)).
  rewrite decide_False; [done|]. intros [-> _]. simplify_eq. lia.
- rewrite (add_page_tree_entry _ _ _ _ Hpt' Hi'). case_decide as E.
  + destruct E as [E1 E]. rewrite HqP, Hqa, <- E, <- E1, Habs.
    assert (l' = l) as -> by congruence. apply add_page_empty; lia.
  + destruct (has PTE_P (entry m pt' _)) eqn:HP; [|done].
    destruct (wf_entry _ _ _ Hwf _ _ _ _ Hpt' ltac:(lia) Hi' HP) as (_ & _ & Hnext).
    rewrite va_prefix_step in Hnext by lia. apply IH; [done|lia].
Qed.

Lemma add_page_ext : pt_ext root m t m' t'.
Proof.
split.
- apply add_page_wf.
- by apply insert_subseteq.
- intros pt' l' p' i' Hpt' _ Hi' HP. rewrite (add_page_tree_entry _ _ _ _ Hpt' Hi').
  rewrite decide_False; [done|]. intros [-> ->]. congruence.
- intros va Hva. apply (add_page_translate 3 0); [|done].
  rewrite va_prefix_root by done. apply Hwf.
- intros b Hb. unfold add_page. rewrite memset_rd by done.
  rewrite decide_False.
  + apply rd_set_entry; [done|]. contradict Hb. exists pt. split; [|done].
     rewrite lookup_insert. case_decide; eauto.
  + contradict Hb. exists q. split; [|done].  rewrite lookup_insert_eq. eauto.
Qed.
End add_page.

(** ** The walk that allocates *)
Section map_proofs.
Context {A : Type} `{PageAllocatorLaws A} (root : Z).
Implicit Types (m : mem) (a : A) (t : tree).

(** The allocator holds no page of the tree. *)
Definition disjoint_from (a : A) (t : tree) : Prop := ∀ q, pa_avail a q → t !! q = None.

(** The allocator was called and gave out the pages [ps], in this order. *)
Fixpoint granted (a : A) (ps : list Z) (a' : A) : Prop :=
match ps with
| [] => a' = a
| p :: ps => p ≠ 0 ∧ ∃ f a1, allocator = Some f ∧ f a = (a1, p) ∧ granted a1 ps a'
end.

(** There is no allocator, or it was called and returned NULL. *)
Definition denied (a a' : A) : Prop :=
match allocator with Some f => f a = (a', 0) | None => a' = a end.

(** The tree was extended by exactly the pages the allocator gave out; afterwards
  it refused one more, or was not called again. *)
Definition allocated (a : A) (t : tree) (a' : A) (t' : tree) (refused : bool) : Prop :=
∃ ps a1, granted a ps a1 ∧ (∀ q, is_Some (t' !! q) ↔ is_Some (t !! q) ∨ q ∈ ps) ∧
  if refused then denied a1 a' else a' = a1.

Lemma allocated_nil a t a' (refused : bool) :
(if refused then denied a a' else a' = a) → allocated a t a' t refused.
Proof. intros Hr. exists [], a. split_and!; [done| |done]. intros q. rewrite elem_of_nil. tauto. Qed.

Lemma allocated_cons a t f a1 q x a' t' refused :
allocator = Some f → f a = (a1, q) → q ≠ 0 → allocated a1 (<[q := x]> t) a' t' refused →
allocated a t a' t' refused.
Proof.
intros Hf Hq Hne (ps & a2 & Hg & Hd & Hr). exists (q :: ps), a2. split_and!; [|intros y|done].
- split; [done|]. by exists f, a1.
- rewrite Hd, lookup_insert, elem_of_cons. case_decide as E; [subst y|intuition congruence].
  pose proof (mk_is_Some (Some x) x eq_refl). tauto.
Qed.

Lemma granted_app a ps a1 qs a' : granted a ps a1 → granted a1 qs a' → granted a (ps ++ qs) a'.
Proof.
revert a. induction ps as [|p ps IH]; intros a; [by intros ->|].
intros (Hp & f & b & Hf & Hb & Hg) Hq. split; [done|]. exists f, b. auto.
Qed.

Lemma allocated_trans a t a1 t1 a' t' refused :
allocated a t a1 t1 false → allocated a1 t1 a' t' refused → allocated a t a' t' refused.
Proof.
intros (ps & b & Hg & Hd & ->) (qs & c & Hg' & Hd' & Hr). exists (ps ++ qs), c.
split_and!; [by eapply granted_app| |done]. intros q. rewrite Hd', Hd, elem_of_app. tauto.
Qed.

Lemma alloc_entry_spec m a pt idx perm :
(alloc_entry m a pt idx perm = Ok None ∧
 (if has PTE_P perm then denied a (alloc_state a perm) else alloc_state a perm = a) ∧
 (∀ q, pa_avail (alloc_state a perm) q → pa_avail a q)) ∨
(∃ f a' q, alloc_entry m a pt idx perm = Ok (Some (add_page m pt idx q, a', new_pe q)) ∧
   allocator = Some f ∧ f a = (a', q) ∧ q ≠ 0 ∧
   pa_avail a q ∧ (∀ x, pa_avail a' x → pa_avail a x ∧ x ≠ q) ∧
   has PTE_P perm = true ∧ allocator (A := A) ≠ None).
Proof.
unfold alloc_entry, alloc_state, denied. destruct (has PTE_P perm); cbn [negb]; [|by left].
destruct allocator as [f|] eqn:Hf; [|by left].
destruct (f a) as [a' q] eqn:Hfa. destruct (pa_fresh f a a' q Hf Hfa) as [Hq Hsub].
destruct (Z.eqb_spec q 0) as [->|Hne]; [by left|right].
destruct Hq as [?|[Hav Hnav]]; [done|].
destruct (pa_page a q Hav) as [Hal _]. exists f, a', q. rewrite Hal.
split_and!; [done..| |done|done].
intros x Hx. split; [by apply Hsub|by intros ->].
Qed.

(** What the search below a page of level [l] achieves: it returns a leaf table, or
  0 when there is none and none could be made, in an extension of the tree. *)
Definition looks_up (n : nat) (l : Z) (m : mem) (a : A) (t : gmap Z (Z * Z)) (pt va perm : Z) : Prop :=
∃ m' a' q t', lookup_l4_loop n l m a pt va perm = Ok (m', a', q) ∧
  pt_ext root m t m' t' ∧ disjoint_from a' t' ∧
  walk n l m' pt va = (if q =? 0 then None else Some q) ∧
  allocated a t a' t' (has PTE_P perm && (q =? 0)) ∧
  (has PTE_P perm = false ∨ allocator (A := A) = None → t' = t ∧ m' = m).

(** One level down from an entry that is present in an extension of [m]: the
  assertions hold. *)
Lemma lookup_down n l m a t pt va perm m1 a1 t1 pe :
(∀ l m a t pt, pt_wf m root t → t !! pt = Some (l, va_prefix va l) → l + Z.of_nat n = 3 →
   canonical va → disjoint_from a t → looks_up n l m a t pt va perm) →
t !! pt = Some (l, va_prefix va l) → 0 ≤ l → l + Z.of_nat (S n) = 3 → canonical va →
pt_ext root m t m1 t1 → disjoint_from a1 t1 → entry m1 pt (va_index va l) = pe → has PTE_P pe = true →
∃ m' a' q t', (assert_ (PTE_ADDR pe <? MEMSIZE_PHYSICAL);;
      assert_ (negb (has PTE_W perm) || has PTE_W pe);;
      assert_ (negb (has PTE_U perm) || has PTE_U pe);;
      lookup_l4_loop n (l + 1) m1 a1 (PTE_ADDR pe) va perm) = Ok (m', a', q) ∧
pt_ext root m t m' t' ∧ disjoint_from a' t' ∧
(if has PTE_P (entry m' pt (va_index va l)) then walk n (l + 1) m' (PTE_ADDR (entry m' pt (va_index va l))) va
 else None) = (if q =? 0 then None else Some q) ∧
allocated a1 t1 a' t' (has PTE_P perm && (q =? 0)) ∧
(has PTE_P perm = false ∨ allocator (A := A) = None → t' = t1 ∧ m' = m1).
Proof.
intros IH Hpt Hl0 Hn Hva E Hd1 Hpe HP. pose proof (va_index_range va l) as Hi.
pose proof (ext_wf _ _ _ _ _ E) as Hwf1.
assert (t1 !! pt = Some (l, va_prefix va l)) as Hpt1
  by (eapply lookup_weaken; [done|apply E]).
destruct (wf_entry _ _ _ Hwf1 _ _ _ (va_index va l) Hpt1 ltac:(lia) Hi) as (HW & HU & Hnext);
  [by rewrite Hpe|]. rewrite Hpe in HW, HU, Hnext. rewrite va_prefix_step in Hnext by lia.
destruct (wf_page _ _ _ Hwf1 _ _ _ Hnext) as (_ & Hr1 & _).
rewrite (proj2 (Z.ltb_lt _ _)), HW, HU, !orb_true_r, !assert_true by lia.
destruct (IH _ m1 a1 t1 _ Hwf1 Hnext ltac:(lia) Hva Hd1)
  as (m' & a' & q & t' & -> & E' & Hd' & Hw & Hal & Hsame).
exists m', a', q, t'. split_and!; [done|by eapply pt_ext_trans|done| |done|done].
rewrite (ext_entry _ _ _ _ _ E' _ _ _ _ Hpt1 ltac:(lia) Hi), Hpe, HP by by rewrite Hpe.
done.
Qed.

Lemma lookup_l4_loop_spec n l m a t pt va perm :
pt_wf m root t → t !! pt = Some (l, va_prefix va l) → l + Z.of_nat n = 3 →
canonical va → disjoint_from a t → looks_up n l m a t pt va perm.
Proof.
revert l m a t pt. induction n as [|n IH]; intros l m a t pt Hwf Hpt Hn Hva Hdis; unfold looks_up;
  cbn [lookup_l4_loop walk]; destruct (wf_page _ _ _ Hwf _ _ _ Hpt) as (Hal & Hr & Hl).
{ exists m, a, pt, t. destruct (Z.eqb_spec pt 0); [lia|]. rewrite andb_false_r.
  split_and!; [done|by apply pt_ext_refl|done|done|by apply allocated_nil|done]. }
rewrite pageindex_ok by (unfold canonical in Hva; lia). cbn [mbind res_bind].
pose proof (va_index_range va l) as Hi.
pose proof (λ m1 a1 t1 pe, lookup_down n l m a t pt va perm m1 a1 t1 pe (λ l' m' a' t' pt', IH l' m' a' t' pt') Hpt ltac:(lia) Hn Hva) as Hdown.
set (i := va_index va l) in *.
destruct (has PTE_P (entry m pt i)) eqn:HP; cbn [negb mbind res_bind mret res_ret].
{ destruct (Hdown m a t (entry m pt i)) as (m' & a' & q & t' & ?);
    [by apply pt_ext_refl|done..|]. by exists m', a', q, t'. }
destruct (alloc_entry_spec m a pt i perm)
  as [(-> & Hden & Hsub)|(f & a1 & q1 & -> & Hf & Hfa & Hq1 & Hav & Hsub & HpP & Hall)]; cbn [mbind res_bind].
{ exists m, (alloc_state a perm), 0, t. split_and!; [done|by apply pt_ext_refl| | | |done].
  - intros x Hx. by apply Hdis, Hsub.
  - by rewrite HP.
  - apply allocated_nil. by rewrite andb_true_r. }
destruct (pa_page a q1 Hav) as [Hqa Hqr].
pose proof (Hdis _ Hav) as Hfresh.
destruct (new_pe_spec q1 Hqa Hqr) as (_ & _ & HqP & _).
pose proof (add_page_ext root m t pt l (va_prefix va l) i q1 Hwf Hpt
  ltac:(lia) Hi HP Hfresh Hqa Hqr) as E.
destruct (Hdown _ a1 _ (new_pe q1) E) as (m' & a' & q & t' & ? & ? & ? & ? & ? & ?).
- intros x Hx. destruct (Hsub x Hx) as [Hx1 Hx2].
  rewrite lookup_insert_ne by done. by apply Hdis.
- rewrite (add_page_tree_entry root m t pt l _ i q1 Hwf Hpt Hi Hfresh Hqa Hqr _ _ _ _ Hpt Hi).
  by rewrite decide_True.
- done.
- exists m', a', q, t'. split_and!; try done; [by eapply allocated_cons|]. intros [?|?]; congruence.
Qed.

(** [m'] maps [va, va+len) to [pa, pa+len) with [perm] and is otherwise [m]. *)
Definition mapped (m m' : mem) (va pa len perm : Z) : Prop :=
∀ va', canonical va' → translate m' root va' =
  if decide (va ≤ va' < va + len)
  then if has PTE_P perm then Some (pa + (va' - va), Z.land 7 perm) else None
  else translate m root va'.

(** The walks to leaf tables are those of [m]. *)
Definition same_walks (m m' : mem) : Prop :=
∀ va, canonical va → walk 3 0 m' root va = walk 3 0 m root va.

Lemma mapped_app m m1 m2 va pa pa' len perm :
mapped m m1 va pa PAGESIZE perm → 0 ≤ len → (has PTE_P perm = true → pa' = pa + PAGESIZE) →
mapped m1 m2 (va + PAGESIZE) pa' len perm →
mapped m m2 va pa (PAGESIZE + len) perm.
Proof.
intros H1 Hlen Hpa H2 va' Hva'. rewrite (H2 _ Hva'), (H1 _ Hva').
change PAGESIZE with 4096 in *. solve_decide; try done.
destruct (has PTE_P perm); [|done]. rewrite Hpa by done. do 2 f_equal. lia.
Qed.

Lemma mapped_ext m t m1 t1 m2 va pa len perm :
pt_ext root m t m1 t1 → mapped m1 m2 va pa len perm → mapped m m2 va pa len perm.
Proof.
intros E H1 va' Hva'. rewrite (H1 _ Hva'). case_decide; [done|].
by apply (ext_translate _ _ _ _ _ E).
Qed.

Lemma same_page va va' :
va mod PAGESIZE = 0 →
(va_prefix va' 3 = va_prefix va 3 ∧ va_index va' 3 = va_index va 3) ↔
va ≤ va' < va + PAGESIZE.
Proof.
intros Hva. pose proof (va_prefix_step va 3 ltac:(lia)) as H1.
pose proof (va_prefix_step va' 3 ltac:(lia)) as H2.
pose proof (va_index_range va 3). pose proof (va_index_range va' 3).
change PAGESIZE with 4096 in *.
assert (∀ v, va_prefix v (3 + 1) = v / 4096) as Hp by done. rewrite Hp in *.
pose proof (Z.div_mod va 4096). pose proof (Z.div_mod va' 4096).
pose proof (Z.mod_pos_bound va' 4096). lia.
Qed.

(** Writing a leaf entry changes the translation of one page. *)
Section set_leaf.
Context (m : mem) (t : tree) (va q pe : Z).
Context (Hwf : pt_wf m root t) (Hva : canonical va) (Hal : va mod PAGESIZE = 0).
Context (Hw : walk 3 0 m root va = Some q) (Hpe : 0 ≤ pe < 2 ^ 64).

Abbreviation m' := (set_entry m q (va_index va 3) pe).

Lemma set_leaf_page : t !! q = Some (3, va_prefix va 3).
Proof. by apply (walk_leaf_table (root := root) m). Qed.

Lemma set_leaf_entry pt i :
pt mod PAGESIZE = 0 → 0 ≤ i < 512 →
entry m' pt i = if decide (q = pt ∧ va_index va 3 = i) then pe else entry m pt i.
Proof.
intros Hpt Hi. destruct (wf_page _ _ _ Hwf _ _ _ set_leaf_page) as (Hq & _).
apply entry_set_entry; try done. apply va_index_range.
Qed.

Lemma set_leaf_upper pt l p i :
t !! pt = Some (l, p) → l < 3 → 0 ≤ i < 512 → entry m' pt i = entry m pt i.
Proof.
intros Hpt Hl Hi. destruct (wf_page _ _ _ Hwf _ _ _ Hpt) as (Hpa & _).
rewrite set_leaf_entry by done. rewrite decide_False; [done|].
intros [<- _]. rewrite set_leaf_page in Hpt. simplify_eq. lia.
Qed.

Lemma set_leaf_wf : pt_wf m' root t.
Proof.
split; [apply Hwf..|]. intros pt l p i Hpt Hl Hi.
rewrite (set_leaf_upper _ _ _ _ Hpt) by done. by apply Hwf.
Qed.

Lemma set_leaf_walks : same_walks m m'.
Proof.
intros va' Hva'. apply (walk_ext (root := root) (t := t)); [done| |done|].
- rewrite va_prefix_root by done. apply Hwf.
- intros. by eapply set_leaf_upper.
Qed.

Lemma set_leaf_frame b : ¬ in_tree t b → rd m' b = rd m b.
Proof.
intros Hb. apply rd_set_entry; [apply va_index_range|].
contradict Hb. exists q. by rewrite set_leaf_page.
Qed.

Lemma set_leaf_translate va' :
canonical va' → translate m' root va' =
if decide (va ≤ va' < va + PAGESIZE)
then if has PTE_P pe then Some (PTE_ADDR pe + va' mod PAGESIZE, Z.land 7 pe) else None
else translate m root va'.
Proof.
intros Hva'. unfold translate. rewrite set_leaf_walks by done.
destruct (wf_page _ _ _ Hwf _ _ _ set_leaf_page) as (Hq & _).
case_decide as E.
- apply same_page in E as [E1 E2]; [|done].
rewrite (walk_cong _ _ _ _ va' va), Hw by (done || lia). cbn [mbind option_bind].
unfold leaf. rewrite E2, set_leaf_entry, decide_True by (done || apply va_index_range).
done.
- destruct (walk 3 0 m root va') as [q'|] eqn:Hw'; [|done]. cbn [mbind option_bind].
pose proof (walk_leaf_table m va' q' Hwf Hva' Hw') as Hq'.
destruct (wf_page _ _ _ Hwf _ _ _ Hq') as (Hqa' & _).
unfold leaf. rewrite set_leaf_entry by (done || apply va_index_range).
rewrite decide_False; [done|]. intros [<- E2]. apply E. apply same_page; [done|].
pose proof set_leaf_page. split; [congruence|done].
Qed.
End set_leaf.

(** The write of one page, for a leaf table [l4] (0 when there is none). *)
Definition write_page (m : mem) (l4 va pa perm : Z) : mem :=
if c_true l4 then
  set_entry m l4 (va_index va 3) (if has PTE_P perm then Z.lor pa perm else perm)
else m.

Record phys_ok (pa sz perm : Z) : Prop := PhysOk {
phys_perm : 0 ≤ perm < PAGESIZE;
phys_range : has PTE_P perm = true →
  pa mod PAGESIZE = 0 ∧ 0 ≤ pa ∧ pa + sz ≤ MEMSIZE_PHYSICAL
}.

(** The entries above the leaf tables are those of [m]. *)
Definition same_upper (m m' : mem) (t : tree) : Prop :=
∀ pt l p i, t !! pt = Some (l, p) → l < 3 → 0 ≤ i < 512 → entry m' pt i = entry m pt i.

Definition cached (m : mem) (last l4 : Z) : Prop :=
∀ va, canonical va → va_prefix va 3 = last →
  walk 3 0 m root va = if l4 =? 0 then None else Some l4.

Record write_ok (m : mem) (t : tree) (m' : mem) (va pa perm : Z) : Prop := WriteOk {
write_wf : pt_wf m' root t;
write_mapped : mapped m m' va pa PAGESIZE perm;
write_walks : same_walks m m';
write_frame b : ¬ in_tree t b → rd m' b = rd m b;
write_upper : same_upper m m' t
}.

Lemma write_page_ok m t l4 va pa sz perm :
pt_wf m root t → canonical va → va mod PAGESIZE = 0 → PAGESIZE ≤ sz →
phys_ok pa sz perm → cached m (va_prefix va 3) l4 →
(has PTE_P perm = true → l4 ≠ 0) →
write_ok m t (write_page m l4 va pa perm) va pa perm.
Proof.
intros Hwf Hva Hal Hsz [Hperm Hphys] Hw Hl4.
pose proof (Hw va Hva eq_refl) as Hwva. unfold write_page, c_true.
destruct (Z.eqb_spec l4 0) as [->|Hne]; cbn [negb].
- split; try done. intros va' Hva'. case_decide as E; [|done].
  destruct (has PTE_P perm); [by exfalso; apply Hl4|].
  apply same_page in E as [E _]; [|done]. unfold translate.
  by rewrite (Hw va' Hva' E).
- set (pe := if has PTE_P perm then Z.lor pa perm else perm).
  change PAGESIZE with 4096 in Hperm.
  assert (0 ≤ pe < 2 ^ 64) as Hpe.
  { unfold pe. destruct (has PTE_P perm) eqn:HP; [|lia].
    destruct (Hphys eq_refl) as (Ha & H0' & H1).
    rewrite (lor_add _ _ 12) by (done || lia).
    change MEMSIZE_PHYSICAL with 0x200000 in H1.  change PAGESIZE with 4096 in Hsz. lia. }
  split.
  + by apply (set_leaf_wf m t va l4).
  + intros va' Hva'. rewrite (set_leaf_translate m t) by done.
    case_decide as E; [|done]. unfold pe.
    destruct (has PTE_P perm) eqn:HP; [|by rewrite HP].
    destruct (Hphys eq_refl) as (Ha & H0' & H1).
    rewrite (has_lor_aligned 0 pa perm Ha ltac:(lia) : has PTE_P _ = has PTE_P _), HP.
    change MEMSIZE_PHYSICAL with 0x200000 in H1. change PAGESIZE with 4096 in *.
    rewrite PTE_ADDR_lor, land7_lor_aligned by (done || lia).
    do 2 f_equal. pose proof (mod_add_aligned va (va' - va) 4096).
    replace (va + (va' - va)) with va' in * by lia. lia.
  + by apply (set_leaf_walks m t).
  + by apply (set_leaf_frame m t va).
  + intros pt l p i. by apply (set_leaf_upper m t va).
Qed.

(** What a call of [map_loop] from [m] establishes. *)
Record map_post (m : mem) (a : A) (t : tree) (va pa sz perm : Z)
  (m' : mem) (a' : A) (t' : tree) (r len : Z) : Prop := MapPost {
post_wf : pt_wf m' root t';
post_sub : t ⊆ t';
post_disj : disjoint_from a' t';
post_frame b : ¬ in_tree t' b → rd m' b = rd m b;
post_walk va' q : canonical va' → walk 3 0 m root va' = Some q → walk 3 0 m' root va' = Some q;
post_len : 0 ≤ len ≤ sz;
post_mapped : mapped m m' va pa len perm;
post_result : (r = 0 ∧ len = sz) ∨
  (r = -1 ∧ has PTE_P perm = true ∧ len < sz ∧ walk 3 0 m root (va + len) = None);
post_alloc : allocated a t a' t' (negb (r =? 0));
post_null : has PTE_P perm = false ∨ allocator (A := A) = None → t' = t ∧ same_upper m m' t
}.

Lemma ext_walk m t m' t' va q :
pt_wf m root t → pt_ext root m t m' t' → canonical va →
walk 3 0 m root va = Some q → walk 3 0 m' root va = Some q.
Proof.
intros Hwf E Hva. apply (walk_mono (root := root) (t := t)); [done| |done|apply E].
rewrite va_prefix_root by done. apply Hwf.
Qed.

(** Composing: extend, write one page, then the rest of the loop. *)
Lemma map_post_step m a t va pa sz perm m1 a1 t1 m2 m' a' t' r len pa' :
pt_wf m root t → pt_ext root m t m1 t1 → allocated a t a1 t1 false →
(has PTE_P perm = false ∨ allocator (A := A) = None → t1 = t ∧ m1 = m) →
canonical va → va + sz ≤ 2 ^ 48 → (has PTE_P perm = true → pa' = pa + PAGESIZE) →
write_ok m1 t1 m2 va pa perm →
map_post m2 a1 t1 (va + PAGESIZE) pa' (sz - PAGESIZE) perm m' a' t' r len →
map_post m a t va pa sz perm m' a' t' r (PAGESIZE + len).
Proof.
intros Hwf E Hal Hnull Hva Hsz Hpa W P. split.
- apply P.
- etrans; [apply E|apply P].
- apply P.
- intros b Hb. rewrite (post_frame _ _ _ _ _ _ _ _ _ _ _ _ P) by done.
  assert (¬ in_tree t1 b) by (contradict Hb; eapply in_tree_mono; [apply P|done]).
  rewrite (write_frame _ _ _ _ _ _ W) by done. by apply E.
- intros va' q Hva' Hw. apply P; [done|]. rewrite (write_walks _ _ _ _ _ _ W) by done.
  by eapply ext_walk.
- pose proof (post_len _ _ _ _ _ _ _ _ _ _ _ _ P). change PAGESIZE with 4096 in *. lia.
- eapply mapped_ext; [exact E|]. eapply mapped_app; [apply W| |exact Hpa|apply P].
  apply P.
- pose proof (post_len _ _ _ _ _ _ _ _ _ _ _ _ P) as Hlen.
  destruct (post_result _ _ _ _ _ _ _ _ _ _ _ _ P) as [[-> ->]|(-> & HP & Hlt & Hw)].
  + left. split; [done|lia].
  + right. split_and!; [done..|lia|].
    destruct (walk 3 0 m root (va + (PAGESIZE + len))) as [q|] eqn:Hq; [|done].
    assert (canonical (va + (PAGESIZE + len))) as Hva2.
    { change PAGESIZE with 4096 in *. unfold canonical in *. lia. }
    apply (ext_walk m t m1 t1) in Hq; [|done..].
    rewrite <- (write_walks _ _ _ _ _ _ W) in Hq by done.
    rewrite Z.add_assoc in Hq. congruence.
- eapply allocated_trans; [exact Hal|apply P].
- intros Hn. destruct (Hnull Hn) as [-> ->]. destruct (post_null _ _ _ _ _ _ _ _ _ _ _ _ P Hn) as [-> Hu].
  split; [done|]. intros pt l p i Hpt Hl Hi. rewrite (Hu _ _ _ _ Hpt Hl Hi).
  by apply (write_upper _ _ _ _ _ _ W pt l p i).
Qed.

Lemma map_post_here m a t va pa sz perm m1 a1 t1 r :
pt_wf m root t → pt_ext root m t m1 t1 → disjoint_from a1 t1 → 0 ≤ sz →
allocated a t a1 t1 (negb (r =? 0)) →
(has PTE_P perm = false ∨ allocator (A := A) = None → t1 = t ∧ m1 = m) →
(r = 0 ∧ sz = 0) ∨ (r = -1 ∧ has PTE_P perm = true ∧ 0 < sz ∧ walk 3 0 m root va = None) →
map_post m a t va pa sz perm m1 a1 t1 r 0.
Proof.
intros Hwf E Hd Hsz Hal Hn Hr. split; try apply E; try done.
- intros va' q. by eapply ext_walk.
- intros va' Hva'. rewrite decide_False by lia. by apply E.
- rewrite Z.add_0_r. destruct Hr as [[??]|(?&?&?&?)]; [by left|by right].
- intros Hp. destruct (Hn Hp) as [-> ->]. by split.
Qed.

Lemma cur_index va : canonical va →
i32 (Z.shiftr va (PAGEOFFBITS + PAGEINDEXBITS)) = va_prefix va 3 ∧ 0 ≤ va_prefix va 3.
Proof.
intros Hva. change (PAGEOFFBITS + PAGEINDEXBITS) with 21. unfold va_prefix.
change (48 - 9 * 3) with 21. rewrite Z.shiftr_div_pow2 by lia. unfold canonical in Hva.
change (2 ^ 48) with (2 ^ 27 * 2 ^ 21) in Hva.
pose proof (Z.div_lt_upper_bound va (2 ^ 21) (2 ^ 27)). pose proof (Z.div_pos va (2 ^ 21)).
split; [|lia]. apply (wrapS_small 32); lia.
Qed.

(** The lookup of a new 2 MiB region, or the table of the last one. *)
Lemma cached_lookup m a t va perm last l4 :
pt_wf m root t → disjoint_from a t → canonical va →
(last = -1 ∨ (cached m last l4 ∧ (has PTE_P perm = true → l4 ≠ 0))) →
∃ m' a' t' l4',
  (if negb (va_prefix va 3 =? last) then lookup_l4pagetable m a root va perm
   else Ok (m, a, l4)) = Ok (m', a', l4') ∧
  pt_ext root m t m' t' ∧ disjoint_from a' t' ∧ cached m' (va_prefix va 3) l4' ∧
  allocated a t a' t' (has PTE_P perm && (l4' =? 0)) ∧
  (has PTE_P perm = false ∨ allocator (A := A) = None → t' = t ∧ m' = m).
Proof.
intros Hwf Hd Hva Hc. destruct (Z.eqb_spec (va_prefix va 3) last) as [El|_]; cbn [negb].
- destruct Hc as [Hc|[Hc Hl4]]; [pose proof (cur_index va Hva); lia|].
  exists m, a, t, l4. split_and!; [done|by apply pt_ext_refl|done|by rewrite El| |done].
  apply allocated_nil. destruct (has PTE_P perm); [|done]. by destruct (Z.eqb_spec l4 0); [destruct Hl4|].
- destruct (lookup_l4_loop_spec 3 0 m a t root va perm) as (m' & a' & q & t' & ? & ? & ? & Hw & Hal & Hn);
    [done| |done..|].
  { rewrite va_prefix_root by done. apply Hwf. }
  exists m', a', t', q. split_and!; [done..| |done|intros Hp; by apply Hn].
  intros va' Hva' El. rewrite (walk_cong _ _ _ _ va' va) by (done || lia). done.
Qed.

(** The arguments of the next iteration. *)
Lemma next_page va pa sz perm :
va mod PAGESIZE = 0 → sz mod PAGESIZE = 0 → 0 ≤ va → 0 ≤ sz → sz ≠ 0 → va + sz ≤ 2 ^ 48 → phys_ok pa sz perm →
canonical va ∧ PAGESIZE ≤ sz ∧ u64 (va + PAGESIZE) = va + PAGESIZE ∧ u64 (sz - PAGESIZE) = sz - PAGESIZE ∧
(va + PAGESIZE) mod PAGESIZE = 0 ∧ (sz - PAGESIZE) mod PAGESIZE = 0 ∧
phys_ok (u64 (pa + PAGESIZE)) (sz - PAGESIZE) perm ∧
(has PTE_P perm = true → u64 (pa + PAGESIZE) = pa + PAGESIZE) ∧
(sz - PAGESIZE) / PAGESIZE = sz / PAGESIZE - 1.
Proof.
intros Hva Hsz Hva0 Hsz0 Hne Hend [Hperm Hp].
assert (PAGESIZE ≤ sz) as Hsz1
  by (change PAGESIZE with 4096 in *; pose proof (Z.div_mod sz 4096); lia).
assert (has PTE_P perm = true → u64 (pa + PAGESIZE) = pa + PAGESIZE) as Hpa.
{ intros HP. destruct (Hp HP) as (_ & ? & ?). change MEMSIZE_PHYSICAL with 0x200000 in *.
  change PAGESIZE with 4096 in *. apply wrapU_small. lia. }
change PAGESIZE with 4096 in *.
split_and!; [split; lia|lia|apply wrapU_small; lia|apply wrapU_small; lia
  |by rewrite Zplus_mod, Hva|by rewrite Zminus_mod, Hsz| |done|].
- split; [done|]. intros HP. destruct (Hp HP) as (Hal & ? & ?). rewrite Hpa by done.
  change PAGESIZE with 4096 in *. split_and!; [by rewrite Zplus_mod, Hal|lia|lia].
- replace (sz - 4096) with (sz + (-1) * 4096) by lia. by rewrite Z.div_add by lia.
Qed.

Lemma map_loop_spec fuel m a t va pa sz perm last l4 :
pt_wf m root t → disjoint_from a t → va mod PAGESIZE = 0 → sz mod PAGESIZE = 0 →
0 ≤ va → 0 ≤ sz → va + sz ≤ 2 ^ 48 → phys_ok pa sz perm →
(last = -1 ∨ (cached m last l4 ∧ (has PTE_P perm = true → l4 ≠ 0))) → sz / PAGESIZE < Z.of_nat fuel →
∃ m' a' t' r len, map_loop fuel m a root va pa sz perm last l4 = Ok (m', a', r) ∧
  map_post m a t va pa sz perm m' a' t' r len.
Proof.
revert m a t va pa sz last l4. induction fuel as [|fuel IH];
  intros m a t va pa sz last l4 Hwf Hd Hva Hsz Hva0 Hsz0 Hend Hphys Hc Hfuel.
{ pose proof (Z.div_pos sz PAGESIZE). change PAGESIZE with 4096 in *. lia. }
cbn [map_loop]. destruct (Z.eqb_spec sz 0) as [->|Hne].
{ exists m, a, t, 0, 0. split; [done|]. apply map_post_here; auto; [by apply pt_ext_refl|].
  by apply allocated_nil. }
destruct (next_page va pa sz perm Hva Hsz Hva0 Hsz0 Hne Hend Hphys)
  as (Hcan & Hsz1 & Eva & Esz & Hva' & Hsz' & Hphys' & Epa & Ediv).
destruct (cur_index va Hcan) as [-> Hidx0].
destruct (cached_lookup m a t va perm last l4 Hwf Hd Hcan Hc)
  as (m1 & a1 & t1 & l4' & -> & E & Hd1 & Hc1 & Hal1 & Hnull). cbn [mbind res_bind].
rewrite pageindex_ok by lia. cbn [mbind res_bind].
pose proof (ext_wf _ _ _ _ _ E) as Hwf1.
destruct (has PTE_P perm && negb (c_true l4'))%bool eqn:Hfail.
{ apply andb_true_iff in Hfail as [HP Hl4]. apply negb_true_iff in Hl4.
  rewrite HP, Hl4. cbn [andb]. exists m1, a1, t1, (-1), 0. split; [done|].
  apply map_post_here; try done.
  { rewrite HP in Hal1. unfold c_true in Hl4. apply negb_false_iff in Hl4. by rewrite Hl4 in Hal1. }
  right. split_and!; [done..|lia|].
  destruct (walk 3 0 m root va) as [q|] eqn:Hq; [|done].
  apply (ext_walk m t m1 t1) in Hq; [|done..].
  rewrite (Hc1 va Hcan eq_refl) in Hq. unfold c_true in Hl4.
  by destruct (l4' =? 0). }
assert (has PTE_P perm = true → l4' ≠ 0) as Hl4.
{ intros HP ->. by rewrite HP in Hfail. }
assert (allocated a t a1 t1 false) as Hal2.
{ destruct (has PTE_P perm); [|done]. destruct (Z.eqb_spec l4' 0); [by destruct Hl4|done]. }
destruct (write_page_ok m1 t1 l4' va pa sz perm) as [Hwf2 Hm2 Hw2 Hf2 Hu2]; try done.
set (m2 := write_page m1 l4' va pa perm) in *.
rewrite Eva, Esz.
destruct (IH m2 a1 t1 (va + PAGESIZE) (u64 (pa + PAGESIZE)) (sz - PAGESIZE)
            (va_prefix va 3) l4') as (m' & a' & t' & r & len & Hrun & P); try done; try lia.
- change PAGESIZE with 4096. lia.
- right. split; [|done]. intros w Hw El. rewrite Hw2 by done. by apply Hc1.
- exists m', a', t', r, (PAGESIZE + len). split.
  + rewrite <- Hrun. unfold m2, write_page.
    destruct (has PTE_P perm), (c_true l4'); done.
  + eapply map_post_step; [exact Hwf|exact E|exact Hal2|done|done|lia|exact Epa|by split|exact P].
Qed.
End map_proofs.

Section map_correct.
Context {A : Type} `{PageAllocatorLaws A} (root : Z).

Lemma virtual_memory_map_correct (m : mem) (a : A) t va pa sz perm :
pt_wf m root t → disjoint_from a t → va mod PAGESIZE = 0 → sz mod PAGESIZE = 0 →
0 ≤ va → 0 ≤ sz → va + sz ≤ 2 ^ 48 → phys_ok pa sz perm →
∃ m' a' t' r len, virtual_memory_map m a root va pa sz perm = Ok (m', a', r) ∧
  map_post root m a t va pa sz perm m' a' t' r len.
Proof.
intros Hwf Hd Hva Hsz Hva0 Hsz0 Hend Hphys. pose proof Hphys as [Hperm Hp].
destruct (wf_page _ _ _ Hwf _ _ _ (wf_root _ _ _ Hwf)) as (Hroot & _).
unfold virtual_memory_map. rewrite Hva, Hsz, Hroot.
rewrite (wrapU_small 64 (va + sz)) by lia.
replace (va + sz >=? va)%Z with true by lia.
replace ((0 <=? perm) && (perm <? 0x1000))%bool with true
  by (change PAGESIZE with 4096 in Hperm; lia).
rewrite !assert_true.
assert ((if has PTE_P perm then
   assert_ (pa mod PAGESIZE =? 0);; assert_ (u64 (pa + sz) >=? pa);;
   assert_ (u64 (pa + sz) <=? MEMSIZE_PHYSICAL) else Ok tt) = Ok tt) as ->.
{ destruct (has PTE_P perm); [|done]. destruct Hp as (-> & ? & ?); [done|].
  change MEMSIZE_PHYSICAL with 0x200000 in *. rewrite (wrapU_small 64) by lia.
  replace (pa + sz >=? pa)%Z with true by lia.
  by replace (pa + sz <=? 0x200000)%Z with true by lia. }
cbn [mbind res_bind]. cbn [assert_].
eapply map_loop_spec; try done; [by left|].
pose proof (Z.div_pos sz PAGESIZE). change PAGESIZE with 4096 in *. lia.
Qed.
End map_correct.

(** ** Lookup *)
Lemma land7_flags pe : u8 (Z.land 7 (PTE_FLAGS pe)) = Z.land 7 pe.
Proof.
  unfold PTE_FLAGS. rewrite (Z.land_comm pe), Z.land_assoc. change (Z.land 7 0xFFF) with 7.
  apply (wrapU_small 8). rewrite Z.land_comm. change 7 with (Z.ones 3).
  rewrite Z.land_ones by lia. pose proof (Z.mod_pos_bound pe (2 ^ 3)). lia.
Qed.

Lemma has_land7 pe : has PTE_P (Z.land 7 pe) = has PTE_P pe.
Proof.
  change PTE_P with (2 ^ 0). rewrite !has_pow2, Z.land_spec by lia. done.
Qed.

Lemma land7_full pe :
  has PTE_P pe = true → has PTE_W pe = true → has PTE_U pe = true → Z.land 7 pe = 7.
Proof.
  change PTE_P with (2 ^ 0). change PTE_W with (2 ^ 1). change PTE_U with (2 ^ 2).
  rewrite !has_pow2 by lia. intros H0 H1 H2. apply Z.bits_inj'. intros i Hi.
  rewrite Z.land_spec. destruct (decide (i < 3)).
  - assert (i = 0 ∨ i = 1 ∨ i = 2) as [->|[->| ->]] by lia; by rewrite ?H0, ?H1, ?H2.
  - by rewrite (testbit_small 7 3) by lia.
Qed.

Lemma lookup_loop_S n l m pt va pe perms :
  0 ≤ va → 0 ≤ l ≤ 3 → has PTE_P perms = true →
  let pe' := entry m pt (va_index va l) in
  lookup_loop (S n) l m pt va pe perms =
    lookup_loop n (l + 1) m (PTE_ADDR pe') va pe' (u8 (Z.land perms (PTE_FLAGS pe'))).
Proof. intros Hva Hl HP. cbn [lookup_loop]. by rewrite HP, pageindex_ok. Qed.

Lemma lookup_loop_spec root m t va n l pt pe0 :
  pt_wf m root t → canonical va → t !! pt = Some (l, va_prefix va l) → l + Z.of_nat n = 3 →
  ∃ r, lookup_loop (S n) l m pt va pe0 7 = Ok r ∧
    match walk n l m pt va with
    | Some q => r = (entry m q (va_index va 3), Z.land 7 (entry m q (va_index va 3)))
    | None => has PTE_P r.2 = false
    end.
Proof.
  intros Hwf Hva. revert l pt pe0. induction n as [|n IH]; intros l pt pe0 Hpt Hn;
    destruct (wf_page _ _ _ Hwf _ _ _ Hpt) as (_ & _ & Hl); cbn [walk];
    rewrite lookup_loop_S, land7_flags by (done || unfold canonical in Hva; lia).
  - replace l with 3 by lia. cbn [lookup_loop]. eauto.
  - pose proof (va_index_range va l) as Hi.
    destruct (has PTE_P (entry m pt (va_index va l))) eqn:HP.
    + destruct (wf_entry _ _ _ Hwf _ _ _ _ Hpt ltac:(lia) Hi HP) as (HW & HU & Hnext).
      rewrite va_prefix_step in Hnext by lia. rewrite land7_full by done.
      apply (IH _ _ _ Hnext). lia.
    + set (perms := Z.land 7 _). assert (has PTE_P perms = false) as Hpf
        by (unfold perms; by rewrite has_land7).
      exists (entry m pt (va_index va l), perms). split; [|done].
      destruct n; cbn [lookup_loop]; by rewrite Hpf.
Qed.

Lemma virtual_memory_lookup_correct root m t va :
  pt_wf m root t → canonical va →
  virtual_memory_lookup m root va =
    Ok (match translate m root va with
        | Some (pa, perm) => VaMapping (i32 (pa / PAGESIZE)) pa perm
        | None => VaMapping (-1) (2 ^ 64 - 1) 0
        end).
Proof.
  intros Hwf Hva. unfold virtual_memory_lookup, translate.
  destruct (lookup_loop_spec root m t va 3 0 root 0 Hwf Hva) as ([pe perms] & Hrun & Hr);
    [rewrite va_prefix_root by done; apply Hwf|done|].
  change (Z.lor PTE_W (Z.lor PTE_U PTE_P)) with 7. rewrite Hrun. cbn [mbind res_bind].
  destruct (walk 3 0 m root va) as [q|]; cbn [mbind option_bind].
  - injection Hr as -> ->. unfold leaf. rewrite has_land7.
    destruct (has PTE_P _); [|done]. f_equal.
    pose proof (entry_range m q (va_index va 3)) as Hpe. set (pe := entry m q _) in *.
    unfold PAGENUMBER, PAGEOFFSET. change PAGEOFFMASK with (Z.ones 12).
    rewrite PTE_ADDR_spec, Z.land_ones, Z.shiftr_div_pow2 by (done || lia).
    change (2 ^ PAGEOFFBITS) with 4096. change (2 ^ 12) with 4096. change PAGESIZE with 4096.
    pose proof (Z.mod_pos_bound va 4096). pose proof (Z.mod_pos_bound pe 4096).
    pose proof (Z.div_mod pe 4096). pose proof (Z.div_lt_upper_bound pe 4096 (2 ^ 52)).
    f_equal; [|apply (wrapU_small 64); lia].
    f_equal. replace (pe - pe mod 4096) with (pe / 4096 * 4096) by lia.
    rewrite Z.div_add_l, (Z.div_small (va mod 4096)) by lia. lia.
  - cbn in Hr. by rewrite Hr.
Qed.

(** ** The kernel's initial page tables *)
Section init.
Context (sy : symbols) (m : mem).
Abbreviation kp := (kernel_pagetables sy).
Context (Hal : kp mod PAGESIZE = 0) (Hkp : 0 < kp) (Hend : kp + 5 * PAGESIZE ≤ MEMSIZE_PHYSICAL).

Definition kpage (j : Z) : Z := kp + PAGESIZE * j.

Definition init_tables : mem :=
let m := (memset m (kpage 0) 0 (5 * PAGESIZE)).1 in
let m := set_entry m (kpage 0) 0 (new_pe (kpage 1)) in
let m := set_entry m (kpage 1) 0 (new_pe (kpage 2)) in
let m := set_entry m (kpage 2) 0 (new_pe (kpage 3)) in
set_entry m (kpage 2) 1 (new_pe (kpage 4)).

Definition init_tree : tree :=
<[kpage 0 := (0, 0)]> (<[kpage 1 := (1, 0)]> (<[kpage 2 := (2, 0)]>
  (<[kpage 3 := (3, 0)]> (<[kpage 4 := (3, 1)]> ∅)))).

Lemma kpage_ok j : 0 ≤ j ≤ 4 → kpage j mod PAGESIZE = 0 ∧ 0 < kpage j < MEMSIZE_PHYSICAL.
Proof.
intros Hj. unfold kpage. split.
- rewrite Zplus_mod, Hal, (Z.mul_comm PAGESIZE), Z_mod_mult. done.
- change PAGESIZE with 4096 in *. lia.
Qed.

Lemma init_tree_lookup pt l p : init_tree !! pt = Some (l, p) →
∃ j, 0 ≤ j ≤ 4 ∧ pt = kpage j ∧ l = Z.min j 3 ∧ p = Z.max 0 (j - 3).
Proof.
unfold init_tree. rewrite !lookup_insert, lookup_empty. intros H.
repeat case_decide; simplify_eq; [exists 0|exists 1|exists 2|exists 3|exists 4]; lia.
Qed.

Lemma init_tree_page j : 0 ≤ j ≤ 4 →
init_tree !! kpage j = Some (Z.min j 3, Z.max 0 (j - 3)).
Proof.
intros Hj. unfold init_tree, kpage. change PAGESIZE with 4096. rewrite !lookup_insert.
assert (j = 0 ∨ j = 1 ∨ j = 2 ∨ j = 3 ∨ j = 4) as [->|[->|[->|[->| ->]]]] by lia;
  by solve_decide.
Qed.

Lemma init_entry j i : 0 ≤ j ≤ 4 → 0 ≤ i < 512 →
entry init_tables (kpage j) i =
  if decide (j = 2 ∧ i = 1) then new_pe (kpage 4)
  else if decide (j < 3 ∧ i = 0) then new_pe (kpage (j + 1)) else 0.
Proof.
intros Hj Hi. unfold init_tables.
assert (∀ k, 0 ≤ k ≤ 4 → 0 ≤ new_pe (kpage k) < 2 ^ 64) as Hpe.
{ intros k Hk. destruct (kpage_ok k Hk). by apply new_pe_spec. }
assert (∀ k, 0 ≤ k ≤ 4 → kpage k = kpage j ↔ k = j) as Hinj.
{ intros k Hk. unfold kpage. change PAGESIZE with 4096. lia. }
rewrite !entry_set_entry by (try apply kpage_ok; try apply Hpe; lia).
assert (entry (memset m (kpage 0) 0 (5 * PAGESIZE)).1 (kpage j) i = 0) as ->.
{ apply ldn_zero. intros b Hb. rewrite memset_rd by done. rewrite decide_True; [done|].
  unfold kpage in *. change PAGESIZE with 4096 in *. lia. }
pose proof (Hinj 0). pose proof (Hinj 1). pose proof (Hinj 2).
repeat case_decide; try (exfalso; lia); try done;
  do 2 f_equal; unfold kpage; lia.
Qed.

Lemma init_wf : pt_wf init_tables (kpage 0) init_tree.
Proof.
split.
- apply (init_tree_page 0). lia.
- intros pt l p (j & Hj & -> & -> & ->)%init_tree_lookup.
  split_and!; [apply kpage_ok..| |]; lia.
- intros pt l p i (j & Hj & -> & -> & ->)%init_tree_lookup Hl Hi.
  rewrite init_entry by done. repeat case_decide; [| |done].
  + intros _. destruct (kpage_ok 4) as [H1 H2]; [lia|].
    destruct (new_pe_spec _ H1 H2) as (_ & -> & _ & -> & ->).
    rewrite init_tree_page by lia. split_and!; [done..|]. f_equal. f_equal; lia.
  + intros _. destruct (kpage_ok (j + 1)) as [H1 H2]; [lia|].
    destruct (new_pe_spec _ H1 H2) as (_ & -> & _ & -> & ->).
    rewrite init_tree_page by lia. split_and!; [done..|]. f_equal. f_equal; lia.
Qed.

Lemma init_walk va : 0 ≤ va < 2 ^ 21 → walk 3 0 init_tables (kpage 0) va = Some (kpage 3).
Proof.
intros Hva.
assert (∀ n l, 0 ≤ l < 3 → walk (S n) l init_tables (kpage l) va
               = walk n (l + 1) init_tables (kpage (l + 1)) va) as Hstep.
{ intros n l Hl. cbn [walk].
  assert (va_index va l = 0) as ->.
  { unfold va_index. rewrite Z.div_small; [done|]. split; [lia|].
    apply Z.lt_le_trans with (2 ^ 21); [lia|]. apply Z.pow_le_mono_r; lia. }
  rewrite init_entry, decide_False, decide_True by lia.
  destruct (kpage_ok (l + 1)) as [H1 H2]; [lia|].
  by destruct (new_pe_spec _ H1 H2) as (_ & -> & -> & _). }
by rewrite !Hstep.
Qed.

Lemma init_leaves_empty va : canonical va → translate init_tables (kpage 0) va = None.
Proof.
intros Hva. unfold translate.
destruct (walk 3 0 init_tables (kpage 0) va) as [q|] eqn:Hq; [|done].
apply (walk_leaf_table (root := kpage 0) (t := init_tree)) in Hq; [|apply init_wf|done].
apply init_tree_lookup in Hq as (j & Hj & -> & ? & _).
cbn [mbind option_bind]. unfold leaf.
rewrite init_entry by (lia || apply va_index_range). by solve_decide.
Qed.

Lemma init_frame b : ¬ in_tree init_tree b → rd init_tables b = rd m b.
Proof.
intros Hb. assert (∀ j, 0 ≤ j ≤ 4 → ¬ (kpage j ≤ b < kpage j + PAGESIZE)) as Hj.
{ intros j Hj Hin. apply Hb. exists (kpage j). by rewrite init_tree_page. }
unfold init_tables. rewrite !rd_set_entry by (done || apply Hj; lia).
rewrite memset_rd by done. rewrite decide_False; [done|].
pose proof (Hj 0). pose proof (Hj 1). pose proof (Hj 2). pose proof (Hj 3). pose proof (Hj 4).
unfold kpage in *. change PAGESIZE with 4096 in *. lia.
Qed.

#[local] Opaque memset virtual_memory_map set_entry.
Lemma virtual_memory_init_correct : ∃ m',
virtual_memory_init sy m = Ok (m', kp) ∧ pt_wf m' kp init_tree ∧
(∀ va, canonical va → translate m' kp va =
   if decide (va < MEMSIZE_PHYSICAL) then Some (va, 7) else None) ∧
(∀ va, 0 ≤ va < 2 ^ 21 → walk 3 0 m' kp va = Some (kpage 3)) ∧
same_upper init_tables m' init_tree ∧
(∀ b, ¬ in_tree init_tree b → rd m' b = rd m b).
Proof.
assert (kpage 0 = kp) as Hk0 by (unfold kpage; lia).
destruct (virtual_memory_map_correct (kpage 0) init_tables tt init_tree 0 0 MEMSIZE_PHYSICAL 7)
  as (m' & [] & t' & r & len & Hrun & P); [apply init_wf|by intros ? []|done..|].
destruct (post_null _ _ _ _ _ _ _ _ _ _ _ _ _ P (or_intror eq_refl)) as [-> Hup].
exists m'. assert (r = 0 ∧ len = MEMSIZE_PHYSICAL) as [-> ->].
{ destruct (post_result _ _ _ _ _ _ _ _ _ _ _ _ _ P) as [?|(_ & _ & Hlt & Hnone)]; [done|].
  pose proof (post_len _ _ _ _ _ _ _ _ _ _ _ _ _ P).
  change MEMSIZE_PHYSICAL with (2 ^ 21) in *. by rewrite init_walk in Hnone by lia. }
split_and!.
- unfold virtual_memory_init. fold (kpage 0) (kpage 1) (kpage 2) (kpage 3) (kpage 4).
  assert (∀ j, 0 ≤ j ≤ 4 → Z.lor (kpage j) (Z.lor PTE_P (Z.lor PTE_W PTE_U)) = new_pe (kpage j)) as Hpe.
  { intros j Hj. unfold new_pe. destruct (kpage_ok j Hj) as [Ha Hr].
    change MEMSIZE_PHYSICAL with 0x200000 in *. rewrite PTE_ADDR_spec, Ha by lia.
    by rewrite Z.sub_0_r. }
  cbv zeta. rewrite !Hpe by lia. change (Z.lor PTE_P (Z.lor PTE_W PTE_U)) with 7.
  unfold init_tables in Hrun. rewrite Hrun. cbn [mbind res_bind]. by rewrite Hk0.
- rewrite <- Hk0. apply P.
- intros va Hva. rewrite <- Hk0, (post_mapped _ _ _ _ _ _ _ _ _ _ _ _ _ P _ Hva).
  rewrite init_leaves_empty by done. unfold canonical in Hva.
  solve_decide; try done. cbn. do 2 f_equal. lia.
- intros va Hva. rewrite <- Hk0. apply P; [|by apply init_walk]. unfold canonical. lia.
- exact Hup.
- intros b Hb. rewrite (post_frame _ _ _ _ _ _ _ _ _ _ _ _ _ P) by done.
  by apply init_frame.
Qed.
End init.

(** With its leaf tables in place, the kernel's call (NULL allocator) succeeds. *)
Lemma virtual_memory_map_null root m t va pa sz perm :
  pt_wf m root t → va mod PAGESIZE = 0 → sz mod PAGESIZE = 0 →
  0 ≤ va → 0 ≤ sz → va + sz ≤ 2 ^ 48 → phys_ok pa sz perm →
  (∀ va', va ≤ va' < va + sz → is_Some (walk 3 0 m root va')) →
  ∃ m', virtual_memory_map m tt root va pa sz perm = Ok (m', tt, 0) ∧
    map_post root m tt t va pa sz perm m' tt t 0 sz.
Proof.
  intros Hwf Hva Hsz Hva0 Hsz0 Hend Hphys Hw.
  destruct (virtual_memory_map_correct root m tt t va pa sz perm)
    as (m' & [] & t' & r & len & Hrun & P); [done|by intros ? []|done..|].
  assert (t' = t) as -> by (apply P; by right).
  destruct (post_result _ _ _ _ _ _ _ _ _ _ _ _ _ P) as [[-> ->]|(_ & _ & Hlt & Hnone)].
  - eauto.
  - pose proof (post_len _ _ _ _ _ _ _ _ _ _ _ _ _ P).
    destruct (Hw (va + len)) as [q Hq]; [lia|congruence].
Qed.

(** A page allocator that hands out [a, 0x90000) page by page. *)
Definition bump_limit : Z := 0x90000.
#[export] Instance bump_allocator : PageAllocator Z :=
  {| allocator := Some (λ a, if decide (a mod PAGESIZE = 0 ∧ 0 < a < bump_limit)
                             then (a + PAGESIZE, a) else (a, 0));
     pa_avail a q := q mod PAGESIZE = 0 ∧ 0 < q ∧ a ≤ q < bump_limit |}.
#[export] Instance bump_allocator_laws : PageAllocatorLaws Z.
Proof.
  split.
  - intros f a a' p [= <-]. case_decide as E; intros [= <- <-].
    + cbn. change PAGESIZE with 4096 in *. split; [right; split; lia|intros q; lia].
    + split; [by left|done].
  - intros a q (? & ? & ?). change MEMSIZE_PHYSICAL with 0x200000.
    unfold bump_limit in *. lia.
Qed.

(** ** Properties *)

(** C16. [virtual_memory_map] implements its comment over any lawful allocator.
    On a well-formed table tree and a page-aligned canonical range it runs to
    completion; the tree stays well-formed, is extended by exactly the pages the
    allocator gave out and no memory outside it changes.  A prefix of [len] bytes of
    the range gets the requested mapping ([pa + X] with [perm], or none when [perm]
    lacks PTE_P) and every other translation is untouched.  The result is 0, with the
    whole range mapped and no allocation refused; or -1, when a present mapping was
    requested, there was no leaf table at [va + len], and the last call of the
    allocator returned NULL (or there is no allocator to call).  In particular -1
    never comes back when all tables exist. *)
Theorem virtual_memory_map_spec {A : Type} `{PageAllocatorLaws A}
    root m (a : A) t va pa sz perm :
  pt_wf m root t → disjoint_from a t → va mod PAGESIZE = 0 → sz mod PAGESIZE = 0 →
  0 ≤ va → 0 ≤ sz → va + sz ≤ 2 ^ 48 → phys_ok pa sz perm →
  ∃ m' a' t' r len ps a1, virtual_memory_map m a root va pa sz perm = Ok (m', a', r) ∧
    pt_wf m' root t' ∧ t ⊆ t' ∧ disjoint_from a' t' ∧
    granted a ps a1 ∧ (∀ q, is_Some (t' !! q) ↔ is_Some (t !! q) ∨ q ∈ ps) ∧
    (∀ b, ¬ in_tree t' b → rd m' b = rd m b) ∧ 0 ≤ len ≤ sz ∧
    (∀ va', canonical va' → translate m' root va' =
       if decide (va ≤ va' < va + len)
       then if has PTE_P perm then Some (pa + (va' - va), Z.land 7 perm) else None
       else translate m root va') ∧
    ((r = 0 ∧ len = sz ∧ a' = a1) ∨
     (r = -1 ∧ has PTE_P perm = true ∧ len < sz ∧ walk 3 0 m root (va + len) = None ∧ denied a1 a')).
Proof.
  intros Hwf Hd Hva Hsz Hva0 Hsz0 Hend Hphys.
  destruct (virtual_memory_map_correct root m a t va pa sz perm)
    as (m' & a' & t' & r & len & Hrun & []); [done..|].
  destruct post_alloc0 as (ps & a1 & Hg & Hdom & Hr).
  exists m', a', t', r, len, ps, a1. split_and!; try (done || lia).
  destruct post_result0 as [[-> ?]|(-> & ? & ? & ?)]; [by left|by right].
Qed.

Definition ex_symbols : symbols := Symbols 0x50000 0x48000 0x60000 0x40200 0x40800.

Lemma virtual_memory_map_spec_witness :
  ∃ m' a' t' r len ps a1,
    virtual_memory_map (init_tables ex_symbols ∅) 0x70000 (kpage ex_symbols 0) 0x40000000 0x100000
      0x2000 7 = Ok (m', a', r) ∧
    pt_wf m' (kpage ex_symbols 0) t' ∧ init_tree ex_symbols ⊆ t' ∧ disjoint_from a' t' ∧
    granted 0x70000 ps a1 ∧
    (∀ q, is_Some (t' !! q) ↔ is_Some (init_tree ex_symbols !! q) ∨ q ∈ ps) ∧
    (∀ b, ¬ in_tree t' b → rd m' b = rd (init_tables ex_symbols ∅) b) ∧ 0 ≤ len ≤ 0x2000 ∧
    (∀ va', canonical va' → translate m' (kpage ex_symbols 0) va' =
       if decide (0x40000000 ≤ va' < 0x40000000 + len)
       then if has PTE_P 7 then Some (0x100000 + (va' - 0x40000000), Z.land 7 7) else None
       else translate (init_tables ex_symbols ∅) (kpage ex_symbols 0) va') ∧
    ((r = 0 ∧ len = 0x2000 ∧ a' = a1) ∨
     (r = -1 ∧ has PTE_P 7 = true ∧ len < 0x2000 ∧
      walk 3 0 (init_tables ex_symbols ∅) (kpage ex_symbols 0) (0x40000000 + len) = None ∧
      denied a1 a')).
Proof.
  apply (virtual_memory_map_spec (kpage ex_symbols 0) (init_tables ex_symbols ∅) 0x70000
           (init_tree ex_symbols) 0x40000000 0x100000 0x2000 7);
    [by apply (init_wf ex_symbols ∅)| |reflexivity|reflexivity|lia|lia|lia|by repeat split].
  - intros q (_ & _ & Hq). destruct (init_tree ex_symbols !! q) as [[l p]|] eqn:E; [|done].
    apply init_tree_lookup in E as (j & Hj & -> & _). exfalso. revert Hq. unfold kpage. cbn.
    unfold PAGESIZE. lia.
Defined.

(** Map then look up (the kernel's use, allocator NULL).  When the leaf
    tables of the range exist, [virtual_memory_map] returns 0, changes bytes of
    table pages only and keeps them well-formed, and [virtual_memory_lookup]
    afterwards answers [pa + X] with [perm] (or the unmapped answer
    [{ -1, -1, 0 }]) inside the range and what it answered before outside. *)
Theorem virtual_memory_map_lookup root m t va pa sz perm :
  pt_wf m root t → va mod PAGESIZE = 0 → sz mod PAGESIZE = 0 →
  0 ≤ va → 0 ≤ sz → va + sz ≤ 2 ^ 48 → phys_ok pa sz perm →
  (∀ va', va ≤ va' < va + sz → is_Some (walk 3 0 m root va')) →
  ∃ m', virtual_memory_map m tt root va pa sz perm = Ok (m', tt, 0) ∧ pt_wf m' root t ∧
    (∀ b, ¬ in_tree t b → rd m' b = rd m b) ∧
    ∀ va', canonical va' → virtual_memory_lookup m' root va' =
      if decide (va ≤ va' < va + sz)
      then Ok (if has PTE_P perm
               then VaMapping ((pa + (va' - va)) / PAGESIZE) (pa + (va' - va)) (Z.land 7 perm)
               else VaMapping (-1) (2 ^ 64 - 1) 0)
      else virtual_memory_lookup m root va'.
Proof.
  intros Hwf Hva Hsz Hva0 Hsz0 Hend Hphys Hw.
  destruct (virtual_memory_map_null root m t va pa sz perm) as (m' & Hrun & P); [done..|].
  pose proof (post_wf _ _ _ _ _ _ _ _ _ _ _ _ _ P) as Hwf'.
  exists m'. split_and!; [done|done|apply P|]. intros va' Hva'.
  rewrite !(virtual_memory_lookup_correct root _ t) by done.
  rewrite (post_mapped _ _ _ _ _ _ _ _ _ _ _ _ _ P _ Hva'). case_decide; [|done].
  destruct (has PTE_P perm) eqn:HP; [|done]. do 2 f_equal.
  destruct Hphys as [_ Hp]. destruct (Hp HP) as (_ & ? & Hpa).
  change MEMSIZE_PHYSICAL with 0x200000 in *. change PAGESIZE with 4096.
  pose proof (Z.div_pos (pa + (va' - va)) 4096).
  pose proof (Z.div_le_upper_bound (pa + (va' - va)) 4096 0x200000).
  apply (wrapS_small 32); lia.
Qed.

Lemma virtual_memory_map_lookup_witness :
  ∃ m', virtual_memory_map (init_tables ex_symbols ∅) tt (kpage ex_symbols 0) 0x3000 0x9000 0x1000 5
          = Ok (m', tt, 0) ∧ pt_wf m' (kpage ex_symbols 0) (init_tree ex_symbols) ∧
    (∀ b, ¬ in_tree (init_tree ex_symbols) b → rd m' b = rd (init_tables ex_symbols ∅) b) ∧
    ∀ va', canonical va' → virtual_memory_lookup m' (kpage ex_symbols 0) va' =
      if decide (0x3000 ≤ va' < 0x3000 + 0x1000)
      then Ok (if has PTE_P 5
               then VaMapping ((0x9000 + (va' - 0x3000)) / PAGESIZE) (0x9000 + (va' - 0x3000)) (Z.land 7 5)
               else VaMapping (-1) (2 ^ 64 - 1) 0)
      else virtual_memory_lookup (init_tables ex_symbols ∅) (kpage ex_symbols 0) va'.
Proof.
  apply (virtual_memory_map_lookup (kpage ex_symbols 0) (init_tables ex_symbols ∅) (init_tree ex_symbols)
           0x3000 0x9000 0x1000 5); [by apply (init_wf ex_symbols ∅)|reflexivity|reflexivity|lia|lia|lia
    |by repeat split|].
  - intros va' Hva'. exists (kpage ex_symbols 3).
    apply (init_walk ex_symbols ∅ eq_refl eq_refl ltac:(done)). lia.
Defined.

(** C17. [virtual_memory_init] loads %cr3 with page tables that identity-map
    exactly the physical memory, user-accessible and writable: the lookup of
    [va] answers [va] with P|W|U below MEMSIZE_PHYSICAL and "unmapped" above;
    the tables are well-formed and nothing outside the five table pages changes. *)
Theorem virtual_memory_init_spec sy m :
  kernel_pagetables sy mod PAGESIZE = 0 → 0 < kernel_pagetables sy →
  kernel_pagetables sy + 5 * PAGESIZE ≤ MEMSIZE_PHYSICAL →
  ∃ m', virtual_memory_init sy m = Ok (m', kernel_pagetable sy) ∧
    pt_wf m' (kernel_pagetable sy) (init_tree sy) ∧
    (∀ va, canonical va → virtual_memory_lookup m' (kernel_pagetable sy) va =
       Ok (if decide (va < MEMSIZE_PHYSICAL) then VaMapping (va / PAGESIZE) va 7
           else VaMapping (-1) (2 ^ 64 - 1) 0)) ∧
    (∀ b, ¬ (kernel_pagetables sy ≤ b < kernel_pagetables sy + 5 * PAGESIZE) → rd m' b = rd m b).
Proof.
  intros Hal Hpos Hend.
  destruct (virtual_memory_init_correct sy m Hal Hpos Hend) as (m' & Hrun & Hwf & Htr & _ & _ & Hfr).
  exists m'. split_and!; [done|done| |].
  - intros va Hva. rewrite (virtual_memory_lookup_correct _ _ (init_tree sy)), Htr by done.
    case_decide; [|done]. unfold canonical in Hva. change MEMSIZE_PHYSICAL with 0x200000 in *.
    do 2 f_equal. change PAGESIZE with 4096. pose proof (Z.div_pos va 4096).
    pose proof (Z.div_le_upper_bound va 4096 0x200000). apply (wrapS_small 32); lia.
  - intros b Hb. apply Hfr. intros (pt & [[l p] Hx] & Hpt).
    apply init_tree_lookup in Hx as (j & Hj & -> & _). apply Hb.
    unfold kpage in *. change PAGESIZE with 4096 in *. lia.
Qed.

Lemma virtual_memory_init_spec_witness :
  ∃ m', virtual_memory_init ex_symbols ∅ = Ok (m', 0x50000) ∧
    pt_wf m' 0x50000 (init_tree ex_symbols) ∧
    (∀ va, canonical va → virtual_memory_lookup m' 0x50000 va =
       Ok (if decide (va < MEMSIZE_PHYSICAL) then VaMapping (va / PAGESIZE) va 7
           else VaMapping (-1) (2 ^ 64 - 1) 0)) ∧
    (∀ b, ¬ (0x50000 ≤ b < 0x50000 + 5 * PAGESIZE) → rd m' b = rd ∅ b).
Proof. by apply (virtual_memory_init_spec ex_symbols ∅). Defined.

(** A flaw of [virtual_memory_map]: the cached index starts at -1, which is
    also the truncated index of the top 2 MiB of the address space, so for a
    range there the tables are never consulted: a present mapping fails with -1
    in every memory and with every allocator, whatever tables exist. *)
Theorem virtual_memory_map_top_region {A : Type} `{PageAllocator A}
    m (a : A) root va pa perm :
  2 ^ 64 - 2 ^ 21 ≤ va < 2 ^ 64 - PAGESIZE → va mod PAGESIZE = 0 → root mod PAGESIZE = 0 →
  phys_ok pa PAGESIZE perm → has PTE_P perm = true →
  virtual_memory_map m a root va pa PAGESIZE perm = Ok (m, a, -1).
Proof.
  intros Hva Hal Hroot [Hperm Hphys] HP. destruct (Hphys HP) as (Hpa & Hpa0 & Hpa1).
  change MEMSIZE_PHYSICAL with 0x200000 in *. change PAGESIZE with 4096 in *.
  unfold virtual_memory_map. change PAGESIZE with 4096. rewrite Hal, Hroot, HP, Hpa.
  rewrite (wrapU_small 64 (va + _)), (wrapU_small 64 (pa + _)) by lia.
  replace (va + 4096 >=? va)%Z with true by lia.
  replace (pa + 4096 >=? pa)%Z with true by lia.
  change MEMSIZE_PHYSICAL with 0x200000.
  replace (pa + 4096 <=? 0x200000)%Z with true by lia.
  replace ((0 <=? perm) && (perm <? 0x1000))%bool with true by lia.
  cbn [assert_ mbind res_bind Z.eqb Z.modulo Z.div_eucl Z.pos_div_eucl].
  change (Z.to_nat (4096 / 4096)) with 1%nat. cbn [map_loop].
  assert (i32 (Z.shiftr va (PAGEOFFBITS + PAGEINDEXBITS)) = -1) as ->.
  { change (PAGEOFFBITS + PAGEINDEXBITS) with 21. rewrite Z.shiftr_div_pow2 by lia.
    assert (va / 2 ^ 21 = 2 ^ 43 - 1) as -> by (symmetry; apply (Z.div_unique _ _ _ (va - (2 ^ 64 - 2 ^ 21))); lia).
    done. }
  change (negb (-1 =? -1)) with false. cbn [mbind res_bind].
  rewrite (pageindex_ok va 3) by lia.
  change (4096 mod 4096 =? 0) with true. cbn [assert_ mbind res_bind orb]. by rewrite HP.
Qed.

Lemma virtual_memory_map_top_region_witness :
  virtual_memory_map (init_tables ex_symbols ∅) 0x70000 0x50000 (2 ^ 64 - 2 ^ 21) 0x9000 PAGESIZE 7
    = Ok (init_tables ex_symbols ∅, 0x70000, -1).
Proof.
  by apply (virtual_memory_map_top_region (init_tables ex_symbols ∅) 0x70000 0x50000
           (2 ^ 64 - 2 ^ 21) 0x9000 7).
Defined.
