(* ===== verification/KTables.v ===== *)
(** * The kernel's page table as the kernel keeps it

    [kernel_tables] is the invariant of the kernel's page tables: the five pages
    of [kernel_pagetables], well-formed, with exactly the upper entries
    [virtual_memory_init] writes, identity-mapping physical memory for
    everybody.  [virtual_memory_init] establishes it; stores outside the five
    pages and the kernel's own calls of [virtual_memory_map] preserve it. *)
From stdpp Require Import base tactics numbers list gmap.
From Stdlib Require Import ZArith Lia.
From S2P Require Import Prelude Mem LibStr VM.

(** What the linker script guarantees of the kernel's symbols: the page tables
    are page-aligned and inside the kernel image, which ends below the stack. *)
Record symbols_ok (sy : symbols) : Prop := SymbolsOk {
  kp_aligned : kernel_pagetables sy mod PAGESIZE = 0;
  kp_start : KERNEL_START_ADDR ≤ kernel_pagetables sy;
  kp_end : kernel_pagetables sy + 5 * PAGESIZE ≤ end_ sy;
  end_stack : end_ sy ≤ KERNEL_STACK_TOP - PAGESIZE;
  handler_addr : 0 ≤ default_int_handler sy < MEMSIZE_PHYSICAL;
  map_addr : 0 ≤ virtual_memory_map_addr sy < MEMSIZE_PHYSICAL
}.

(** The entry [i] of table page [j] that [virtual_memory_init] writes. *)
Definition upper_entry (sy : symbols) (j i : Z) : Z :=
  if decide (j = 2 ∧ i = 1) then new_pe (kpage sy 4)
  else if decide (j < 3 ∧ i = 0) then new_pe (kpage sy (j + 1)) else 0.

Record kernel_tables (sy : symbols) (m : mem) : Prop := KernelTables {
  kt_wf : pt_wf m (kernel_pagetables sy) (init_tree sy);
  kt_id va : canonical va → translate m (kernel_pagetables sy) va =
    if decide (va < MEMSIZE_PHYSICAL) then Some (va, 7) else None;
  kt_leaf va : 0 ≤ va < 2 ^ 21 → walk 3 0 m (kernel_pagetables sy) va = Some (kpage sy 3);
  kt_upper j i : 0 ≤ j < 3 → 0 ≤ i < 512 → entry m (kpage sy j) i = upper_entry sy j i
}.

Section kt.
Context (sy : symbols) (Hsy : symbols_ok sy).
Abbreviation kp := (kernel_pagetables sy).

Lemma kp_pos : 0 < kp.
Proof. destruct Hsy. change KERNEL_START_ADDR with 0x40000 in *. lia. Qed.

Lemma kp_mem : kp + 5 * PAGESIZE ≤ MEMSIZE_PHYSICAL.
Proof.
destruct Hsy. change KERNEL_STACK_TOP with 0x80000 in *. change MEMSIZE_PHYSICAL with 0x200000.
change PAGESIZE with 4096 in *. lia.
Qed.

Lemma kpage0 : kpage sy 0 = kp.
Proof. unfold kpage. lia. Qed.

Lemma virtual_memory_init_tables m : ∃ m',
virtual_memory_init sy m = Ok (m', kp) ∧ kernel_tables sy m' ∧
(∀ b, ¬ in_tree (init_tree sy) b → rd m' b = rd m b).
Proof.
destruct (virtual_memory_init_correct sy m (kp_aligned _ Hsy) kp_pos kp_mem)
  as (m' & Hrun & Hwf & Htr & Hw & Hup & Hfr).
exists m'. split_and!; [done| |done]. split; [done|done|done|].
intros j i Hj Hi. unfold same_upper in Hup.
rewrite (Hup (kpage sy j) (Z.min j 3) (Z.max 0 (j - 3)) i).
- apply init_entry; [apply Hsy|apply kp_pos|apply kp_mem|lia|done].
- apply init_tree_page. lia.
- lia.
- done.
Qed.

(** Bytes of the table pages. *)
Definition in_tables (b : Z) : Prop := kp ≤ b < kp + 5 * PAGESIZE.

Lemma in_tree_tables b : in_tree (init_tree sy) b ↔ in_tables b.
Proof.
unfold in_tables. split.
- intros (pt & [[l p] Hx] & Hpt). apply init_tree_lookup in Hx as (j & Hj & -> & _).
  unfold kpage in *. change PAGESIZE with 4096 in *. lia.
- intros Hb. exists (kpage sy ((b - kp) / PAGESIZE)). change PAGESIZE with 4096 in *.
  pose proof (Z.div_mod (b - kp) 4096). pose proof (Z.mod_pos_bound (b - kp) 4096).
  rewrite init_tree_page by lia. unfold kpage. change PAGESIZE with 4096. split; [eauto|lia].
Qed.

(** Stores outside the table pages preserve the tables. *)
Lemma kernel_tables_frame m m' :
(∀ b, in_tables b → rd m' b = rd m b) → kernel_tables sy m → kernel_tables sy m'.
Proof.
intros Hrd [Hwf Hid Hleaf Hup].
assert (∀ pt l p i, init_tree sy !! pt = Some (l, p) → 0 ≤ i < 512 →
  entry m' pt i = entry m pt i) as He.
{ intros pt l p i Hpt Hi. apply ldn_ext. intros b Hb. apply Hrd, in_tree_tables.
  exists pt. rewrite Hpt. split; [eauto|]. change PAGESIZE with 4096. lia. }
assert (∀ va, canonical va → walk 3 0 m' kp va = walk 3 0 m kp va) as Hw.
{ intros va Hva. apply (walk_ext (root := kp) (t := init_tree sy)); [done| |done|].
  - rewrite va_prefix_root by done. apply Hwf.
  - intros. by eapply He. }
split.
- split; [apply Hwf|apply Hwf|]. intros pt l p i Hpt Hl Hi.
  rewrite (He _ _ _ _ Hpt Hi). by apply Hwf.
- intros va Hva. rewrite <- Hid by done. unfold translate. rewrite Hw by done.
  destruct (walk 3 0 m kp va) as [q|] eqn:Hq; [|done]. cbn.
  apply (walk_leaf_table (root := kp) (t := init_tree sy)) in Hq; [|done|done].
  unfold leaf. by rewrite (He _ _ _ _ Hq) by apply va_index_range.
- intros va Hva. rewrite Hw; [by apply Hleaf|]. unfold canonical. lia.
- intros j i Hj Hi. rewrite <- Hup by done.
  eapply He; [apply init_tree_page; lia|done].
Qed.

(** The kernel maps pages of physical memory to themselves, for everybody. *)
Lemma kernel_map_identity m va :
kernel_tables sy m → va mod PAGESIZE = 0 → 0 ≤ va < MEMSIZE_PHYSICAL →
∃ m', virtual_memory_map m tt kp va va PAGESIZE 7 = Ok (m', tt, 0) ∧
  kernel_tables sy m' ∧ (∀ b, ¬ in_tables b → rd m' b = rd m b).
Proof.
intros [Hwf Hid Hleaf Hup] Hal Hva. change MEMSIZE_PHYSICAL with 0x200000 in *.
pose proof (Z.div_mod va PAGESIZE) as Hdm. change PAGESIZE with 4096 in *.
destruct (virtual_memory_map_null kp m (init_tree sy) va va 4096 7) as (m' & Hrun & P);
  [done|done|done|lia|lia|lia| | |].
{ split; [done|]. intros _. change MEMSIZE_PHYSICAL with 0x200000. split_and!; [done|lia|lia]. }
{ intros va' Hva'. rewrite Hleaf by lia. eauto. }
destruct (post_null _ _ _ _ _ _ _ _ _ _ _ _ _ P (or_intror eq_refl)) as [_ Hu].
exists m'. split_and!; [done| |].
- split.
  + apply P.
  + intros va' Hva'. rewrite (post_mapped _ _ _ _ _ _ _ _ _ _ _ _ _ P _ Hva'), Hid by done.
    change MEMSIZE_PHYSICAL with 0x200000. solve_decide; [|done|done]. cbn. do 2 f_equal. lia.
  + intros va' Hva'. apply P; [|by apply Hleaf]. unfold canonical. lia.
  + intros j i Hj Hi. rewrite <- Hup by done.
    eapply Hu; [apply init_tree_page; lia|lia|done].
- intros b Hb. apply P. by rewrite in_tree_tables.
Qed.

Lemma kernel_lookup m va :
kernel_tables sy m → canonical va →
virtual_memory_lookup m kp va =
  Ok (if decide (va < MEMSIZE_PHYSICAL) then VaMapping (va / PAGESIZE) va 7
      else VaMapping (-1) (2 ^ 64 - 1) 0).
Proof.
intros [Hwf Hid _ _] Hva. rewrite (virtual_memory_lookup_correct _ _ (init_tree sy)), Hid by done.
case_decide; [|done]. unfold canonical in Hva. change MEMSIZE_PHYSICAL with 0x200000 in *.
do 2 f_equal. change PAGESIZE with 4096. pose proof (Z.div_pos va 4096).
pose proof (Z.div_le_upper_bound va 4096 0x200000). apply (wrapS_small 32); lia.
Qed.

(** The checks of [set_pagetable] pass on the kernel's page table. *)
Lemma kernel_set_pagetable m :
kernel_tables sy m → set_pagetable sy m kp = Ok kp.
Proof.
intros Hkt. pose proof kp_pos. pose proof kp_mem. destruct Hsy as [Hal _ _ _ Hh Hm].
unfold set_pagetable. unfold kernel_pagetable.
assert (PAGEOFFSET kp = 0) as ->.
{ unfold PAGEOFFSET. change PAGEOFFMASK with (Z.ones 12). by rewrite Z.land_ones by lia. }
change MEMSIZE_PHYSICAL with 0x200000 in *. change PAGESIZE with 4096 in *.
assert (∀ va, 0 ≤ va < 0x200000 →
  (vam ← virtual_memory_lookup m kp va; assert_ (vam_pa vam =? va)) = Ok tt) as Hmap.
{ intros va Hva. rewrite kernel_lookup by (done || unfold canonical; lia).
  change MEMSIZE_PHYSICAL with 0x200000. rewrite decide_True by lia. cbn. by rewrite Z.eqb_refl. }
cbn [assert_ Z.eqb mbind res_bind].
pose proof (Hmap _ Hh) as E1. pose proof (Hmap _ Hm) as E2. pose proof (Hmap kp ltac:(lia)) as E3.
cbn [mbind res_bind] in E1, E2, E3. by rewrite E1, E3, E2.
Qed.
End kt.
