(* ===== verification/Machine.v ===== *)
(** * The machine: hardware state, kernel variables and the kernel monad

    The data the kernel of WeensyOS works on: register files and process
    descriptors (src/modules/m3/x86-64.h, kernel.h), the tables of k-hardware.c
    and the static variables of kernel.c, as one record [machine]; the
    port-mapped devices behind [inb]/[outb] and their relatives as a class; and
    the monad in which the kernel's functions are written. *)
From stdpp Require Import base tactics numbers list gmap.
From Stdlib Require Import ZArith Lia.
From S2P Require Import Prelude Mem LibStr Printf VM.

(** ** Registers, processes and pages *)

(** @src modules/m3/x86-64.h 86-116 x86_64_registers
    The padding members, which no code reads, are left out. *)
Record x86_64_registers := Registers {
  reg_rax : Z;
  reg_rcx : Z;
  reg_rdx : Z;
  reg_rbx : Z;
  reg_rbp : Z;
  reg_rsi : Z;
  reg_rdi : Z;
  reg_r8 : Z;
  reg_r9 : Z;
  reg_r10 : Z;
  reg_r11 : Z;
  reg_r12 : Z;
  reg_r13 : Z;
  reg_r14 : Z;
  reg_r15 : Z;
  reg_fs : Z;
  reg_gs : Z;
  reg_intno : Z;
  reg_err : Z;
  reg_rip : Z;
  reg_cs : Z;
  reg_rflags : Z;
  reg_rsp : Z;
  reg_ss : Z
}.

(** Assignments to the members the kernel sets. *)
Definition set_reg_rax (v : Z) (r : x86_64_registers) : x86_64_registers :=
  Registers v (reg_rcx r) (reg_rdx r) (reg_rbx r) (reg_rbp r) (reg_rsi r) (reg_rdi r) (reg_r8 r) (reg_r9 r) (reg_r10 r) (reg_r11 r) (reg_r12 r) (reg_r13 r) (reg_r14 r) (reg_r15 r) (reg_fs r) (reg_gs r) (reg_intno r) (reg_err r) (reg_rip r) (reg_cs r) (reg_rflags r) (reg_rsp r) (reg_ss r).
Definition set_reg_rip (v : Z) (r : x86_64_registers) : x86_64_registers :=
  Registers (reg_rax r) (reg_rcx r) (reg_rdx r) (reg_rbx r) (reg_rbp r) (reg_rsi r) (reg_rdi r) (reg_r8 r) (reg_r9 r) (reg_r10 r) (reg_r11 r) (reg_r12 r) (reg_r13 r) (reg_r14 r) (reg_r15 r) (reg_fs r) (reg_gs r) (reg_intno r) (reg_err r) v (reg_cs r) (reg_rflags r) (reg_rsp r) (reg_ss r).
Definition set_reg_rflags (v : Z) (r : x86_64_registers) : x86_64_registers :=
  Registers (reg_rax r) (reg_rcx r) (reg_rdx r) (reg_rbx r) (reg_rbp r) (reg_rsi r) (reg_rdi r) (reg_r8 r) (reg_r9 r) (reg_r10 r) (reg_r11 r) (reg_r12 r) (reg_r13 r) (reg_r14 r) (reg_r15 r) (reg_fs r) (reg_gs r) (reg_intno r) (reg_err r) (reg_rip r) (reg_cs r) v (reg_rsp r) (reg_ss r).
Definition set_reg_rsp (v : Z) (r : x86_64_registers) : x86_64_registers :=
  Registers (reg_rax r) (reg_rcx r) (reg_rdx r) (reg_rbx r) (reg_rbp r) (reg_rsi r) (reg_rdi r) (reg_r8 r) (reg_r9 r) (reg_r10 r) (reg_r11 r) (reg_r12 r) (reg_r13 r) (reg_r14 r) (reg_r15 r) (reg_fs r) (reg_gs r) (reg_intno r) (reg_err r) (reg_rip r) (reg_cs r) (reg_rflags r) v (reg_ss r).

(** @src modules/m3/kernel.h 14-19 procstate
    An [enum]; P_FREE is 0, the value [memset] leaves. *)
Inductive procstate := P_FREE | P_RUNNABLE | P_BLOCKED | P_BROKEN.
#[export] Instance procstate_eq_dec : EqDecision procstate.
Proof. solve_decision. Defined.

(** @src modules/m3/kernel.h 22-27 proc *)
Record proc := Proc {
  p_pid : Z;
  p_registers : x86_64_registers;
  p_state : procstate;
  p_pagetable : Z
}.

Definition set_p_pid (v : Z) (p : proc) : proc :=
  Proc v (p_registers p) (p_state p) (p_pagetable p).
Definition set_p_registers (v : x86_64_registers) (p : proc) : proc :=
  Proc (p_pid p) v (p_state p) (p_pagetable p).
Definition set_p_state (v : procstate) (p : proc) : proc :=
  Proc (p_pid p) (p_registers p) v (p_pagetable p).
Definition set_p_pagetable (v : Z) (p : proc) : proc :=
  Proc (p_pid p) (p_registers p) (p_state p) v.

(** @src modules/m3/kernel.h 29-29 NPROC *)
Definition NPROC : Z := 16.

(** @src modules/m3/kernel.c 54-57 physical_pageinfo *)
Record physical_pageinfo := PageInfo { owner : Z; refcount : Z }.

(** @src modules/m3/kernel.c 61-65 pageowner *)
Definition PO_FREE : Z := 0.
Definition PO_RESERVED : Z := -1.
Definition PO_KERNEL : Z := -2.

(** ** Descriptors the processor reads *)

(** @src modules/m3/x86-64.h 424-427 x86_64_gatedescriptor *)
Record gatedescriptor := Gate { gd_low : Z; gd_high : Z }.

(** @src modules/m3/x86-64.h 408-411 x86_64_pseudodescriptor *)
Record pseudodescriptor := PseudoDescriptor { pseudod_limit : Z; pseudod_base : Z }.

(** @src modules/m3/k-hardware.c 46-71 segments
    The descriptor tables and the processor registers that refer to them.  Of
    [kernel_task_descriptor] only [ts_rsp[0]] is ever non-zero. *)
Record cpu_state := Cpu {
  segments : list Z;
  interrupt_descriptors : list gatedescriptor;
  ts_rsp0 : Z;
  gdt : pseudodescriptor;
  idt : pseudodescriptor;
  tr : Z;
  cr0 : Z;
  cr2 : Z;
  cr3 : Z
}.

Definition set_segments (v : list Z) (c : cpu_state) : cpu_state :=
  Cpu v (interrupt_descriptors c) (ts_rsp0 c) (gdt c) (idt c) (tr c) (cr0 c) (cr2 c) (cr3 c).
Definition set_interrupt_descriptors (v : list gatedescriptor) (c : cpu_state) : cpu_state :=
  Cpu (segments c) v (ts_rsp0 c) (gdt c) (idt c) (tr c) (cr0 c) (cr2 c) (cr3 c).
Definition set_ts_rsp0 (v : Z) (c : cpu_state) : cpu_state :=
  Cpu (segments c) (interrupt_descriptors c) v (gdt c) (idt c) (tr c) (cr0 c) (cr2 c) (cr3 c).
Definition set_gdt (v : pseudodescriptor) (c : cpu_state) : cpu_state :=
  Cpu (segments c) (interrupt_descriptors c) (ts_rsp0 c) v (idt c) (tr c) (cr0 c) (cr2 c) (cr3 c).
Definition set_idt (v : pseudodescriptor) (c : cpu_state) : cpu_state :=
  Cpu (segments c) (interrupt_descriptors c) (ts_rsp0 c) (gdt c) v (tr c) (cr0 c) (cr2 c) (cr3 c).
Definition set_tr (v : Z) (c : cpu_state) : cpu_state :=
  Cpu (segments c) (interrupt_descriptors c) (ts_rsp0 c) (gdt c) (idt c) v (cr0 c) (cr2 c) (cr3 c).
Definition set_cr0 (v : Z) (c : cpu_state) : cpu_state :=
  Cpu (segments c) (interrupt_descriptors c) (ts_rsp0 c) (gdt c) (idt c) (tr c) v (cr2 c) (cr3 c).
Definition set_cr2 (v : Z) (c : cpu_state) : cpu_state :=
  Cpu (segments c) (interrupt_descriptors c) (ts_rsp0 c) (gdt c) (idt c) (tr c) (cr0 c) v (cr3 c).
Definition set_cr3 (v : Z) (c : cpu_state) : cpu_state :=
  Cpu (segments c) (interrupt_descriptors c) (ts_rsp0 c) (gdt c) (idt c) (tr c) (cr0 c) (cr2 c) v.

(** ** The machine

    The I/O devices ([dev]), the byte memory that holds the page tables and the
    processes' pages, the text console and its cursor, the processor, and the
    static variables of k-hardware.c and kernel.c under their own names.  These
    variables are kept beside the memory for the kernel's own accesses; where user
    code could overwrite them, [KernelSafe.user_step] lets them take any value.
    [current] is the index of the running process in [processes]. *)

(** @src modules/m3/kernel.c 25-30 processes *)
Record machine (D : Type) := Machine {
  dev : D;
  memory : mem;
  console : list Z;
  cursorpos : Z;
  cpu : cpu_state;
  interrupts_enabled : Z;
  modifiers : Z;
  last_escape : Z;
  initialized : Z;
  processes : list proc;
  current : Z;
  ticks : Z;
  pageinfo : list physical_pageinfo;
  last_ticks : Z;
  showing : Z
}.
Arguments Machine {D}.
Arguments dev {D} _.
Arguments memory {D} _.
Arguments console {D} _.
Arguments cursorpos {D} _.
Arguments cpu {D} _.
Arguments interrupts_enabled {D} _.
Arguments modifiers {D} _.
Arguments last_escape {D} _.
Arguments initialized {D} _.
Arguments processes {D} _.
Arguments current {D} _.
Arguments ticks {D} _.
Arguments pageinfo {D} _.
Arguments last_ticks {D} _.
Arguments showing {D} _.

Definition set_dev {D} (v : D) (s : machine D) : machine D :=
  Machine v (memory s) (console s) (cursorpos s) (cpu s) (interrupts_enabled s) (modifiers s) (last_escape s) (initialized s) (processes s) (current s) (ticks s) (pageinfo s) (last_ticks s) (showing s).
Definition set_memory {D} (v : mem) (s : machine D) : machine D :=
  Machine (dev s) v (console s) (cursorpos s) (cpu s) (interrupts_enabled s) (modifiers s) (last_escape s) (initialized s) (processes s) (current s) (ticks s) (pageinfo s) (last_ticks s) (showing s).
Definition set_console {D} (v : list Z) (s : machine D) : machine D :=
  Machine (dev s) (memory s) v (cursorpos s) (cpu s) (interrupts_enabled s) (modifiers s) (last_escape s) (initialized s) (processes s) (current s) (ticks s) (pageinfo s) (last_ticks s) (showing s).
Definition set_cursorpos {D} (v : Z) (s : machine D) : machine D :=
  Machine (dev s) (memory s) (console s) v (cpu s) (interrupts_enabled s) (modifiers s) (last_escape s) (initialized s) (processes s) (current s) (ticks s) (pageinfo s) (last_ticks s) (showing s).
Definition set_cpu {D} (v : cpu_state) (s : machine D) : machine D :=
  Machine (dev s) (memory s) (console s) (cursorpos s) v (interrupts_enabled s) (modifiers s) (last_escape s) (initialized s) (processes s) (current s) (ticks s) (pageinfo s) (last_ticks s) (showing s).
Definition set_interrupts_enabled {D} (v : Z) (s : machine D) : machine D :=
  Machine (dev s) (memory s) (console s) (cursorpos s) (cpu s) v (modifiers s) (last_escape s) (initialized s) (processes s) (current s) (ticks s) (pageinfo s) (last_ticks s) (showing s).
Definition set_modifiers {D} (v : Z) (s : machine D) : machine D :=
  Machine (dev s) (memory s) (console s) (cursorpos s) (cpu s) (interrupts_enabled s) v (last_escape s) (initialized s) (processes s) (current s) (ticks s) (pageinfo s) (last_ticks s) (showing s).
Definition set_last_escape {D} (v : Z) (s : machine D) : machine D :=
  Machine (dev s) (memory s) (console s) (cursorpos s) (cpu s) (interrupts_enabled s) (modifiers s) v (initialized s) (processes s) (current s) (ticks s) (pageinfo s) (last_ticks s) (showing s).
Definition set_initialized {D} (v : Z) (s : machine D) : machine D :=
  Machine (dev s) (memory s) (console s) (cursorpos s) (cpu s) (interrupts_enabled s) (modifiers s) (last_escape s) v (processes s) (current s) (ticks s) (pageinfo s) (last_ticks s) (showing s).
Definition set_processes {D} (v : list proc) (s : machine D) : machine D :=
  Machine (dev s) (memory s) (console s) (cursorpos s) (cpu s) (interrupts_enabled s) (modifiers s) (last_escape s) (initialized s) v (current s) (ticks s) (pageinfo s) (last_ticks s) (showing s).
Definition set_current {D} (v : Z) (s : machine D) : machine D :=
  Machine (dev s) (memory s) (console s) (cursorpos s) (cpu s) (interrupts_enabled s) (modifiers s) (last_escape s) (initialized s) (processes s) v (ticks s) (pageinfo s) (last_ticks s) (showing s).
Definition set_ticks {D} (v : Z) (s : machine D) : machine D :=
  Machine (dev s) (memory s) (console s) (cursorpos s) (cpu s) (interrupts_enabled s) (modifiers s) (last_escape s) (initialized s) (processes s) (current s) v (pageinfo s) (last_ticks s) (showing s).
Definition set_pageinfo {D} (v : list physical_pageinfo) (s : machine D) : machine D :=
  Machine (dev s) (memory s) (console s) (cursorpos s) (cpu s) (interrupts_enabled s) (modifiers s) (last_escape s) (initialized s) (processes s) (current s) (ticks s) v (last_ticks s) (showing s).
Definition set_last_ticks {D} (v : Z) (s : machine D) : machine D :=
  Machine (dev s) (memory s) (console s) (cursorpos s) (cpu s) (interrupts_enabled s) (modifiers s) (last_escape s) (initialized s) (processes s) (current s) (ticks s) (pageinfo s) v (showing s).
Definition set_showing {D} (v : Z) (s : machine D) : machine D :=
  Machine (dev s) (memory s) (console s) (cursorpos s) (cpu s) (interrupts_enabled s) (modifiers s) (last_escape s) (initialized s) (processes s) (current s) (ticks s) (pageinfo s) (last_ticks s) v.

(** ** Devices

    A device bus answers reads, which may change it, and takes writes.  The
    width is the operand's, in bits. *)
Class PortBus (D : Type) := {
  bus_in : D → Z → Z → D * Z;
  bus_out : D → Z → Z → Z → D
}.

(** ** The kernel monad

    A kernel function returns ([Ret]), leaves the kernel for good ([Halt]) or
    hits a failed assertion, undefined behaviour or the end of its fuel
    ([Fault]).  A failed assertion stands for the call of [assert_fail]. *)

(** Why control does not come back: user mode runs ([exception_return] was
    reached), the machine was asked to power off or reboot, or the boot code
    was re-entered with a command ([check_keyboard]). *)
Inductive halt :=
  | Resume (regs : x86_64_registers)
  | PowerOff
  | Reboot
  | SoftReboot (argument : list Z).

Inductive outcome (S A : Type) :=
  | Ret (a : A) (s : S)
  | Halt (h : halt) (s : S)
  | Fault (e : fault).
Arguments Ret {S A} a s.
Arguments Halt {S A} h s.
Arguments Fault {S A} e.

Definition M (D A : Type) : Type := machine D → outcome (machine D) A.

#[export] Instance M_ret D : MRet (M D) := λ A a s, Ret a s.
#[export] Instance M_bind D : MBind (M D) := λ A B k m s,
  match m s with
  | Ret a s => k a s
  | Halt h s => Halt h s
  | Fault e => Fault e
  end.

Section monad.
Context {D : Type}.

Definition get {A} (f : machine D → A) : M D A := λ s, Ret (f s) s.
Definition modify (f : machine D → machine D) : M D unit := λ s, Ret tt (f s).
Definition halt_ {A} (h : halt) : M D A := Halt h.
Definition liftR {A} (r : res A) : M D A := λ s,
match r with Ok a => Ret a s | Err e => Fault e end.
Definition massert (b : bool) : M D unit := liftR (assert_ b).
Definition massert_ub (b : bool) : M D unit := liftR (if b then Ok tt else Err UB).

(** Loops [for (i = a; n times; ++i) body(i)]. *)
Fixpoint for_ (n : nat) (i : Z) (body : Z → M D unit) : M D unit :=
match n with
| O => mret tt
| S n => body i;; for_ n (i + 1) body
end.

(** ** Ports *)
Context `{PortBus D}.

(** @src modules/m3/x86-64.h 202-206 inb *)
Definition inb (port : Z) : M D Z := λ s,
let '(d, v) := bus_in (dev s) (u16 port) 8 in Ret (u8 v) (set_dev d s).

(** @src modules/m3/x86-64.h 215-219 inw *)
Definition inw (port : Z) : M D Z := λ s,
let '(d, v) := bus_in (dev s) (u16 port) 16 in Ret (u16 v) (set_dev d s).

(** @src modules/m3/x86-64.h 228-232 inl *)
Definition inl (port : Z) : M D Z := λ s,
let '(d, v) := bus_in (dev s) (u16 port) 32 in Ret (u32 v) (set_dev d s).

(** @src modules/m3/x86-64.h 241-243 outb *)
Definition outb (port data : Z) : M D unit :=
modify (λ s, set_dev (bus_out (dev s) (u16 port) 8 (u8 data)) s).

(** @src modules/m3/x86-64.h 252-254 outw *)
Definition outw (port data : Z) : M D unit :=
modify (λ s, set_dev (bus_out (dev s) (u16 port) 16 (u16 data)) s).

(** @src modules/m3/x86-64.h 270-272 outl *)
Definition outl (port data : Z) : M D unit :=
modify (λ s, set_dev (bus_out (dev s) (u16 port) 32 (u32 data)) s).

(** ** Processor registers *)

(** @src modules/m3/x86-64.h 290-293 lcr0 *)
Definition lcr0 (val : Z) : M D unit := modify (λ s, set_cpu (set_cr0 (u32 val) (cpu s)) s).

(** @src modules/m3/x86-64.h 295-299 rcr0 *)
Definition rcr0 : M D Z := get (λ s, u32 (cr0 (cpu s))).

(** @src modules/m3/x86-64.h 301-305 rcr2 *)
Definition rcr2 : M D Z := get (λ s, cr2 (cpu s)).

(** @src modules/m3/x86-64.h 307-310 lcr3 *)
Definition lcr3 (val : Z) : M D unit := modify (λ s, set_cpu (set_cr3 val (cpu s)) s).
End monad.
