(* ===== verification/Hardware.v ===== *)
(** * Hardware setup, ports, logging and failure

    Models src/modules/m3/k-hardware.c except its page tables (VM.v) and its
    keyboard (Keyboard.v): segment and gate descriptors, the interrupt
    controller and timer, PCI configuration space, [poweroff], [reboot],
    [process_init], the cursor, and the log on the parallel port with the
    [error_printf] family.  The devices are the class [PortBus] of Machine.v. *)
From stdpp Require Import base tactics numbers list gmap.
From Stdlib Require Import ZArith Lia.
From S2P Require Import Prelude Mem LibStr Printf VM Machine.

(** ** Segments and gates *)

(** @src modules/m3/k-hardware.c 39-43 SEGSEL_KERN_CODE *)
Definition SEGSEL_KERN_CODE : Z := 0x8.
Definition SEGSEL_APP_CODE : Z := 0x10.
Definition SEGSEL_KERN_DATA : Z := 0x18.
Definition SEGSEL_APP_DATA : Z := 0x20.
Definition SEGSEL_TASKSTATE : Z := 0x28.

(** @src modules/m3/x86-64.h 430-448 X86SEG_S *)
Definition X86SEG_S : Z := Z.shiftl 1 44.
Definition X86SEG_P : Z := Z.shiftl 1 47.
Definition X86SEG_L : Z := Z.shiftl 1 53.
Definition X86SEG_W : Z := Z.shiftl 2 40.
Definition X86SEG_X : Z := Z.shiftl 8 40.
Definition X86SEG_TSS : Z := Z.shiftl 9 40.
Definition X86GATE_INTERRUPT : Z := Z.shiftl 14 40.

(** @src modules/m3/x86-64.h 163-173 CR0_PE *)
Definition CR0_PE : Z := 0x1.
Definition CR0_MP : Z := 0x2.
Definition CR0_NE : Z := 0x20.
Definition CR0_WP : Z := 0x10000.
Definition CR0_AM : Z := 0x40000.
Definition CR0_PG : Z := 0x80000000.

(** @src modules/m3/x86-64.h 67-78 INT_GPF *)
Definition INT_GPF : Z := 0xd.
Definition INT_PAGEFAULT : Z := 0xe.

(** @src modules/m3/x86-64.h 58-62 PFERR_PRESENT *)
Definition PFERR_PRESENT : Z := 1.
Definition PFERR_WRITE : Z := 2.
Definition PFERR_USER : Z := 4.

(** @src modules/m3/kernel.h 49-50 INT_HARDWARE *)
Definition INT_HARDWARE : Z := 32.
Definition INT_TIMER : Z := INT_HARDWARE + 0.

(** @src modules/m3/lib.h 96-102 INT_SYS *)
Definition INT_SYS : Z := 48.
Definition INT_SYS_PANIC : Z := INT_SYS + 0.
Definition INT_SYS_GETPID : Z := INT_SYS + 1.
Definition INT_SYS_YIELD : Z := INT_SYS + 2.
Definition INT_SYS_PAGE_ALLOC : Z := INT_SYS + 3.
Definition INT_SYS_FORK : Z := INT_SYS + 4.
Definition INT_SYS_EXIT : Z := INT_SYS + 5.

(** Bitwise or of the members of a list, for the long [|] chains of C. *)
Definition lors (l : list Z) : Z := fold_right Z.lor 0 l.

(** @src modules/m3/k-hardware.c 48-53 set_app_segment *)
Definition set_app_segment (type dpl : Z) : Z :=
  lors [type; X86SEG_S; u64 (Z.shiftl (u64 dpl) 45); X86SEG_P].

(** @src modules/m3/k-hardware.c 55-65 set_sys_segment
    The two consecutive words written. *)
Definition set_sys_segment (type dpl addr size : Z) : Z * Z :=
  (lors [u64 (Z.shiftl (Z.land addr 0xFFFFFF) 16);
         u64 (Z.shiftl (Z.land addr 0xFF000000) 32);
         Z.land (u64 (size - 1)) 0xFFFF;
         u64 (Z.shiftl (Z.land (u64 (size - 1)) 0xF0000) 48);
         type; u64 (Z.shiftl (u64 dpl) 45); X86SEG_P],
   Z.shiftr addr 32).

(** @src modules/m3/k-hardware.c 73-82 set_gate *)
Definition set_gate (type dpl function : Z) : gatedescriptor :=
  Gate (lors [Z.land function 0xFFFF; Z.shiftl SEGSEL_KERN_CODE 16; type;
              u64 (Z.shiftl (u64 dpl) 45); X86SEG_P;
              u64 (Z.shiftl (Z.land function 0xFFFF0000) 32)])
       (Z.shiftr function 32).

(** The addresses the linker assigns to the tables and handlers named in
    k-hardware.c 46-89. *)
Record isymbols := ISymbols {
  segments_addr : Z;
  interrupt_descriptors_addr : Z;
  kernel_task_descriptor_addr : Z;
  sys_int_handlers : list Z;
  gpf_int_handler : Z;
  pagefault_int_handler : Z;
  timer_int_handler : Z
}.

(** [for (unsigned i = lo; i < lo + n; ++i) set_gate(&idt[i], ..., f(i))] *)
Fixpoint set_gates (n : nat) (i type dpl : Z) (f : Z → Z) (idt : list gatedescriptor) :
    list gatedescriptor :=
  match n with
  | O => idt
  | S n => set_gates n (i + 1) type dpl f (zset idt i (set_gate type dpl (f i)))
  end.

(** @src modules/m3/k-hardware.c 112-135 interrupt_descriptors *)
Definition init_gates (dflt : Z) (isy : isymbols) : list gatedescriptor :=
  let idt := replicate 256 (Gate 0 0) in
  let idt := set_gates 240 16 X86GATE_INTERRUPT 0 (λ _, dflt) idt in
  let idt := zset idt INT_TIMER (set_gate X86GATE_INTERRUPT 0 (timer_int_handler isy)) in
  let idt := zset idt INT_GPF (set_gate X86GATE_INTERRUPT 0 (gpf_int_handler isy)) in
  let idt := zset idt INT_PAGEFAULT (set_gate X86GATE_INTERRUPT 0 (pagefault_int_handler isy)) in
  set_gates 16 INT_SYS X86GATE_INTERRUPT 3
    (λ i, default 0 (zget (sys_int_handlers isy) (i - INT_SYS))) idt.

(** @src modules/m3/k-hardware.c 91-102 segments_init
    The array [segments]; the task-state segment takes its last two words. *)
Definition init_segments (isy : isymbols) : list Z :=
  let segs := replicate 7 0 in
  let segs := zset segs (Z.shiftr SEGSEL_KERN_CODE 3) (set_app_segment (Z.lor X86SEG_X X86SEG_L) 0) in
  let segs := zset segs (Z.shiftr SEGSEL_APP_CODE 3) (set_app_segment (Z.lor X86SEG_X X86SEG_L) 3) in
  let segs := zset segs (Z.shiftr SEGSEL_KERN_DATA 3) (set_app_segment X86SEG_W 0) in
  let segs := zset segs (Z.shiftr SEGSEL_APP_DATA 3) (set_app_segment X86SEG_W 3) in
  let '(w0, w1) := set_sys_segment X86SEG_TSS 0 (kernel_task_descriptor_addr isy) 96 in
  zset (zset segs (Z.shiftr SEGSEL_TASKSTATE 3) w0) (Z.shiftr SEGSEL_TASKSTATE 3 + 1) w1.

Section hardware.
Context {D : Type} `{PortBus D}.

(** @src modules/m3/k-hardware.c 91-154 segments_init *)
Definition segments_init (sy : symbols) (isy : isymbols) : M D unit :=
modify (λ s, set_cpu (set_segments (init_segments isy) (cpu s)) s);;
modify (λ s, set_cpu (set_ts_rsp0 KERNEL_STACK_TOP (cpu s)) s);;
modify (λ s, set_cpu (set_interrupt_descriptors (init_gates (default_int_handler sy) isy) (cpu s)) s);;
modify (λ s, set_cpu (set_gdt (PseudoDescriptor (7 * 8 - 1) (segments_addr isy)) (cpu s)) s);;
modify (λ s, set_cpu (set_tr (u16 SEGSEL_TASKSTATE) (cpu s)) s);;
modify (λ s, set_cpu (set_idt (PseudoDescriptor (256 * 16 - 1) (interrupt_descriptors_addr isy)) (cpu s)) s);;
cr0 ← rcr0;
lcr0 (u32 (Z.lor cr0 (lors [CR0_PE; CR0_PG; CR0_WP; CR0_AM; CR0_MP; CR0_NE]))).

(** ** Interrupt controller and timer *)

(** @src modules/m3/k-hardware.c 168-185 IO_PIC1 *)
Definition IO_PIC1 : Z := 0x20.
Definition IO_PIC2 : Z := 0xA0.
Definition IRQ_SLAVE : Z := 2.
Definition IO_TIMER1 : Z := 0x040.
Definition TIMER_MODE : Z := IO_TIMER1 + 3.
Definition TIMER_SEL0 : Z := 0x00.
Definition TIMER_RATEGEN : Z := 0x04.
Definition TIMER_16BIT : Z := 0x30.
Definition TIMER_FREQ : Z := 1193182.
Definition TIMER_DIV (x : Z) : Z := (TIMER_FREQ + x ÷ 2) ÷ x.

(** @src modules/m3/k-hardware.c 189-193 interrupt_mask *)
Definition interrupt_mask : M D unit :=
ie ← get interrupts_enabled;
let masked := u16 (Z.lnot ie) in
outb (IO_PIC1 + 1) (Z.land masked 0xFF);;
outb (IO_PIC2 + 1) (Z.land (Z.shiftr masked 8) 0xFF).

(** @src modules/m3/k-hardware.c 195-244 interrupt_init *)
Definition interrupt_init : M D unit :=
modify (set_interrupts_enabled 0);;
interrupt_mask;;
outb IO_PIC1 0x11;;
outb (IO_PIC1 + 1) INT_HARDWARE;;
outb (IO_PIC1 + 1) (Z.shiftl 1 IRQ_SLAVE);;
outb (IO_PIC1 + 1) 0x3;;
outb IO_PIC2 0x11;;
outb (IO_PIC2 + 1) (INT_HARDWARE + 8);;
outb (IO_PIC2 + 1) IRQ_SLAVE;;
outb (IO_PIC2 + 1) 0x01;;
outb IO_PIC1 0x68;;
outb IO_PIC1 0x0a;;
outb IO_PIC2 0x68;;
outb IO_PIC2 0x0a;;
interrupt_mask.

(** @src modules/m3/k-hardware.c 251-262 timer_init *)
Definition timer_init (rate : Z) : M D unit :=
(if rate >? 0 then
   outb TIMER_MODE (lors [TIMER_SEL0; TIMER_RATEGEN; TIMER_16BIT]);;
   outb IO_TIMER1 (Z.rem (TIMER_DIV rate) 256);;
   outb IO_TIMER1 (TIMER_DIV rate ÷ 256);;
   modify (λ s, set_interrupts_enabled
     (u16 (Z.lor (interrupts_enabled s) (Z.shiftl 1 (INT_TIMER - INT_HARDWARE)))) s)
 else
   modify (λ s, set_interrupts_enabled
     (u16 (Z.land (interrupts_enabled s) (Z.lnot (Z.shiftl 1 (INT_TIMER - INT_HARDWARE))))) s));;
interrupt_mask.

(** @src modules/m3/k-hardware.c 16-20 hardware_init
  With [virtual_memory_init] of VM.v, which loads %cr3. *)
Definition hardware_init (sy : symbols) (isy : isymbols) : M D unit :=
segments_init sy isy;;
interrupt_init;;
m ← get memory;
'(m, cr3) ← liftR (virtual_memory_init sy m);
modify (set_memory m);;
lcr3 cr3.

(** ** PCI *)

(** @src modules/m3/k-hardware.c 437-439 pci_make_configaddr *)
Definition pci_make_configaddr (bus slot func : Z) : Z :=
Z.lor (Z.lor (Z.shiftl bus 16) (Z.shiftl slot 11)) (Z.shiftl func 8).

(** @src modules/m3/k-hardware.c 445-451 pci_config_readl *)
Definition PCI_HOST_BRIDGE_CONFIG_ADDR : Z := 0xCF8.
Definition PCI_HOST_BRIDGE_CONFIG_DATA : Z := 0xCFC.
Definition pci_config_readl (configaddr offset : Z) : M D Z :=
outl PCI_HOST_BRIDGE_CONFIG_ADDR (Z.lor (Z.lor 0x80000000 (u32 configaddr)) (u32 offset));;
inl PCI_HOST_BRIDGE_CONFIG_DATA.

(** @src modules/m3/k-hardware.c 461-469 pci_find_device
  The functions of one slot, [n] left; -1 for none. *)
Fixpoint find_func (n : nat) (bus slot func vendor device : Z) : M D Z :=
match n with
| O => mret (-1)
| S n =>
    let configaddr := pci_make_configaddr bus slot func in
    vendor_device ← pci_config_readl configaddr 0;
    if vendor_device =? u32 (Z.lor vendor (Z.shiftl device 16)) then mret configaddr
    else if (vendor_device =? u32 (-1)) && (func =? 0) then mret (-1)
    else find_func n bus slot (func + 1) vendor device
end.

(** @src modules/m3/k-hardware.c 460-470 pci_find_device *)
Fixpoint find_slot (n : nat) (bus slot vendor device : Z) : M D Z :=
match n with
| O => mret (-1)
| S n =>
    r ← find_func 8 bus slot 0 vendor device;
    if r =? -1 then find_slot n bus (slot + 1) vendor device else mret r
end.

(** @src modules/m3/k-hardware.c 459-471 pci_find_device *)
Fixpoint find_bus (n : nat) (bus vendor device : Z) : M D Z :=
match n with
| O => mret (-1)
| S n =>
    r ← find_slot 32 bus 0 vendor device;
    if r =? -1 then find_bus n (bus + 1) vendor device else mret r
end.

(** @src modules/m3/k-hardware.c 458-473 pci_find_device *)
Definition pci_find_device (vendor device : Z) : M D Z := find_bus 256 0 vendor device.

(** ** The console from the kernel *)

(** A call of [console_printf] on the kernel's console. *)
Definition kprintf (cpos color : Z) (fmt : list Z) (va : list varg) : M D Z :=
con ← get console;
'(con, cpos) ← liftR (console_printf con cpos color fmt va);
modify (set_console con);;
mret cpos.

(** @src modules/m3/k-hardware.c 479-493 poweroff *)
Definition PCI_VENDOR_ID_INTEL : Z := 0x8086.
Definition PCI_DEVICE_ID_PIIX4 : Z := 0x7113.
Definition poweroff {A} : M D A :=
configaddr ← pci_find_device PCI_VENDOR_ID_INTEL PCI_DEVICE_ID_PIIX4;
(if configaddr >=? 0 then
   v ← pci_config_readl configaddr 0x40;
   let pm_io_base := Z.land v 0xFFC0 in
   outw (pm_io_base + 4) 0x2000
 else mret tt);;
_ ← kprintf (CPOS 24 0) 0xC000 (str "Cannot power off!" ++ [10]) [];
halt_ PowerOff.

(** @src modules/m3/k-hardware.c 499-502 reboot *)
Definition reboot {A} : M D A := outb 0x92 3;; halt_ Reboot.

(** @src modules/m3/x86-64.h 176-196 EFLAGS_IF *)
Definition EFLAGS_IF : Z := 0x200.
Definition EFLAGS_IOPL_3 : Z := 0x3000.

(** @src modules/m3/kernel.h 175-176 PROCINIT_ALLOW_PROGRAMMED_IO *)
Definition PROCINIT_ALLOW_PROGRAMMED_IO : Z := 1.
Definition PROCINIT_DISABLE_INTERRUPTS : Z := 2.

(** @src modules/m3/k-hardware.c 508-522 process_init *)
Definition process_init (p : proc) (flags : Z) : proc :=
let regs := Registers 0 0 0 0 0 0 0 0 0 0 0 0 0 0 0
  (Z.lor SEGSEL_APP_DATA 3) (Z.lor SEGSEL_APP_DATA 3) 0 0 0
  (Z.lor SEGSEL_APP_CODE 3) EFLAGS_IF 0 (Z.lor SEGSEL_APP_DATA 3) in
let regs := if has PROCINIT_ALLOW_PROGRAMMED_IO flags
            then set_reg_rflags (Z.lor (reg_rflags regs) EFLAGS_IOPL_3) regs else regs in
let regs := if has PROCINIT_DISABLE_INTERRUPTS flags
            then set_reg_rflags (Z.land (reg_rflags regs) (u64 (Z.lnot EFLAGS_IF))) regs else regs in
set_p_registers regs p.

(** @src modules/m3/k-hardware.c 529-537 console_show_cursor *)
Definition console_show_cursor (cpos : Z) : M D unit :=
let cpos := if (cpos <? 0) || (cpos >? CONSOLE_ROWS * CONSOLE_COLUMNS) then 0 else cpos in
outb 0x3D4 14;;
outb 0x3D5 (cpos ÷ 256);;
outb 0x3D4 15;;
outb 0x3D5 (Z.rem cpos 256).

(** ** The log on the parallel port *)

(** @src modules/m3/k-hardware.c 657-663 IO_PARALLEL1_DATA *)
Definition IO_PARALLEL1_DATA : Z := 0x378.
Definition IO_PARALLEL1_STATUS : Z := 0x379.
Definition IO_PARALLEL_STATUS_BUSY : Z := 0x80.
Definition IO_PARALLEL1_CONTROL : Z := 0x37A.
Definition IO_PARALLEL_CONTROL_SELECT : Z := 0x08.
Definition IO_PARALLEL_CONTROL_INIT : Z := 0x04.
Definition IO_PARALLEL_CONTROL_STROBE : Z := 0x01.

(** @src modules/m3/k-hardware.c 665-670 delay *)
Definition delay : M D unit :=
_ ← inb 0x84; _ ← inb 0x84; _ ← inb 0x84; _ ← inb 0x84; mret tt.

(** @src modules/m3/k-hardware.c 680-684 parallel_port_putc
  The polling loop; [n] iterations are left. *)
Fixpoint wait_ready (n : nat) : M D unit :=
match n with
| O => mret tt
| S n =>
    st ← inb IO_PARALLEL1_STATUS;
    if negb (has IO_PARALLEL_STATUS_BUSY st) then delay;; wait_ready n else mret tt
end.

(** @src modules/m3/k-hardware.c 672-690 parallel_port_putc *)
Definition parallel_port_putc (c : Z) : M D unit :=
ini ← get initialized;
(if c_true ini then mret tt
 else outb IO_PARALLEL1_CONTROL 0;; modify (set_initialized 1));;
wait_ready (Z.to_nat 12800);;
outb IO_PARALLEL1_DATA c;;
outb IO_PARALLEL1_CONTROL (lors [IO_PARALLEL_CONTROL_SELECT; IO_PARALLEL_CONTROL_INIT;
                                 IO_PARALLEL_CONTROL_STROBE]);;
outb IO_PARALLEL1_CONTROL (lors [IO_PARALLEL_CONTROL_SELECT; IO_PARALLEL_CONTROL_INIT]).

(** The printer of [log_vprintf]. *)
#[export] Instance parallel_Printer : Printer (machine D) := λ s c _,
match parallel_port_putc c s with
| Ret _ s => Ok s
| Halt _ _ => Err UB
| Fault e => Err e
end.

(** @src modules/m3/k-hardware.c 692-703 log_vprintf *)
Definition log_vprintf (fmt : list Z) (va : list varg) : M D unit := λ s,
match printer_vprintf s 0 fmt va with Ok s => Ret tt s | Err e => Fault e end.
Definition log_printf (fmt : list Z) (va : list varg) : M D unit := log_vprintf fmt va.

(** @src modules/m3/k-hardware.c 710-724 error_vprintf *)
Definition error_vprintf (cpos color : Z) (fmt : list Z) (va : list varg) : M D Z :=
log_vprintf fmt va;; kprintf cpos color fmt va.
Definition error_printf (cpos color : Z) (fmt : list Z) (va : list varg) : M D Z :=
error_vprintf cpos color fmt va.
End hardware.
