(* ===== verification/Keyboard.v ===== *)
(** * The keyboard, the control keys and kernel failure

    Models the keyboard half of src/modules/m3/k-hardware.c: the scan-code
    tables, the state machine [keyboard_readc] with its two static variables,
    [check_keyboard] (soft reboot and power-off keys), and the functions that
    end in it: [fail], [panic] and [assert_fail]. *)
From stdpp Require Import base tactics numbers list gmap.
From Stdlib Require Import ZArith Lia.
From S2P Require Import Prelude Mem LibStr Printf VM Machine Hardware.

(** ** Scan codes *)

(** @src modules/m3/x86-64.h 451-453 KEYBOARD_STATUSREG *)
Definition KEYBOARD_STATUSREG : Z := 0x64.
Definition KEYBOARD_STATUS_READY : Z := 0x01.
Definition KEYBOARD_DATAREG : Z := 0x60.

(** @src modules/m3/kernel.h 151-160 KEY_UP *)
Definition KEY_UP : Z := 192.
Definition KEY_RIGHT : Z := 193.
Definition KEY_DOWN : Z := 194.
Definition KEY_LEFT : Z := 195.
Definition KEY_HOME : Z := 196.
Definition KEY_END : Z := 197.
Definition KEY_PAGEUP : Z := 198.
Definition KEY_PAGEDOWN : Z := 199.
Definition KEY_INSERT : Z := 200.
Definition KEY_DELETE : Z := 201.

(** @src modules/m3/k-hardware.c 550-561 MOD_SHIFT *)
Definition MOD_SHIFT : Z := 1.
Definition MOD_CONTROL : Z := 2.
Definition MOD_CAPSLOCK : Z := 8.
Definition KEY_SHIFT : Z := 250.
Definition KEY_CONTROL : Z := 251.
Definition KEY_ALT : Z := 252.
Definition KEY_CAPSLOCK : Z := 253.
Definition KEY_NUMLOCK : Z := 254.
Definition KEY_SCROLLLOCK : Z := 255.
Definition CKEY (cn : Z) : Z := 0x80 + cn.

(** @src modules/m3/k-hardware.c 563-587 keymap *)
Definition keymap : list Z :=
 [
    0; 27; CKEY 0; CKEY 1; CKEY 2; CKEY 3; CKEY 4; CKEY 5;
    CKEY 6; CKEY 7; CKEY 8; CKEY 9; CKEY 10; CKEY 11; 8; 9;
    113; 119; 101; 114; 116; 121; 117; 105;
    111; 112; CKEY 12; CKEY 13; CKEY 14; KEY_CONTROL; 97; 115;
    100; 102; 103; 104; 106; 107; 108; CKEY 15;
    CKEY 16; CKEY 17; KEY_SHIFT; CKEY 18; 122; 120; 99; 118;
    98; 110; 109; CKEY 19; CKEY 20; CKEY 21; KEY_SHIFT; 42;
    KEY_ALT; 32; KEY_CAPSLOCK; 0; 0; 0; 0; 0;
    0; 0; 0; 0; 0; KEY_NUMLOCK; KEY_SCROLLLOCK; 55;
    56; 57; 45; 52; 53; 54; 43; 49;
    50; 51; 48; 46; 0; 0; 0; 0;
    0; 0; 0; 0; 0; 0; 0; 0;
    0; 0; 0; 0; 0; 0; 0; 0;
    0; 0; 0; 0; 0; 0; 0; 0;
    0; 0; 0; 0; 0; 0; 0; 0;
    0; 0; 0; 0; 0; 0; 0; 0;
    0; 0; 0; 0; 0; 0; 0; 0;
    0; 0; 0; 0; 0; 0; 0; 0;
    0; 0; 0; 0; 0; 0; 0; 0;
    0; 0; 0; 0; CKEY 14; KEY_CONTROL; 0; 0;
    0; 0; 0; 0; 0; 0; 0; 0;
    0; 0; 0; 0; 0; 0; 0; 0;
    0; 0; 0; 0; 0; 47; 0; 0;
    KEY_ALT; 0; 0; 0; 0; 0; 0; 0;
    0; 0; 0; 0; 0; 0; 0; KEY_HOME;
    KEY_UP; KEY_PAGEUP; 0; KEY_LEFT; 0; KEY_RIGHT; 0; KEY_END;
    KEY_DOWN; KEY_PAGEDOWN; KEY_INSERT; KEY_DELETE; 0; 0; 0; 0;
    0; 0; 0; 0; 0; 0; 0; 0;
    0; 0; 0; 0; 0; 0; 0; 0;
    0; 0; 0; 0; 0; 0; 0; 0;
    0; 0; 0; 0; 0; 0; 0; 0;
    0; 0; 0; 0; 0; 0; 0; 0].

(** @src modules/m3/k-hardware.c 589-604 complex_keymap
    Each entry is the [map] array of a [struct keyboard_key]. *)
Definition complex_keymap : list (list Z) :=
 [
    [49; 33; 0; 0]; [50; 64; 0; 0];
    [51; 35; 0; 0]; [52; 36; 0; 0];
    [53; 37; 0; 0]; [54; 94; 0; 30];
    [55; 38; 0; 0]; [56; 42; 0; 0];
    [57; 40; 0; 0]; [48; 41; 0; 0];
    [45; 95; 0; 31]; [61; 43; 0; 0];
    [91; 123; 27; 0]; [93; 125; 29; 0];
    [10; 10; 13; 13]; [59; 58; 0; 0];
    [39; 34; 0; 0]; [96; 126; 0; 0];
    [92; 124; 28; 0]; [44; 60; 0; 0];
    [46; 62; 0; 0]; [47; 63; 0; 0]].

(** Array reads; out of bounds is undefined behaviour. *)
Definition aref {A} (l : list A) (i : Z) : res A := of_option UB (zget l i).

(** ** The state machine

    The two static variables of [keyboard_readc]. *)
Definition kbd_state : Type := Z * Z.

(** @src modules/m3/k-hardware.c 618-627 keyboard_readc
    The effect of a data byte on (modifiers, last_escape), with the result;
    first the branches that return 0 at once. *)
Definition kbd_prefix (st : kbd_state) (data : Z) : res (option (kbd_state * Z)) :=
  let '(modifiers, last_escape) := st in
  if data =? 0xE0 then Ok (Some ((modifiers, 0x80), 0))
  else if has 0x80 data then
    ch ← aref keymap (Z.lor (Z.land data 0x7F) last_escape);
    let modifiers :=
      if (ch >=? KEY_SHIFT) && (ch <? KEY_CAPSLOCK)
      then u8 (Z.land modifiers (Z.lnot (Z.shiftl 1 (ch - KEY_SHIFT)))) else modifiers in
    Ok (Some ((modifiers, 0), 0))
  else Ok None.

(** @src modules/m3/k-hardware.c 629-649 keyboard_readc
    A key press whose key map entry is [ch]. *)
Definition kbd_press (modifiers ch : Z) : res (Z * Z) :=
  if (ch >=? chr "a") && (ch <=? chr "z") then
    Ok (modifiers,
        if has MOD_CONTROL modifiers then ch - 0x60
        else if xorb (negb (has MOD_SHIFT modifiers)) (negb (has MOD_CAPSLOCK modifiers))
        then ch - 0x20 else ch)
  else if ch >=? KEY_CAPSLOCK then
    Ok (u8 (Z.lxor modifiers (Z.shiftl 1 (ch - KEY_SHIFT))), 0)
  else if ch >=? KEY_SHIFT then
    Ok (u8 (Z.lor modifiers (Z.shiftl 1 (ch - KEY_SHIFT))), 0)
  else if (ch >=? CKEY 0) && (ch <=? CKEY 21) then
    map ← aref complex_keymap (ch - CKEY 0);
    ch ← aref map (Z.land modifiers 3);
    Ok (modifiers, ch)
  else if (ch <? 0x80) && has MOD_CONTROL modifiers then Ok (modifiers, 0)
  else Ok (modifiers, ch).

(** @src modules/m3/k-hardware.c 614-649 keyboard_readc *)
Definition kbd_byte (st : kbd_state) (data : Z) : res (kbd_state * Z) :=
  r ← kbd_prefix st data;
  match r with
  | Some r => Ok r
  | None =>
      ch ← aref keymap (Z.lor data st.2);
      '(modifiers, ch) ← kbd_press st.1 (u8 ch);
      Ok ((modifiers, 0), ch)
  end.

(** What the build and the linker decide: symbol addresses, the addresses of
    string literals, and the preprocessor flags of the GNUmakefile. *)
Record config := Config {
  syms : symbols;
  isyms : isymbols;
  literal_addr : list Z → Z;
  TICK_LIMIT : Z;
  FORCE_FORK : Z
}.

Section keyboard.
Context {D : Type} `{PortBus D}.

(** @src modules/m3/k-hardware.c 606-650 keyboard_readc *)
Definition keyboard_readc : M D Z :=
st ← inb KEYBOARD_STATUSREG;
if negb (has KEYBOARD_STATUS_READY st) then mret (-1)
else
  data ← inb KEYBOARD_DATAREG;
  kst ← get (λ s, (modifiers s, last_escape s));
  '(kst, ch) ← liftR (kbd_byte kst data);
  modify (λ s, set_last_escape kst.2 (set_modifiers kst.1 s));;
  mret ch.

(** @src modules/m3/k-hardware.c 739-743 check_keyboard
  The temporary page table of a soft reboot. *)
Definition reboot_pagetable (m : mem) : mem :=
let m := (memset m 0x8000 0 (PAGESIZE * 3)).1 in
let m := set_entry m 0x8000 0 (lors [0x9000; PTE_P; PTE_W; PTE_U]) in
let m := set_entry m 0x9000 0 (lors [0xA000; PTE_P; PTE_W; PTE_U]) in
set_entry m 0xA000 0 (lors [PTE_P; PTE_W; PTE_U; PTE_PS]).

(** @src modules/m3/k-hardware.c 733-765 check_keyboard *)
Definition check_keyboard (cfg : config) : M D Z :=
c ← keyboard_readc;
if (c =? chr "a") || (c =? chr "f") || (c =? chr "e") then
  m ← get memory;
  modify (set_memory (reboot_pagetable m));;
  lcr3 0x8000;;
  let argument := if c =? chr "a" then str "allocator"
                  else if c =? chr "e" then str "forkexit" else str "fork" in
  massert (literal_addr cfg argument <? 0x100000000);;
  halt_ (SoftReboot argument)
else if (c =? 0x03) || (c =? chr "q") then poweroff
else mret c.

(** @src modules/m3/k-hardware.c 779-781 fail
  [while (1) check_keyboard()], cut off after [fuel] polls. *)
Fixpoint fail_loop {A} (fuel : nat) (cfg : config) : M D A :=
match fuel with
| O => λ _, Fault NoFuel
| S fuel => _ ← check_keyboard cfg; fail_loop fuel cfg
end.

(** @src modules/m3/k-hardware.c 771-782 fail *)
Definition fail {A} (fuel : nat) (cfg : config) : M D A :=
(if c_true (TICK_LIMIT cfg) then poweroff else mret tt);;
fail_loop fuel cfg.

(** @src modules/m3/k-hardware.c 789-806 panic
  [None] is the NULL format. *)
Definition panic {A} (fuel : nat) (cfg : config) (format : option (list Z)) (va : list varg) : M D A :=
match format with
| Some format =>
    cpos ← error_printf (CPOS 23 0) 0xC000 (str "PANIC: ") [];
    cpos ← error_vprintf cpos 0xC000 format va;
    if c_true (CCOL cpos) then _ ← error_printf cpos 0xC000 [10] []; fail fuel cfg
    else fail fuel cfg
| None => _ ← error_printf (CPOS 23 0) 0xC000 (str "PANIC") []; fail fuel cfg
end.

(** @src modules/m3/k-hardware.c 808-810 assert_fail *)
Definition assert_fail {A} (fuel : nat) (cfg : config) (file : list Z) (line : Z) (msg : list Z) : M D A :=
panic fuel cfg (Some (str "%s:%d: assertion '%s' failed" ++ [10])) [VStr file; VWord line; VStr msg].
End keyboard.


(** ** The tables are complete *)
Lemma aref_ok {A} (l : list A) i : 0 ≤ i < zlen l → ∃ x, aref l i = Ok x ∧ zget l i = Some x.
Proof.
  intros Hi. destruct (zget_is_some l i Hi) as [x Hx]. exists x. unfold aref. by rewrite Hx.
Qed.

Lemma zget_Forall {A} (P : A → Prop) l i x : Forall P l → zget l i = Some x → P x.
Proof.
  intros HP. unfold zget. case_decide; [|done]. intros Hx. by eapply (Forall_lookup_1 P).
Qed.

Lemma keymap_bytes : Forall (λ c, 0 ≤ c < 256) keymap.
Proof. by repeat constructor. Qed.

Lemma complex_keymap_rows : Forall (λ r, zlen r = 4 ∧ Forall (λ c, 0 ≤ c < 128) r) complex_keymap.
Proof. by repeat constructor. Qed.

(** The reachable states of the keyboard: modifier bits and an escape prefix. *)
Definition kbd_ok (st : kbd_state) : Prop :=
  0 ≤ st.1 < 256 ∧ (st.2 = 0 ∨ st.2 = 0x80).

Lemma has_0x80 data : 0 ≤ data < 256 → has 0x80 data = (128 <=? data).
Proof.
  intros Hd. change 0x80 with (2 ^ 7) at 1. rewrite has_pow2 by lia.
  destruct (Z.leb_spec 128 data).
  - apply Z.testbit_true; [lia|]. change (2 ^ 7) with 128. Z.to_euclidean_division_equations; lia.
  - apply Z.testbit_false; [lia|]. change (2 ^ 7) with 128. Z.to_euclidean_division_equations; lia.
Qed.

Lemma escaped_index c esc : 0 ≤ c < 128 → esc = 0 ∨ esc = 0x80 → 0 ≤ Z.lor c esc < 256.
Proof.
  intros Hc [->| ->]; [rewrite Z.lor_0_r; lia|].
  rewrite Z.lor_comm, (lor_add _ _ 7) by done. lia.
Qed.

Lemma land7F data : 0 ≤ Z.land data 0x7F < 128.
Proof. change 0x7F with (Z.ones 7). rewrite Z.land_ones by lia. apply Z.mod_pos_bound. lia. Qed.

Lemma land3 data : 0 ≤ Z.land data 3 < 4.
Proof. change 3 with (Z.ones 2). rewrite Z.land_ones by lia. apply Z.mod_pos_bound. lia. Qed.

Lemma kbd_press_ok modifiers ch :
  0 ≤ modifiers < 256 → 0 ≤ ch < 256 →
  ∃ modifiers' c, kbd_press modifiers ch = Ok (modifiers', c) ∧ 0 ≤ modifiers' < 256 ∧ 0 ≤ c < 256.
Proof.
  intros Hm Hch. unfold kbd_press. change (chr "a") with 97. change (chr "z") with 122.
  change KEY_CAPSLOCK with 253. change KEY_SHIFT with 250.
  change (CKEY 0) with 128. change (CKEY 21) with 149.
  destruct ((ch >=? 97) && (ch <=? 122)) eqn:Hl.
  { do 2 eexists. split; [done|]. split; [done|]. repeat case_match; lia. }
  destruct (ch >=? 253); [do 2 eexists; split; [done|]; split; [apply (wrapU_range 8)|]; lia|].
  destruct (ch >=? 250); [do 2 eexists; split; [done|]; split; [apply (wrapU_range 8)|]; lia|].
  destruct ((ch >=? 128) && (ch <=? 149)) eqn:Hc.
  - destruct (aref_ok complex_keymap (ch - 128)) as (row & -> & Hrow);
      [change (zlen complex_keymap) with 22; lia|].
    destruct (zget_Forall _ _ _ _ complex_keymap_rows Hrow) as [Hlen Hbytes].
    destruct (aref_ok row (Z.land modifiers 3)) as (c & Hc' & Hget);
      [rewrite Hlen; apply land3|]. cbn [mbind res_bind]. rewrite Hc'. cbn [mbind res_bind].
    do 2 eexists. split; [done|]. split; [done|].
    pose proof (zget_Forall _ _ _ _ Hbytes Hget). cbn in *. lia.
  - case_match; do 2 eexists; (split; [reflexivity|]); lia.
Qed.

(** Every byte from a good state is handled, and leads to a good state. *)
Lemma kbd_byte_ok st data : kbd_ok st → 0 ≤ data < 256 →
  ∃ st' ch, kbd_byte st data = Ok (st', ch) ∧ kbd_ok st' ∧ 0 ≤ ch < 256.
Proof.
  destruct st as [modifiers esc]. intros [Hm He] Hd. cbn in Hm, He.
  unfold kbd_byte, kbd_prefix. rewrite has_0x80 by done.
  destruct (data =? 0xE0). { do 2 eexists. split; [done|]. unfold kbd_ok. cbn. lia. }
  destruct (Z.leb_spec 128 data).
  - destruct (aref_ok keymap (Z.lor (Z.land data 0x7F) esc)) as (ch & -> & _);
      [change (zlen keymap) with 256; apply escaped_index; [apply land7F|done]|].
    cbn [mbind res_bind]. do 2 eexists. split; [done|]. unfold kbd_ok. cbn. split; [|lia].
    split; [|by left]. destruct (_ && _); [apply (wrapU_range 8); lia|lia].
  - cbn [mbind res_bind fst snd].
    destruct (aref_ok keymap (Z.lor data esc)) as (ch & -> & Hch);
      [change (zlen keymap) with 256; apply escaped_index; [lia|done]|].
    pose proof (zget_Forall _ _ _ _ keymap_bytes Hch) as Hcr. cbn in Hcr.
    cbn [mbind res_bind]. rewrite (wrapU_small 8) by lia.
    destruct (kbd_press_ok modifiers ch Hm Hcr) as (m' & c & -> & Hm' & Hc).
    cbn. do 2 eexists. split; [done|]. unfold kbd_ok. cbn. lia.
Qed.
