(* ===== verification/Wp.v ===== *)
(** * Reasoning about kernel functions

    A weakest-precondition predicate for the monad of Machine.v, with its rules,
    and the rules of the kernel's input and output: port accesses, printing to
    the console and the log, the keyboard, [poweroff] and [panic] only change
    the devices, the console and the keyboard state ([quiet]). *)
From stdpp Require Import base tactics numbers list gmap.
From Stdlib Require Import ZArith Lia.
From S2P Require Import Prelude Mem LibStr Printf VM Machine Hardware Keyboard.

(** ** The predicate

    [wp NF HH m Q s]: from [s], [m] returns with [Q], or halts with [HH]; it
    fails no assertion and has no undefined behaviour, and it runs out of fuel
    only if [NF]. *)
Definition wp {D A} (NF : Prop) (HH : halt → machine D → Prop)
    (m : M D A) (Q : A → machine D → Prop) (s : machine D) : Prop :=
  match m s with
  | Ret a s' => Q a s'
  | Halt h s' => HH h s'
  | Fault NoFuel => NF
  | Fault _ => False
  end.

Section wp.
Context {D : Type} (NF : Prop) (HH : halt → machine D → Prop).
Implicit Types (s : machine D).
Abbreviation WP := (wp NF HH).

Lemma wp_ret {A} (a : A) Q s : Q a s → WP (mret a) Q s.
Proof. done. Qed.

Lemma wp_bind {A B} (m : M D A) (k : A → M D B) Q s :
WP m (λ a s', WP (k a) Q s') s → WP (m ≫= k) Q s.
Proof. unfold wp, mbind, M_bind. by destruct (m s) as [| |[]]. Qed.

Lemma wp_mono {A} (m : M D A) Q Q' s :
WP m Q s → (∀ a s', Q a s' → Q' a s') → WP m Q' s.
Proof. unfold wp. destruct (m s) as [| |[]]; auto. Qed.

Lemma wp_halts {A} (HH' : halt → machine D → Prop) (m : M D A) Q s :
WP m Q s → (∀ h s', HH h s' → HH' h s') → wp NF HH' m Q s.
Proof. unfold wp. destruct (m s) as [| |[]]; auto. Qed.

Lemma wp_get {A} (f : machine D → A) Q s : Q (f s) s → WP (get f) Q s.
Proof. done. Qed.

Lemma wp_modify f Q s : Q tt (f s) → WP (modify f) Q s.
Proof. done. Qed.

Lemma wp_liftR {A} (r : res A) a Q s : r = Ok a → Q a s → WP (liftR r) Q s.
Proof. by intros ->. Qed.

Lemma wp_massert b Q s : b = true → Q tt s → WP (massert b) Q s.
Proof. by intros ->. Qed.

Lemma wp_massert_ub b Q s : b = true → Q tt s → WP (massert_ub b) Q s.
Proof. by intros ->. Qed.

Lemma wp_halt {A} h Q s : HH h s → WP (halt_ h : M D A) Q s.
Proof. done. Qed.

(** A computation known to return. *)
Lemma wp_eq {A} (m : M D A) a s' Q s : m s = Ret a s' → Q a s' → WP m Q s.
Proof. unfold wp. by intros ->. Qed.

(** A computation that may not halt or fail returns. *)
Lemma wp_returns {A} (m : M D A) Q s :
wp False (λ _ _, False) m Q s → ∃ a s', m s = Ret a s' ∧ Q a s'.
Proof. unfold wp. destruct (m s) as [a s'| |[]]; [by exists a, s'|done..]. Qed.

(** A computation that may neither return nor fail halts. *)
Lemma wp_must_halt {A} (HH' : halt → machine D → Prop) (m : M D A) s :
wp False HH' m (λ _ _, False) s → ∃ h s', m s = Halt h s' ∧ HH' h s'.
Proof. unfold wp. destruct (m s) as [|h s'|[]]; [done|by exists h, s'|done..]. Qed.

(** A loop, by an invariant of the index and the state. *)
Lemma wp_for n i body (I : Z → machine D → Prop) Q s :
I i s → (∀ j s, i ≤ j < i + Z.of_nat n → I j s → WP (body j) (λ _ s', I (j + 1) s') s) →
(∀ s, I (i + Z.of_nat n) s → Q tt s) → WP (for_ n i body) Q s.
Proof.
revert i s. induction n as [|n IH]; intros i s HI Hb HQ; cbn [for_].
- apply wp_ret, HQ. by rewrite Z.add_0_r.
- apply wp_bind. eapply wp_mono; [apply Hb; [lia|done]|].
  intros ? s' HI'. apply IH; [done| |].
  + intros j s1 Hj. apply Hb. lia.
  + intros s1 H1. apply HQ. by replace (i + Z.of_nat (S n)) with (i + 1 + Z.of_nat n) by lia.
Qed.
End wp.

(** ** Input and output *)

(** What no input or output changes. *)
Definition core {D} (s : machine D) :=
  (memory s, cpu s, cursorpos s, (interrupts_enabled s, processes s, current s),
   (ticks s, pageinfo s, last_ticks s, showing s)).

Record ui_ok {D} (s : machine D) : Prop := UiOk {
  ui_console : zlen (console s) = CONSOLE_SIZE;
  ui_kbd : kbd_ok (modifiers s, last_escape s)
}.

Definition quiet {D} (s s' : machine D) : Prop := core s' = core s ∧ ui_ok s'.

Lemma quiet_refl {D} (s : machine D) : ui_ok s → quiet s s.
Proof. by split. Qed.

Lemma quiet_trans {D} (s1 s2 s3 : machine D) : quiet s1 s2 → quiet s2 s3 → quiet s1 s3.
Proof. intros [H1 _] [H2 ?]. split; [congruence|done]. Qed.

Lemma quiet_ui {D} (s s' : machine D) : quiet s s' → ui_ok s'.
Proof. by intros [_ ?]. Qed.

(** An operation is silent when from every good state it returns, quietly. *)
Definition silent {D A} (m : M D A) : Prop :=
  ∀ s, ui_ok s → ∃ a s', m s = Ret a s' ∧ quiet s s'.

Section silent.
Context {D : Type} `{PortBus D}.

Lemma wp_silent {A} NF HH (m : M D A) Q s :
silent m → ui_ok s → (∀ a s', quiet s s' → Q a s') → wp NF HH m Q s.
Proof. intros Hm Hs HQ. destruct (Hm s Hs) as (a & s' & E & Hq). unfold wp. rewrite E. auto. Qed.

Lemma silent_ret {A} (a : A) : silent (mret a : M D A).
Proof. intros s Hs. exists a, s. split; [done|by apply quiet_refl]. Qed.

Lemma silent_bind {A B} (m : M D A) (k : A → M D B) :
silent m → (∀ a, silent (k a)) → silent (m ≫= k).
Proof.
intros Hm Hk s Hs. destruct (Hm s Hs) as (a & s1 & E1 & Hq1).
destruct (Hk a s1 (quiet_ui _ _ Hq1)) as (b & s2 & E2 & Hq2).
exists b, s2. split; [|by eapply quiet_trans].
unfold mbind, M_bind. by rewrite E1.
Qed.

Lemma silent_get {A} (f : machine D → A) : silent (get f).
Proof. intros s Hs. exists (f s), s. split; [done|by apply quiet_refl]. Qed.

Lemma silent_dev f : silent (modify (λ s : machine D, set_dev (f s) s)).
Proof. intros s [??]. by exists tt, (set_dev (f s) s). Qed.

Lemma silent_initialized v : silent (modify (set_initialized (D := D) v)).
Proof. intros s [??]. by exists tt, (set_initialized v s). Qed.

Lemma silent_outb port v : silent (outb port v).
Proof. apply silent_dev. Qed.
Lemma silent_outw port v : silent (outw port v).
Proof. apply silent_dev. Qed.
Lemma silent_outl port v : silent (outl port v).
Proof. apply silent_dev. Qed.

Lemma silent_inb port : silent (inb port).
Proof.
intros s [??]. unfold inb. destruct (bus_in (dev s) (u16 port) 8) as [d v].
by exists (u8 v), (set_dev d s).
Qed.

Lemma silent_inl port : silent (inl port).
Proof.
intros s [??]. unfold inl. destruct (bus_in (dev s) (u16 port) 32) as [d v].
by exists (u32 v), (set_dev d s).
Qed.

Lemma silent_for n i body : (∀ j, silent (body j)) → silent (for_ (D := D) n i body).
Proof.
intros Hb. revert i. induction n as [|n IH]; intros i; cbn [for_]; [apply silent_ret|].
apply silent_bind; [apply Hb|intros _; apply IH].
Qed.

Lemma silent_kprintf cpos color fmt va : fmt_ok fmt va → silent (kprintf (D := D) cpos color fmt va).
Proof.
intros Hf s [Hc Hk].
destruct (console_printf_ok (console s) cpos color fmt va Hc Hf) as (con' & cpos' & E & Hl & _).
exists cpos', (set_console con' s). split; [|split; [done|by split]].
unfold kprintf, get, mbind, M_bind, liftR. cbn -[console_printf]. by rewrite E.
Qed.
End silent.

Create HintDb silent discriminated.
#[export] Hint Resolve silent_ret silent_get silent_dev silent_initialized silent_outb silent_outw
  silent_outl silent_inb silent_inl : silent.

(** Prove [silent] by structure. *)
Ltac silent :=
  repeat match goal with
  | |- silent (_ ≫= _) => apply silent_bind; [|intros]
  | |- silent (if _ then _ else _) => case_match
  | |- silent (let '_ := ?x in _) => destruct x
  | |- silent (for_ _ _ _) => apply silent_for; intros
  | |- silent (kprintf _ _ _ _) => apply silent_kprintf
  | |- silent _ => solve [eauto with silent]
  end.

(** Discharge [fmt_ok] for a literal format by running the checker. *)
Ltac fmt_ok ks := exists ks; split; [by vm_compute|by repeat constructor].

Section io.
Context {D : Type} `{PortBus D}.

Lemma silent_delay : silent delay.
Proof. unfold delay. silent. Qed.

Lemma silent_wait_ready n : silent (wait_ready n).
Proof.
induction n as [|n IH]; cbn [wait_ready]; [apply silent_ret|].
apply silent_bind; [apply silent_inb|]. intros st. destruct (negb _); [|apply silent_ret].
apply silent_bind; [apply silent_delay|intros; apply IH].
Qed.

Lemma silent_parallel_port_putc c : silent (parallel_port_putc c).
Proof.
unfold parallel_port_putc. apply silent_bind; [apply silent_get|]. intros ini.
apply silent_bind; [silent|intros _].
apply silent_bind; [apply silent_wait_ready|intros _]. silent.
Qed.

Lemma silent_log fmt va : fmt_ok fmt va → silent (log_vprintf (D := D) fmt va).
Proof.
intros Hf s Hs. destruct (fmt_ok_trace fmt va 0 Hf) as [tr Htr].
unfold log_vprintf. rewrite (printer_replay s 0 fmt va tr Htr).
destruct (replay_inv (quiet s) tr s) as (s' & -> & Hq).
- intros s1 c color Hq. unfold putc, parallel_Printer.
  destruct (silent_parallel_port_putc c s1 (quiet_ui _ _ Hq)) as ([] & s2 & -> & Hq2).
  exists s2. split; [done|by eapply quiet_trans].
- by apply quiet_refl.
- by exists tt, s'.
Qed.

Lemma silent_error_vprintf cpos color fmt va :
fmt_ok fmt va → silent (error_vprintf (D := D) cpos color fmt va).
Proof.
intros Hf. apply silent_bind; [by apply silent_log|intros; by apply silent_kprintf].
Qed.

Lemma silent_show_cursor cpos : silent (console_show_cursor cpos).
Proof. unfold console_show_cursor. silent. Qed.

Lemma silent_pci_read a o : silent (pci_config_readl a o).
Proof. unfold pci_config_readl. silent. Qed.

Lemma silent_find_func n bus slot func v d : silent (find_func n bus slot func v d).
Proof.
revert func. induction n as [|n IH]; intros func; cbn [find_func]; [apply silent_ret|].
apply silent_bind; [apply silent_pci_read|]. intros vd. silent.
Qed.

Lemma silent_find_slot n bus slot v d : silent (find_slot n bus slot v d).
Proof.
revert slot. induction n as [|n IH]; intros slot; cbn [find_slot]; [apply silent_ret|].
apply silent_bind; [apply silent_find_func|]. intros r. silent.
Qed.

Lemma silent_pci_find_device v d : silent (pci_find_device v d).
Proof.
unfold pci_find_device. generalize 256%nat, 0. intros n. induction n as [|n IH]; intros bus; cbn [find_bus]; [apply silent_ret|].
apply silent_bind; [apply silent_find_slot|]. intros r. silent.
Qed.

Lemma silent_keyboard_readc : silent keyboard_readc.
Proof.
unfold keyboard_readc. intros s Hs.
destruct (silent_inb KEYBOARD_STATUSREG s Hs) as (st & s1 & E1 & Hq1).
destruct (negb (has KEYBOARD_STATUS_READY st)) eqn:Hr.
{ exists (-1), s1. unfold mbind, M_bind. by rewrite E1, Hr. }
assert (∃ v s2, inb KEYBOARD_DATAREG s1 = Ret v s2 ∧ quiet s1 s2 ∧ 0 ≤ v < 256) as (v & s2 & E2 & Hq2 & Hv).
{ pose proof (quiet_ui _ _ Hq1) as [??]. unfold inb.
  destruct (bus_in (dev s1) _ 8) as [d v]. exists (u8 v), (set_dev d s1).
  split_and!; [done|done|apply (wrapU_range 8); lia..]. }
destruct (kbd_byte_ok (modifiers s2, last_escape s2) v) as ([m' e'] & ch & E3 & Hk & _); [apply Hq2|done|].
exists ch, (set_last_escape e' (set_modifiers m' s2)). split.
- unfold mbind, M_bind. rewrite E1, Hr. rewrite E2. unfold get, liftR. rewrite E3. done.
- eapply quiet_trans; [done|]. eapply quiet_trans; [done|]. split; [done|].
  split; [apply Hq2|done].
Qed.

(** ** Functions that may halt *)
Context (NF : Prop) (HH : halt → machine D → Prop) (cfg : config).
Context (Hoff : ∀ s, HH PowerOff s) (Hsoft : ∀ a s, HH (SoftReboot a) s).
Context (Hlit : ∀ l, literal_addr cfg l < 0x100000000).
Abbreviation WP := (wp NF HH).

Lemma wp_poweroff {A} (Q : A → machine D → Prop) s : ui_ok s → WP poweroff Q s.
Proof.
intros Hs. unfold poweroff. apply wp_bind, wp_silent; [apply silent_pci_find_device|done|].
intros a s1 Hq1. apply wp_bind, wp_silent.
- silent; apply silent_pci_read.
- by eapply quiet_ui.
- intros _ s2 Hq2. apply wp_bind, wp_silent.
  + apply silent_kprintf. fmt_ok ([] : list kind).
  + by eapply quiet_ui.
  + intros ? s3 Hq3. apply wp_halt, Hoff.
Qed.

Lemma wp_check_keyboard Q s :
ui_ok s → (∀ c s', quiet s s' → Q c s') → WP (check_keyboard cfg) Q s.
Proof.
intros Hs HQ. unfold check_keyboard. apply wp_bind, wp_silent; [apply silent_keyboard_readc|done|].
intros c s1 Hq1. case_match.
- apply wp_bind, wp_get, wp_bind, wp_modify, wp_bind, wp_modify, wp_bind, wp_massert.
  + apply Z.ltb_lt, Hlit.
  + apply wp_halt, Hsoft.
- case_match; [apply wp_poweroff; by eapply quiet_ui|apply wp_ret; by apply HQ].
Qed.

(** [fail] never returns: it halts, or (only if [NF]) still polls. *)
Lemma wp_fail_loop {A} fuel (Q : A → machine D → Prop) s :
NF → ui_ok s → WP (fail_loop fuel cfg) Q s.
Proof.
intros HNF. revert s. induction fuel as [|fuel IH]; intros s Hs; [done|]. cbn [fail_loop].
apply wp_bind, wp_check_keyboard; [done|]. intros c s' Hq. apply IH. by eapply quiet_ui.
Qed.

Lemma wp_fail {A} fuel (Q : A → machine D → Prop) s :
NF → ui_ok s → WP (fail fuel cfg) Q s.
Proof.
intros HNF Hs. unfold fail. apply wp_bind. case_match; [by apply wp_poweroff|].
apply wp_ret. by apply wp_fail_loop.
Qed.

Lemma wp_panic {A} fuel format va (Q : A → machine D → Prop) s :
NF → ui_ok s → match format with Some f => fmt_ok f va | None => True end →
WP (panic fuel cfg format va) Q s.
Proof.
intros HNF Hs Hf. unfold panic. destruct format as [f|].
- apply wp_bind, wp_silent; [apply silent_error_vprintf; fmt_ok ([] : list kind)|done|].
  intros cpos s1 Hq1. apply wp_bind, wp_silent; [by apply silent_error_vprintf|by eapply quiet_ui|].
  intros cpos' s2 Hq2. case_match.
  + apply wp_bind, wp_silent; [apply silent_error_vprintf; fmt_ok ([] : list kind)|by eapply quiet_ui|].
    intros ? s3 Hq3. apply wp_fail; [done|by eapply quiet_ui].
  + apply wp_fail; [done|by eapply quiet_ui].
- apply wp_bind, wp_silent; [apply silent_error_vprintf; fmt_ok ([] : list kind)|done|].
  intros ? s1 Hq1. apply wp_fail; [done|by eapply quiet_ui].
Qed.
End io.
