(* ===== verification/Pages.v ===== *)
(** * Physical pages: the pageinfo array

    Models [pageinfo_init] and [assign_physical_page] of
    src/modules/m3/kernel.c. *)
From stdpp Require Import base tactics numbers list gmap.
From Stdlib Require Import ZArith Lia.
From S2P Require Import Prelude Mem LibStr Printf VM Machine Hardware Keyboard.

(** @src modules/m3/kernel.c 333-342 pageinfo_init
    The owner of the page at [addr]. *)
Definition initial_owner (end_ addr : Z) : Z :=
  if physical_memory_isreserved addr then PO_RESERVED
  else if ((addr >=? KERNEL_START_ADDR) && (addr <? end_))
          || (addr =? KERNEL_STACK_TOP - PAGESIZE)
  then PO_KERNEL else PO_FREE.

(** @src modules/m3/kernel.c 333-345 pageinfo_init
    The loop, with [n] pages left, on the array. *)
Fixpoint pageinfo_loop (n : nat) (end_ addr : Z) (pi : list physical_pageinfo) :
    list physical_pageinfo :=
  match n with
  | O => pi
  | S n =>
      let owner := initial_owner end_ addr in
      pageinfo_loop n end_ (u64 (addr + PAGESIZE))
        (zset pi (PAGENUMBER addr) (PageInfo (i8 owner) (c_bool (negb (owner =? PO_FREE)))))
  end.

Section pages.
Context {D : Type}.

(** @src modules/m3/kernel.c 330-346 pageinfo_init *)
Definition pageinfo_init (cfg : config) : M D unit :=
modify (λ s, set_pageinfo
  (pageinfo_loop (Z.to_nat (MEMSIZE_PHYSICAL / PAGESIZE)) (end_ (syms cfg)) 0 (pageinfo s)) s).

(** Reading and writing [pageinfo[pn]]. *)
Definition page_at (pn : Z) : M D physical_pageinfo :=
pi ← get pageinfo; liftR (aref pi pn).
Definition set_page (pn : Z) (v : physical_pageinfo) : M D unit :=
modify (λ s, set_pageinfo (zset (pageinfo s) pn v) s).

(** @src modules/m3/kernel.c 162-172 assign_physical_page
  [owner] is converted to [int8_t] by the call. *)
Definition assign_physical_page (addr owner : Z) : M D Z :=
if negb (Z.land addr 0xFFF =? 0) || (addr >=? MEMSIZE_PHYSICAL) then mret (-1)
else
  p ← page_at (PAGENUMBER addr);
  if negb (refcount p =? 0) then mret (-1)
  else set_page (PAGENUMBER addr) (PageInfo (i8 owner) 1);; mret 0.
End pages.
