(* ===== verification/Loader.v ===== *)
(** * The program loader

    Models src/modules/m3/k-loader.c over the structures of elf.h.  The program
    images are byte ranges of kernel memory; the loader reads their headers
    there.  The kernel only passes a NULL allocator, which is fixed here.
    Copies go to the physical addresses the process's page table maps the
    segment to; the page table is the kernel's identity mapping. *)
From stdpp Require Import base tactics numbers list gmap.
From Stdlib Require Import ZArith Lia.
From S2P Require Import Prelude Mem LibStr Printf VM Machine Hardware Keyboard Pages.

(** @src modules/m3/elf.h 9-9 ELF_MAGIC *)
Definition ELF_MAGIC : Z := 0x464C457F.
(** @src modules/m3/elf.h 57-57 ELF_PTYPE_LOAD *)
Definition ELF_PTYPE_LOAD : Z := 1.

(** @src modules/m3/elf.h 12-28 elf_header
    The members the loader reads. *)
Record elf_header := ElfHeader {
  e_magic : Z;
  e_entry : Z;
  e_phoff : Z;
  e_phnum : Z
}.

(** @src modules/m3/elf.h 31-41 elf_program *)
Record elf_program := ElfProgram {
  p_type : Z;
  p_flags : Z;
  p_offset : Z;
  p_va : Z;
  p_pa : Z;
  p_filesz : Z;
  p_memsz : Z;
  p_align : Z
}.

(** @src modules/m3/elf.h 12-28 elf_header
    The header at [a], by the offsets of its members. *)
Definition read_header (m : mem) (a : Z) : elf_header :=
  ElfHeader (ld32 m a) (ld64 m (a + 0x18)) (ld64 m (a + 0x20)) (ld16 m (a + 0x38)).

(** @src modules/m3/elf.h 31-41 elf_program *)
Definition sizeof_elf_program : Z := 56.
Definition read_program (m : mem) (a : Z) : elf_program :=
  ElfProgram (ld32 m a) (ld32 m (a + 4)) (ld64 m (a + 8)) (ld64 m (a + 0x10))
    (ld64 m (a + 0x18)) (ld64 m (a + 0x20)) (ld64 m (a + 0x28)) (ld64 m (a + 0x30)).

(** @src modules/m3/k-loader.c 25-35 ramimages
    The linker's addresses of the images. *)
Record ramimage := RamImage { img_begin : Z; img_end : Z }.

Section loader.
Context {D : Type} `{PortBus D} (cfg : config) (ramimages : list ramimage).

(** The process descriptor at index [pid]. *)
Definition proc_at (pid : Z) : M D proc := ps ← get processes; liftR (aref ps pid).
Definition set_proc (pid : Z) (f : proc → proc) : M D unit :=
p ← proc_at pid; modify (λ s, set_processes (zset (processes s) pid (f p)) s).

(** [set_pagetable] of k-hardware.c, with the load of %cr3. *)
Definition load_pagetable (pt : Z) : M D unit :=
m ← get memory; cr3 ← liftR (set_pagetable (syms cfg) m pt); lcr3 cr3.

(** A call of [virtual_memory_map] with a NULL allocator. *)
Definition map_pages (pt va pa sz perm : Z) : M D Z :=
m ← get memory;
'(m, _, r) ← liftR (virtual_memory_map m tt pt va pa sz perm);
modify (set_memory m);;
mret r.

(** @src modules/m3/k-loader.c 87-95 program_load_segment
  The allocation loop; [false] when it fails. *)
Fixpoint alloc_segment (fuel : nat) (p : proc) (addr end_mem : Z) : M D bool :=
match fuel with
| O => λ _, Fault NoFuel
| S fuel =>
    if addr <? end_mem then
      r ← assign_physical_page addr (p_pid p);
      ok ← (if r <? 0 then mret false
            else r ← map_pages (p_pagetable p) addr addr PAGESIZE (lors [PTE_P; PTE_W; PTE_U]);
                 mret (negb (r <? 0)));
      if ok : bool then alloc_segment fuel p (u64 (addr + PAGESIZE)) end_mem
      else
        _ ← kprintf (CPOS 22 0) 0xC000
          (str "program_load_segment(pid %d): can't assign address %p" ++ [10])
          [VWord (p_pid p); VWord addr];
        mret false
    else mret true
end.

(** @src modules/m3/k-loader.c 80-107 program_load_segment *)
Definition program_load_segment (pid : Z) (ph : elf_program) (src : Z) : M D Z :=
p ← proc_at pid;
let va := p_va ph in
let end_file := u64 (va + p_filesz ph) in
let end_mem := u64 (va + p_memsz ph) in
let va := Z.land va (u64 (Z.lnot (PAGESIZE - 1))) in
ok ← alloc_segment (S (Z.to_nat ((end_mem - va) / PAGESIZE + 1))) p va end_mem;
if negb ok then mret (-1)
else
  load_pagetable (p_pagetable p);;
  modify (λ s, set_memory (memcpy (memory s) va src (u64 (end_file - va))).1 s);;
  modify (λ s, set_memory (memset (memory s) end_file 0 (u64 (end_mem - end_file))).1 s);;
  load_pagetable (kernel_pagetable (syms cfg));;
  mret 0.

(** @src modules/m3/k-loader.c 58-65 program_load
  The loop over the program headers, [n] of them left from [ph]. *)
Fixpoint load_segments (n : nat) (pid eh ph : Z) : M D Z :=
match n with
| O => mret 0
| S n =>
    m ← get memory;
    let p := read_program m ph in
    r ← (if p_type p =? ELF_PTYPE_LOAD
         then program_load_segment pid p (u64 (eh + p_offset p)) else mret 0);
    if r <? 0 then mret (-1) else load_segments n pid eh (ph + sizeof_elf_program)
end.

(** @src modules/m3/k-loader.c 48-70 program_load *)
Definition program_load (pid programnumber : Z) : M D Z :=
massert ((programnumber >=? 0) && (programnumber <? Z.of_nat (length ramimages)));;
img ← liftR (aref ramimages programnumber);
m ← get memory;
let eh := read_header m (img_begin img) in
massert (e_magic eh =? ELF_MAGIC);;
r ← load_segments (Z.to_nat (e_phnum eh)) pid (img_begin img) (u64 (img_begin img + e_phoff eh));
if r <? 0 then mret (-1)
else
  m ← get memory;
  let eh := read_header m (img_begin img) in
  set_proc pid (λ p, set_p_registers (set_reg_rip (e_entry eh) (p_registers p)) p);;
  mret 0.
End loader.
