(* ===== verification/Boot.v ===== *)
(** * The boot loader

    Models src/modules/m3/boot.c: reading sectors from the first IDE disk with
    programmed I/O, loading a segment, and loading the kernel.  The disk itself
    is hardware: [AtaDisk] states what the code relies on of the documented
    PIO protocol ("read sectors" with a 28-bit sector number), and a concrete
    disk [PioDisk] satisfies it.  [boot] returns the address it jumps to.

    Memory is flat: the boot loader's own code, stack and first page tables are not
    in it, so a segment that would overwrite them is loaded like any other.  The
    kernel's linker script places the segments above them. *)
From stdpp Require Import base tactics numbers list gmap.
From Stdlib Require Import ZArith Lia.
From S2P Require Import Prelude Mem LibStr Printf VM Machine Hardware Keyboard Wp Pages Loader.

(** @src modules/m3/boot.c 28-28 SECTORSIZE *)
Definition SECTORSIZE : Z := 512.
(** @src modules/m3/boot.c 29-29 ELFHDR *)
Definition ELFHDR : Z := 0x10000.

(** ** The code *)
Section boot.
Context {D : Type} `{PortBus D}.

(** @src modules/m3/x86-64.h 234-239 insl
    [cnt] words from [port] to memory, upwards (the direction flag is clear). *)
Fixpoint insl (port addr : Z) (cnt : nat) : M D unit :=
match cnt with
| O => mret tt
| S cnt =>
    w ← inl port;
    modify (λ s, set_memory (stn 4 (memory s) addr w) s);;
    insl port (u64 (addr + 4)) cnt
end.

(** @src modules/m3/boot.c 86-92 boot_waitdisk
    The wait for the status "ready and not busy". *)
Fixpoint boot_waitdisk (fuel : nat) : M D unit :=
match fuel with
| O => λ _, Fault NoFuel
| S fuel =>
    st ← inb 0x1F7;
    if negb (Z.land st 0xC0 =? 0x40) then boot_waitdisk fuel else mret tt
end.

(** @src modules/m3/boot.c 97-111 boot_readsect *)
Definition boot_readsect (fuel : nat) (dst src_sect : Z) : M D unit :=
boot_waitdisk fuel;;
outb 0x1F2 1;;
outb 0x1F3 src_sect;;
outb 0x1F4 (Z.shiftr src_sect 8);;
outb 0x1F5 (Z.shiftr src_sect 16);;
outb 0x1F6 (Z.lor (Z.shiftr src_sect 24) 0xE0);;
outb 0x1F7 0x20;;
boot_waitdisk fuel;;
insl 0x1F0 dst (Z.to_nat (SECTORSIZE / 4)).

(** @src modules/m3/boot.c 71-74 boot_readseg
    The loop over the sectors, [n] bounding its iterations. *)
Fixpoint read_sectors (fuel n : nat) (ptr end_ptr src_sect : Z) : M D unit :=
if ptr <? end_ptr then
match n with
| O => λ _, Fault NoFuel
| S n =>
    boot_readsect fuel ptr src_sect;;
    read_sectors fuel n (u64 (ptr + SECTORSIZE)) end_ptr (u32 (src_sect + 1))
end
else mret tt.

(** @src modules/m3/boot.c 76-79 boot_readseg
    The loop that clears the bss. *)
Fixpoint clear_bss (n : nat) (end_ptr memsz : Z) : M D unit :=
if end_ptr <? memsz then
match n with
| O => λ _, Fault NoFuel
| S n =>
    modify (λ s, set_memory (wr (memory s) end_ptr 0) s);;
    clear_bss n (u64 (end_ptr + 1)) memsz
end
else mret tt.

(** @src modules/m3/boot.c 63-80 boot_readseg *)
Definition boot_readseg (fuel : nat) (ptr src_sect filesz memsz : Z) : M D unit :=
let end_ptr := u64 (ptr + filesz) in
let memsz := u64 (memsz + ptr) in
let ptr := Z.land ptr (u64 (Z.lnot (SECTORSIZE - 1))) in
read_sectors fuel (S (Z.to_nat ((end_ptr - ptr) / SECTORSIZE))) ptr end_ptr (u32 src_sect);;
clear_bss (Z.to_nat (memsz - end_ptr)) end_ptr memsz.

(** @src modules/m3/boot.c 46-49 boot
    The loop over the program headers, which are read from memory as it goes. *)
Fixpoint boot_segments (fuel n : nat) (ph : Z) : M D unit :=
match n with
| O => mret tt
| S n =>
    p ← get (λ s, read_program (memory s) ph);
    boot_readseg fuel (p_va p) (p_offset p / SECTORSIZE + 1) (p_filesz p) (p_memsz p);;
    boot_segments fuel n (u64 (ph + sizeof_elf_program))
end.

(** @src modules/m3/boot.c 37-55 boot
    A bad magic number is the end of the boot: the loop on it never ends. *)
Definition boot (fuel : nat) : M D Z :=
boot_readseg fuel ELFHDR 1 PAGESIZE PAGESIZE;;
eh ← get (λ s, read_header (memory s) ELFHDR);
(if negb (e_magic eh =? ELF_MAGIC) then (λ _, Fault NoFuel) else mret tt);;
boot_segments fuel (Z.to_nat (e_phnum eh)) (u64 (ELFHDR + e_phoff eh));;
get (λ s, e_entry (read_header (memory s) ELFHDR)).
End boot.

(** ** The disk

    [busy] is the number of status reads until the disk is ready, [regs] the
    registers of a command at the ports 0x1F2 to 0x1F6, [next] the offset on the
    disk of the next word to transfer and [left] the words left of the sector.
    [content] holds the bytes of the disk. *)
Definition lba (regs : Z → Z) : Z :=
  regs 0x1F3 + 2 ^ 8 * regs 0x1F4 + 2 ^ 16 * regs 0x1F5 + 2 ^ 24 * Z.land (regs 0x1F6) 0xF.

Class AtaDisk (D : Type) `{PortBus D} (content : mem) := {
  ata_busy : D → nat;
  ata_limit : nat;
  ata_regs : D → Z → Z;
  ata_next : D → Z;
  ata_left : D → nat;
  ata_busy_limit d : (ata_busy d ≤ ata_limit)%nat;
  ata_status d : ∃ d' st, bus_in d 0x1F7 8 = (d', st) ∧
    (Z.land (u8 st) 0xC0 = 0x40 ↔ ata_busy d = 0%nat) ∧ ata_busy d' = pred (ata_busy d) ∧
    ata_regs d' = ata_regs d ∧ ata_next d' = ata_next d ∧ ata_left d' = ata_left d;
  ata_out d port v : ata_busy d = 0%nat → ata_left d = 0%nat → 0x1F2 ≤ port ≤ 0x1F6 → 0 ≤ v < 256 →
    let d' := bus_out d port 8 v in
    ata_busy d' = 0%nat ∧ ata_left d' = 0%nat ∧ ata_regs d' port = v ∧
    ∀ p, p ≠ port → ata_regs d' p = ata_regs d p;
  ata_read d : ata_busy d = 0%nat → ata_left d = 0%nat → ata_regs d 0x1F2 = 1 →
    Z.land (ata_regs d 0x1F6) 0xF0 = 0xE0 →
    let d' := bus_out d 0x1F7 8 0x20 in
    ata_next d' = 512 * lba (ata_regs d) ∧ ata_left d' = 128%nat;
  ata_data d n : ata_busy d = 0%nat → ata_left d = S n →
    ∃ d' v, bus_in d 0x1F0 32 = (d', v) ∧ u32 v = ld32 content (ata_next d) ∧
      ata_busy d' = 0%nat ∧ ata_next d' = ata_next d + 4 ∧ ata_left d' = n
}.

(** ** Reading *)
Section reading.
Context {D : Type} `{HB : PortBus D} (content : mem) `{HA : !AtaDisk D content}.
Implicit Types (s : machine D).
Abbreviation WP := (wp False (λ _ (_ : machine D), False)).

(** The disk is idle: no transfer is under way. *)
Definition idle s : Prop := ata_left (dev s) = 0%nat.

(** [s'] is [s] with the bytes of [g] stored in [[lo, hi)]. *)
Definition stored (lo hi : Z) (g : Z → Z) s s' : Prop :=
∀ a, rd (memory s') a = if decide (lo ≤ a < hi) then g a else rd (memory s) a.

Lemma wp_waitdisk fuel s (Q : unit → machine D → Prop) :
(ata_busy (dev s) < fuel)%nat →
(∀ d, ata_busy d = 0%nat → ata_regs d = ata_regs (dev s) → ata_next d = ata_next (dev s) →
   ata_left d = ata_left (dev s) → Q tt (set_dev d s)) →
WP (boot_waitdisk fuel) Q s.
Proof.
revert s. induction fuel as [|fuel IH]; intros s Hf HQ; [lia|]. cbn [boot_waitdisk].
destruct (ata_status (dev s)) as (d & st & E & Hst & Hb & Hr & Hn & Hl).
apply wp_bind. eapply wp_eq.
{ unfold inb. change (u16 0x1F7) with 0x1F7. by rewrite E. }
destruct (Z.eqb_spec (Z.land (u8 st) 0xC0) 0x40) as [E0|E0]; cbn [negb].
- apply wp_ret, HQ; [|done..]. rewrite Hb, (proj1 Hst E0). done.
- apply IH.
  + destruct (ata_busy (dev s)) eqn:Hd; [by destruct (E0 (proj2 Hst eq_refl))|].
    cbn [set_dev dev]. lia.
  + intros d' ????. apply HQ; cbn [set_dev dev] in *; congruence.
Qed.

(** A transfer of [n] words, from an idle disk that has them left. *)
Lemma wp_insl n addr s (Q : unit → machine D → Prop) :
ata_busy (dev s) = 0%nat → ata_left (dev s) = n →
0 ≤ addr → addr + 4 * Z.of_nat n < 2 ^ 64 →
(∀ s', idle s' →
   stored addr (addr + 4 * Z.of_nat n) (λ a, rd content (ata_next (dev s) + (a - addr))) s s' →
   Q tt s') →
WP (insl 0x1F0 addr n) Q s.
Proof.
revert addr s. induction n as [|n IH]; intros addr s Hb Hl Ha Hn HQ; cbn [insl].
{ apply wp_ret, HQ; [done|]. intros a. by rewrite decide_False by lia. }
destruct (ata_data (dev s) n Hb Hl) as (d & v & E & Hv & Hb' & Hn' & Hl').
apply wp_bind. eapply wp_eq.
{ unfold inl. change (u16 0x1F0) with 0x1F0. by rewrite E. }
apply wp_bind, wp_modify. rewrite Hv, wrapU_small by lia.
apply IH; [done|done|lia|lia|]. intros s' Hs' Hst. apply HQ; [done|].
intros a. rewrite Hst. cbn [memory set_memory set_dev dev]. rewrite Hn'.
destruct (decide (addr + 4 ≤ a < addr + 4 + 4 * Z.of_nat n)) as [Hi|Ho].
{ rewrite decide_True by lia. f_equal. lia. }
destruct (decide (addr ≤ a < addr + 4)) as [Hi|Hi].
- rewrite decide_True by lia. by apply rd_stn_ldn.
- rewrite decide_False by lia. by apply rd_stn_out.
Qed.
(** A command register is set. *)
Lemma wp_ata_out port v s (Q : unit → machine D → Prop) :
ata_busy (dev s) = 0%nat → idle s → 0x1F2 ≤ port ≤ 0x1F6 →
(∀ d, ata_busy d = 0%nat → ata_left d = 0%nat → ata_regs d port = u8 v →
   (∀ p, p ≠ port → ata_regs d p = ata_regs (dev s) p) → Q tt (set_dev d s)) →
WP (outb port v) Q s.
Proof.
intros Hb Hl Hp HQ. unfold outb. apply wp_modify. rewrite (wrapU_small 16) by lia.
destruct (ata_out (dev s) port (u8 v) Hb Hl Hp) as (?&?&?&?); [apply (wrapU_range 8); lia|].
by apply HQ.
Qed.

(** The sector number goes out byte by byte. *)
Lemma lba_sector sect : 0 ≤ sect < 2 ^ 28 →
u8 sect + 2 ^ 8 * u8 (Z.shiftr sect 8) + 2 ^ 16 * u8 (Z.shiftr sect 16) +
  2 ^ 24 * Z.land (u8 (Z.lor (Z.shiftr sect 24) 0xE0)) 0xF = sect ∧
Z.land (u8 (Z.lor (Z.shiftr sect 24) 0xE0)) 0xF0 = 0xE0.
Proof.
intros Hs. rewrite !Z.shiftr_div_pow2 by lia.
assert (0 ≤ sect / 2 ^ 24 < 2 ^ 4) as Hq by (split; [apply Z.div_pos|apply Z.div_lt_upper_bound]; lia).
rewrite Z.lor_comm, (lor_add 0xE0 _ 4) by done.
rewrite (wrapU_small 8 (0xE0 + _)) by lia. unfold wrapU.
split.
- change 0xF with (Z.ones 4). rewrite land_low, mod_add_aligned by done.
  pose proof (Z.div_mod sect (2 ^ 8)). pose proof (Z.div_mod (sect / 2 ^ 8) (2 ^ 8)).
  pose proof (Z.div_mod (sect / 2 ^ 16) (2 ^ 8)).
  rewrite !Z.div_div in * by lia. change (2 ^ 8 * 2 ^ 8) with (2 ^ 16) in *.
  change (2 ^ 16 * 2 ^ 8) with (2 ^ 24) in *. lia.
- change 0xF0 with (2 ^ 8 - 2 ^ 4). rewrite land_clear, mod_add_aligned by (done || lia). lia.
Qed.

Lemma wp_readsect fuel dst sect s (Q : unit → machine D → Prop) :
(ata_limit < fuel)%nat → idle s → 0 ≤ dst → dst + 512 < 2 ^ 64 → 0 ≤ sect < 2 ^ 28 →
(∀ s', idle s' → stored dst (dst + 512) (λ a, rd content (512 * sect + (a - dst))) s s' → Q tt s') →
WP (boot_readsect fuel dst sect) Q s.
Proof.
intros Hf Hi Hd1 Hd2 Hs HQ. unfold boot_readsect.
assert (∀ d, ata_busy d < fuel)%nat as Hw by (intros d; pose proof (ata_busy_limit d); lia).
apply wp_bind, wp_waitdisk; [apply Hw|]. intros d Hb _ _ Hl.
assert (idle (set_dev d s)) as Hi1 by (unfold idle in *; cbn in *; congruence).
apply wp_bind, wp_ata_out; [done|done|lia|]. intros d2 Hb2 Hl2 Hr2 _.
apply wp_bind, wp_ata_out; [done|done|lia|]. intros d3 Hb3 Hl3 Hr3 Ho3.
apply wp_bind, wp_ata_out; [done|done|lia|]. intros d4 Hb4 Hl4 Hr4 Ho4.
apply wp_bind, wp_ata_out; [done|done|lia|]. intros d5 Hb5 Hl5 Hr5 Ho5.
apply wp_bind, wp_ata_out; [done|done|lia|]. intros d6 Hb6 Hl6 Hr6 Ho6.
cbn [dev set_dev] in *. destruct (lba_sector sect Hs) as [Hlba Hmode].
assert (ata_regs d6 0x1F2 = 1 ∧ lba (ata_regs d6) = sect) as [Hc Hlb].
{ split; [by rewrite Ho6, Ho5, Ho4, Ho3, Hr2 by done|]. etrans; [|exact Hlba]. unfold lba.
  rewrite Hr6. rewrite !Ho6 by done. rewrite Hr5. rewrite !Ho5 by done. rewrite Hr4.
  by rewrite Ho4, Hr3 by done. }
destruct (ata_read d6) as [Hn7 Hl7]; [done|done|done|by rewrite Hr6|].
apply wp_bind, wp_modify, wp_bind, wp_waitdisk; [apply Hw|].
intros d8 Hb8 _ Hn8 Hl8. cbn [dev set_dev] in *.
change (u16 0x1F7) with 0x1F7 in *. change (u8 0x20) with 0x20 in *.
apply wp_insl; cbn [dev set_dev]; [done|by rewrite Hl8, Hl7|done|done|].
intros s' Hs' Hst. apply HQ; [done|]. intros a. rewrite Hst. cbn [memory set_dev].
by rewrite Hn8, Hn7, Hlb.
Qed.
Lemma wp_read_sectors fuel k n ptr end_ptr sect s (Q : unit → machine D → Prop) :
(ata_limit < fuel)%nat → (k ≤ n)%nat → idle s → 0 ≤ ptr →
end_ptr ≤ ptr + 512 * Z.of_nat k < end_ptr + 512 → end_ptr + 512 < 2 ^ 64 →
0 ≤ sect → sect + Z.of_nat k < 2 ^ 28 →
(∀ s', idle s' →
   stored ptr (ptr + 512 * Z.of_nat k) (λ a, rd content (512 * sect + (a - ptr))) s s' → Q tt s') →
WP (read_sectors fuel n ptr end_ptr sect) Q s.
Proof.
intros Hf. revert n ptr sect s. induction k as [|k IH]; intros n ptr sect s Hn Hi Hp He Hw Hs Hs' HQ.
all: assert ((ptr <? end_ptr) = negb (Nat.eqb (if decide (ptr < end_ptr) then 1 else 0) 0)) as Ht
  by (destruct (Z.ltb_spec ptr end_ptr); case_decide; [done|lia|lia|done]).
- destruct n; cbn [read_sectors]; rewrite Ht, decide_False by lia; apply wp_ret, HQ;
    first [done|intros a; by rewrite decide_False by lia].
- destruct n as [|n]; [lia|]. cbn [read_sectors]. rewrite Ht, decide_True by lia. cbn [Nat.eqb negb].
  apply wp_bind, wp_readsect; [done|done|done|lia|lia|]. intros s1 Hi1 H1.
  change SECTORSIZE with 512. rewrite (wrapU_small 64), (wrapU_small 32) by lia.
  apply IH; [lia|done|lia|lia|done|lia|lia|]. intros s2 Hi2 H2. apply HQ; [done|].
  intros a. rewrite H2, H1. solve_decide; first [done|f_equal; lia].
Qed.

Lemma wp_clear_bss n a e s (Q : unit → machine D → Prop) :
0 ≤ a → e < 2 ^ 64 → n = Z.to_nat (e - a) → idle s →
(∀ s', idle s' → stored a e (λ _, 0) s s' → Q tt s') → WP (clear_bss n a e) Q s.
Proof.
revert a s. induction n as [|n IH]; intros a s Ha He Hn Hi HQ; cbn [clear_bss].
- destruct (Z.ltb_spec a e); [lia|]. apply wp_ret, HQ; [done|]. intros b. by rewrite decide_False by lia.
- destruct (Z.ltb_spec a e); [|lia]. apply wp_bind, wp_modify. rewrite wrapU_small by lia.
  apply IH; [lia|done|lia|done|]. intros s' Hi' Hst. apply HQ; [done|].
  intros b. rewrite Hst. cbn [memory set_memory]. rewrite rd_wr. solve_decide; done.
Qed.

(** ** Segments *)

(** Where the sectors of a segment start and how many there are. *)
Definition seg_start (va : Z) : Z := va - va mod 512.
Definition seg_sectors (va filesz : Z) : Z := (va mod 512 + filesz + 511) / 512.

(** The addresses that loading a segment may change. *)
Definition in_extent (va filesz memsz a : Z) : Prop :=
seg_start va ≤ a < seg_start va + 512 * seg_sectors va filesz ∨ va + filesz ≤ a < va + memsz.

(** Loading a segment whose file offset is [off] bytes into sector [sect]. *)
Definition segment_loaded (va filesz memsz sect : Z) s s' : Prop :=
(∀ a, va ≤ a < va + filesz → rd (memory s') a = rd content (512 * sect + va mod 512 + (a - va))) ∧
(∀ a, va + filesz ≤ a < va + memsz → rd (memory s') a = 0) ∧
(∀ a, ¬ in_extent va filesz memsz a → rd (memory s') a = rd (memory s) a).

Lemma seg_sectors_bounds va filesz : 0 ≤ filesz →
va + filesz ≤ seg_start va + 512 * seg_sectors va filesz < va + filesz + 512 ∧
0 ≤ seg_sectors va filesz ≤ (va + filesz - seg_start va) / 512 + 1 ∧
seg_sectors va filesz ≤ filesz / 512 + 2 ∧ 0 ≤ va mod 512 < 512.
Proof.
intros Hf. unfold seg_start, seg_sectors.
pose proof (Z.mod_pos_bound va 512). pose proof (Z.div_mod (va mod 512 + filesz + 511) 512).
pose proof (Z.mod_pos_bound (va mod 512 + filesz + 511) 512).
pose proof (Z.div_mod (va + filesz - (va - va mod 512)) 512).
pose proof (Z.mod_pos_bound (va + filesz - (va - va mod 512)) 512).
pose proof (Z.div_mod filesz 512). pose proof (Z.mod_pos_bound filesz 512). lia.
Qed.

Lemma wp_readseg fuel va sect filesz memsz s (Q : unit → machine D → Prop) :
(ata_limit < fuel)%nat → idle s → 0 ≤ va → 0 ≤ filesz → 0 ≤ memsz →
va + filesz + 512 < 2 ^ 64 → va + memsz < 2 ^ 64 → 0 ≤ sect → sect + filesz / 512 + 2 < 2 ^ 28 →
(∀ s', idle s' → segment_loaded va filesz memsz sect s s' → Q tt s') →
WP (boot_readseg fuel va sect filesz memsz) Q s.
Proof.
intros Hf Hi Hv Hfs Hms Hw1 Hw2 Hs1 Hs2 HQ.
destruct (seg_sectors_bounds va filesz Hfs) as (Hb1 & Hb2 & Hb3 & Hm).
assert (0 ≤ filesz / 512) by (apply Z.div_pos; lia).
unfold boot_readseg. change SECTORSIZE with 512.
change (u64 (Z.lnot (512 - 1))) with (2 ^ 64 - 2 ^ 9).
rewrite !(wrapU_small 64), (wrapU_small 32), land_clear by lia.
change (2 ^ 9) with 512. fold (seg_start va).
apply wp_bind, (wp_read_sectors fuel (Z.to_nat (seg_sectors va filesz)));
  [done|lia|done|unfold seg_start; pose proof (Z.mod_le va 512); lia|lia|lia|lia|lia|].
intros s1 Hi1 H1. apply wp_clear_bss; [lia|lia|done|done|].
intros s2 Hi2 H2. apply HQ; [done|]. rewrite Z2Nat.id in H1 by lia.
unfold segment_loaded, in_extent. split_and!; intros a Ha; rewrite H2, ?H1.
- rewrite decide_False, decide_True by (unfold seg_start in *; lia). f_equal. unfold seg_start. lia.
- by rewrite decide_True by lia.
- by rewrite !decide_False by lia.
Qed.
(** ** The kernel *)

(** The kernel image starts at sector 1 of the disk. *)
Definition kernel_header : elf_header := read_header content 512.
Definition kernel_program (i : Z) : elf_program :=
read_program content (512 + e_phoff kernel_header + sizeof_elf_program * i).

Definition extent (p : elf_program) (a : Z) : Prop := in_extent (p_va p) (p_filesz p) (p_memsz p) a.
Definition scratch (a : Z) : Prop := ELFHDR ≤ a < ELFHDR + PAGESIZE.

(** The bytes of a segment are in memory: its part of the file, then zeros. *)
Definition loaded (p : elf_program) s : Prop :=
(∀ k, 0 ≤ k < p_filesz p → rd (memory s) (p_va p + k) = rd content (512 + p_offset p + k)) ∧
(∀ k, p_filesz p ≤ k < p_memsz p → rd (memory s) (p_va p + k) = 0).

(** A segment the boot loader can load: it lies in the address space and on the
    disk, the file keeps its offset in a sector, and the scratch page that holds
    the headers is not overwritten. *)
Record loadable (p : elf_program) : Prop := {
  loadable_file : p_va p + p_filesz p + 512 < 2 ^ 64;
  loadable_mem : p_va p + p_memsz p < 2 ^ 64;
  loadable_disk : p_offset p + p_filesz p < 2 ^ 36;
  loadable_offset : p_offset p mod 512 = p_va p mod 512;
  loadable_scratch a : extent p a → ¬ scratch a
}.

(** An executable whose headers are in its first page, with loadable segments
    none of which overwrites an earlier one. *)
Record bootable : Prop := {
  bootable_magic : e_magic kernel_header = ELF_MAGIC;
  bootable_page : e_phoff kernel_header + sizeof_elf_program * e_phnum kernel_header ≤ PAGESIZE;
  bootable_segment i : 0 ≤ i < e_phnum kernel_header → loadable (kernel_program i);
  bootable_disjoint i j a : 0 ≤ i < j → j < e_phnum kernel_header →
    let p := kernel_program i in
    p_va p ≤ a < p_va p + Z.max (p_filesz p) (p_memsz p) → ¬ extent (kernel_program j) a
}.

Lemma header_range m a :
0 ≤ e_phoff (read_header m a) ∧ 0 ≤ e_phnum (read_header m a).
Proof. split; apply ldn_range. Qed.

Lemma program_range m a : let p := read_program m a in
0 ≤ p_va p ∧ 0 ≤ p_offset p ∧ 0 ≤ p_filesz p ∧ 0 ≤ p_memsz p.
Proof. split_and!; apply ldn_range. Qed.

(** The scratch page holds the first page of the kernel. *)
Definition headers_in s : Prop := ∀ k, 0 ≤ k < PAGESIZE → rd (memory s) (ELFHDR + k) = rd content (512 + k).

Lemma headers_in_header s : headers_in s → read_header (memory s) ELFHDR = kernel_header.
Proof.
intros Hs. unfold kernel_header, read_header.
f_equal; apply ldn_shift; intros i Hi; rewrite <- ?Z.add_assoc; apply Hs; change PAGESIZE with 4096; lia.
Qed.

Lemma headers_in_program s i : headers_in s → bootable → 0 ≤ i < e_phnum kernel_header →
read_program (memory s) (ELFHDR + e_phoff kernel_header + sizeof_elf_program * i) = kernel_program i.
Proof.
intros Hs Hb Hi. pose proof (bootable_page Hb) as Hp. pose proof (header_range content 512) as [Ho _].
fold kernel_header in Ho. change sizeof_elf_program with 56 in *.
unfold kernel_program, read_program. change sizeof_elf_program with 56.
f_equal; apply ldn_shift; intros k Hk; rewrite <- !Z.add_assoc; apply Hs; lia.
Qed.

(** The state after the first [i] segments. *)
Record booted (i : Z) s s' : Prop := {
  booted_idle : idle s';
  booted_headers : headers_in s';
  booted_loaded j : 0 ≤ j < i → loaded (kernel_program j) s';
  booted_frame a : ¬ scratch a → (∀ j, 0 ≤ j < i → ¬ extent (kernel_program j) a) →
    rd (memory s') a = rd (memory s) a
}.

(** One more segment. *)
Lemma booted_next i s s1 s2 : bootable → 0 ≤ i < e_phnum kernel_header → booted i s s1 → idle s2 →
let p := kernel_program i in
segment_loaded (p_va p) (p_filesz p) (p_memsz p) (p_offset p / 512 + 1) s1 s2 →
booted (i + 1) s s2.
Proof.
intros Hb Hi [_ Hh Hl Hf] Hidle p (Hfile & Hbss & Hout).
destruct (bootable_segment Hb i Hi) as [_ _ _ Hoff Hscr]. fold p in Hoff, Hscr.
split; [done| | |].
- intros k Hk. rewrite Hout; [by apply Hh|]. intros He. apply (Hscr _ He). unfold scratch. lia.
- intros j Hj. destruct (decide (j = i)) as [->|].
  + fold p. split; intros k Hk; [|apply Hbss; lia]. rewrite Hfile by lia. f_equal.
    pose proof (Z.div_mod (p_offset p) 512). fold p. lia.
  + destruct (Hl j ltac:(lia)) as [Hl1 Hl2].
    assert (∀ k, 0 ≤ k < Z.max (p_filesz (kernel_program j)) (p_memsz (kernel_program j)) →
      ¬ in_extent (p_va p) (p_filesz p) (p_memsz p) (p_va (kernel_program j) + k)) as Hd.
    { intros k Hk. apply (bootable_disjoint Hb j i); lia. }
    pose proof (program_range content (512 + e_phoff kernel_header + sizeof_elf_program * j)) as (_&_&?&_).
    split; intros k Hk; rewrite Hout; first [by apply Hl1|by apply Hl2|apply Hd; unfold kernel_program in *; lia].
- intros a Ha Hj. rewrite Hout by (apply (Hj i); lia). apply Hf; [done|]. intros j ?. apply Hj. lia.
Qed.

Lemma wp_boot_segments fuel n i s s1 (Q : unit → machine D → Prop) :
bootable → (ata_limit < fuel)%nat → 0 ≤ i → i + Z.of_nat n = e_phnum kernel_header → booted i s s1 →
(∀ s2, booted (e_phnum kernel_header) s s2 → Q tt s2) →
WP (boot_segments fuel n (ELFHDR + e_phoff kernel_header + sizeof_elf_program * i)) Q s1.
Proof.
intros Hb Hf. revert i s1. induction n as [|n IH]; intros i s1 Hi Hn H1 HQ; cbn [boot_segments].
{ apply wp_ret, HQ. by replace (e_phnum kernel_header) with i by lia. }
apply wp_bind, wp_get. rewrite headers_in_program; [|apply H1|done|lia].
destruct (bootable_segment Hb i ltac:(lia)) as [Hl1 Hl2 Hl3 _ _].
destruct (program_range content (512 + e_phoff kernel_header + sizeof_elf_program * i)) as (?&?&?&?).
fold (kernel_program i) in *. change SECTORSIZE with 512.
assert (p_offset (kernel_program i) / 512 + p_filesz (kernel_program i) / 512 + 3 < 2 ^ 28 ∧
  0 ≤ p_offset (kernel_program i) / 512) as [??].
{ pose proof (Z.div_mod (p_offset (kernel_program i)) 512). pose proof (Z.mod_pos_bound (p_offset (kernel_program i)) 512).
  pose proof (Z.div_mod (p_filesz (kernel_program i)) 512). pose proof (Z.mod_pos_bound (p_filesz (kernel_program i)) 512). lia. }
apply wp_bind, wp_readseg; [done|apply H1|lia..|]. intros s2 Hi2 Hs2.
pose proof (bootable_page Hb). pose proof (header_range content 512) as [Ho _]. fold kernel_header in Ho.
change ELFHDR with 0x10000 in *. change PAGESIZE with 4096 in *. change sizeof_elf_program with 56 in *.
rewrite wrapU_small by lia.
replace (0x10000 + e_phoff kernel_header + 56 * i + 56)
  with (0x10000 + e_phoff kernel_header + 56 * (i + 1)) by lia.
apply IH; [lia|lia| |done]. eapply booted_next; [done|lia|done|done|done].
Qed.

Lemma boot_ok fuel s :
(ata_limit < fuel)%nat → idle s → bootable →
∃ s', boot fuel s = Ret (e_entry kernel_header) s' ∧
  (∀ i, 0 ≤ i < e_phnum kernel_header → loaded (kernel_program i) s') ∧
  (∀ a, ¬ scratch a → (∀ i, 0 ≤ i < e_phnum kernel_header → ¬ extent (kernel_program i) a) →
     rd (memory s') a = rd (memory s) a).
Proof.
intros Hf Hi Hb.
assert (WP (boot fuel) (λ r s', r = e_entry kernel_header ∧ booted (e_phnum kernel_header) s s') s) as Hw.
2:{ destruct (wp_returns _ _ _ Hw) as (r & s' & E & -> & [_ _ Hl Hfr]). exists s'. split_and!; [done|done|].
    intros a Ha Hj. by apply Hfr. }
unfold boot. apply wp_bind, wp_readseg; [done..|]. intros s1 Hi1 (Hfile & _ & Hout).
assert (booted 0 s s1) as H1.
{ split; [done| |lia|].
  - intros k Hk. rewrite Hfile; [|by change ELFHDR with 0x10000 in *; lia].
    f_equal. change (ELFHDR mod 512) with 0. lia.
  - intros a Ha _. apply Hout. intros He. apply Ha. destruct He as [He|He]; [|change PAGESIZE with 4096 in He; lia].
    change (seg_sectors ELFHDR PAGESIZE) with 8 in He. change (seg_start ELFHDR) with ELFHDR in He.
    unfold scratch. change PAGESIZE with 4096. lia. }
apply wp_bind, wp_get. rewrite (headers_in_header s1) by apply H1.
apply wp_bind. rewrite (bootable_magic Hb). apply wp_ret.
pose proof (bootable_page Hb). pose proof (header_range content 512) as [Ho Hn]. fold kernel_header in Ho, Hn.
rewrite wrapU_small by (change ELFHDR with 0x10000; change PAGESIZE with 4096 in *;
  change sizeof_elf_program with 56 in *; lia).
replace (ELFHDR + e_phoff kernel_header)
  with (ELFHDR + e_phoff kernel_header + sizeof_elf_program * 0) by lia.
apply wp_bind, (wp_boot_segments fuel _ 0 s); [done|done|lia|lia|done|].
intros s2 H2. apply wp_get. rewrite (headers_in_header s2) by apply H2. done.
Qed.

(** C22. Booting.  From an idle disk whose sectors from 1 on hold an executable
    with its headers in the first page and its segments disjoint and loadable,
    the boot loader returns (the waits for the disk end) and jumps to the entry
    point; every segment is in memory at its virtual address, its file bytes
    followed by zeros up to its memory size; and memory outside the scratch page
    and the segments' sectors is not touched. *)
Theorem boot_loads_kernel fuel s :
(ata_limit < fuel)%nat → idle s → bootable →
∃ s', boot fuel s = Ret (e_entry kernel_header) s' ∧
  (∀ i, 0 ≤ i < e_phnum kernel_header → loaded (kernel_program i) s') ∧
  (∀ a, ¬ scratch a → (∀ i, 0 ≤ i < e_phnum kernel_header → ¬ extent (kernel_program i) a) →
     rd (memory s') a = rd (memory s) a).
Proof. apply boot_ok. Qed.
End reading.

(** ** A disk *)

(** A disk that is busy for one poll of its status after each command. *)
Record pio_disk := PioDisk { pio_busy : bool; pio_regs : Z → Z; pio_next : Z; pio_left : nat }.

Section pio.
Context (content : mem).

Definition pio_in (d : pio_disk) (port w : Z) : pio_disk * Z :=
if port =? 0x1F7 then
  (PioDisk false (pio_regs d) (pio_next d) (pio_left d), if pio_busy d then 0x80 else 0x50)
else if port =? 0x1F0 then
  (PioDisk (pio_busy d) (pio_regs d) (pio_next d + 4) (pred (pio_left d)), ld32 content (pio_next d))
else (d, 0).

Definition pio_out (d : pio_disk) (port w v : Z) : pio_disk :=
if (port =? 0x1F7) && (v =? 0x20) then PioDisk true (pio_regs d) (512 * lba (pio_regs d)) 128
else if (0x1F2 <=? port) && (port <=? 0x1F6) then
  PioDisk (pio_busy d) (λ p, if p =? port then v else pio_regs d p) (pio_next d) (pio_left d)
else d.

Definition pio_bus : PortBus pio_disk := {| bus_in := pio_in; bus_out := pio_out |}.

#[refine] Definition pio_ata : @AtaDisk pio_disk pio_bus content := {|
  ata_busy d := if pio_busy d then 1%nat else 0%nat; ata_limit := 1; ata_regs := pio_regs;
  ata_next := pio_next; ata_left := pio_left |}.
Proof.
- intros d. destruct (pio_busy d); lia.
- intros d. eexists _, _. split; [reflexivity|]. by destruct (pio_busy d).
- intros d port v Hb Hl Hp Hv. cbn. unfold pio_out.
  destruct (Z.eqb_spec port 0x1F7); [lia|]. cbn [andb].
  destruct (Z.leb_spec 0x1F2 port); [|lia]. destruct (Z.leb_spec port 0x1F6); [|lia]. cbn.
  split_and!; [done|done|by rewrite Z.eqb_refl|]. intros p Hne. by destruct (Z.eqb_spec p port).
- done.
- intros d n Hb Hl. eexists _, _. split; [reflexivity|]. cbn. rewrite Hl.
  split_and!; [|done..]. apply wrapU_small. exact (ldn_range 4 content (pio_next d)).
Defined.
End pio.

(** An executable of two segments after the boot sector. *)
Definition ex_kernel : mem :=
let header := stn 4 (stn 8 (stn 8 (stn 2 ∅ (512 + 0x38) 2) (512 + 0x20) 64) (512 + 0x18) 0x40010) 512 ELF_MAGIC in
let program m a off va filesz memsz :=
  stn 8 (stn 8 (stn 8 (stn 8 m (a + 8) off) (a + 0x10) va) (a + 0x20) filesz) (a + 0x28) memsz in
let m := program (program header 576 0x1010 0x40010 600 620) 632 0x1400 0x41000 3 3 in
wr_list (wr_list m (512 + 0x1010) (replicate 600 0x90)) (512 + 0x1400) [1; 2; 3].

Definition ex_boot : machine pio_disk :=
Machine (PioDisk false (λ _, 0) 0 0) ∅ [] 0 (Cpu [] [] 0 (PseudoDescriptor 0 0) (PseudoDescriptor 0 0) 0 0 0 0)
  0 0 0 0 [] 0 0 [] 0 0.

(** The segments of [ex_kernel] occupy four sectors and a tail of zeros. *)
Lemma ex_extents a :
(extent (ElfProgram 0 0 0x1010 0x40010 0 600 620 0) a ↔ 0x40000 ≤ a < 0x40400) ∧
(extent (ElfProgram 0 0 0x1400 0x41000 0 3 3 0) a ↔ 0x41000 ≤ a < 0x41200).
Proof.
unfold extent, in_extent. cbn [p_va p_filesz p_memsz].
change (seg_start 0x40010) with 0x40000. change (seg_sectors 0x40010 600) with 2.
change (seg_start 0x41000) with 0x41000. change (seg_sectors 0x41000 3) with 1. lia.
Qed.

Lemma ex_bootable content :
kernel_header content = ElfHeader ELF_MAGIC 0x40010 64 2 →
kernel_program content 0 = ElfProgram 0 0 0x1010 0x40010 0 600 620 0 →
kernel_program content 1 = ElfProgram 0 0 0x1400 0x41000 0 3 3 0 →
bootable content.
Proof.
intros Hh H0 H1. assert (∀ i, 0 ≤ i < 2 → i = 0 ∨ i = 1) as Hi by lia.
split; rewrite ?Hh; cbn [e_magic e_phoff e_phnum].
- done.
- done.
- intros i [->| ->]%Hi; rewrite ?H0, ?H1; (split; [done..|]); intros a He%ex_extents; unfold scratch;
    change ELFHDR with 0x10000; change PAGESIZE with 4096; lia.
- intros i j a Hij Hj Ha He. assert (i = 0 ∧ j = 1) as [-> ->] by lia.
  rewrite H0 in Ha. rewrite H1 in He. apply ex_extents in He. cbn in Ha. lia.
Qed.

Lemma ex_kernel_bootable : bootable ex_kernel.
Proof. apply ex_bootable; by vm_compute. Qed.

Lemma boot_loads_kernel_witness :
∃ s', boot (H := pio_bus ex_kernel) 2 ex_boot = Ret 0x40010 s'.
Proof.
destruct (boot_loads_kernel (HB := pio_bus ex_kernel) ex_kernel (HA := pio_ata ex_kernel) 2 ex_boot)
  as (s' & E & _); [cbn; lia|done|apply ex_kernel_bootable|].
exists s'. rewrite E. f_equal; vm_compute; reflexivity.
Defined.
