(* ===== verification/Kernel.v ===== *)
(** * The kernel

    Models src/modules/m3/kernel.c: boot ([kernel], [process_setup]), the
    exception handler with its system calls, the scheduler and [run], the
    self-checks of virtual memory ([check_virtual_memory] and what it calls),
    and the memory displays and dumps.  [spin] bounds the polls of the two loops
    that wait for the user ([fail], and [schedule] when nothing is runnable). *)
From stdpp Require Import base tactics numbers list gmap.
From Stdlib Require Import ZArith Lia.
From S2P Require Import Prelude Mem LibStr Printf VM Machine Hardware Keyboard Pages Loader.

(** @src modules/m3/kernel.c 23-29 PROC_SIZE *)
Definition PROC_SIZE : Z := 0x40000.
Definition HZ : Z := 100.

(** What [memset(processes, 0, ...)] leaves in a descriptor. *)
Definition zero_registers : x86_64_registers :=
  Registers 0 0 0 0 0 0 0 0 0 0 0 0 0 0 0 0 0 0 0 0 0 0 0 0.
Definition zero_proc : proc := Proc 0 zero_registers P_FREE 0.

(** @src modules/m3/kernel.c 456-462 memstate_colors *)
Definition memstate_colors : list Z :=
  [Z.lor (chr "K") 0x0D00; Z.lor (chr "R") 0x0700; Z.lor (chr ".") 0x0700; Z.lor (chr "1") 0x0C00;
   Z.lor (chr "2") 0x0A00; Z.lor (chr "3") 0x0900; Z.lor (chr "4") 0x0E00; Z.lor (chr "5") 0x0F00;
   Z.lor (chr "6") 0x0C00; Z.lor (chr "7") 0x0A00; Z.lor (chr "8") 0x0900; Z.lor (chr "9") 0x0E00;
   Z.lor (chr "A") 0x0F00; Z.lor (chr "B") 0x0C00; Z.lor (chr "C") 0x0A00; Z.lor (chr "D") 0x0900;
   Z.lor (chr "E") 0x0E00; Z.lor (chr "F") 0x0F00].

(** @src modules/m3/kernel.c 547-548 memshow_virtual_animate
    [char s[4]; snprintf(s, 4, "%d ", showing)] *)
Definition proc_name (pid : Z) : res (list Z) :=
  '(m, _) ← snprintf ∅ 0 4 (str "%d ") [VWord pid]; Ok (read_cstr 4 m 0).

Section kernel.
Context {D : Type} `{PortBus D}.
Context (cfg : config) (ramimages : list ramimage) (spin : nat).

(** ** Running processes *)

(** @src modules/m3/kernel.c 312-324 run *)
Definition run {A} (pid : Z) : M D A :=
p ← proc_at pid;
massert (bool_decide (p_state p = P_RUNNABLE));;
modify (set_current pid);;
load_pagetable cfg (p_pagetable p);;
halt_ (Resume (p_registers p)).

(** @src modules/m3/kernel.c 295-302 schedule
  The loop; [fuel] rounds are left. *)
Fixpoint schedule_loop {A} (fuel : nat) (pid : Z) : M D A :=
match fuel with
| O => λ _, Fault NoFuel
| S fuel =>
    let pid := Z.rem (pid + 1) NPROC in
    p ← proc_at pid;
    if bool_decide (p_state p = P_RUNNABLE) then run pid
    else _ ← check_keyboard cfg; schedule_loop fuel pid
end.

(** @src modules/m3/kernel.c 293-303 schedule *)
Definition schedule {A} : M D A :=
cur ← get current; p ← proc_at cur; schedule_loop (Z.to_nat NPROC + spin) (p_pid p).

(** ** Checks of the virtual memory invariants *)

(** @src modules/m3/kernel.c 358-368 check_page_table_mappings
  The loop over kernel memory, [n] pages left. *)
Fixpoint check_mappings_loop (n : nat) (pt va : Z) : M D unit :=
match n with
| O => mret tt
| S n =>
    if va <? end_ (syms cfg) then
      m ← get memory;
      vam ← liftR (virtual_memory_lookup m pt va);
      (if negb (vam_pa vam =? va) then
         _ ← kprintf (CPOS 22 0) 0xC000 (str "%p vs %p" ++ [10]) [VWord va; VWord (vam_pa vam)];
         mret tt
       else mret tt);;
      massert (vam_pa vam =? va);;
      (if va >=? start_data (syms cfg) then massert (has PTE_W (vam_perm vam)) else mret tt);;
      check_mappings_loop n pt (u64 (va + PAGESIZE))
    else mret tt
end.

(** @src modules/m3/kernel.c 353-375 check_page_table_mappings *)
Definition check_page_table_mappings (pt : Z) : M D unit :=
massert (PTE_ADDR pt =? pt);;
check_mappings_loop (Z.to_nat (MEMSIZE_PHYSICAL / PAGESIZE)) pt KERNEL_START_ADDR;;
let kstack := KERNEL_STACK_TOP - PAGESIZE in
m ← get memory;
vam ← liftR (virtual_memory_lookup m pt kstack);
massert (vam_pa vam =? kstack);;
massert (has PTE_W (vam_perm vam)).

(** @src modules/m3/kernel.c 401-415 check_page_table_ownership_level
  [n] is 3 - level. *)
Fixpoint check_page_table_ownership_level (n : nat) (pt owner_ refcount_ : Z) : M D unit :=
massert (PAGENUMBER pt <? NPAGES);;
pi ← page_at (PAGENUMBER pt);
massert (owner pi =? owner_);;
massert (refcount pi =? refcount_);;
match n with
| O => mret tt
| S n =>
    for_ (Z.to_nat NPAGETABLEENTRIES) 0 (λ index,
      m ← get memory;
      let pe := entry m pt index in
      if c_true pe then check_page_table_ownership_level n (PTE_ADDR pe) owner_ 1
      else mret tt)
end.

(** @src modules/m3/kernel.c 391-396 check_page_table_ownership
  The number of active processes that use the kernel's page table. *)
Definition count_kernel_users (ps : list proc) : Z :=
Z.of_nat (length (filter (λ p, p_state p ≠ P_FREE ∧
  p_pagetable p = kernel_pagetable (syms cfg)) ps)).

(** @src modules/m3/kernel.c 385-399 check_page_table_ownership *)
Definition check_page_table_ownership (pt pid : Z) : M D unit :=
ps ← get processes;
if pt =? kernel_pagetable (syms cfg)
then check_page_table_ownership_level 3 pt PO_KERNEL (1 + count_kernel_users ps)
else check_page_table_ownership_level 3 pt pid 1.

(** @src modules/m3/kernel.c 422-450 check_virtual_memory *)
Definition check_virtual_memory : M D unit :=
p0 ← proc_at 0;
massert (bool_decide (p_state p0 = P_FREE));;
check_page_table_mappings (kernel_pagetable (syms cfg));;
check_page_table_ownership (kernel_pagetable (syms cfg)) (-1);;
for_ (Z.to_nat NPROC) 0 (λ pid,
  p ← proc_at pid;
  if bool_decide (p_state p ≠ P_FREE) && negb (p_pagetable p =? kernel_pagetable (syms cfg))
  then check_page_table_mappings (p_pagetable p);;
       check_page_table_ownership (p_pagetable p) pid
  else mret tt);;
for_ (Z.to_nat NPAGES) 0 (λ pn,
  pi ← page_at pn;
  if (refcount pi >? 0) && (owner pi >=? 0) then
    p ← proc_at (owner pi); massert (bool_decide (p_state p ≠ P_FREE))
  else mret tt).

(** ** Displays *)

(** [console[i] = v] *)
Definition console_set (i v : Z) : M D unit :=
con ← get console;
massert_ub ((0 <=? i) && (i <? zlen con));;
modify (set_console (zset con i (u16 v))).

(** @src modules/m3/kernel.c 470-479 memshow_physical
  The color of a page, by its owner and reference count. *)
Definition page_color (pi : physical_pageinfo) (user : bool) : res Z :=
let owner := if refcount pi =? 0 then PO_FREE else owner pi in
color ← aref memstate_colors (owner - PO_KERNEL);
let color := if user
  then u16 (lors [Z.shiftl (Z.land color 0x0F00) 4; Z.shiftr (Z.land color 0xF000) 4;
                  Z.land color 0x00FF])
  else color in
Ok (if refcount pi >? 1 then Z.land color 0x77FF else color).

(** @src modules/m3/kernel.c 464-483 memshow_physical *)
Definition memshow_physical : M D unit :=
_ ← kprintf (CPOS 0 32) 0x0F00 (str "PHYSICAL MEMORY") [];
for_ (Z.to_nat NPAGES) 0 (λ pn,
  (if Z.rem pn 64 =? 0 then
     _ ← kprintf (CPOS (1 + pn ÷ 64) 3) 0x0F00 (str "0x%06X ") [VWord (Z.shiftl pn 12)]; mret tt
   else mret tt);;
  pi ← page_at pn;
  color ← liftR (page_color pi false);
  console_set (CPOS (1 + pn ÷ 64) (12 + Z.rem pn 64)) color).

(** @src modules/m3/kernel.c 495-521 memshow_virtual
  The body of the loop for the page of [va]. *)
Definition memshow_virtual_page (pagetable va : Z) : M D unit :=
m ← get memory;
vam ← liftR (virtual_memory_lookup m pagetable va);
color ← (if vam_pn vam <? 0 then mret (chr " ")
         else massert (vam_pa vam <? MEMSIZE_PHYSICAL);;
              pi ← page_at (vam_pn vam);
              liftR (page_color pi (has PTE_U (vam_perm vam))));
let pn := PAGENUMBER va in
(if Z.rem pn 64 =? 0 then
   _ ← kprintf (CPOS (11 + pn ÷ 64) 3) 0x0F00 (str "0x%06X ") [VWord va]; mret tt
 else mret tt);;
console_set (CPOS (11 + pn ÷ 64) (12 + Z.rem pn 64)) color.

(** @src modules/m3/kernel.c 490-522 memshow_virtual *)
Definition memshow_virtual (pagetable : Z) (name : list Z) : M D unit :=
massert (pagetable =? PTE_ADDR pagetable);;
_ ← kprintf (CPOS 10 26) 0x0F00 (str "VIRTUAL ADDRESS SPACE FOR %s") [VStr name];
for_ (Z.to_nat (MEMSIZE_VIRTUAL / PAGESIZE)) 0 (λ i, memshow_virtual_page pagetable (i * PAGESIZE)).

(** @src modules/m3/kernel.c 539-543 memshow_virtual_animate
  The search for a live process; [n] steps are left. *)
Fixpoint next_shown (n : nat) (ps : list proc) (showing : Z) : res Z :=
match n with
| O => Err NoFuel
| S n =>
    if showing <=? 2 * NPROC then
      p ← aref ps (Z.rem showing NPROC);
      if bool_decide (p_state p = P_FREE) then next_shown n ps (showing + 1) else Ok showing
    else Ok showing
end.

(** @src modules/m3/kernel.c 529-551 memshow_virtual_animate *)
Definition memshow_virtual_animate : M D unit :=
lt ← get last_ticks;
t ← get ticks;
(if (lt =? 0) || (u32 (t - lt) >=? HZ ÷ 2) then
   modify (set_last_ticks t);; modify (λ s, set_showing (showing s + 1) s)
 else mret tt);;
ps ← get processes;
sh ← get showing;
sh ← liftR (next_shown (Z.to_nat (2 * NPROC + 2)) ps sh);
let sh := Z.rem sh NPROC in
modify (set_showing sh);;
p ← proc_at sh;
if bool_decide (p_state p ≠ P_FREE) then
  name ← liftR (proc_name sh); memshow_virtual (p_pagetable p) name
else mret tt.

(** @src modules/m3/kernel.c 556-563 memdump_physical *)
Definition memdump_physical : M D unit :=
t ← get ticks;
log_printf (str "PM_DUMP %u ") [VWord t];;
for_ (Z.to_nat NPAGES) 0 (λ pn,
  pi ← page_at pn;
  log_printf (str "%u %u ") [VWord (u8 (owner pi)); VWord (refcount pi)]);;
log_printf [10] [].

(** @src modules/m3/kernel.c 568-583 memdump_virtual *)
Definition memdump_virtual (pagetable : Z) (name : list Z) : M D unit :=
t ← get ticks;
log_printf (str "VM_DUMP %s %u ") [VStr name; VWord t];;
massert (pagetable =? PTE_ADDR pagetable);;
for_ (Z.to_nat (MEMSIZE_VIRTUAL / PAGESIZE)) 0 (λ i,
  m ← get memory;
  vam ← liftR (virtual_memory_lookup m pagetable (i * PAGESIZE));
  if vam_pn vam <? 0 then log_printf (str "0 0 0 ") []
  else
    pi ← page_at (vam_pn vam);
    log_printf (str "%u %u %u ") [VWord (u8 (owner pi)); VWord (u8 (refcount pi)); VWord (vam_perm vam)]);;
log_printf [10] [].

(** @src modules/m3/kernel.c 588-596 memdump_virtual_all *)
Definition memdump_virtual_all : M D unit :=
for_ (Z.to_nat NPROC) 0 (λ i,
  p ← proc_at i;
  if bool_decide (p_state p ≠ P_FREE) then
    name ← liftR (proc_name i); memdump_virtual (p_pagetable p) name
  else mret tt).

(** ** Boot *)

(** @src modules/m3/kernel.c 134-154 process_setup *)
Definition process_setup (pid program_number : Z) : M D unit :=
set_proc pid (λ p, process_init p 0);;
let kpt := kernel_pagetable (syms cfg) in
set_proc pid (set_p_pagetable kpt);;
pi ← page_at (PAGENUMBER kpt);
set_page (PAGENUMBER kpt) (PageInfo (owner pi) (i8 (refcount pi + 1)));;
r ← program_load cfg ramimages pid program_number;
massert (r >=? 0);;
set_proc pid (λ p, set_p_registers (set_reg_rsp (PROC_START_ADDR + PROC_SIZE * pid) (p_registers p)) p);;
p ← proc_at pid;
let stack_page := u64 (reg_rsp (p_registers p) - PAGESIZE) in
_ ← assign_physical_page stack_page pid;
_ ← map_pages (p_pagetable p) stack_page stack_page PAGESIZE (lors [PTE_P; PTE_W; PTE_U]);
set_proc pid (set_p_state P_RUNNABLE).

(** @src modules/m3/kernel.c 93-98 kernel *)
Definition initial_processes : list proc :=
(λ i, set_p_state P_FREE (set_p_pid i zero_proc)) <$> iota 0 (Z.to_nat NPROC).

(** @src modules/m3/kernel.c 87-119 kernel
  The comparison of the command is [strcmp], by its specification [lex]. *)
Definition kernel (command : option (list Z)) : M D unit :=
hardware_init (syms cfg) (isyms cfg);;
pageinfo_init cfg;;
modify (λ s, set_cursorpos console_clear.2 (set_console console_clear.1 s));;
timer_init HZ;;
modify (set_processes initial_processes);;
let is_command c := match command with Some s => lex s c =? 0 | None => false end in
(if c_true (FORCE_FORK cfg) then process_setup 1 4
 else if is_command (str "fork") then process_setup 1 4
 else if is_command (str "forkexit") then process_setup 1 5
 else for_ 4 1 (λ i, process_setup i (i - 1)));;
run 1.

(** ** Exceptions *)

(** @src modules/m3/kernel.c 199-214 exception
  Checks and displays, on every exception but a kernel fault. *)
Definition exception_show (reg : x86_64_registers) : M D unit :=
if negb (reg_intno reg =? INT_PAGEFAULT) || has PFERR_USER (reg_err reg) then
  check_virtual_memory;;
  memshow_physical;;
  memshow_virtual_animate;;
  if c_true (TICK_LIMIT cfg) then
    t ← get ticks;
    (if t =? TICK_LIMIT cfg then poweroff else mret tt);;
    if (reg_intno reg =? INT_TIMER) && (Z.rem t HZ =? 0)
    then memdump_physical;; memdump_virtual_all else mret tt
  else mret tt
else mret tt.

(** @src modules/m3/kernel.c 235-247 exception
  The system call INT_SYS_PAGE_ALLOC. *)
Definition sys_page_alloc : M D unit :=
cur ← get current;
p ← proc_at cur;
let addr := reg_rdi (p_registers p) in
r ← assign_physical_page addr (p_pid p);
(if r >=? 0 then
   _ ← map_pages (p_pagetable p) addr addr PAGESIZE (lors [PTE_P; PTE_W; PTE_U]); mret tt
 else mret tt);;
set_proc cur (λ p, set_p_registers (set_reg_rax (u64 r) (p_registers p)) p).

(** @src modules/m3/kernel.c 254-271 exception
  Page faults. *)
Definition page_fault (reg : x86_64_registers) : M D unit :=
addr ← rcr2;
let operation := if has PFERR_WRITE (reg_err reg) then str "write" else str "read" in
let problem := if has PFERR_PRESENT (reg_err reg) then str "protection problem"
               else str "missing page" in
(if negb (has PFERR_USER (reg_err reg)) then
   panic spin cfg (Some (str "Kernel page fault for %p (%s %s, rip=%p)!" ++ [10]))
     [VWord addr; VStr operation; VStr problem; VWord (reg_rip reg)]
 else mret tt);;
cur ← get current;
p ← proc_at cur;
_ ← kprintf (CPOS 24 0) 0x0C00 (str "Process %d page fault for %p (%s %s, rip=%p)!" ++ [10])
      [VWord (p_pid p); VWord addr; VStr operation; VStr problem; VWord (reg_rip reg)];
set_proc cur (set_p_state P_BROKEN).

(** @src modules/m3/kernel.c 221-277 exception
  The [switch] on the interrupt number. *)
Definition exception_switch (reg : x86_64_registers) : M D unit :=
let intno := reg_intno reg in
if intno =? INT_SYS_PANIC then panic spin cfg None []
else if intno =? INT_SYS_GETPID then
  cur ← get current;
  set_proc cur (λ p, set_p_registers (set_reg_rax (u64 (p_pid p)) (p_registers p)) p)
else if intno =? INT_SYS_YIELD then schedule
else if intno =? INT_SYS_PAGE_ALLOC then sys_page_alloc
else if intno =? INT_TIMER then
  modify (λ s, set_ticks (u32 (ticks s + 1)) s);; schedule
else if intno =? INT_PAGEFAULT then page_fault reg
else panic spin cfg (Some (str "Unexpected exception %d!" ++ [10])) [VWord intno].

(** @src modules/m3/kernel.c 186-286 exception *)
Definition exception (reg : x86_64_registers) : M D unit :=
cur ← get current;
set_proc cur (set_p_registers reg);;
load_pagetable cfg (kernel_pagetable (syms cfg));;
cp ← get cursorpos;
console_show_cursor cp;;
exception_show reg;;
_ ← check_keyboard cfg;
exception_switch reg;;
p ← proc_at cur;
if bool_decide (p_state p = P_RUNNABLE) then run cur else schedule.
End kernel.
