(* ===== verification/KernelInv.v ===== *)
(** * The kernel invariant

    [kernel_inv] collects what kernel.c relies on between exceptions; this file
    proves that the checks and displays of the exception handler pass on it and
    that the operations on processes and pages preserve it. *)
From stdpp Require Import base tactics numbers list gmap.
From Stdlib Require Import ZArith Lia.
From S2P Require Import Prelude Mem LibStr Printf VM KTables Machine Hardware Keyboard Wp Pages Loader Kernel.

(** ** Configuration *)

(** The assumptions on the build: good symbol addresses and string literals
    below 4 GiB (the assertion of [check_keyboard]). *)
Record config_ok (cfg : config) : Prop := ConfigOk {
  cfg_symbols : symbols_ok (syms cfg);
  cfg_literals l : literal_addr cfg l < 0x100000000
}.

Definition active (p : proc) : Prop := p_state p ≠ P_FREE.
Definition runnable (p : proc) : Prop := p_state p = P_RUNNABLE.

Record kernel_inv {D} (cfg : config) (s : machine D) : Prop := KernelInv {
  inv_ui : ui_ok s;
  inv_tables : kernel_tables (syms cfg) (memory s);
  inv_nproc : zlen (processes s) = NPROC;
  inv_proc i p : zget (processes s) i = Some p →
    p_pid p = i ∧ (active p → i ≠ 0 ∧ p_pagetable p = kernel_pagetables (syms cfg));
  inv_npages : zlen (pageinfo s) = NPAGES;
  inv_page pn pi : zget (pageinfo s) pn = Some pi →
    PO_KERNEL ≤ owner pi < NPROC ∧ 0 ≤ refcount pi ∧
    (0 < refcount pi → 0 ≤ owner pi → ∃ p, zget (processes s) (owner pi) = Some p ∧ active p);
  inv_ktables j : 0 ≤ j ≤ 4 →
    zget (pageinfo s) (PAGENUMBER (kpage (syms cfg) j)) =
      Some (PageInfo PO_KERNEL (if decide (j = 0) then 1 + count_kernel_users cfg (processes s) else 1));
  inv_showing : 0 ≤ showing s ≤ NPROC
}.

(** ** Generic facts *)
Lemma for_id {D} n i body (s : machine D) :
  (∀ j, i ≤ j < i + Z.of_nat n → body j s = Ret tt s) → for_ n i body s = Ret tt s.
Proof.
  revert i. induction n as [|n IH]; intros i Hb; cbn [for_]; [done|].
  unfold mbind, M_bind. rewrite Hb by lia. apply IH. intros. apply Hb. lia.
Qed.

Lemma count_users_nonneg cfg ps : 0 ≤ count_kernel_users cfg ps.
Proof. unfold count_kernel_users. lia. Qed.

(** Counting after the update of one element. *)
Lemma filter_insert {A} (P : A → Prop) `{∀ x, Decision (P x)} (l : list A) i x y :
  zget l i = Some x →
  Z.of_nat (length (filter P (zset l i y))) + (if decide (P x) then 1 else 0) =
  Z.of_nat (length (filter P l)) + (if decide (P y) then 1 else 0).
Proof.
  unfold zget, zset. case_decide; [|done]. generalize (Z.to_nat i) as n. clear dependent i.
  intros n. revert l. induction n as [|n IH]; intros [|z l] Hx; try done; cbn in Hx.
  - injection Hx as ->. change (<[0%nat := y]> (x :: l)) with (y :: l). rewrite !filter_cons.
    repeat case_decide; cbn [length]; lia.
  - change (<[S n := y]> (z :: l)) with (z :: <[n := y]> l). rewrite !filter_cons.
    specialize (IH l Hx). destruct (decide (P z)); cbn [length]; lia.
Qed.

Section inv.
Context {D : Type} `{PortBus D} (cfg : config) (Hcfg : config_ok cfg).
Abbreviation sy := (syms cfg).
Abbreviation kp := (kernel_pagetables (syms cfg)).
Implicit Types (s : machine D).

Lemma kernel_inv_quiet s s' : kernel_inv cfg s → quiet s s' → kernel_inv cfg s'.
Proof.
intros [] [Hc Hui]. unfold core in Hc.
injection Hc as E1 E2 E3 E4 E5 E6 E7 E8 E9 E10.
split; rewrite ?E1, ?E5, ?E8, ?E10; done.
Qed.

(** The fields the invariant reads. *)
Lemma kernel_inv_fields s s' : kernel_inv cfg s →
(console s', modifiers s', last_escape s', memory s', processes s', pageinfo s') =
  (console s, modifiers s, last_escape s, memory s, processes s, pageinfo s) →
0 ≤ showing s' ≤ NPROC → kernel_inv cfg s'.
Proof.
intros [[Hc Hk]] E Hs. injection E as E1 E2 E3 E4 E5 E6.
split; rewrite ?E4, ?E5, ?E6; try done. split; [by rewrite E1|by rewrite E2, E3].
Qed.

Lemma inv_proc_at s i : kernel_inv cfg s → 0 ≤ i < NPROC →
∃ p, zget (processes s) i = Some p ∧ proc_at i s = Ret p s.
Proof.
intros I Hi. destruct (zget_is_some (processes s) i) as [p Hp];
  [pose proof (inv_nproc _ _ I); unfold zlen in *; lia|].
exists p. split; [done|]. unfold proc_at, mbind, M_bind, get, liftR, aref. by rewrite Hp.
Qed.

Lemma inv_page_at s pn : kernel_inv cfg s → 0 ≤ pn < NPAGES →
∃ pi, zget (pageinfo s) pn = Some pi ∧ page_at pn s = Ret pi s.
Proof.
intros I Hi. destruct (zget_is_some (pageinfo s) pn) as [pi Hpi];
  [pose proof (inv_npages _ _ I); unfold zlen in *; lia|].
exists pi. split; [done|]. unfold page_at, mbind, M_bind, get, liftR, aref. by rewrite Hpi.
Qed.

Lemma proc_at_some s i p : zget (processes s) i = Some p → proc_at i s = Ret p s.
Proof. intros Hp. unfold proc_at, mbind, M_bind, get, liftR, aref. by rewrite Hp. Qed.

Lemma page_at_some s pn pi : zget (pageinfo s) pn = Some pi → page_at pn s = Ret pi s.
Proof. intros Hp. unfold page_at, mbind, M_bind, get, liftR, aref. by rewrite Hp. Qed.

Lemma zget_range {A} (l : list A) i x : zget l i = Some x → 0 ≤ i < zlen l.
Proof. apply zget_some. Qed.

(** Page numbers of addresses in physical memory. *)
Lemma PAGENUMBER_ok a : 0 ≤ a < 2 ^ 43 → PAGENUMBER a = a / PAGESIZE.
Proof.
intros Ha. unfold PAGENUMBER. change PAGEOFFBITS with 12. rewrite Z.shiftr_div_pow2 by lia.
change (2 ^ 12) with 4096. change PAGESIZE with 4096.
pose proof (Z.div_pos a 4096). pose proof (Z.div_lt_upper_bound a 4096 (2 ^ 31)).
apply (wrapS_small 32); lia.
Qed.

Lemma kpage_pn j : 0 ≤ j ≤ 4 → 0 ≤ PAGENUMBER (kpage sy j) < NPAGES.
Proof.
intros Hj. destruct Hcfg as [Hsy _].
destruct (kpage_ok sy (kp_aligned _ Hsy) (kp_pos _ Hsy) (kp_mem _ Hsy) j Hj) as [_ Hr].
change MEMSIZE_PHYSICAL with 0x200000 in Hr.
rewrite PAGENUMBER_ok by lia. change PAGESIZE with 4096. change NPAGES with 512.
pose proof (Z.div_pos (kpage sy j) 4096). pose proof (Z.div_lt_upper_bound (kpage sy j) 4096 512). lia.
Qed.

(** ** check_virtual_memory passes *)

Lemma lookup_id s va : kernel_inv cfg s → 0 ≤ va < MEMSIZE_PHYSICAL →
virtual_memory_lookup (memory s) kp va = Ok (VaMapping (va / PAGESIZE) va 7).
Proof.
intros I Hva. destruct Hcfg as [Hsy _]. change MEMSIZE_PHYSICAL with 0x200000 in *.
rewrite kernel_lookup; [|apply I|unfold canonical; lia].
change MEMSIZE_PHYSICAL with 0x200000. by rewrite decide_True by lia.
Qed.

Lemma check_mappings_ok s : kernel_inv cfg s → check_page_table_mappings cfg kp s = Ret tt s.
Proof.
intros I. destruct Hcfg as [Hsy _]. pose proof (end_stack _ Hsy) as Hend.
change KERNEL_STACK_TOP with 0x80000 in *. change PAGESIZE with 4096 in Hend.
assert (∀ n va, 0 ≤ va → check_mappings_loop cfg n kp va s = Ret tt s) as Hloop.
{ induction n as [|n IH]; intros va Hva; cbn [check_mappings_loop]; [done|].
  destruct (Z.ltb_spec va (end_ sy)); [|done].
  unfold mbind, M_bind, get, liftR, massert. change MEMSIZE_PHYSICAL with 0x200000.
  rewrite lookup_id by (done || change MEMSIZE_PHYSICAL with 0x200000; lia).
  cbn [vam_pa vam_perm]. rewrite Z.eqb_refl. cbn.
  rewrite (wrapU_small 64) by (change PAGESIZE with 4096; lia).
  destruct (va >=? _); cbn; apply IH; change PAGESIZE with 4096; lia. }
unfold check_page_table_mappings, mbind, M_bind, get, liftR, massert.
pose proof (kp_pos _ Hsy). pose proof (kp_mem _ Hsy) as Hkm.
change MEMSIZE_PHYSICAL with 0x200000 in Hkm. change PAGESIZE with 4096 in Hkm.
rewrite PTE_ADDR_spec, (kp_aligned _ Hsy), Z.sub_0_r, Z.eqb_refl by lia.
change KERNEL_START_ADDR with 0x40000. cbn [liftR assert_].
rewrite Hloop by lia. rewrite lookup_id; [done|done|]. by vm_compute.
Qed.

Lemma check_level_ok s j rc :
kernel_inv cfg s → 0 ≤ j ≤ 4 →
zget (pageinfo s) (PAGENUMBER (kpage sy j)) = Some (PageInfo PO_KERNEL rc) →
∀ n, Z.of_nat n = 3 - Z.min j 3 →
check_page_table_ownership_level n (kpage sy j) PO_KERNEL rc s = Ret tt s.
Proof.
intros I Hj Hpi n. revert j rc Hj Hpi. induction n as [|n IH]; intros j rc Hj Hpi Hn;
  pose proof (kpage_pn j Hj) as Hpn.
all: cbn [check_page_table_ownership_level]; unfold mbind, M_bind, massert;
  rewrite (proj2 (Z.ltb_lt _ _)) by lia; cbn [liftR assert_];
  rewrite (page_at_some _ _ _ Hpi); cbn [owner refcount]; rewrite !Z.eqb_refl; cbn [liftR assert_].
- done.
- apply for_id. intros i Hi. unfold get. 
  assert (0 ≤ i < 512) as Hi' by (change NPAGETABLEENTRIES with 512 in Hi; lia).
  assert (0 ≤ j < 3) as Hj' by lia.
  rewrite (kt_upper _ _ (inv_tables _ _ I) j i Hj' Hi').
  destruct Hcfg as [Hsy _].
  assert (∀ k, 0 ≤ k ≤ 4 → PTE_ADDR (new_pe (kpage sy k)) = kpage sy k) as Hadr.
  { intros k Hk. apply new_pe_spec; by apply kpage_ok; [apply Hsy|apply kp_pos|apply kp_mem|]. }
  unfold upper_entry. repeat case_decide; [| |done].
  + case_match; [|done]. rewrite Hadr by lia. apply IH; [lia|by apply I|lia].
  + case_match; [|done]. rewrite Hadr by lia. apply IH; [lia| |lia].
    rewrite (inv_ktables _ _ I) by lia. by rewrite decide_False by lia.
Qed.

Lemma check_virtual_memory_ok s : kernel_inv cfg s → check_virtual_memory cfg s = Ret tt s.
Proof.
intros I. unfold check_virtual_memory, mbind, M_bind, massert.
destruct (inv_proc_at s 0 I) as (p0 & Hp0 & ->); [by vm_compute|].
destruct (inv_proc _ _ I 0 p0 Hp0) as [_ Hp0'].
rewrite bool_decide_eq_true_2; [|apply dec_stable; intros Ha; by destruct (Hp0' Ha)].
cbn [liftR assert_]. unfold kernel_pagetable. rewrite check_mappings_ok by done.
assert (check_page_table_ownership cfg kp (-1) s = Ret tt s) as ->.
{ unfold check_page_table_ownership, mbind, M_bind, get. unfold kernel_pagetable.
  rewrite Z.eqb_refl. destruct Hcfg as [Hsy _]. rewrite <- (kpage0 sy).
  apply check_level_ok; [done|lia| |done]. by apply I. }
rewrite for_id; [apply for_id|].
- intros pn Hpn. change (Z.of_nat (Z.to_nat NPAGES)) with 512 in Hpn.
  destruct (inv_page_at s pn I) as (pi & Hpi & ->); [change NPAGES with 512; lia|].
  destruct (inv_page _ _ I pn pi Hpi) as (_ & _ & Hown).
  destruct ((refcount pi >? 0) && (owner pi >=? 0)) eqn:E; [|done].
  destruct Hown as (p & Hp & Ha); [lia..|].
  rewrite (proc_at_some _ _ _ Hp). by rewrite bool_decide_eq_true_2.
- intros i Hi. change (Z.of_nat (Z.to_nat NPROC)) with 16 in Hi.
  destruct (inv_proc_at s i I) as (p & Hp & ->); [change NPROC with 16; lia|].
  destruct (inv_proc _ _ I i p Hp) as [_ Ha].
  destruct (bool_decide_reflect (p_state p ≠ P_FREE)) as [Hs|]; [|done].
  destruct (Ha Hs) as [_ ->]. by rewrite Z.eqb_refl.
Qed.
(** ** Displays *)

Lemma silent_console_set i v : 0 ≤ i < CONSOLE_SIZE → silent (console_set (D := D) i v).
Proof.
intros Hi s [Hc Hk]. exists tt, (set_console (zset (console s) i (u16 v)) s). split.
- unfold console_set, massert_ub, get, modify, mbind, M_bind, liftR. rewrite Hc.
  by replace ((0 <=? i) && (i <? CONSOLE_SIZE))%bool with true by lia.
- split; [done|]. split; [|done]. cbn. unfold zlen in *. by rewrite length_zset.
Qed.

Lemma page_color_ok s pn pi user : kernel_inv cfg s → zget (pageinfo s) pn = Some pi →
∃ c, page_color pi user = Ok c.
Proof.
intros I Hpi. destruct (inv_page _ _ I pn pi Hpi) as (Ho & _). unfold page_color.
change PO_KERNEL with (-2) in *. change NPROC with 16 in *. change PO_FREE with 0.
destruct (aref_ok memstate_colors ((if refcount pi =? 0 then 0 else owner pi) - -2)) as (c & -> & _).
{ change (zlen memstate_colors) with 18. case_match; lia. }
cbn. eauto.
Qed.

(** The position of page [pn] in a picture of 64 pages per row. *)
Lemma picture_cell pn : 0 ≤ pn → pn ÷ 64 = pn / 64 ∧ Z.rem pn 64 = pn mod 64.
Proof. intros. split; [apply Z.quot_div_nonneg|apply Z.rem_mod_nonneg]; lia. Qed.

Lemma picture_cell_range row pn n : 0 ≤ pn < 64 * n → 0 ≤ row → row + n ≤ 25 →
0 ≤ CPOS (row + pn ÷ 64) (12 + Z.rem pn 64) < CONSOLE_SIZE.
Proof.
intros Hpn Hr Hn. destruct (picture_cell pn) as [-> ->]; [lia|].
unfold CPOS. change CONSOLE_SIZE with 2000.
pose proof (Z.mod_pos_bound pn 64). pose proof (Z.div_pos pn 64).
pose proof (Z.div_lt_upper_bound pn 64 n). lia.
Qed.

Lemma wp_memshow_physical NF HH Q s :
kernel_inv cfg s → (∀ s', quiet s s' → Q tt s') → wp NF HH memshow_physical Q s.
Proof.
intros I HQ. unfold memshow_physical.
apply wp_bind, wp_silent; [apply silent_kprintf; fmt_ok ([] : list kind)|apply I|].
intros ? s1 Hq1. eapply wp_for with (I := λ _ s', quiet s s'); [done| |auto].
change (Z.of_nat (Z.to_nat NPAGES)) with 512. intros pn s2 Hpn Hq2.
apply wp_bind, wp_silent; [|by eapply quiet_ui|].
{ silent. fmt_ok [KWord]. }
intros ? s3 Hq3. pose proof (quiet_trans _ _ _ Hq2 Hq3) as Hq.
pose proof (kernel_inv_quiet _ _ I Hq) as I3.
destruct (inv_page_at s3 pn I3) as (pi & Hpi & E); [change NPAGES with 512; lia|].
apply wp_bind. eapply wp_eq; [exact E|].
destruct (page_color_ok s3 pn pi false I3 Hpi) as [c Hc].
apply wp_bind. eapply wp_liftR; [exact Hc|].
apply wp_silent; [apply silent_console_set|apply I3|].
- apply picture_cell_range with 8; lia.
- intros ? s4 Hq4. by eapply quiet_trans.
Qed.

Lemma wp_memshow_virtual_page NF HH Q s va :
kernel_inv cfg s → va mod PAGESIZE = 0 → 0 ≤ va < MEMSIZE_VIRTUAL →
(∀ s', quiet s s' → Q tt s') → wp NF HH (memshow_virtual_page kp va) Q s.
Proof.
intros I Hal Hva HQ. unfold memshow_virtual_page. apply wp_bind, wp_get, wp_bind.
change MEMSIZE_VIRTUAL with 0x300000 in *. destruct Hcfg as [Hsy _].
eapply wp_liftR; [apply kernel_lookup; [apply I|unfold canonical; lia]|].
apply wp_bind.
assert (WPc : ∀ Q, (∀ c, Q c s) → wp NF HH
  (if vam_pn (if decide (va < MEMSIZE_PHYSICAL) then VaMapping (va / PAGESIZE) va 7
              else VaMapping (-1) (2 ^ 64 - 1) 0) <? 0
   then mret (chr " ")
   else massert (vam_pa (if decide (va < MEMSIZE_PHYSICAL) then VaMapping (va / PAGESIZE) va 7
                         else VaMapping (-1) (2 ^ 64 - 1) 0) <? MEMSIZE_PHYSICAL);;
        pi ← page_at (vam_pn (if decide (va < MEMSIZE_PHYSICAL) then VaMapping (va / PAGESIZE) va 7
                         else VaMapping (-1) (2 ^ 64 - 1) 0));
        liftR (page_color pi (has PTE_U (vam_perm (if decide (va < MEMSIZE_PHYSICAL)
          then VaMapping (va / PAGESIZE) va 7 else VaMapping (-1) (2 ^ 64 - 1) 0))))) Q s).
{ intros Q' HQ'. case_decide as Hlt; cbn [vam_pn vam_pa vam_perm]; [|by apply wp_ret].
  change MEMSIZE_PHYSICAL with 0x200000 in *. pose proof (Z.div_pos va PAGESIZE).
  change PAGESIZE with 4096 in *. pose proof (Z.div_lt_upper_bound va 4096 512).
  destruct (Z.ltb_spec (va / 4096) 0); [lia|].
  apply wp_bind, wp_massert; [lia|]. apply wp_bind.
  destruct (inv_page_at s (va / 4096) I) as (pi & Hpi & E); [change NPAGES with 512; lia|].
  eapply wp_eq; [exact E|].
  destruct (page_color_ok s (va / 4096) pi (has PTE_U 7) I Hpi) as [c Hc].
  by eapply wp_liftR. }
apply WPc. intros c. cbv zeta. apply wp_bind, wp_silent; [|apply I|].
{ destruct (_ =? 0); silent. fmt_ok [KWord]. }
intros ? s1 Hq1. rewrite PAGENUMBER_ok by lia. change PAGESIZE with 4096 in *.
apply wp_silent; [apply silent_console_set|by eapply quiet_ui|].
- apply picture_cell_range with 12; [|lia|lia].
  pose proof (Z.div_pos va 4096). pose proof (Z.div_lt_upper_bound va 4096 768). lia.
- intros [] s2 Hq2. apply HQ. by eapply quiet_trans.
Qed.

Lemma wp_memshow_virtual NF HH Q s name :
kernel_inv cfg s → (∀ s', quiet s s' → Q tt s') → wp NF HH (memshow_virtual kp name) Q s.
Proof.
intros I HQ. unfold memshow_virtual. destruct Hcfg as [Hsy _].
apply wp_bind, wp_massert.
{ pose proof (kp_pos _ Hsy). pose proof (kp_mem _ Hsy) as Hkm.
  change MEMSIZE_PHYSICAL with 0x200000 in Hkm. change PAGESIZE with 4096 in Hkm.
  rewrite PTE_ADDR_spec, (kp_aligned _ Hsy), Z.sub_0_r by lia. apply Z.eqb_refl. }
apply wp_bind, wp_silent; [apply silent_kprintf; fmt_ok [KStr]|apply I|].
intros ? s1 Hq1. eapply wp_for with (I := λ _ s', quiet s s'); [done| |auto].
change (Z.of_nat (Z.to_nat (MEMSIZE_VIRTUAL / PAGESIZE))) with 768. intros i s2 Hi Hq2.
apply wp_memshow_virtual_page.
- by eapply kernel_inv_quiet.
- apply Z_mod_mult.
- change MEMSIZE_VIRTUAL with 0x300000. change PAGESIZE with 4096. lia.
- intros s3 Hq3. by eapply quiet_trans.
Qed.

Lemma proc_name_ok i : ∃ l, proc_name i = Ok l.
Proof.
unfold proc_name, snprintf, vsnprintf.
destruct (fmt_ok_trace (str "%d ") [VWord i] 0) as [tr Htr]; [fmt_ok [KWord]|].
change (c_true 4) with true. cbv iota.
rewrite (printer_replay _ _ _ _ tr Htr), string_replay by lia. cbn. eauto.
Qed.

Lemma next_shown_ok s n sh :
kernel_inv cfg s → 0 ≤ sh ≤ 33 → 33 - sh < Z.of_nat n →
∃ r, next_shown n (processes s) sh = Ok r ∧ 0 ≤ r ≤ 33.
Proof.
intros I. revert sh. induction n as [|n IH]; intros sh Hsh Hn; [lia|]. cbn [next_shown].
change NPROC with 16. destruct (Z.leb_spec sh (2 * 16)); [|eauto].
destruct (aref_ok (processes s) (Z.rem sh 16)) as (p & -> & _).
{ rewrite (inv_nproc _ _ I), Z.rem_mod_nonneg by lia. apply Z.mod_pos_bound. done. }
cbn. case_match; [apply IH; lia|eauto].
Qed.

(** What the displays leave alone. *)
Definition frame (s : machine D) :=
(memory s, cpu s, cursorpos s, (processes s, current s, ticks s, pageinfo s)).

Lemma frame_quiet s s' : quiet s s' → frame s' = frame s.
Proof.
intros [Hc _]. unfold core in Hc. injection Hc as E1 E2 E3 E4 E5 E6 E7 E8 E9 E10.
unfold frame. by rewrite E1, E2, E3, E5, E6, E7, E8.
Qed.

Lemma wp_memshow_virtual_animate NF HH Q s :
kernel_inv cfg s → (∀ s', kernel_inv cfg s' → frame s' = frame s → Q tt s') →
wp NF HH memshow_virtual_animate Q s.
Proof.
intros I HQ. unfold memshow_virtual_animate.
apply wp_bind, wp_get, wp_bind, wp_get, wp_bind.
assert (WPt : ∀ Q, (∀ s', (kernel_inv cfg (set_showing 0 s') ∧ 0 ≤ showing s' ≤ 17 ∧ frame s' = frame s) → Q tt s') →
  wp NF HH (if (last_ticks s =? 0) || (u32 (ticks s - last_ticks s) >=? HZ ÷ 2)
    then modify (set_last_ticks (ticks s));; modify (λ s, set_showing (showing s + 1) s)
    else mret tt) Q s).
{ intros Q' HQ'. pose proof (inv_showing _ _ I) as Hsh. change NPROC with 16 in Hsh.
  assert (0 ≤ 0 ≤ NPROC) as H0 by done.
  case_match; [apply wp_bind, wp_modify, wp_modify|apply wp_ret]; apply HQ';
    (split; [by eapply kernel_inv_fields|split; [cbn; lia|done]]). }
apply WPt. intros s1 (I1 & Hsh & Hf1). apply wp_bind, wp_get, wp_bind, wp_get, wp_bind.
destruct (next_shown_ok _ (Z.to_nat (2 * NPROC + 2)) (showing s1) I1) as (r & Hr & Hrr);
  [lia|change (2 * NPROC + 2) with 34; lia|].
eapply wp_liftR; [exact Hr|]. cbv zeta. apply wp_bind, wp_modify.
set (sh := Z.rem r NPROC).
assert (0 ≤ sh < 16) as Hs.
{ unfold sh. change NPROC with 16. rewrite Z.rem_mod_nonneg by lia. by apply Z.mod_pos_bound. }
set (s2 := set_showing sh s1).
assert (kernel_inv cfg s2) as I2.
{ eapply kernel_inv_fields; [exact I1|done|]. cbn. change NPROC with 16. lia. }
destruct (inv_proc_at s2 sh I2) as (p & Hp & E); [done|].
apply wp_bind. eapply wp_eq; [exact E|].
destruct (bool_decide_reflect (p_state p ≠ P_FREE)) as [Ha|_]; [|apply wp_ret; by apply HQ].
destruct (inv_proc _ _ I2 sh p Hp) as [_ Hkp].
destruct (Hkp Ha) as [_ ->]. destruct (proc_name_ok sh) as [name Hname].
apply wp_bind. eapply wp_liftR; [exact Hname|]. apply wp_memshow_virtual; [done|].
intros s3 Hq. apply HQ; [by eapply kernel_inv_quiet|]. by rewrite (frame_quiet _ _ Hq).
Qed.
(** ** Dumps *)

Lemma wp_memdump_physical NF HH Q s :
kernel_inv cfg s → (∀ s', quiet s s' → Q tt s') → wp NF HH memdump_physical Q s.
Proof.
intros I HQ. unfold memdump_physical, log_printf. apply wp_bind, wp_get, wp_bind.
apply wp_silent; [apply silent_log; fmt_ok [KWord]|apply I|]. intros _ s1 Hq1.
apply wp_bind. eapply wp_for with (I := λ _ s', quiet s s'); [done| |].
- change (Z.of_nat (Z.to_nat NPAGES)) with 512. intros pn s2 Hpn Hq2.
  pose proof (kernel_inv_quiet _ _ I Hq2) as I2.
  destruct (inv_page_at s2 pn I2) as (pi & _ & E); [change NPAGES with 512; lia|].
  apply wp_bind. eapply wp_eq; [exact E|].
  apply wp_silent; [apply silent_log; fmt_ok [KWord; KWord]|apply I2|].
  intros _ s3 Hq3. by eapply quiet_trans.
- intros s2 Hq2. apply wp_silent; [apply silent_log; fmt_ok ([] : list kind)|by eapply quiet_ui|].
  intros [] s3 Hq3. apply HQ. by eapply quiet_trans.
Qed.

Lemma wp_memdump_virtual NF HH Q s name :
kernel_inv cfg s → (∀ s', quiet s s' → Q tt s') → wp NF HH (memdump_virtual kp name) Q s.
Proof.
intros I HQ. unfold memdump_virtual, log_printf. destruct Hcfg as [Hsy _].
apply wp_bind, wp_get, wp_bind.
apply wp_silent; [apply silent_log; fmt_ok [KStr; KWord]|apply I|]. intros _ s1 Hq1.
apply wp_bind, wp_massert.
{ pose proof (kp_pos _ Hsy). pose proof (kp_mem _ Hsy) as Hkm.
  change MEMSIZE_PHYSICAL with 0x200000 in Hkm. change PAGESIZE with 4096 in Hkm.
  rewrite PTE_ADDR_spec, (kp_aligned _ Hsy), Z.sub_0_r by lia. apply Z.eqb_refl. }
apply wp_bind. eapply wp_for with (I := λ _ s', quiet s s'); [done| |].
- change (Z.of_nat (Z.to_nat (MEMSIZE_VIRTUAL / PAGESIZE))) with 768. intros i s2 Hi Hq2.
  pose proof (kernel_inv_quiet _ _ I Hq2) as I2. apply wp_bind, wp_get, wp_bind.
  change PAGESIZE with 4096.
  eapply wp_liftR; [apply kernel_lookup; [apply I2|unfold canonical; lia]|].
  change MEMSIZE_PHYSICAL with 0x200000. case_decide; cbn [vam_pn vam_perm].
  + change PAGESIZE with 4096. rewrite Z.div_mul by lia.
    destruct (Z.ltb_spec i 0); [lia|].
    destruct (inv_page_at s2 i I2) as (pi & _ & E); [change NPAGES with 512; lia|].
    apply wp_bind. eapply wp_eq; [exact E|].
    apply wp_silent; [apply silent_log; fmt_ok [KWord; KWord; KWord]|apply I2|].
    intros _ s3 Hq3. by eapply quiet_trans.
  + apply wp_silent; [apply silent_log; fmt_ok ([] : list kind)|apply I2|].
    intros _ s3 Hq3. by eapply quiet_trans.
- intros s2 Hq2. apply wp_silent; [apply silent_log; fmt_ok ([] : list kind)|by eapply quiet_ui|].
  intros [] s3 Hq3. apply HQ. by eapply quiet_trans.
Qed.

Lemma wp_memdump_virtual_all NF HH Q s :
kernel_inv cfg s → (∀ s', quiet s s' → Q tt s') → wp NF HH memdump_virtual_all Q s.
Proof.
intros I HQ. unfold memdump_virtual_all.
eapply wp_for with (I := λ _ s', quiet s s'); [apply quiet_refl, I| |auto].
change (Z.of_nat (Z.to_nat NPROC)) with 16. intros i s2 Hi Hq2.
pose proof (kernel_inv_quiet _ _ I Hq2) as I2.
destruct (inv_proc_at s2 i I2) as (p & Hp & E); [change NPROC with 16; lia|].
apply wp_bind. eapply wp_eq; [exact E|].
destruct (bool_decide_reflect (p_state p ≠ P_FREE)) as [Ha|_]; [|by apply wp_ret].
destruct (inv_proc _ _ I2 i p Hp) as [_ Hkp]. destruct (Hkp Ha) as [_ ->].
destruct (proc_name_ok i) as [name Hname]. apply wp_bind. eapply wp_liftR; [exact Hname|].
apply wp_memdump_virtual; [done|]. intros s3 Hq3. by eapply quiet_trans.
Qed.

(** ** Operations on processes and pages *)

Lemma wp_set_proc NF HH i f p Q s :
zget (processes s) i = Some p → Q tt (set_processes (zset (processes s) i (f p)) s) →
wp NF HH (set_proc i f) Q s.
Proof.
intros Hp HQ. unfold set_proc. apply wp_bind. by eapply wp_eq; [by apply proc_at_some|].
Qed.

Lemma count_users_set ps i p p' :
zget ps i = Some p → (active p' ↔ active p) → p_pagetable p' = p_pagetable p →
count_kernel_users cfg (zset ps i p') = count_kernel_users cfg ps.
Proof.
intros Hp Ha Ht. unfold count_kernel_users, active in *.
pose proof (filter_insert (λ p, p_state p ≠ P_FREE ∧ p_pagetable p = kernel_pagetable sy)
  ps i p p' Hp) as E. cbv beta in E; rewrite Ht in E.
destruct (decide (p_state p ≠ P_FREE ∧ p_pagetable p = _)),
  (decide (p_state p' ≠ P_FREE ∧ p_pagetable p = _)); try lia; exfalso; tauto.
Qed.

(** A process's registers may change, and its state between active ones. *)
Lemma kernel_inv_set_proc s i p p' :
kernel_inv cfg s → zget (processes s) i = Some p → p_pid p' = p_pid p →
(active p' ↔ active p) → p_pagetable p' = p_pagetable p →
kernel_inv cfg (set_processes (zset (processes s) i p') s).
Proof.
intros I Hp Hpid Ha Ht. pose proof (zget_range _ _ _ Hp) as Hi.
assert (∀ j q, zget (zset (processes s) i p') j = Some q →
  (i = j ∧ q = p') ∨ (i ≠ j ∧ zget (processes s) j = Some q)) as Hget.
{ intros j q. rewrite zget_zset by done. case_decide; [intros [= <-]; by left|by right]. }
split; cbn; try apply I.
- by split; apply I.
- pose proof (inv_nproc _ _ I). unfold zlen in *. by rewrite length_zset.
- intros j q [[<- ->]|[Hne Hq]]%Hget; [|by apply I].
  rewrite Hpid, Ha, Ht. by apply (inv_proc _ _ I).
- intros pn pi Hpi. destruct (inv_page _ _ I pn pi Hpi) as (Ho & Hr & Hown).
  split_and!; [lia|lia|done|]. intros H1 H2. destruct (Hown H1 H2) as (q & Hq & Hqa).
  rewrite zget_zset by done. case_decide as E; [|by exists q].
  exists p'. split; [done|]. apply Ha. by simplify_eq.
- intros j Hj. rewrite (count_users_set _ _ p) by done. by apply I.
Qed.

(** [assign_physical_page] on an address a register can hold: it fails without
  effect, or gives a free page to [pid]. *)
Lemma wp_assign_page NF HH addr pid Q s :
zlen (pageinfo s) = NPAGES → 0 ≤ addr < 2 ^ 64 → 0 ≤ pid < NPROC →
((∀ pi, addr mod PAGESIZE = 0 → addr < MEMSIZE_PHYSICAL →
    zget (pageinfo s) (addr / PAGESIZE) = Some pi → refcount pi ≠ 0) → Q (-1) s) →
(∀ pi, addr mod PAGESIZE = 0 → addr < MEMSIZE_PHYSICAL →
   zget (pageinfo s) (addr / PAGESIZE) = Some pi → refcount pi = 0 →
   Q 0 (set_pageinfo (zset (pageinfo s) (addr / PAGESIZE) (PageInfo pid 1)) s)) →
wp NF HH (assign_physical_page addr pid) Q s.
Proof.
intros Hlen Ha Hpid Hfail Hok. unfold assign_physical_page.
change 0xFFF with (Z.ones 12). rewrite Z.land_ones by lia. change (2 ^ 12) with 4096.
change PAGESIZE with 4096 in *. change MEMSIZE_PHYSICAL with 0x200000 in *.
destruct (negb (addr mod 4096 =? 0) || (addr >=? 0x200000)) eqn:E.
{ apply wp_ret, Hfail. intros pi ??. lia. }
rewrite PAGENUMBER_ok by lia. change PAGESIZE with 4096.
pose proof (Z.div_pos addr 4096). pose proof (Z.div_lt_upper_bound addr 4096 512).
destruct (zget_is_some (pageinfo s) (addr / 4096)) as [pi Hpi].
{ unfold zlen in Hlen. rewrite Hlen. change NPAGES with 512. lia. }
apply wp_bind. eapply wp_eq; [by apply page_at_some|].
destruct (Z.eqb_spec (refcount pi) 0) as [Hr|]; cbn [negb].
2:{ apply wp_ret, Hfail. intros pi' _ _ Hpi'. by simplify_eq. }
apply wp_bind, wp_modify, wp_ret. change NPROC with 16 in Hpid.
rewrite (wrapS_small 8) by lia. apply (Hok pi); [lia|lia|done|done].
Qed.

Lemma kernel_inv_assign s pn pi pid p :
kernel_inv cfg s → zget (pageinfo s) pn = Some pi → refcount pi = 0 →
zget (processes s) pid = Some p → active p →
kernel_inv cfg (set_pageinfo (zset (pageinfo s) pn (PageInfo pid 1)) s).
Proof.
intros I Hpi Hr Hp Ha. pose proof (zget_range _ _ _ Hpi) as Hpn.
pose proof (zget_range _ _ _ Hp) as Hpid. rewrite (inv_nproc _ _ I) in Hpid.
split; cbn; try apply I.
- by split; apply I.
- pose proof (inv_npages _ _ I). unfold zlen in *. by rewrite length_zset.
- intros pn' pi'. rewrite zget_zset by done. case_decide as E; [|by apply I].
  intros [= <-]. cbn. change PO_KERNEL with (-2). split_and!; [lia|lia|lia|eauto].
- intros j Hj. rewrite zget_zset by done. case_decide as E; [|by apply I].
  pose proof (inv_ktables _ _ I j Hj) as Hk. subst pn. rewrite Hpi in Hk. injection Hk as Hk.
  subst pi. cbn in Hr. pose proof (count_users_nonneg cfg (processes s)).
  destruct (decide (j = 0)); lia.
Qed.

(** Mapping a page of physical memory to itself in the kernel's page table. *)
Lemma wp_map_identity NF HH va Q s :
kernel_tables sy (memory s) → va mod PAGESIZE = 0 → 0 ≤ va < MEMSIZE_PHYSICAL →
(∀ m', kernel_tables sy m' → (∀ b, ¬ in_tables sy b → rd m' b = rd (memory s) b) →
   Q 0 (set_memory m' s)) →
wp NF HH (map_pages kp va va PAGESIZE (lors [PTE_P; PTE_W; PTE_U])) Q s.
Proof.
intros Hkt Hal Hva HQ. destruct Hcfg as [Hsy _]. change (lors [PTE_P; PTE_W; PTE_U]) with 7.
destruct (kernel_map_identity sy (memory s) va Hkt Hal Hva) as (m' & E & Hkt' & Hfr).
unfold map_pages. apply wp_bind, wp_get, wp_bind. eapply wp_liftR; [exact E|].
by apply wp_bind, wp_modify, wp_ret, HQ.
Qed.

Lemma wp_map_pages NF HH va Q s :
kernel_inv cfg s → va mod PAGESIZE = 0 → 0 ≤ va < MEMSIZE_PHYSICAL →
(∀ m', kernel_tables sy m' → (∀ b, ¬ in_tables sy b → rd m' b = rd (memory s) b) →
   kernel_inv cfg (set_memory m' s) → Q 0 (set_memory m' s)) →
wp NF HH (map_pages kp va va PAGESIZE (lors [PTE_P; PTE_W; PTE_U])) Q s.
Proof.
intros I Hal Hva HQ. apply wp_map_identity; [apply I|done|done|].
intros m' Hkt Hfr. apply HQ; [done|done|]. destruct I. split; try done. by destruct inv_ui0.
Qed.

Lemma wp_load_tables NF HH Q s :
kernel_tables sy (memory s) → Q tt (set_cpu (set_cr3 kp (cpu s)) s) →
wp NF HH (load_pagetable cfg kp) Q s.
Proof.
intros Hkt HQ. destruct Hcfg as [Hsy _]. unfold load_pagetable.
apply wp_bind, wp_get, wp_bind.
eapply wp_liftR; [by apply kernel_set_pagetable|]. by apply wp_modify.
Qed.

Lemma wp_load_pagetable NF HH Q s :
kernel_inv cfg s → Q tt (set_cpu (set_cr3 kp (cpu s)) s) →
wp NF HH (load_pagetable cfg kp) Q s.
Proof. intros I. apply wp_load_tables, I. Qed.
End inv.
