(* ===== verification/KernelSafe.v ===== *)
(** * Exceptions, scheduling and the running system

    The exception handler on the kernel invariant: every exception a user
    process can raise ends in a runnable process being resumed on the kernel's
    page table, or in the machine being powered off or rebooted from the
    keyboard, with the invariant intact; what each system call does; round-robin
    order; and the closure of the system under user steps and exceptions.

    User code can store anywhere in physical memory, the kernel's own included:
    hardware_init maps all of it writable for user code, and this commit leaves
    protection as an exercise.  [user_step] therefore has two cases, labelled by
    whether the kernel's memory was touched.  The machine keeps the kernel's variables
    outside its byte memory, so a store that hits them cannot be followed: after a
    step that trespasses the machine may be in any state.  The theorems about a
    running system are about runs without such a step ([tame_step]), and say so;
    that nothing in the machine prevents one is part of [system_invariant]. *)
From stdpp Require Import base tactics numbers list gmap.
From Stdlib Require Import ZArith Lia.
From S2P Require Import Prelude Mem LibStr Printf VM KTables Machine Hardware Keyboard Wp Pages Loader Kernel KernelInv.

(** ** Specifications *)

(** [exception_return] was reached as it should be. *)
Definition resumed {D} (cfg : config) (s : machine D) (r : x86_64_registers) : Prop :=
  kernel_inv cfg s ∧ cr3 (cpu s) = kernel_pagetables (syms cfg) ∧
  ∃ p, zget (processes s) (current s) = Some p ∧ runnable p ∧ p_registers p = r.

(** The ways control may leave the kernel. *)
Definition left_well {D} (cfg : config) (h : halt) (s : machine D) : Prop :=
  match h with
  | Resume r => resumed cfg s r
  | PowerOff | SoftReboot _ => True
  | Reboot => False
  end.

(** Process [i] is the first runnable one after [pid] in cyclic order, the
    [k]-th to be asked. *)
Definition first_after (ps : list proc) (pid k i : Z) : Prop :=
  1 ≤ k ∧ i = (pid + k) mod NPROC ∧
  (∃ p, zget ps i = Some p ∧ runnable p) ∧
  ∀ j p, 1 ≤ j < k → zget ps ((pid + j) mod NPROC) = Some p → ¬ runnable p.
Definition next_after (ps : list proc) (pid k i : Z) : Prop :=
  k ≤ NPROC ∧ first_after ps pid k i.

Lemma first_next ps pid k i k' i' :
  next_after ps pid k i → first_after ps pid k' i' → next_after ps pid k' i'.
Proof.
  intros (Hk & H1 & -> & (p & Hp & Hr) & _) F. split; [|done].
  destruct (decide (k' ≤ NPROC)) as [|Hgt]; [done|]. destruct F as (_ & _ & _ & Hno).
  exfalso. apply (Hno k p); [lia|done|done].
Qed.

(** A runnable process other than the current one. *)
Definition other_runnable {D} (s : machine D) : Prop :=
  ∃ i p, i ≠ current s ∧ zget (processes s) i = Some p ∧ runnable p.

(** The exceptions after which the kernel may wait for the user for ever: those
    that panic, and a page fault of the last runnable process. *)
Definition may_wait {D} (s : machine D) (reg : x86_64_registers) : Prop :=
  reg_intno reg ∉ [INT_SYS_GETPID; INT_SYS_YIELD; INT_SYS_PAGE_ALLOC; INT_TIMER; INT_PAGEFAULT] ∨
  (reg_intno reg = INT_PAGEFAULT ∧
   (has PFERR_USER (reg_err reg) = false ∨ ¬ other_runnable s)).

(** What an exception of the current process leaves alone: the other processes'
    descriptors, the pages in use, and memory outside the page tables. *)
Record kept {D} (cfg : config) (s s' : machine D) : Prop := Kept {
  kept_others i : i ≠ current s → zget (processes s') i = zget (processes s) i;
  kept_pages pn pi : zget (pageinfo s) pn = Some pi → refcount pi ≠ 0 → zget (pageinfo s') pn = Some pi;
  kept_memory b : ¬ in_tables (syms cfg) b → rd (memory s') b = rd (memory s) b
}.

(** The interrupts after which the kernel runs its scheduler although the current
    process could go on. *)
Definition reschedules (reg : x86_64_registers) : Prop :=
  reg_intno reg = INT_SYS_YIELD ∨ reg_intno reg = INT_TIMER.
#[export] Instance reschedules_dec reg : Decision (reschedules reg).
Proof. unfold reschedules. apply _. Defined.

(** Whose turn it is after an exception: that of the process that raised it, or of the
    first runnable one after it; the latter after every timer interrupt and yield. *)
Definition turn {D} (s : machine D) (reg : x86_64_registers) (s' : machine D) : Prop :=
  current s' = current s ∧ ¬ reschedules reg ∨
  ∃ k, first_after (processes s') (current s) k (current s').

(** The ways control may leave the kernel, with what the exception keeps. *)
Definition left_keeping {D} (cfg : config) (s : machine D) (reg : x86_64_registers) (h : halt)
    (s' : machine D) : Prop :=
  match h with
  | Resume r => resumed cfg s' r ∧ kept cfg s s' ∧ turn s reg s'
  | PowerOff | SoftReboot _ => True
  | Reboot => False
  end.

(** Register values are machine words. *)
Definition regs_ok (r : x86_64_registers) : Prop := 0 ≤ reg_rdi r < 2 ^ 64.

Section safe.
Context {D : Type} `{PortBus D} (cfg : config) (Hcfg : config_ok cfg)
(ramimages : list ramimage) (spin : nat).
Context (NF : Prop) (HH : halt → machine D → Prop).
Context (Hoff : ∀ s, HH PowerOff s) (Hsoft : ∀ a s, HH (SoftReboot a) s).
Abbreviation sy := (syms cfg).
Abbreviation kp := (kernel_pagetables (syms cfg)).
Abbreviation WP := (wp NF HH).
Implicit Types (s : machine D).

(** ** run and schedule *)

(** The state in which process [i] is resumed. *)
Definition dispatched (s : machine D) (i : Z) : machine D :=
set_cpu (set_cr3 kp (cpu s)) (set_current i s).

Lemma kernel_inv_dispatched s i : kernel_inv cfg s → kernel_inv cfg (dispatched s i).
Proof. intros I. eapply kernel_inv_fields; [exact I|done|apply I]. Qed.

Lemma wp_run {A} i p (Q : A → machine D → Prop) s :
kernel_inv cfg s → zget (processes s) i = Some p → runnable p →
HH (Resume (p_registers p)) (dispatched s i) → WP (run cfg i) Q s.
Proof.
intros I Hp Hr HQ. unfold run. apply wp_bind. eapply wp_eq; [by apply proc_at_some|]. apply wp_bind, wp_massert; [by apply bool_decide_eq_true_2|].
apply wp_bind, wp_modify, wp_bind.
destruct (inv_proc _ _ I i p Hp) as [_ Hkp].
destruct Hkp as [_ ->]; [unfold active; congruence|].
apply wp_load_pagetable; [done| |by apply wp_halt].
eapply kernel_inv_fields; [exact I|done|apply I].
Qed.

Lemma next_index pid : 0 ≤ pid < NPROC → Z.rem (pid + 1) NPROC = (pid + 1) mod NPROC.
Proof. change NPROC with 16. intros. apply Z.rem_mod_nonneg; lia. Qed.

Lemma wp_schedule_loop {A} fuel pid0 d (Q : A → machine D → Prop) s :
kernel_inv cfg s → 0 ≤ pid0 < NPROC → 0 ≤ d →
(∀ j p, 1 ≤ j ≤ d → zget (processes s) ((pid0 + j) mod NPROC) = Some p → ¬ runnable p) →
(NF ∨ ∃ k i, next_after (processes s) pid0 k i ∧ k ≤ d + Z.of_nat fuel) →
(∀ k i p s', first_after (processes s) pid0 k i → quiet s s' →
   zget (processes s') i = Some p → runnable p →
   HH (Resume (p_registers p)) (dispatched s' i)) →
WP (schedule_loop cfg fuel ((pid0 + d) mod NPROC)) Q s.
Proof.
intros I Hpid. revert d s I. induction fuel as [|fuel IH]; intros d s I Hd Hno Hex HQ;
  cbn [schedule_loop].
- destruct Hex as [HNF|(k & i & (Hk & H1 & -> & (p & Hp & Hr) & _) & Hkd)]; [exact HNF|].
  exfalso. by apply (Hno k p); [lia|..].
- change NPROC with 16 in *. pose proof (Z.mod_pos_bound (pid0 + d) 16).
  rewrite next_index by (change NPROC with 16; lia). change NPROC with 16.
  rewrite Zplus_mod_idemp_l. rewrite <- Z.add_assoc.
  pose proof (Z.mod_pos_bound (pid0 + (d + 1)) 16).
  destruct (inv_proc_at cfg s ((pid0 + (d + 1)) mod 16) I) as (p & Hp & E); [change NPROC with 16; lia|].
  apply wp_bind. eapply wp_eq; [exact E|].
  destruct (bool_decide_reflect (p_state p = P_RUNNABLE)) as [Hr|Hr].
  + apply wp_run with p; [done|done|done|]. apply (HQ (d + 1)); [|by apply quiet_refl, I|done|done].
    split_and!; [lia|done|by eauto|]. intros j q Hj. apply Hno. lia.
  + apply wp_bind, wp_check_keyboard; [done|done|apply Hcfg|apply I|]. intros _ s' Hq.
    pose proof Hq as [Hc _]. unfold core in Hc. injection Hc as _ _ _ _ Eps _ _ _ _ _.
    apply (IH (d + 1)); [by eapply kernel_inv_quiet|lia| | |].
    * intros j q Hj. rewrite Eps. intros Hq' Hrun.
      destruct (decide (j = d + 1)) as [->|]; [congruence|]. by apply (Hno j q); [lia|..].
    * destruct Hex as [?|(k & i & Hn & Hk)]; [by left|right]. exists k, i. rewrite Eps.
      split; [done|lia].
    * intros k i q s2 Hn Hq2. rewrite Eps in Hn. apply (HQ k); [done|]. by eapply quiet_trans.
Qed.
(** A runnable process is found within one round. *)
Lemma next_after_exists ps pid i p :
zlen ps = NPROC → 0 ≤ pid < NPROC → zget ps i = Some p → runnable p →
∃ k i, next_after ps pid k i.
Proof.
intros Hl Hpid Hp Hr. pose proof (zget_range _ _ _ Hp) as Hi. rewrite Hl in Hi.
change NPROC with 16 in *.
assert (∀ d, 0 ≤ d ≤ 16 → (∃ k i, next_after ps pid k i) ∨
  ∀ j p, 1 ≤ j ≤ d → zget ps ((pid + j) mod 16) = Some p → ¬ runnable p) as Hsearch.
{ intros d [Hd0 Hd]. revert Hd. pattern d. apply natlike_ind; [| |exact Hd0].
  - right. intros; lia.
  - intros e He IH He16. destruct (IH ltac:(lia)) as [?|Hno]; [by left|].
    pose proof (Z.mod_pos_bound (pid + Z.succ e) 16).
    destruct (zget_is_some ps ((pid + Z.succ e) mod 16)) as [q Hq]; [unfold zlen in Hl; lia|].
    destruct (decide (p_state q = P_RUNNABLE)) as [Hq'|Hq'].
    + left. exists (Z.succ e), ((pid + Z.succ e) mod 16). split; [change NPROC with 16; lia|].
      split_and!; [lia|done|by eauto|].
      intros j q' Hj. apply Hno. lia.
    + right. intros j q' Hj Hq''. destruct (decide (j = Z.succ e)) as [->|]; [congruence|].
      apply (Hno j q'); [lia|done]. }
destruct (Hsearch 16) as [?|Hno]; [lia|done|]. exfalso.
set (j := (i - pid - 1) mod 16 + 1).
assert (1 ≤ j ≤ 16 ∧ (pid + j) mod 16 = i) as [Hj Hji].
{ unfold j. pose proof (Z.mod_pos_bound (i - pid - 1) 16). split; [lia|].
  rewrite Z.add_assoc, (Z.add_comm pid), <- Z.add_assoc, Zplus_mod_idemp_l.
  replace (i - pid - 1 + (pid + 1)) with i by lia. by apply Z.mod_small. }
apply (Hno j p); [done|by rewrite Hji|done].
Qed.

Lemma wp_schedule {A} (Q : A → machine D → Prop) s :
kernel_inv cfg s → 0 ≤ current s < NPROC →
(NF ∨ ∃ k i, next_after (processes s) (current s) k i) →
(∀ k i p s', first_after (processes s) (current s) k i → quiet s s' →
   zget (processes s') i = Some p → runnable p →
   HH (Resume (p_registers p)) (dispatched s' i)) →
WP (schedule cfg spin) Q s.
Proof.
intros I Hcur Hex HQ. unfold schedule. apply wp_bind, wp_get, wp_bind.
destruct (inv_proc_at cfg s (current s) I Hcur) as (p & Hp & E). eapply wp_eq; [exact E|].
destruct (inv_proc _ _ I _ _ Hp) as [-> _].
replace (current s) with ((current s + 0) mod NPROC) at 1
  by (rewrite Z.add_0_r; by apply Z.mod_small).
apply wp_schedule_loop; [done|done|lia|intros; lia| |done].
destruct Hex as [?|(k & i & Hn)]; [by left|right]. exists k, i. split; [done|].
destruct Hn as [Hk _]. change NPROC with 16 in *. lia.
Qed.

(** ** The exception handler *)

Lemma wp_exception_show reg Q s :
kernel_inv cfg s → (∀ s', kernel_inv cfg s' → frame s' = frame s → Q tt s') →
WP (exception_show cfg reg) Q s.
Proof.
intros I HQ. unfold exception_show. destruct (_ || _); [|by apply wp_ret, HQ].
apply wp_bind. eapply wp_eq; [by apply check_virtual_memory_ok|].
apply wp_bind, (wp_memshow_physical cfg); [exact I|]. intros s1 Hq1.
pose proof (kernel_inv_quiet _ _ _ I Hq1) as I1.
apply wp_bind, (wp_memshow_virtual_animate cfg); [exact Hcfg|exact I1|]. intros s2 I2 Hf2.
assert (frame s2 = frame s) as Hf by (by rewrite Hf2, (frame_quiet _ _ Hq1)).
destruct (c_true (TICK_LIMIT cfg)); [|by apply wp_ret, HQ].
apply wp_bind, wp_get, wp_bind.
assert (WPp : ∀ Q', Q' tt s2 → WP (if ticks s2 =? TICK_LIMIT cfg then poweroff else mret tt) Q' s2).
{ intros Q' HQ'. case_match; [apply wp_poweroff; [done|apply I2]|by apply wp_ret]. }
apply WPp. destruct (_ && _); [|by apply wp_ret, HQ].
apply wp_bind, (wp_memdump_physical cfg); [exact I2|]. intros s3 Hq3.
pose proof (kernel_inv_quiet _ _ _ I2 Hq3) as I3.
apply (wp_memdump_virtual_all cfg); [exact Hcfg|exact I3|]. intros s4 Hq4. apply HQ.
- by eapply kernel_inv_quiet.
- by rewrite (frame_quiet _ _ Hq4), (frame_quiet _ _ Hq3).
Qed.

(** The state in which the [switch] runs: the registers are saved, the checks
  have passed, and nothing else of the kernel's state has changed. *)
Record entered (s : machine D) (reg : x86_64_registers) (s1 : machine D) : Prop := Entered {
en_inv : kernel_inv cfg s1;
en_procs p : zget (processes s) (current s) = Some p →
  processes s1 = zset (processes s) (current s) (set_p_registers reg p);
en_current : current s1 = current s;
en_pages : pageinfo s1 = pageinfo s;
en_ticks : ticks s1 = ticks s;
en_memory : memory s1 = memory s
}.

Lemma wp_exception reg p Q s :
kernel_inv cfg s → zget (processes s) (current s) = Some p → active p →
(∀ s1, entered s reg s1 →
   WP (exception_switch cfg spin reg;;
       p ← proc_at (current s);
       if bool_decide (p_state p = P_RUNNABLE) then run cfg (current s) else schedule cfg spin) Q s1) →
WP (exception cfg spin reg) Q s.
Proof.
intros I Hp Ha HQ. unfold exception. apply wp_bind, wp_get, wp_bind.
eapply wp_set_proc; [exact Hp|].
assert (kernel_inv cfg (set_processes (zset (processes s) (current s) (set_p_registers reg p)) s)) as I1
  by (by apply kernel_inv_set_proc with p).
apply wp_bind, wp_load_pagetable; [done|done|]. cbn [cpu].
match goal with |- wp _ _ _ _ ?x => set (s1 := x) end.
assert (kernel_inv cfg s1) as I1'.
{ eapply kernel_inv_fields; [exact I1|done|apply I1]. }
apply wp_bind, wp_get, wp_bind, wp_silent; [apply silent_show_cursor|apply I1'|].
intros _ s2 Hq2. pose proof (kernel_inv_quiet _ _ _ I1' Hq2) as I2.
apply wp_bind, wp_exception_show; [done|]. intros s3 I3 Hf3.
apply wp_bind, wp_check_keyboard; [done|done|apply Hcfg|apply I3|]. intros _ s4 Hq4.
assert (frame s4 = frame s1) as Hf by (by rewrite (frame_quiet _ _ Hq4), Hf3, (frame_quiet _ _ Hq2)).
unfold frame in Hf. injection Hf as Em Ec Ecp Eps Ecur Et Epi.
apply HQ. split; [by eapply kernel_inv_quiet| |done|done|done|done].
intros p' Hp'. rewrite Hp in Hp'. injection Hp' as <-. done.
Qed.

(** Returning to the current process. *)
Lemma wp_return p' s (Q : unit → machine D → Prop) s1 :
kernel_inv cfg s1 → current s1 = current s →
zget (processes s1) (current s) = Some p' → runnable p' →
HH (Resume (p_registers p')) (dispatched s1 (current s)) →
WP (p ← proc_at (current s);
    if bool_decide (p_state p = P_RUNNABLE) then run cfg (current s) else schedule cfg spin) Q s1.
Proof.
intros I1 Hc Hp' Hr HQ. apply wp_bind. eapply wp_eq; [by apply proc_at_some|].
rewrite bool_decide_eq_true_2 by done. by apply wp_run with p'.
Qed.
(** *** The branches of the switch

  Each rule runs the handler from the entered state [s1], in which [p1] is the
  descriptor of the current process with the saved registers. *)
Section branch.
Context (s : machine D) (reg : x86_64_registers) (s1 : machine D) (p1 : proc).
Context (E : entered s reg s1) (Hcur : 0 ≤ current s < NPROC).
Context (Hp1 : zget (processes s1) (current s) = Some p1) (Hr1 : runnable p1)
(Hreg : p_registers p1 = reg).
Abbreviation after := (exception_switch cfg spin reg;;
p ← proc_at (current s);
if bool_decide (p_state p = P_RUNNABLE) then run cfg (current s) else schedule cfg spin).
Implicit Types (Q : unit → machine D → Prop).

Definition with_rax (s : machine D) (v : Z) (s1 : machine D) (p1 : proc) : machine D :=
set_processes (zset (processes s1) (current s)
(set_p_registers (set_reg_rax v (p_registers p1)) p1)) s1.

Lemma with_rax_inv v s2 :
kernel_inv cfg s2 → zget (processes s2) (current s) = Some p1 → kernel_inv cfg (with_rax s v s2 p1).
Proof. intros I2 Hp2. by apply kernel_inv_set_proc with p1. Qed.

Lemma with_rax_proc v s2 : zget (processes s2) (current s) = Some p1 →
zget (processes (with_rax s v s2 p1)) (current s) =
Some (set_p_registers (set_reg_rax v (p_registers p1)) p1).
Proof. intros Hp2. apply zget_zset_eq. by eapply zget_some. Qed.

Lemma switch_getpid Q :
reg_intno reg = INT_SYS_GETPID →
HH (Resume (set_reg_rax (current s) reg)) (dispatched (with_rax s (current s) s1 p1) (current s)) →
WP after Q s1.
Proof.
intros Hi HQ. apply wp_bind. unfold exception_switch. rewrite Hi.
cbn [Z.eqb]. change (INT_SYS_GETPID =? INT_SYS_PANIC) with false.
change (INT_SYS_GETPID =? INT_SYS_GETPID) with true. cbv iota.
apply wp_bind, wp_get. rewrite (en_current _ _ _ E). eapply wp_set_proc; [exact Hp1|].
destruct (inv_proc _ _ (en_inv _ _ _ E) _ _ Hp1) as [Hpid _]. rewrite Hpid.
rewrite (wrapU_small 64) by (change NPROC with 16 in Hcur; lia).
eapply wp_return with (p' := set_p_registers (set_reg_rax (current s) (p_registers p1)) p1).
- by apply with_rax_inv; [apply E|].
- apply E.
- by apply with_rax_proc.
- done.
- rewrite <- Hreg in HQ. exact HQ.
Qed.

(** A saved process can always be found again by the scheduler. *)
Lemma entered_next : ∃ k i, next_after (processes s1) (current s) k i.
Proof. apply next_after_exists with (current s) p1; [apply E|done|done|done]. Qed.

Lemma switch_unexpected Q : NF →
reg_intno reg ∉ [INT_SYS_GETPID; INT_SYS_YIELD; INT_SYS_PAGE_ALLOC; INT_TIMER; INT_PAGEFAULT] →
WP after Q s1.
Proof.
intros HNF Hn. rewrite !not_elem_of_cons in Hn. destruct Hn as (H1 & H2 & H3 & H4 & H5 & _).
apply wp_bind. unfold exception_switch.
pose proof (inv_ui _ _ (en_inv _ _ _ E)) as Hui.
destruct (_ =? INT_SYS_PANIC); [by apply wp_panic; try done; apply Hcfg|].
rewrite !(proj2 (Z.eqb_neq _ _)) by done. apply wp_panic; try done; [apply Hcfg|]. fmt_ok [KWord].
Qed.

(** The two exceptions that just schedule; [s2] is [s1] with [ticks] advanced
for the timer. *)
Lemma switch_schedule Q s2 :
(reg_intno reg = INT_SYS_YIELD ∧ s2 = s1) ∨
(reg_intno reg = INT_TIMER ∧ s2 = set_ticks (u32 (ticks s1 + 1)) s1) →
(∀ k i p s', next_after (processes s1) (current s) k i → quiet s2 s' →
 zget (processes s') i = Some p → runnable p → HH (Resume (p_registers p)) (dispatched s' i)) →
WP after Q s1.
Proof.
intros Hi HQ. destruct entered_next as (k0 & i0 & Hn0).
assert (kernel_inv cfg s2 ∧ current s2 = current s ∧ processes s2 = processes s1) as (I2 & Hc2 & Hp2).
{ destruct Hi as [[_ ->]|[_ ->]]; (split; [|split; [apply E|done]]); [apply E|].
eapply kernel_inv_fields; [apply E|done|apply E]. }
assert (∀ Q', WP (schedule cfg spin : M D unit) Q' s2) as Hsched.
{ intros Q'. rewrite <- Hc2, <- Hp2 in Hn0, HQ. apply wp_schedule; [done|by rewrite Hc2|eauto|].
intros k i p s' Hf. apply (HQ k). by eapply first_next. }
apply wp_bind. unfold exception_switch. destruct Hi as [[Hi ->]|[Hi ->]]; rewrite Hi.
- change (INT_SYS_YIELD =? INT_SYS_PANIC) with false.
change (INT_SYS_YIELD =? INT_SYS_GETPID) with false.
change (INT_SYS_YIELD =? INT_SYS_YIELD) with true. apply Hsched.
- change (INT_TIMER =? INT_SYS_PANIC) with false. change (INT_TIMER =? INT_SYS_GETPID) with false.
change (INT_TIMER =? INT_SYS_YIELD) with false. change (INT_TIMER =? INT_SYS_PAGE_ALLOC) with false.
change (INT_TIMER =? INT_TIMER) with true. apply wp_bind, wp_modify, Hsched.
Qed.

(** The address is that of a free page. *)
Definition free_page (s1 : machine D) (addr : Z) : Prop :=
addr mod PAGESIZE = 0 ∧ addr < MEMSIZE_PHYSICAL ∧
∃ pi, zget (pageinfo s1) (addr / PAGESIZE) = Some pi ∧ refcount pi = 0.

Definition grant (s1 : machine D) (addr : Z) (m' : mem) : machine D :=
set_memory m' (set_pageinfo
(zset (pageinfo s1) (addr / PAGESIZE) (PageInfo (current s) 1)) s1).

Lemma switch_page_alloc Q :
reg_intno reg = INT_SYS_PAGE_ALLOC → regs_ok reg →
(¬ free_page s1 (reg_rdi reg) → HH (Resume (set_reg_rax (2 ^ 64 - 1) reg))
 (dispatched (with_rax s (2 ^ 64 - 1) s1 p1) (current s))) →
(∀ pi m', reg_rdi reg mod PAGESIZE = 0 → reg_rdi reg < MEMSIZE_PHYSICAL →
 zget (pageinfo s1) (reg_rdi reg / PAGESIZE) = Some pi → refcount pi = 0 →
 kernel_tables sy m' → (∀ b, ¬ in_tables sy b → rd m' b = rd (memory s1) b) →
 kernel_inv cfg (grant s1 (reg_rdi reg) m') →
 HH (Resume (set_reg_rax 0 reg))
   (dispatched (with_rax s 0 (grant s1 (reg_rdi reg) m') p1) (current s))) →
WP after Q s1.
Proof.
intros Hi Hreg' Hno Hyes. apply wp_bind. unfold exception_switch. rewrite Hi.
change (INT_SYS_PAGE_ALLOC =? INT_SYS_PANIC) with false.
change (INT_SYS_PAGE_ALLOC =? INT_SYS_GETPID) with false.
change (INT_SYS_PAGE_ALLOC =? INT_SYS_YIELD) with false.
change (INT_SYS_PAGE_ALLOC =? INT_SYS_PAGE_ALLOC) with true. cbv iota.
unfold sys_page_alloc. apply wp_bind, wp_get. rewrite (en_current _ _ _ E).
apply wp_bind. eapply wp_eq; [by apply proc_at_some|]. rewrite Hreg.
destruct (inv_proc _ _ (en_inv _ _ _ E) _ _ Hp1) as [Hpid Hact]. rewrite Hpid.
destruct Hact as [_ Hkp]; [unfold active; congruence|].
assert (active p1) as Ha1 by (unfold active; congruence).
assert (∀ v s2, kernel_inv cfg s2 → current s2 = current s →
zget (processes s2) (current s) = Some p1 →
HH (Resume (set_reg_rax v reg)) (dispatched (with_rax s v s2 p1) (current s)) →
WP (set_proc (current s) (λ p, set_p_registers (set_reg_rax v (p_registers p)) p))
   (λ _ s', WP (p ← proc_at (current s);
      if bool_decide (p_state p = P_RUNNABLE) then run cfg (current s) else schedule cfg spin) Q s') s2)
as Hret.
{ intros v s2 I2 Hc2 Hp2 HQ. eapply wp_set_proc; [exact Hp2|].
eapply wp_return with (p' := set_p_registers (set_reg_rax v (p_registers p1)) p1).
- by apply with_rax_inv.
- done.
- by apply with_rax_proc.
- done.
- rewrite <- Hreg in HQ. exact HQ. }
apply wp_bind, wp_assign_page; [apply E|done|done| |].
- intros Hnf. apply wp_bind. change (-1 >=? 0) with false. apply wp_ret.
change (u64 (-1)) with (2 ^ 64 - 1). apply Hret; [apply E|apply E|done|].
apply Hno. intros (Hal & Hlt & pi & Hpi & Hrc). by apply (Hnf pi).
- intros pi Hal Hlt Hpi Hrc. change (0 >=? 0) with true. cbv iota.
apply wp_bind. apply wp_bind. rewrite Hkp.
apply wp_map_pages; [done| |done|destruct Hreg'; lia|].
+ by apply kernel_inv_assign with pi p1; [apply E|..].
+ intros m' Hkt Hfr I2. apply wp_ret. change (u64 0) with 0.
  apply Hret; [done|apply E|done|]. by apply Hyes with pi.
Qed.

Lemma exception_switch_page_fault :
reg_intno reg = INT_PAGEFAULT → exception_switch cfg spin reg = page_fault cfg spin reg.
Proof.
intros Hi. unfold exception_switch. rewrite Hi.
change (INT_PAGEFAULT =? INT_SYS_PANIC) with false.
change (INT_PAGEFAULT =? INT_SYS_GETPID) with false.
change (INT_PAGEFAULT =? INT_SYS_YIELD) with false.
change (INT_PAGEFAULT =? INT_SYS_PAGE_ALLOC) with false.
change (INT_PAGEFAULT =? INT_TIMER) with false.
change (INT_PAGEFAULT =? INT_PAGEFAULT) with true. done.
Qed.

(** A page fault of the kernel itself panics. *)
Lemma switch_kernel_fault Q :
NF → reg_intno reg = INT_PAGEFAULT → has PFERR_USER (reg_err reg) = false → WP after Q s1.
Proof.
intros HNF Hi Hu. apply wp_bind. rewrite exception_switch_page_fault by done.
unfold page_fault. apply wp_bind, wp_get, wp_bind. rewrite Hu. cbn [negb].
apply wp_panic; try done; [apply Hcfg|apply E|].
destruct (has PFERR_WRITE _), (has PFERR_PRESENT _); fmt_ok [KWord; KStr; KStr; KWord].
Qed.

Lemma switch_page_fault Q :
reg_intno reg = INT_PAGEFAULT → has PFERR_USER (reg_err reg) = true →
(NF ∨ ∃ i p, i ≠ current s ∧ zget (processes s1) i = Some p ∧ runnable p) →
(∀ ps k i p s', ps = zset (processes s1) (current s) (set_p_state P_BROKEN p1) →
 first_after ps (current s) k i → quiet (set_processes ps s1) s' → kernel_inv cfg s' →
 zget (processes s') i = Some p → runnable p → HH (Resume (p_registers p)) (dispatched s' i)) →
WP after Q s1.
Proof.
intros Hi Hu Hex HQ. apply wp_bind. rewrite exception_switch_page_fault by done.
unfold page_fault. apply wp_bind, wp_get, wp_bind. rewrite Hu. cbn [negb]. apply wp_ret.
apply wp_bind, wp_get, wp_bind. rewrite (en_current _ _ _ E).
eapply wp_eq; [by apply proc_at_some|].
apply wp_bind, wp_silent; [|apply E|].
{ apply silent_kprintf. destruct (has PFERR_WRITE _), (has PFERR_PRESENT _);
  fmt_ok [KWord; KWord; KStr; KStr; KWord]. }
intros ? s2 Hq2. pose proof (kernel_inv_quiet _ _ _ (en_inv _ _ _ E) Hq2) as I2.
pose proof Hq2 as [Hc _]. unfold core in Hc. injection Hc as Em Ec Ecp Ei Eps Ecur Et Epi El Es.
assert (zget (processes s2) (current s) = Some p1) as Hp2 by (by rewrite Eps).
eapply wp_set_proc; [exact Hp2|].
set (ps := zset (processes s2) (current s) (set_p_state P_BROKEN p1)).
assert (active p1) as Ha1 by (unfold active; congruence).
assert (kernel_inv cfg (set_processes ps s2)) as I3 by (by apply kernel_inv_set_proc with p1).
assert (zget ps (current s) = Some (set_p_state P_BROKEN p1)) as Hp3
by (apply zget_zset_eq; by eapply zget_some).
apply wp_bind. eapply wp_eq; [by apply proc_at_some|].
rewrite bool_decide_eq_false_2 by done.
assert (current (set_processes ps s2) = current s) as Hc3 by (by rewrite <- (en_current _ _ _ E)).
apply wp_schedule; [done|by rewrite Hc3| |].
- rewrite Hc3. destruct Hex as [?|(i & p & Hne & Hp & Hr)]; [by left|right].
apply next_after_exists with i p; [apply I3|done| |done].
cbn. unfold ps. rewrite zget_zset_ne by done. by rewrite Eps.
- rewrite Hc3. intros k i p s' Hf Hq'. pose proof (kernel_inv_quiet _ _ _ I3 Hq') as I4.
assert (ps = zset (processes s1) (current s) (set_p_state P_BROKEN p1)) as Eps' by (unfold ps; by rewrite Eps).
apply (HQ ps k i p s' Eps' Hf); [|done]. split; [|apply Hq'].
destruct Hq' as [Hc' _]. rewrite Hc'. unfold core. cbn.
by rewrite Em, Ec, Ecp, Ei, Ecur, Et, Epi, El, Es.
Qed.
End branch.
End safe.


(** ** The running system *)

(** Between exceptions: user mode runs the current process on the kernel's page
    table, and the kernel's data satisfy the invariant. *)
Definition in_user {D} (cfg : config) (s : machine D) : Prop :=
  kernel_inv cfg s ∧ cr3 (cpu s) = kernel_pagetables (syms cfg) ∧
  ∃ p, zget (processes s) (current s) = Some p ∧ runnable p.

(** The kernel's own memory: its code, its static variables (the page tables, and
    all that the record [machine] holds in fields of its own, such as processes[]
    and pageinfo[]) and its stack. *)
Definition kernel_memory (sy : symbols) (b : Z) : Prop :=
  KERNEL_START_ADDR ≤ b < end_ sy ∨ KERNEL_STACK_TOP - PAGESIZE ≤ b < KERNEL_STACK_TOP.

(** The page tables let user code store at [b]. *)
Definition user_writable {D} (cfg : config) (s : machine D) (b : Z) : Prop :=
  match virtual_memory_lookup (memory s) (kernel_pagetables (syms cfg)) b with
  | Ok vam => has PTE_P (vam_perm vam) = true ∧ has PTE_W (vam_perm vam) = true ∧ has PTE_U (vam_perm vam) = true
  | Err _ => False
  end.

(** What user code and the devices may do between two exceptions: store to memory,
    draw on the console, move the cursor, fault at an address.  A store that the
    page tables allow may also hit the kernel's own memory; then any variable of
    the kernel may have any value, and the step is labelled as a trespass. *)
Inductive user_step {D} (cfg : config) (s : machine D) : bool → machine D → Prop :=
  | UserStep d m con cp addr :
      (∀ b, kernel_memory (syms cfg) b → rd m b = rd (memory s) b) →
      zlen con = CONSOLE_SIZE →
      user_step cfg s false (set_dev d (set_memory m (set_console con (set_cursorpos cp
        (set_cpu (set_cr2 addr (cpu s)) s)))))
  | UserTrespass b s' :
      kernel_memory (syms cfg) b → user_writable cfg s b → user_step cfg s true s'.

Inductive sys_step {D} `{PortBus D} (cfg : config) (spin : nat) (s : machine D) : bool → machine D → Prop :=
  | StepUser t s' : user_step cfg s t s' → sys_step cfg spin s t s'
  | StepException reg r s' :
      regs_ok reg → exception cfg spin reg s = Halt (Resume r) s' → sys_step cfg spin s false s'.

(** A step without a trespass. *)
Definition tame_step {D} `{PortBus D} (cfg : config) (spin : nat) (s s' : machine D) : Prop :=
  sys_step cfg spin s false s'.

Section system.
Context {D : Type} `{PortBus D} (cfg : config) (Hcfg : config_ok cfg) (spin : nat).
Abbreviation sy := (syms cfg).
Abbreviation kp := (kernel_pagetables (syms cfg)).
Implicit Types (s : machine D).

Lemma entered_proc s reg s1 p :
entered cfg s reg s1 → zget (processes s) (current s) = Some p →
zget (processes s1) (current s) = Some (set_p_registers reg p).
Proof.
intros E Hp. rewrite (en_procs _ _ _ _ E p Hp). apply zget_zset_eq. by eapply zget_some.
Qed.

Lemma dispatched_resumed s i p :
kernel_inv cfg s → zget (processes s) i = Some p → runnable p →
resumed cfg (dispatched cfg s i) (p_registers p).
Proof.
intros I Hp Hr. split; [by apply kernel_inv_dispatched|]. split; [done|]. by exists p.
Qed.

Lemma other_runnable_dec s : zlen (processes s) = NPROC → other_runnable s ∨ ¬ other_runnable s.
Proof.
intros Hl.
destruct (decide (Exists (λ i, i ≠ current s ∧ p_state <$> zget (processes s) i = Some P_RUNNABLE)
  (iota 0 16))) as [Hex|Hno].
- left. apply Exists_exists in Hex as (i & _ & Hne & Hq).
  destruct (zget (processes s) i) as [q|] eqn:E; [|done]. injection Hq as Hq. by exists i, q.
- right. intros (i & q & Hne & Hq & Hr). apply Hno, Exists_exists. exists i.
  pose proof (zget_range _ _ _ Hq) as Hi. rewrite Hl in Hi. change NPROC with 16 in Hi.
  split; [apply elem_of_iota; lia|]. rewrite Hq. cbn. by rewrite Hr.
Qed.

Lemma kept_entered s reg s1 s2 p :
entered cfg s reg s1 → zget (processes s) (current s) = Some p →
(∀ i, i ≠ current s → zget (processes s2) i = zget (processes s1) i) →
(∀ pn pi, zget (pageinfo s1) pn = Some pi → refcount pi ≠ 0 → zget (pageinfo s2) pn = Some pi) →
(∀ b, ¬ in_tables (syms cfg) b → rd (memory s2) b = rd (memory s1) b) →
kept cfg s s2.
Proof.
intros E Hp Hps Hpg Hm. split.
- intros i Hi. rewrite Hps, (en_procs _ _ _ _ E p Hp) by done. by apply zget_zset_ne.
- intros pn pi. rewrite <- (en_pages _ _ _ _ E). apply Hpg.
- intros b Hb. rewrite <- (en_memory _ _ _ _ E). by apply Hm.
Qed.

Lemma quiet_processes s s' i : quiet s s' → processes (dispatched cfg s' i) = processes s.
Proof. intros [Hc _]. unfold core in Hc. cbn. by injection Hc. Qed.

(** When a descriptor or nothing changed, as on the way out of the kernel. *)
Lemma kept_same s reg s1 s2 i p :
entered cfg s reg s1 → zget (processes s) (current s) = Some p →
(∃ q, processes s2 = zset (processes s1) (current s) q) ∨ processes s2 = processes s1 →
pageinfo s2 = pageinfo s1 → memory s2 = memory s1 → kept cfg s (dispatched cfg s2 i).
Proof.
intros E Hp Hps Hpg Hm. eapply kept_entered; [done|done|..]; cbn.
- intros j Hj. destruct Hps as [[q ->] | ->]; [by apply zget_zset_ne|done].
- by rewrite Hpg.
- by rewrite Hm.
Qed.

(** The state after a quiet operation from [s1] with the descriptors [ps] and
  any tick count. *)
Lemma kept_quiet s reg s1 s2 s' i p :
entered cfg s reg s1 → zget (processes s) (current s) = Some p →
(∃ q, processes s2 = zset (processes s1) (current s) q) ∨ processes s2 = processes s1 →
pageinfo s2 = pageinfo s1 → memory s2 = memory s1 → quiet s2 s' → kept cfg s (dispatched cfg s' i).
Proof.
intros E Hp Hps Hpg Hm [Hc _]. unfold core in Hc. injection Hc as Em _ _ _ Eps _ _ Epi _ _.
eapply kept_same; [done|done| | |]; [rewrite Eps; exact Hps|congruence|congruence].
Qed.

Lemma kept_grant s reg s1 v p p1 pi m' :
entered cfg s reg s1 → zget (processes s) (current s) = Some p →
zget (pageinfo s1) (reg_rdi reg / PAGESIZE) = Some pi → refcount pi = 0 →
(∀ b, ¬ in_tables sy b → rd m' b = rd (memory s1) b) →
kept cfg s (dispatched cfg (with_rax s v (grant s s1 (reg_rdi reg) m') p1) (current s)).
Proof.
intros E Hp Hpi Hrc Hm. eapply kept_entered; [done|done|..]; cbn; [|intros pn pi' Hpi' Hne|done].
- intros j Hj. by apply zget_zset_ne.
- rewrite zget_zset_ne; [done|]. intros <-. congruence.
Qed.

Lemma exception_keeps s p reg :
kernel_inv cfg s → zget (processes s) (current s) = Some p → runnable p → regs_ok reg →
wp (may_wait s reg) (left_keeping cfg s reg) (exception cfg spin reg) (λ _ _, False) s.
Proof.
intros I Hp Hr Hreg. pose proof (zget_range _ _ _ Hp) as Hcur. rewrite (inv_nproc _ _ I) in Hcur.
assert (active p) as Ha by (unfold active; congruence).
apply wp_exception with p; try done. intros s1 E. pose proof (entered_proc _ _ _ _ E Hp) as Hp1.
pose proof (en_inv _ _ _ _ E) as I1.
destruct (decide (reg_intno reg ∈ [INT_SYS_GETPID; INT_SYS_YIELD; INT_SYS_PAGE_ALLOC; INT_TIMER; INT_PAGEFAULT]))
  as [Hin|Hnin].
2:{ eapply switch_unexpected; try done. by left. }
rewrite !elem_of_cons in Hin. destruct Hin as [Hi|[Hi|[Hi|[Hi|[Hi|Hi%elem_of_nil]]]]]; [| | | | |done].
- assert (¬ reschedules reg) as Hres by (unfold reschedules; rewrite Hi; by intros []).
  eapply switch_getpid; try done.
  split; [|split; [eapply kept_same; [done|done|by left; eexists|done|done]|by left]].
  apply (dispatched_resumed _ _ (set_p_registers (set_reg_rax (current s) reg) (set_p_registers reg p)));
    [by apply with_rax_inv|by apply with_rax_proc|done].
- eapply switch_schedule; [done..|by left|]. intros k i q s' [_ Hf] Hq Hq1 Hq2.
  split; [apply dispatched_resumed; [by eapply kernel_inv_quiet|done|done]|].
  split; [eapply (kept_quiet s reg s1 s1); [done|done|by right|done|done|done]|].
  right. exists k. by rewrite (quiet_processes _ _ _ Hq).
- assert (¬ reschedules reg) as Hres by (unfold reschedules; rewrite Hi; by intros []).
  eapply switch_page_alloc; try done.
  + intros _. split; [|split; [eapply kept_same; [done|done|by left; eexists|done|done]|by left]].
    apply (dispatched_resumed _ _ (set_p_registers (set_reg_rax (2 ^ 64 - 1) reg) (set_p_registers reg p)));
      [by apply with_rax_inv|by apply with_rax_proc|done].
  + intros pi m' _ _ Hpi Hrc _ Hfr I2. split; [|split; [by eapply kept_grant|by left]].
    apply (dispatched_resumed _ _ (set_p_registers (set_reg_rax 0 reg) (set_p_registers reg p)));
      [by apply with_rax_inv|by apply with_rax_proc|done].
- eapply switch_schedule; [done..|by right|]. intros k i q s' [_ Hf] Hq Hq1 Hq2.
  split; [|split; [eapply (kept_quiet s reg s1 _ s'); [done|done| | | |exact Hq]; [by right|done|done]|]].
  2:{ right. exists k. by rewrite (quiet_processes _ _ _ Hq). }
  apply dispatched_resumed; [|done|done]. eapply kernel_inv_quiet; [|exact Hq].
  eapply kernel_inv_fields; [exact I1|done|apply I1].
- destruct (has PFERR_USER (reg_err reg)) eqn:Hu.
  + eapply switch_page_fault; try done.
    * destruct (other_runnable_dec s) as [(i & q & Hne & Hq & Hqr)|Hno]; [by apply I|..].
      { right. exists i, q. split_and!; [done| |done].
        rewrite (en_procs _ _ _ _ E p Hp). by rewrite zget_zset_ne. }
      left. right. split; [done|by right].
    * intros ps k i q s' -> Hf Hq' I2 Hq Hqr. split; [by apply dispatched_resumed|].
      split; [|right; exists k; by rewrite (quiet_processes _ _ _ Hq')].
      eapply (kept_quiet s reg s1 _ s'); [done|done| | | |exact Hq']; [by left; eexists|done|done].
  + eapply switch_kernel_fault; try done. by right; split; [|left].
Qed.

Lemma exception_correct s p reg :
kernel_inv cfg s → zget (processes s) (current s) = Some p → runnable p → regs_ok reg →
wp (may_wait s reg) (left_well cfg) (exception cfg spin reg) (λ _ _, False) s.
Proof.
intros I Hp Hr Hreg. eapply wp_halts; [by apply exception_keeps with p|].
by intros [] s' Hh; [apply Hh|..].
Qed.
(** The page tables are in the kernel's memory, which is mapped for everybody. *)
Lemma in_tables_kernel b : in_tables sy b → kernel_memory sy b.
Proof.
destruct Hcfg as [[_ Hst He _ _ _] _]. unfold in_tables, kernel_memory. change PAGESIZE with 4096 in *. lia.
Qed.

Lemma kernel_memory_range b : kernel_memory sy b → 0 ≤ b < MEMSIZE_PHYSICAL.
Proof.
destruct Hcfg as [[_ Hst He Hs _ _] _]. unfold kernel_memory. change PAGESIZE with 4096 in *.
change KERNEL_STACK_TOP with 0x80000 in *. change KERNEL_START_ADDR with 0x40000 in *.
change MEMSIZE_PHYSICAL with 0x200000. lia.
Qed.

Lemma all_writable s b : kernel_inv cfg s → 0 ≤ b < MEMSIZE_PHYSICAL → user_writable cfg s b.
Proof.
intros I Hb. unfold user_writable. by rewrite (lookup_id cfg Hcfg).
Qed.

(** One step of the running system. *)
Lemma sys_step_keeps s s' :
in_user cfg s → tame_step cfg spin s s' →
in_user cfg s' ∧ (∀ i, i ≠ current s → zget (processes s') i = zget (processes s) i) ∧
(∀ pn pi, zget (pageinfo s) pn = Some pi → refcount pi ≠ 0 → zget (pageinfo s') pn = Some pi).
Proof.
intros (I & Hcr3 & p & Hp & Hr) Hstep. unfold tame_step in Hstep.
inversion Hstep as [tr s1 Hu|reg r s1 Hreg Hrun]; subst; [inversion Hu as [d m con cp addr Hm Hcon|]; subst|].
- split; [|by split]. split; [|split; [done|by exists p]].
  destruct I as [[Hc Hk] Ht Hn Hpr Hnp Hpg Hkt Hsh]. split; try done.
  apply (kernel_tables_frame sy (memory s)); [|done]. intros b Hb. by apply Hm, in_tables_kernel.
- pose proof (exception_keeps s p reg I Hp Hr Hreg) as Hwp. unfold wp in Hwp. rewrite Hrun in Hwp.
  destruct Hwp as ((I' & Hcr3' & q & Hq & Hqr & _) & [Ho Hpg _] & _).
  split; [|by split]. split; [done|]. split; [done|by exists q].
Qed.

Lemma steps_keep_pages s s' :
in_user cfg s → rtc (tame_step cfg spin) s s' → in_user cfg s' ∧
(∀ pn pi, zget (pageinfo s) pn = Some pi → refcount pi ≠ 0 → zget (pageinfo s') pn = Some pi).
Proof.
intros Hs Hsteps. induction Hsteps as [s|s s1 s2 Hstep _ IH]; [done|].
destruct (sys_step_keeps s s1 Hs Hstep) as (Hs1 & _ & Hpg). destruct (IH Hs1) as [? Hpg'].
split; [done|]. intros pn pi Hpi Hne. apply Hpg'; auto.
Qed.

(** Steps during which process [i] does not run. *)
Definition step_without (i : Z) s s' : Prop := current s ≠ i ∧ tame_step cfg spin s s'.

Lemma steps_without_keep i s s' :
in_user cfg s → rtc (step_without i) s s' → in_user cfg s' ∧ zget (processes s') i = zget (processes s) i.
Proof.
intros Hs Hsteps. induction Hsteps as [s|s s1 s2 [Hne Hstep] _ IH]; [done|].
destruct (sys_step_keeps s s1 Hs Hstep) as (Hs1 & Ho & _). destruct (IH Hs1) as [? E].
split; [done|]. rewrite E. by apply Ho.
Qed.
End system.

(** ** An example machine

    Two runnable processes on a machine without devices. *)
#[export] Instance null_bus : PortBus unit :=
  {| bus_in := λ d _ _, (d, 0); bus_out := λ d _ _ _, d |}.

Definition ex_isymbols : isymbols :=
  ISymbols 0x51000 0x52000 0x53000 (replicate 16 0x40100) 0x40110 0x40120 0x40130.
Definition ex_cfg : config := Config ex_symbols ex_isymbols (λ _, 0x41000) 0 0.

Definition ex_processes : list proc :=
  (λ i, Proc i zero_registers (if decide (i = 1 ∨ i = 2) then P_RUNNABLE else P_FREE)
             (if decide (i = 1 ∨ i = 2) then kernel_pagetables ex_symbols else 0)) <$> iota 0 16.
Definition ex_pageinfo : list physical_pageinfo :=
  zset (pageinfo_loop 512 (end_ ex_symbols) 0 (replicate 512 (PageInfo 0 0)))
    (PAGENUMBER (kernel_pagetables ex_symbols)) (PageInfo PO_KERNEL 3).
Definition ex_machine (m : mem) : machine unit :=
  Machine tt m (replicate 2000 0x0720) 0
    (Cpu [] [] 0 (PseudoDescriptor 0 0) (PseudoDescriptor 0 0) 0 0 0 (kernel_pagetables ex_symbols))
    0 0 0 0 ex_processes 1 0 ex_pageinfo 0 1.

Lemma ex_symbols_ok : symbols_ok ex_symbols.
Proof. by split. Qed.

Lemma ex_cfg_ok : config_ok ex_cfg.
Proof. split; [apply ex_symbols_ok|done]. Qed.

Lemma ex_machine_inv m : kernel_tables ex_symbols m → kernel_inv ex_cfg (ex_machine m).
Proof.
  intros Hm. split; cbn [memory processes pageinfo showing ex_machine].
  - split; [by vm_compute|]. split; cbn; [lia|by left].
  - exact Hm.
  - by vm_compute.
  - intros i p Hp. pose proof (zget_range _ _ _ Hp) as Hi. change (zlen ex_processes) with 16 in Hi.
    unfold zget in Hp. rewrite decide_True in Hp by lia. unfold ex_processes in Hp.
    rewrite list_lookup_fmap, lookup_iota, Z2Nat.id, Z.add_0_l in Hp by lia.
    injection Hp as <-. split; [done|]. unfold active. cbn.
    destruct (decide (i = 1 ∨ i = 2)); [intros _; split; [lia|done]|intros Ha; by destruct Ha].
  - by vm_compute.
  - intros pn pi Hpi.
    assert (Forall (λ pi, PO_KERNEL ≤ owner pi < 1 ∧ 0 ≤ refcount pi ∧
      (refcount pi = 0 ∨ owner pi < 0)) ex_pageinfo) as Hall
      by (apply (bool_decide_unpack _); by vm_compute).
    destruct (zget_Forall _ _ _ _ Hall Hpi) as (Ho & Hr & Hz).
    change NPROC with 16. split_and!; [lia|lia|lia|]. intros. exfalso. lia.
  - intros j Hj. assert (j = 0 ∨ j = 1 ∨ j = 2 ∨ j = 3 ∨ j = 4) as [->|[->|[->|[->| ->]]]] by lia;
      by vm_compute.
  - by vm_compute.
Qed.

Definition ex_proc1 : proc := Proc 1 zero_registers P_RUNNABLE (kernel_pagetables ex_symbols).

(** The page tables [virtual_memory_init] builds in an empty memory. *)
Lemma ex_memory : ∃ m, kernel_tables ex_symbols m.
Proof.
  destruct (virtual_memory_init_tables ex_symbols ex_symbols_ok ∅) as (m & _ & Hm & _). eauto.
Qed.

(** Registers as an exception handler finds them. *)
Definition ex_registers (intno err rdi : Z) : x86_64_registers :=
  Registers 0 0 0 0 0 0 rdi 0 0 0 0 0 0 0 0 35 35 intno err 0x100000 19 512 0x140000 35.

Lemma ex_registers_ok intno err rdi : 0 ≤ rdi < 2 ^ 64 → regs_ok (ex_registers intno err rdi).
Proof. done. Qed.

(** ** Properties *)

(** C1. The exception handler is safe and live.  From the kernel invariant, with
    a runnable current process and any register contents, no assertion of the
    kernel fails (so all of [check_virtual_memory] passes, as do the checks of
    [set_pagetable] and [run]) and no undefined behaviour occurs; control leaves
    by resuming a runnable process with its own registers on the kernel's page
    table with the invariant restored, or by a power-off or soft reboot from
    the keyboard.  The handler only waits for the user after a panic or when the
    last runnable process faults. *)
Theorem exception_safe {D : Type} `{PortBus D} cfg spin (s : machine D) p reg :
  config_ok cfg → kernel_inv cfg s →
  zget (processes s) (current s) = Some p → runnable p → regs_ok reg →
  wp (may_wait s reg) (left_well cfg) (exception cfg spin reg) (λ _ _, False) s.
Proof. intros Hcfg I Hp Hr Hreg. by apply exception_correct with p. Qed.

Lemma exception_safe_witness :
  ∃ m, kernel_inv ex_cfg (ex_machine m) ∧
    wp (may_wait (ex_machine m) (ex_registers INT_TIMER 0 0)) (left_well ex_cfg)
       (exception ex_cfg 5 (ex_registers INT_TIMER 0 0)) (λ _ _, False) (ex_machine m).
Proof.
  destruct ex_memory as [m Hm]. exists m. split; [by apply ex_machine_inv|].
  eapply (exception_safe ex_cfg 5 (ex_machine m)); [apply ex_cfg_ok|by apply ex_machine_inv
    |reflexivity|reflexivity|by apply ex_registers_ok].
Defined.

(** C2. The system invariant, as long as user code keeps out of the kernel's own
    memory.  In every run without a trespass, whatever else user code, devices and
    exceptions do, in any order and for ever, user mode always runs a runnable
    process on the kernel's page table and the kernel invariant holds.  The
    condition is needed, and nothing enforces it: at every point of such a run the
    page tables let user code store to every byte of the kernel's memory. *)
Theorem system_invariant {D : Type} `{PortBus D} cfg spin (s s' : machine D) :
  config_ok cfg → in_user cfg s → rtc (tame_step cfg spin) s s' →
  in_user cfg s' ∧ ∀ b, kernel_memory (syms cfg) b → user_writable cfg s' b.
Proof.
  intros Hcfg Hs Hsteps. destruct (steps_keep_pages cfg Hcfg spin s s' Hs Hsteps) as [Hs' _].
  split; [done|]. intros b Hb. apply all_writable; [done|apply Hs'|by apply (kernel_memory_range cfg)].
Qed.

Lemma system_invariant_witness :
  ∃ m, in_user ex_cfg (ex_machine m) ∧
    ∀ s', rtc (tame_step ex_cfg 5) (ex_machine m) s' → in_user ex_cfg s'.
Proof.
  destruct ex_memory as [m Hm]. exists m.
  assert (in_user ex_cfg (ex_machine m)) as Hs.
  { split; [by apply ex_machine_inv|]. split; [done|]. by eexists. }
  split; [done|]. intros s' Hsteps. by apply (system_invariant ex_cfg 5 (ex_machine m) s' ex_cfg_ok Hs Hsteps).
Defined.

(** Without the condition the invariant is lost: one store to the top-level page
    table, which user code may make, unmaps everything. *)
Theorem trespass_breaks {D : Type} `{PortBus D} cfg spin (s : machine D) :
  config_ok cfg → in_user cfg s →
  let s' := set_memory (wr (memory s) (kernel_pagetables (syms cfg)) 0) s in
  sys_step cfg spin s true s' ∧ ¬ in_user cfg s'.
Proof.
  intros Hcfg [I _]. cbn zeta. set (kp := kernel_pagetables (syms cfg)).
  assert (in_tables (syms cfg) kp) as Hkp by (unfold in_tables, kp; change PAGESIZE with 4096; lia).
  assert (kernel_memory (syms cfg) kp) as Hk by (by apply (in_tables_kernel cfg)).
  split.
  - apply StepUser, UserTrespass with kp; [done|]. apply all_writable; [done|done|by apply (kernel_memory_range cfg)].
  - intros [I' _]. pose proof (kt_upper _ _ (inv_tables _ _ I') 0 0 ltac:(lia) ltac:(lia)) as Hup.
    rewrite kpage0 in Hup. change (upper_entry (syms cfg) 0 0) with (new_pe (kpage (syms cfg) 1)) in Hup.
    destruct Hcfg as [Hsy _].
    destruct (kpage_ok _ (kp_aligned _ Hsy) (kp_pos _ Hsy) (kp_mem _ Hsy) 1 ltac:(lia)) as [Hal Hr].
    destruct (new_pe_spec _ Hal Hr) as (_ & _ & HP & _). rewrite <- Hup in HP.
    revert HP. unfold has, entry. change PTE_P with (2 ^ 1 - 1). cbn [memory set_memory ldn].
    rewrite (Z.land_ones _ 1) by lia. rewrite Z.mul_0_r, Z.add_0_r, rd_wr_eq.
    change (u8 0) with 0. rewrite Z.add_0_l.
    change (256 : Z) with (128 * 2). rewrite <- Z.mul_assoc, (Z.mul_comm 2), Z.mul_assoc, Z.mod_mul by lia. done.
Qed.

(** C5. What stays apart as long as no user step stores into the kernel's own memory:
    a page in use keeps its owner and its reference count for ever, so no page is
    allocated twice; and while a process does not run its descriptor does not
    change, so when it is resumed it finds exactly the registers the kernel saved.
    The memory of the processes is not kept apart: every page is mapped writable for
    every process. *)
Theorem system_isolation {D : Type} `{PortBus D} cfg spin (s s' : machine D) :
  config_ok cfg → in_user cfg s → rtc (tame_step cfg spin) s s' →
  (∀ pn pi, zget (pageinfo s) pn = Some pi → refcount pi ≠ 0 → zget (pageinfo s') pn = Some pi) ∧
  ∀ i s1 s2 reg r, rtc (step_without cfg spin i) s' s1 → current s1 ≠ i → regs_ok reg →
    exception cfg spin reg s1 = Halt (Resume r) s2 → current s2 = i →
    ∃ p, zget (processes s') i = Some p ∧ r = p_registers p.
Proof.
  intros Hcfg Hs Hsteps. destruct (steps_keep_pages cfg Hcfg spin s s' Hs Hsteps) as [Hs' Hpg].
  split; [exact Hpg|].
  intros i s1 s2 reg r Hw Hne Hreg Hrun Hi.
    destruct (steps_without_keep cfg Hcfg spin i s' s1 Hs' Hw) as [(I & _ & p & Hp & Hr) E].
    pose proof (exception_keeps cfg Hcfg spin s1 p reg I Hp Hr Hreg) as Hwp. unfold wp in Hwp. rewrite Hrun in Hwp.
    destruct Hwp as ((_ & _ & q & Hq & _ & Er) & [Ho _ _] & _). subst i r. exists q. split; [|done].
    by rewrite <- E, <- Ho.
Qed.

Lemma system_isolation_witness :
  ∃ m, in_user ex_cfg (ex_machine m) ∧
    ∀ s', rtc (tame_step ex_cfg 5) (ex_machine m) s' →
      ∀ pn pi, zget (pageinfo (ex_machine m)) pn = Some pi → refcount pi ≠ 0 → zget (pageinfo s') pn = Some pi.
Proof.
  destruct ex_memory as [m Hm]. exists m.
  assert (in_user ex_cfg (ex_machine m)) as Hs.
  { split; [by apply ex_machine_inv|]. split; [done|]. by eexists. }
  split; [done|]. intros s' Hsteps. by apply (system_isolation ex_cfg 5 (ex_machine m) s' ex_cfg_ok).
Defined.

(** The user may always power off or reboot instead. *)
Definition user_stop (h : halt) : Prop :=
  match h with PowerOff | SoftReboot _ => True | _ => False end.

Lemma sys_getpid_ok {D : Type} `{PortBus D} cfg spin (s : machine D) p reg :
  config_ok cfg → kernel_inv cfg s →
  zget (processes s) (current s) = Some p → runnable p → reg_intno reg = INT_SYS_GETPID →
  wp False (λ h s', user_stop h ∨
      h = Resume (set_reg_rax (p_pid p) reg) ∧ resumed cfg s' (set_reg_rax (p_pid p) reg) ∧
      current s' = current s ∧ pageinfo s' = pageinfo s ∧ memory s' = memory s ∧
      ∀ i, i ≠ current s → zget (processes s') i = zget (processes s) i)
    (exception cfg spin reg) (λ _ _, False) s.
Proof.
  intros Hcfg I Hp Hr Hi. pose proof (zget_range _ _ _ Hp) as Hcur. rewrite (inv_nproc _ _ I) in Hcur.
  destruct (inv_proc _ _ I _ _ Hp) as [-> _].
  apply wp_exception with p; [done|by left|by left|done|done|unfold active; congruence|].
  intros s1 E. pose proof (entered_proc _ _ _ _ _ E Hp) as Hp1.
  eapply switch_getpid; try done. right. split; [done|].
  assert (resumed cfg (dispatched cfg (with_rax s (current s) s1 (set_p_registers reg p)) (current s))
    (set_reg_rax (current s) reg)) as Hres.
  { eapply (dispatched_resumed cfg _ _ (set_p_registers (set_reg_rax (current s) reg) (set_p_registers reg p)));
      [apply with_rax_inv; [apply E|done]|by apply with_rax_proc|done]. }
  split_and!; [exact Hres|done|apply E|apply E|].
  intros i Hne. cbn. rewrite zget_zset_ne by done.
  rewrite (en_procs _ _ _ _ E p Hp). by apply zget_zset_ne.
Qed.

(** An interrupt from a process that no case of the switch but the panic handles. *)
Lemma exception_unserved {D : Type} `{PortBus D} cfg spin (s : machine D) p reg :
  config_ok cfg → kernel_inv cfg s → zget (processes s) (current s) = Some p → runnable p →
  reg_intno reg ∉ [INT_SYS_GETPID; INT_SYS_YIELD; INT_SYS_PAGE_ALLOC; INT_TIMER; INT_PAGEFAULT] →
  wp True (λ h _, user_stop h) (exception cfg spin reg) (λ _ _, False) s.
Proof.
  intros Hcfg I Hp Hr Hi. pose proof (zget_range _ _ _ Hp) as Hcur. rewrite (inv_nproc _ _ I) in Hcur.
  apply wp_exception with p; [done|done|done|done|done|unfold active; congruence|].
  intros s1 E. eapply switch_unexpected; [done|done|done|exact E|done|done].
Qed.

(** INT_SYS_GETPID: the caller is resumed with its process ID in %rax and
    every other register as it was; no other process, no page's ownership and
    no memory changes. *)
Theorem sys_getpid_spec {D : Type} `{PortBus D} cfg spin (s : machine D) p reg :
  config_ok cfg → kernel_inv cfg s →
  zget (processes s) (current s) = Some p → runnable p → reg_intno reg = INT_SYS_GETPID →
  wp False (λ h s', user_stop h ∨
      h = Resume (set_reg_rax (p_pid p) reg) ∧ resumed cfg s' (set_reg_rax (p_pid p) reg) ∧
      current s' = current s ∧ pageinfo s' = pageinfo s ∧ memory s' = memory s ∧
      ∀ i, i ≠ current s → zget (processes s') i = zget (processes s) i)
    (exception cfg spin reg) (λ _ _, False) s.
Proof. apply sys_getpid_ok. Qed.

Lemma sys_getpid_spec_witness :
  ∃ m, let s := ex_machine m in let reg := ex_registers INT_SYS_GETPID 0 0 in
  wp False (λ h s', user_stop h ∨
      h = Resume (set_reg_rax (p_pid ex_proc1) reg) ∧
      resumed ex_cfg s' (set_reg_rax (p_pid ex_proc1) reg) ∧
      current s' = current s ∧ pageinfo s' = pageinfo s ∧ memory s' = memory s ∧
      ∀ i, i ≠ current s → zget (processes s') i = zget (processes s) i)
    (exception ex_cfg 0 reg) (λ _ _, False) s.
Proof.
  destruct ex_memory as [m Hm]. exists m. intros s reg.
  apply (sys_getpid_spec ex_cfg 0 s ex_proc1 reg);
    [apply ex_cfg_ok|by apply ex_machine_inv|reflexivity..].
Defined.

Lemma sys_page_alloc_ok {D : Type} `{PortBus D} cfg spin (s : machine D) p reg :
  config_ok cfg → kernel_inv cfg s →
  zget (processes s) (current s) = Some p → runnable p → regs_ok reg →
  reg_intno reg = INT_SYS_PAGE_ALLOC →
  wp False (λ h s', user_stop h ∨ ∃ v,
      h = Resume (set_reg_rax v reg) ∧ resumed cfg s' (set_reg_rax v reg) ∧
      current s' = current s ∧
      (v = 2 ^ 64 - 1 ∧ ¬ free_page s (reg_rdi reg) ∧ pageinfo s' = pageinfo s ∧ memory s' = memory s ∨
       v = 0 ∧ free_page s (reg_rdi reg) ∧
       pageinfo s' = zset (pageinfo s) (reg_rdi reg / PAGESIZE) (PageInfo (p_pid p) 1) ∧
       virtual_memory_lookup (memory s') (kernel_pagetables (syms cfg)) (reg_rdi reg) =
         Ok (VaMapping (reg_rdi reg / PAGESIZE) (reg_rdi reg) 7) ∧
       ∀ b, ¬ in_tables (syms cfg) b → rd (memory s') b = rd (memory s) b))
    (exception cfg spin reg) (λ _ _, False) s.
Proof.
  intros Hcfg I Hp Hr Hreg Hi. pose proof (zget_range _ _ _ Hp) as Hcur. rewrite (inv_nproc _ _ I) in Hcur.
  destruct (inv_proc _ _ I _ _ Hp) as [-> _].
  apply wp_exception with p; [done|by left|by left|done|done|unfold active; congruence|].
  intros s1 E. pose proof (entered_proc _ _ _ _ _ E Hp) as Hp1.
  assert (∀ v s2, kernel_inv cfg s2 → zget (processes s2) (current s) = Some (set_p_registers reg p) →
    resumed cfg (dispatched cfg (with_rax s v s2 (set_p_registers reg p)) (current s)) (set_reg_rax v reg))
    as Hres.
  { intros v s2 I2 Hp2.
    apply (dispatched_resumed cfg _ _ (set_p_registers (set_reg_rax v reg) (set_p_registers reg p)));
      [by apply with_rax_inv|by apply with_rax_proc|done]. }
  eapply switch_page_alloc; try done.
  - intros Hnf. right. eexists. split; [done|]. split; [apply Hres; [apply E|done]|]. split; [done|].
    left. split; [done|]. unfold free_page in *. rewrite (en_pages _ _ _ _ E) in Hnf. split; [done|]. split; apply E.
  - intros pi m' Hal Hlt Hpi Hrc Hkt Hfr I2. right. eexists. split; [done|].
    split; [by apply Hres|]. split; [done|]. right. rewrite (en_pages _ _ _ _ E) in Hpi.
    split_and!; [done|by split_and!; eauto| | |].
    + cbn. by rewrite (en_pages _ _ _ _ E).
    + rewrite (kernel_lookup (syms cfg)); [|done|destruct Hreg; unfold canonical;
        change MEMSIZE_PHYSICAL with 0x200000 in *; lia]. by rewrite decide_True.
    + intros b Hb. rewrite <- (en_memory _ _ _ _ E). by apply Hfr.
Qed.

(** C7. INT_SYS_PAGE_ALLOC: if %rdi is the address of a free page of physical
    memory, the page becomes the caller's with reference count 1, stays mapped
    at its own address with P|W|U, and the caller gets 0; otherwise the caller
    gets -1 and neither page ownership nor memory changes.  Outside the page
    tables no byte of memory changes, and the invariant holds. *)
Theorem sys_page_alloc_spec {D : Type} `{PortBus D} cfg spin (s : machine D) p reg :
  config_ok cfg → kernel_inv cfg s →
  zget (processes s) (current s) = Some p → runnable p → regs_ok reg →
  reg_intno reg = INT_SYS_PAGE_ALLOC →
  wp False (λ h s', user_stop h ∨ ∃ v,
      h = Resume (set_reg_rax v reg) ∧ resumed cfg s' (set_reg_rax v reg) ∧
      current s' = current s ∧
      (v = 2 ^ 64 - 1 ∧ ¬ free_page s (reg_rdi reg) ∧ pageinfo s' = pageinfo s ∧ memory s' = memory s ∨
       v = 0 ∧ free_page s (reg_rdi reg) ∧
       pageinfo s' = zset (pageinfo s) (reg_rdi reg / PAGESIZE) (PageInfo (p_pid p) 1) ∧
       virtual_memory_lookup (memory s') (kernel_pagetables (syms cfg)) (reg_rdi reg) =
         Ok (VaMapping (reg_rdi reg / PAGESIZE) (reg_rdi reg) 7) ∧
       ∀ b, ¬ in_tables (syms cfg) b → rd (memory s') b = rd (memory s) b))
    (exception cfg spin reg) (λ _ _, False) s.
Proof. apply sys_page_alloc_ok. Qed.

Lemma sys_page_alloc_spec_witness :
  ∃ m, let s := ex_machine m in let reg := ex_registers INT_SYS_PAGE_ALLOC 0 0x101000 in
  wp False (λ h s', user_stop h ∨ ∃ v,
      h = Resume (set_reg_rax v reg) ∧ resumed ex_cfg s' (set_reg_rax v reg) ∧
      current s' = current s ∧
      (v = 2 ^ 64 - 1 ∧ ¬ free_page s (reg_rdi reg) ∧ pageinfo s' = pageinfo s ∧ memory s' = memory s ∨
       v = 0 ∧ free_page s (reg_rdi reg) ∧
       pageinfo s' = zset (pageinfo s) (reg_rdi reg / PAGESIZE) (PageInfo (p_pid ex_proc1) 1) ∧
       virtual_memory_lookup (memory s') (kernel_pagetables (syms ex_cfg)) (reg_rdi reg) =
         Ok (VaMapping (reg_rdi reg / PAGESIZE) (reg_rdi reg) 7) ∧
       ∀ b, ¬ in_tables (syms ex_cfg) b → rd (memory s') b = rd (memory s) b))
    (exception ex_cfg 0 reg) (λ _ _, False) s.
Proof.
  destruct ex_memory as [m Hm]. exists m. intros s reg.
  apply (sys_page_alloc_spec ex_cfg 0 s ex_proc1 reg);
    [apply ex_cfg_ok|by apply ex_machine_inv|reflexivity|reflexivity|by apply ex_registers_ok|reflexivity].
Defined.

(** C6. Scheduling is round-robin.  After INT_SYS_YIELD or a timer interrupt the
    process resumed is the first runnable one after the current process in
    cyclic order, itself last, with its saved registers; the interrupted
    process's registers are saved in its descriptor, and the timer interrupt
    counts a tick.  Such a process always exists, so the handler does not wait. *)
Theorem schedule_round_robin {D : Type} `{PortBus D} cfg spin (s : machine D) p reg :
  config_ok cfg → kernel_inv cfg s →
  zget (processes s) (current s) = Some p → runnable p →
  reg_intno reg = INT_SYS_YIELD ∨ reg_intno reg = INT_TIMER →
  wp False (λ h s', user_stop h ∨ ∃ k q,
      next_after (processes s') (current s) k (current s') ∧
      processes s' = zset (processes s) (current s) (set_p_registers reg p) ∧
      zget (processes s') (current s') = Some q ∧ h = Resume (p_registers q) ∧
      resumed cfg s' (p_registers q) ∧
      ticks s' = (if reg_intno reg =? INT_TIMER then u32 (ticks s + 1) else ticks s))
    (exception cfg spin reg) (λ _ _, False) s.
Proof.
  intros Hcfg I Hp Hr Hi. pose proof (zget_range _ _ _ Hp) as Hcur. rewrite (inv_nproc _ _ I) in Hcur.
  apply wp_exception with p; [done|by left|by left|done|done|unfold active; congruence|].
  intros s1 E. pose proof (entered_proc _ _ _ _ _ E Hp) as Hp1.
  set (s2 := if reg_intno reg =? INT_TIMER then set_ticks (u32 (ticks s1 + 1)) s1 else s1).
  eapply switch_schedule with (s2 := s2); [done|by left|by left|exact E|done|exact Hp1|done|..].
  { unfold s2. destruct Hi as [Hi|Hi]; rewrite Hi; [left|right]; done. }
  intros k i q s' Hn Hq Hq1 Hqr. right.
  assert (kernel_inv cfg s2) as I2.
  { unfold s2. destruct (_ =? _); [|apply E]. eapply kernel_inv_fields; [apply E|done|apply E]. }
  pose proof (kernel_inv_quiet _ _ _ I2 Hq) as I'.
  destruct Hq as [Hc _]. unfold core in Hc. injection Hc as Em Ec Ecp Ei Eps Ecur Et Epi El Es.
  assert (processes s' = processes s1) as Eps1 by (rewrite Eps; unfold s2; by destruct (_ =? _)).
  exists k, q. cbn. rewrite Eps1. split_and!; [done| |by rewrite <- Eps1|done| |].
  - by apply (en_procs _ _ _ _ E).
  - by apply dispatched_resumed.
  - rewrite Et. unfold s2. rewrite <- (en_ticks _ _ _ _ E). by destruct (_ =? _).
Qed.

Lemma schedule_round_robin_witness :
  ∃ m, let s := ex_machine m in let reg := ex_registers INT_TIMER 0 0 in
  wp False (λ h s', user_stop h ∨ ∃ k q,
      next_after (processes s') (current s) k (current s') ∧
      processes s' = zset (processes s) (current s) (set_p_registers reg ex_proc1) ∧
      zget (processes s') (current s') = Some q ∧ h = Resume (p_registers q) ∧
      resumed ex_cfg s' (p_registers q) ∧
      ticks s' = (if reg_intno reg =? INT_TIMER then u32 (ticks s + 1) else ticks s))
    (exception ex_cfg 0 reg) (λ _ _, False) s.
Proof.
  destruct ex_memory as [m Hm]. exists m. intros s reg.
  apply (schedule_round_robin ex_cfg 0 s ex_proc1 reg);
    [apply ex_cfg_ok|by apply ex_machine_inv|reflexivity|reflexivity|by right].
Defined.

(** C8. A page fault of a user process breaks that process and no other: the
    faulting process is left P_BROKEN with its registers saved, all other
    descriptors and page ownership are untouched, and the next runnable process
    is resumed; only when there is none may the handler wait. *)
Theorem page_fault_spec {D : Type} `{PortBus D} cfg spin (s : machine D) p reg :
  config_ok cfg → kernel_inv cfg s →
  zget (processes s) (current s) = Some p → runnable p →
  reg_intno reg = INT_PAGEFAULT → has PFERR_USER (reg_err reg) = true →
  wp (¬ other_runnable s) (λ h s', user_stop h ∨ ∃ k q,
      first_after (processes s') (current s) k (current s') ∧ current s' ≠ current s ∧
      processes s' = zset (processes s) (current s)
                          (set_p_state P_BROKEN (set_p_registers reg p)) ∧
      zget (processes s') (current s') = Some q ∧ h = Resume (p_registers q) ∧
      resumed cfg s' (p_registers q) ∧ pageinfo s' = pageinfo s ∧ memory s' = memory s)
    (exception cfg spin reg) (λ _ _, False) s.
Proof.
  intros Hcfg I Hp Hr Hi Hu. pose proof (zget_range _ _ _ Hp) as Hcur.
  apply wp_exception with p; [done|by left|by left|done|done|unfold active; congruence|].
  intros s1 E. pose proof (entered_proc _ _ _ _ _ E Hp) as Hp1.
  eapply switch_page_fault;
    [done|by left|by left|exact E|by rewrite <- (inv_nproc _ _ I)|exact Hp1|done|done|done| |].
  { destruct (other_runnable_dec s) as [(i & q & Hne & Hq & Hqr)|Hno]; [apply I| |by left].
    right. exists i, q. split_and!; [done| |done].
    rewrite (en_procs _ _ _ _ E p Hp). by rewrite zget_zset_ne. }
  intros ps k i q s' Eps Hf Hq I' Hq1 Hqr. right.
  destruct Hq as [Hc _]. unfold core in Hc. cbn in Hc.
  injection Hc as Em Ec Ecp Ei Eps' Ecur Et Epi El Es.
  assert (ps = zset (processes s) (current s) (set_p_state P_BROKEN (set_p_registers reg p))) as Eps2.
  { rewrite Eps, (en_procs _ _ _ _ E p Hp). unfold zset. case_decide; [|done].
    by rewrite list_insert_insert_eq. }
  exists k, q. cbn. rewrite Eps'. split_and!; [done| |done|by rewrite <- Eps'|done| | |].
  - intros ->. rewrite Eps', Eps2, zget_zset_eq in Hq1 by done. injection Hq1 as <-. done.
  - by apply dispatched_resumed.
  - rewrite Epi. apply E.
  - rewrite Em. apply E.
Qed.

Lemma page_fault_spec_witness :
  ∃ m, let s := ex_machine m in let reg := ex_registers INT_PAGEFAULT 4 0 in
  wp (¬ other_runnable s) (λ h s', user_stop h ∨ ∃ k q,
      first_after (processes s') (current s) k (current s') ∧ current s' ≠ current s ∧
      processes s' = zset (processes s) (current s)
                          (set_p_state P_BROKEN (set_p_registers reg ex_proc1)) ∧
      zget (processes s') (current s') = Some q ∧ h = Resume (p_registers q) ∧
      resumed ex_cfg s' (p_registers q) ∧ pageinfo s' = pageinfo s ∧ memory s' = memory s)
    (exception ex_cfg 0 reg) (λ _ _, False) s.
Proof.
  destruct ex_memory as [m Hm]. exists m. intros s reg.
  apply (page_fault_spec ex_cfg 0 s ex_proc1 reg);
    [apply ex_cfg_ok|by apply ex_machine_inv|reflexivity..].
Defined.

(** How many places after [a] the process [b] comes in the cyclic order. *)
Definition distance (a b : Z) : Z := (b - a - 1) mod NPROC + 1.

Lemma distance_bound a b : 1 ≤ distance a b ≤ NPROC.
Proof. unfold distance. pose proof (Z.mod_pos_bound (b - a - 1) NPROC). change NPROC with 16 in *. lia. Qed.

Lemma distance_other a b : 0 ≤ a < NPROC → 0 ≤ b < NPROC → a ≠ b → distance a b ≤ NPROC - 1.
Proof.
  unfold distance. change NPROC with 16. intros Ha Hb Hne. destruct (decide (a < b)).
  - rewrite Z.mod_small; lia.
  - replace (b - a - 1) with (b - a + 15 + (-1) * 16) by lia. rewrite Z.mod_add, Z.mod_small; lia.
Qed.

(** Each time the scheduler runs, a runnable process is the one resumed or closer to
    its turn. *)
Lemma first_after_closer ps cur i p k j :
  zlen ps = NPROC → zget ps i = Some p → runnable p → first_after ps cur k j →
  j = i ∨ distance j i < distance cur i.
Proof.
  intros Hl Hp Hr (Hk & -> & _ & Hno). pose proof (zget_range _ _ _ Hp) as Hi. rewrite Hl in Hi.
  unfold distance. change NPROC with 16 in *.
  set (d := (i - cur - 1) mod 16 + 1). pose proof (Z.mod_pos_bound (i - cur - 1) 16).
  assert ((cur + d) mod 16 = i) as Hd.
  { unfold d. replace (cur + ((i - cur - 1) mod 16 + 1)) with ((i - cur - 1) mod 16 + (cur + 1)) by lia.
    rewrite Zplus_mod_idemp_l. replace (i - cur - 1 + (cur + 1)) with i by lia. by apply Z.mod_small. }
  assert (k ≤ d) as Hkd.
  { destruct (decide (k ≤ d)) as [|Hgt]; [done|]. exfalso.
    apply (Hno d p); [lia|by rewrite Hd|done]. }
  destruct (decide (k = d)) as [->|Hne]; [by left|right].
  assert ((i - (cur + k) mod 16 - 1) mod 16 = d - k - 1) as ->; [|lia].
  rewrite <- Hd. symmetry. apply Z.mod_unique with ((cur + k) / 16 - (cur + d) / 16); [left; lia|].
  pose proof (Z.div_mod (cur + k) 16). pose proof (Z.div_mod (cur + d) 16). lia.
Qed.

(** A run in which process [i] is not resumed, with the number of timer interrupts
    and yields in it: the turns given to other processes. *)
Inductive passed_over {D} `{PortBus D} (cfg : config) (spin : nat) (i : Z) :
    Z → machine D → machine D → Prop :=
  | PassNone s : passed_over cfg spin i 0 s s
  | PassUser n s s1 s' :
      user_step cfg s false s1 → passed_over cfg spin i n s1 s' → passed_over cfg spin i n s s'
  | PassException n reg r s s1 s' :
      regs_ok reg → exception cfg spin reg s = Halt (Resume r) s1 → current s1 ≠ i →
      passed_over cfg spin i n s1 s' →
      passed_over cfg spin i (n + if decide (reschedules reg) then 1 else 0) s s'.

(** One exception brings a runnable process that is not resumed closer to its turn. *)
Lemma exception_closer {D} `{PortBus D} cfg (Hcfg : config_ok cfg) spin (s s1 : machine D) i p reg r :
  in_user cfg s → zget (processes s) i = Some p → runnable p → current s ≠ i → regs_ok reg →
  exception cfg spin reg s = Halt (Resume r) s1 → current s1 ≠ i →
  (if decide (reschedules reg) then 1 else 0) ≤ distance (current s) i - distance (current s1) i.
Proof.
  intros (I & _ & q & Hq & Hqr) Hp Hr Hne Hreg Hrun Hne1.
  pose proof (exception_keeps cfg Hcfg spin s q reg I Hq Hqr Hreg) as Hwp. unfold wp in Hwp. rewrite Hrun in Hwp.
  destruct Hwp as ((I1 & _) & [Ho _ _] & Ht). destruct Ht as [[-> Hn]|[k Hf]].
  - rewrite decide_False by done. lia.
  - destruct (first_after_closer _ _ i p _ _ (inv_nproc _ _ I1)
      ltac:(rewrite Ho by congruence; exact Hp) Hr Hf) as [|Hlt]; [done|].
    case_decide; lia.
Qed.

(** C9. Round-robin scheduling is fair.  While a runnable process does not run, its
    descriptor stays as it is and at most NPROC - 2 timer interrupts and yields
    resume another process, exactly: fewer than the places it is behind the
    current process in the cyclic order.  So whatever else happens, short of a store
    into the kernel's own memory, it runs after NPROC - 1 of them at the latest. *)
Theorem round_robin_fair {D : Type} `{PortBus D} cfg spin i n (s s' : machine D) p :
  config_ok cfg → in_user cfg s → zget (processes s) i = Some p → runnable p → current s ≠ i →
  passed_over cfg spin i n s s' →
  n < distance (current s) i ≤ NPROC - 1 ∧ in_user cfg s' ∧ current s' ≠ i ∧ zget (processes s') i = Some p.
Proof.
  intros Hcfg Hs Hp Hr Hne Hrun.
  assert (n ≤ distance (current s) i - distance (current s') i ∧ in_user cfg s' ∧ current s' ≠ i ∧
    zget (processes s') i = Some p) as (Hn & Hs' & Hne' & Hp').
  { induction Hrun as [s|n s s1 s' Hu _ IH|n reg r s s1 s' Hreg He Hne1 _ IH]; [split_and!; [lia|done..]|..].
    - destruct (sys_step_keeps cfg Hcfg spin s s1 Hs (StepUser _ _ _ _ _ Hu)) as (Hs1 & Ho & _).
      assert (current s1 = current s) as E by (by inversion Hu).
      rewrite <- E. apply IH; [done|by rewrite Ho|by rewrite E].
    - destruct (sys_step_keeps cfg Hcfg spin s s1 Hs (StepException _ _ _ _ _ _ Hreg He)) as (Hs1 & Ho & _).
      pose proof (exception_closer cfg Hcfg spin s s1 i p reg r Hs Hp Hr Hne Hreg He Hne1).
      destruct IH as (? & ? & ? & ?); [done|by rewrite Ho|done|]. split_and!; [lia|done..]. }
  pose proof (distance_bound (current s') i). split_and!; [lia| |done..].
  destruct Hs as (I & _ & q & Hq & _). pose proof (zget_range _ _ _ Hp). pose proof (zget_range _ _ _ Hq).
  rewrite (inv_nproc _ _ I) in *. by apply distance_other.
Qed.

Lemma round_robin_fair_witness :
  ∃ m, ∀ n s', passed_over ex_cfg 5 2 n (ex_machine m) s' → n < 1.
Proof.
  destruct ex_memory as [m Hm]. exists m. intros n s' Hrun.
  eapply (round_robin_fair ex_cfg 5 2 n (ex_machine m) s'
    (Proc 2 zero_registers P_RUNNABLE (kernel_pagetables ex_symbols)));
    [apply ex_cfg_ok| |reflexivity|reflexivity|done|exact Hrun].
  split; [by apply ex_machine_inv|]. split; [done|]. by eexists.
Defined.
