(* ===== verification/KernelStart.v ===== *)
(** * Starting the kernel

    [kernel] of kernel.c from power-on to user mode: on a machine whose memory
    holds the kernel with its program images, it sets up the hardware and the
    page ownership, loads the programs into their processes and resumes the
    first one, with the kernel invariant established.  Every theorem of
    KernelSafe.v about the running system therefore applies to the machine from
    its start.

    The hypotheses on the images ([image_ok]) are what the linker scripts under
    src/modules/m3/link give: an image lies in the kernel below its page tables,
    and its segments start at page boundaries, in order, inside the range of
    the process it is loaded into.  Segments that do not start at a page
    boundary are loaded at the wrong address: [program_load_unaligned]. *)
From stdpp Require Import base tactics numbers list gmap.
From Stdlib Require Import ZArith Lia.
From S2P Require Import Prelude Mem LibStr Printf VM KTables Machine Hardware Keyboard Wp Pages Loader Kernel KernelInv KernelSafe.

(** ** Specification *)

(** The address range of a process, and its stack page. *)
Definition region_start (pid : Z) : Z := PROC_START_ADDR + PROC_SIZE * (pid - 1).
Definition region_end (pid : Z) : Z := PROC_START_ADDR + PROC_SIZE * pid.
Definition in_region (pid b : Z) : Prop := region_start pid ≤ b < region_end pid.

(** The program headers of an image. *)
Fixpoint headers (n : nat) (m : mem) (ph : Z) : list elf_program :=
  match n with
  | O => []
  | S n => read_program m ph :: headers n m (ph + sizeof_elf_program)
  end.

Definition image_headers (m : mem) (img : ramimage) : list elf_program :=
  let eh := read_header m (img_begin img) in
  headers (Z.to_nat (e_phnum eh)) m (img_begin img + e_phoff eh).

(** The pages of a segment, and those a process uses. *)
Definition segment_page (ph : elf_program) (pn : Z) : bool :=
  (p_type ph =? ELF_PTYPE_LOAD) && (p_va ph <=? pn * PAGESIZE) && (pn * PAGESIZE <? p_va ph + p_memsz ph).
Definition segments_page (phs : list elf_program) (pn : Z) : bool :=
  existsb (λ ph, segment_page ph pn) phs.
Definition process_page (phs : list elf_program) (pid pn : Z) : bool :=
  segments_page phs pn || (pn * PAGESIZE =? region_end pid - PAGESIZE).

(** Segments on pages of their own. *)
Fixpoint segments_apart (phs : list elf_program) : Prop :=
  match phs with
  | [] => True
  | ph :: phs => (∀ pn, segment_page ph pn = true → segments_page phs pn = false) ∧ segments_apart phs
  end.

(** A segment that can be loaded for process [pid] from its image. *)
Record segment_ok (img : ramimage) (pid : Z) (ph : elf_program) : Prop := SegmentOk {
  sg_aligned : p_va ph mod PAGESIZE = 0;
  sg_start : region_start pid ≤ p_va ph;
  sg_end : p_va ph + p_memsz ph ≤ region_end pid - PAGESIZE;
  sg_file : 0 ≤ p_filesz ph ≤ p_memsz ph;
  sg_offset : 0 ≤ p_offset ph;
  sg_image : img_begin img + p_offset ph + p_filesz ph ≤ img_end img
}.

(** The part of memory that holds the kernel with its images, without the page tables. *)
Definition in_kernel (sy : symbols) (b : Z) : Prop :=
  0 ≤ b < PROC_START_ADDR ∧ ¬ in_tables sy b.

Record image_ok (sy : symbols) (m : mem) (img : ramimage) (pid : Z) : Prop := ImageOk {
  im_start : 0 ≤ img_begin img;
  im_size : img_begin img + 64 ≤ img_end img;
  im_kernel b : img_begin img ≤ b < img_end img → in_kernel sy b;
  im_magic : e_magic (read_header m (img_begin img)) = ELF_MAGIC;
  im_headers : img_begin img + e_phoff (read_header m (img_begin img)) +
    sizeof_elf_program * e_phnum (read_header m (img_begin img)) ≤ img_end img;
  im_segments : Forall (λ ph, p_type ph = ELF_PTYPE_LOAD → segment_ok img pid ph) (image_headers m img);
  im_apart : segments_apart (image_headers m img)
}.

(** The bytes of a segment are in place: those of the file, then zeros. *)
Definition segment_loaded (m0 m : mem) (img : ramimage) (ph : elf_program) : Prop :=
  p_type ph = ELF_PTYPE_LOAD → ∀ k, 0 ≤ k < p_memsz ph →
  rd m (p_va ph + k) = if decide (k < p_filesz ph) then rd m0 (img_begin img + p_offset ph + k) else 0.

Definition image_loaded (m0 m : mem) (img : ramimage) : Prop :=
  Forall (segment_loaded m0 m img) (image_headers m0 img).

(** The descriptor of a process that is ready to run an image. *)
Definition ready_proc (sy : symbols) (m0 : mem) (img : ramimage) (pid : Z) : proc :=
  Proc pid
    (set_reg_rsp (region_end pid) (set_reg_rip (e_entry (read_header m0 (img_begin img)))
       (p_registers (process_init zero_proc 0))))
    P_RUNNABLE (kernel_pagetables sy).

(** ** Memory that agrees on a range *)

Definition agree (P : Z → Prop) (m m' : mem) : Prop := ∀ b, P b → rd m' b = rd m b.

Lemma agree_ldn P m m' n a :
  agree P m m' → (∀ b, a ≤ b < a + Z.of_nat n → P b) → ldn n m' a = ldn n m a.
Proof. intros H HP. apply ldn_ext. intros b Hb. by apply H, HP. Qed.

Lemma agree_trans (P : Z → Prop) m1 m2 m3 : agree P m1 m2 → agree P m2 m3 → agree P m1 m3.
Proof. intros H1 H2 b Hb. by rewrite H2, H1. Qed.

Lemma agree_weaken (P P' : Z → Prop) m m' : agree P m m' → (∀ b, P' b → P b) → agree P' m m'.
Proof. intros H HP b Hb. by apply H, HP. Qed.

Lemma read_header_agree P m m' a :
  agree P m m' → (∀ b, a ≤ b < a + 64 → P b) → read_header m' a = read_header m a.
Proof. intros H HP. unfold read_header. f_equal; (eapply agree_ldn; [exact H|]; intros b Hb; apply HP; lia). Qed.

Lemma read_program_agree P m m' a :
  agree P m m' → (∀ b, a ≤ b < a + sizeof_elf_program → P b) → read_program m' a = read_program m a.
Proof.
  unfold sizeof_elf_program. intros H HP.
  unfold read_program. f_equal; (eapply agree_ldn; [exact H|]; intros b Hb; apply HP; lia).
Qed.

Section start.
Context {D : Type} `{PortBus D} (cfg : config) (Hcfg : config_ok cfg).
Context (NF : Prop) (HH : halt → machine D → Prop).
Abbreviation sy := (syms cfg).
Abbreviation kp := (kernel_pagetables (syms cfg)).
Abbreviation WP := (wp NF HH).
Implicit Types (s : machine D) (m : mem) (pid pn : Z).

(** ** Loading a program *)

(** [s] with other page tables, process memory and page owners. *)
Definition with_pages m (pis : list physical_pageinfo) s : machine D :=
set_pageinfo pis (set_memory m s).

Lemma with_pages_id s : with_pages (memory s) (pageinfo s) s = s.
Proof. by destruct s. Qed.

(** Stores outside the kernel. *)
Lemma agree_tables m m' : agree (λ b, ¬ in_tables sy b) m m' → agree (in_kernel sy) m m'.
Proof. intros Ha. eapply agree_weaken; [exact Ha|]. by intros b [_ ?]. Qed.

(** Pages owned by [pid] after the pages that [f] selects were given to it. *)
Definition owned (f : Z → bool) pid (pis pis' : list physical_pageinfo) : Prop :=
zlen pis' = NPAGES ∧
∀ pn, zget pis' pn = if f pn then Some (PageInfo pid 1) else zget pis pn.

Definition page_between (lo hi pn : Z) : bool := (lo <=? pn * PAGESIZE) && (pn * PAGESIZE <? hi).

Lemma wp_alloc_segment fuel p pid addr end_mem (Q : bool → machine D → Prop) s :
p_pid p = pid → p_pagetable p = kp → 1 ≤ pid < NPROC →
addr mod PAGESIZE = 0 → 0 ≤ addr → end_mem ≤ MEMSIZE_PHYSICAL →
kernel_tables sy (memory s) → zlen (pageinfo s) = NPAGES →
(∀ pn, page_between addr end_mem pn = true → zget (pageinfo s) pn = Some (PageInfo PO_FREE 0)) →
(0 < fuel)%nat → end_mem - addr ≤ PAGESIZE * (Z.of_nat fuel - 1) →
(∀ m' pis', kernel_tables sy m' → agree (λ b, ¬ in_tables sy b) (memory s) m' →
   owned (page_between addr end_mem) pid (pageinfo s) pis' → Q true (with_pages m' pis' s)) →
WP (alloc_segment fuel p addr end_mem) Q s.
Proof.
intros Hpid Hpt Hpr. revert addr s. induction fuel as [|fuel IH]; intros addr s Hal H0 Hend Hkt Hlen Hfree Hf0 Hf HQ; [lia|].
cbn [alloc_segment]. change MEMSIZE_PHYSICAL with 0x200000 in *. change PAGESIZE with 4096 in Hf.
destruct (Z.ltb_spec addr end_mem).
2:{ apply wp_ret. rewrite <- (with_pages_id s). apply HQ; [done|by intros ?|]. split; [done|]. intros pn.
    destruct (page_between addr end_mem pn) eqn:E; [|done]. unfold page_between in E. lia. }
pose proof (Z.div_mod addr PAGESIZE) as Hdm. change PAGESIZE with 4096 in *.
assert (zget (pageinfo s) (addr / 4096) = Some (PageInfo PO_FREE 0)) as Hpg.
{ apply Hfree. unfold page_between. change PAGESIZE with 4096. lia. }
apply wp_bind, wp_assign_page; [done|lia|lia| |].
{ intros Hno. exfalso. by apply (Hno _ Hal ltac:(change MEMSIZE_PHYSICAL with 0x200000; lia) Hpg). }
intros pi _ _ Hpi _. rewrite Hpid, Hpt. change (0 <? 0) with false. cbv iota.
apply wp_bind, wp_bind, wp_map_identity;
  [done|done|change PAGESIZE with 4096; done|change MEMSIZE_PHYSICAL with 0x200000; lia|].
intros m1 Hkt1 Hfr1. apply wp_ret. change (negb (0 <? 0)) with true. cbv iota.
rewrite wrapU_small by (change PAGESIZE with 4096; lia). change PAGESIZE with 4096.
pose proof (zget_range _ _ _ Hpi) as Hr. change PAGESIZE with 4096 in Hr.
set (pis1 := zset (pageinfo s) (addr / PAGESIZE) (PageInfo pid 1)).
assert (∀ pn, zget pis1 pn = if decide (addr / 4096 = pn) then Some (PageInfo pid 1) else zget (pageinfo s) pn) as Hz.
{ intros pn. unfold pis1. apply zget_zset. done. }
apply (IH (addr + 4096)); [|lia|lia|exact Hkt1| | |lia|change PAGESIZE with 4096; lia|].
- rewrite <- (Z.mul_1_l 4096) at 1. by rewrite Z.mod_add.
- change (pageinfo _) with pis1. unfold pis1, zlen in *. by rewrite length_zset.
- intros pn Hpn. change (pageinfo _) with pis1. rewrite Hz. unfold page_between in *. change PAGESIZE with 4096 in *.
  case_decide; [lia|]. apply Hfree. lia.
- intros m' pis' Hkt' Hfr' Hown. change (owned (page_between (addr + 4096) end_mem) pid pis1 pis') in Hown.
  destruct Hown as [Hl' Ho]. apply (HQ m' pis'); [done|by eapply agree_trans|].
  split; [done|]. intros pn. rewrite Ho, Hz.
  unfold page_between. change PAGESIZE with 4096.
  destruct (decide (addr / 4096 = pn)) as [<-|].
  + replace ((addr + 4096 <=? addr / 4096 * 4096) && (addr / 4096 * 4096 <? end_mem)) with false by lia.
    by replace ((addr <=? addr / 4096 * 4096) && (addr / 4096 * 4096 <? end_mem)) with true by lia.
  + by replace ((addr + 4096 <=? pn * 4096) && (pn * 4096 <? end_mem))
      with ((addr <=? pn * 4096) && (pn * 4096 <? end_mem)) by lia.
Qed.

(** The state after a load: page tables, memory, owners and %cr3. *)
Definition after_load m pis s : machine D := set_cpu (set_cr3 kp (cpu s)) (with_pages m pis s).

(** What loading a segment writes. *)
Definition in_segment ph (b : Z) : Prop := p_va ph ≤ b < p_va ph + p_memsz ph.

Lemma tables_below b : in_tables sy b → 0 ≤ b < 0x80000.
Proof.
destruct Hcfg as [[_ Hst He Hs _ _] _]. unfold in_tables. change KERNEL_STACK_TOP with 0x80000 in Hs.
change KERNEL_START_ADDR with 0x40000 in Hst. change PAGESIZE with 4096 in *. lia.
Qed.

Lemma region_bounds pid : 1 ≤ pid ≤ 4 →
0x100000 ≤ region_start pid ∧ region_end pid = region_start pid + 0x40000 ∧ region_end pid ≤ 0x200000.
Proof.
intros. unfold region_start, region_end. change PROC_START_ADDR with 0x100000. change PROC_SIZE with 0x40000. lia.
Qed.

(** Where an image lies. *)
Definition image_range (img : ramimage) : Prop :=
0 ≤ img_begin img ∧ img_begin img + 64 ≤ img_end img ∧
∀ b, img_begin img ≤ b < img_end img → in_kernel sy b.

Lemma wp_load_segment pid p ph img (Q : Z → machine D → Prop) s :
zget (processes s) pid = Some p → p_pid p = pid → p_pagetable p = kp → 1 ≤ pid ≤ 4 →
p_type ph = ELF_PTYPE_LOAD → segment_ok img pid ph → image_range img →
kernel_tables sy (memory s) → zlen (pageinfo s) = NPAGES →
(∀ pn, segment_page ph pn = true → zget (pageinfo s) pn = Some (PageInfo PO_FREE 0)) →
(∀ m' pis', kernel_tables sy m' →
   agree (λ b, ¬ in_tables sy b ∧ ¬ in_segment ph b) (memory s) m' →
   segment_loaded (memory s) m' img ph →
   owned (segment_page ph) pid (pageinfo s) pis' → Q 0 (after_load m' pis' s)) →
WP (program_load_segment cfg pid ph (u64 (img_begin img + p_offset ph))) Q s.
Proof.
intros Hp Hpid Hpt Hpr Hty [Hal Hs He Hf Ho Hi] (Hb & Hsz & Hker) Hkt Hlen Hfree HQ.
destruct (region_bounds pid Hpr) as (Hr1 & Hr2 & Hr3). 
assert (img_end img ≤ 0x100000) as Hie by (destruct (Hker (img_end img - 1)); [lia|change PROC_START_ADDR with 0x100000 in *; lia]).
pose proof (Z.div_mod (p_va ph) PAGESIZE) as Hdm. change PAGESIZE with 4096 in *.
unfold program_load_segment. apply wp_bind. eapply wp_eq; [by apply proc_at_some|].
change PAGESIZE with 4096.
rewrite (wrapU_small 64 (p_va ph + p_filesz ph)), (wrapU_small 64 (p_va ph + p_memsz ph)) by lia.
replace (Z.land (p_va ph) (u64 (Z.lnot (4096 - 1)))) with (p_va ph).
2:{ change (u64 (Z.lnot (4096 - 1))) with (2 ^ 64 - 2 ^ 12). rewrite land_clear by lia.
    change (2 ^ 12) with 4096. lia. }
assert (∀ pn, segment_page ph pn = page_between (p_va ph) (p_va ph + p_memsz ph) pn) as Hsp.
{ intros pn. unfold segment_page, page_between. by rewrite Hty, Z.eqb_refl. }
apply wp_bind. eapply (wp_alloc_segment _ p pid);
  [done|done|change NPROC with 16; lia|done|lia|change MEMSIZE_PHYSICAL with 0x200000; lia|done|done| |lia|..].
- intros pn Hpn. apply Hfree. by rewrite Hsp.
- change PAGESIZE with 4096. pose proof (Z.div_mod (p_memsz ph) 4096). pose proof (Z.mod_pos_bound (p_memsz ph) 4096).
  replace (p_va ph + p_memsz ph - p_va ph) with (p_memsz ph) by lia.
  pose proof (Z.div_pos (p_memsz ph) 4096). lia.
- intros m1 pis1 Hkt1 Hfr1 Hown1. cbn [negb]. rewrite Hpt.
  apply wp_bind, wp_load_tables; [done|done|]. apply wp_bind, wp_modify, wp_bind, wp_modify.
  apply wp_bind.
  set (n := u64 (p_va ph + p_filesz ph - p_va ph)).
  assert (n = p_filesz ph) as Hn by (unfold n; rewrite wrapU_small; lia).
  assert (u64 (p_va ph + p_memsz ph - (p_va ph + p_filesz ph)) = p_memsz ph - p_filesz ph) as Hn2
    by (rewrite wrapU_small; lia).
  rewrite Hn2, Hn, (wrapU_small 64 (img_begin img + p_offset ph)) by lia.
  set (src := img_begin img + p_offset ph) in *.
  set (m2 := (memcpy m1 (p_va ph) src (p_filesz ph)).1).
  set (m3 := (memset m2 (p_va ph + p_filesz ph) 0 (p_memsz ph - p_filesz ph)).1).
  assert (∀ b, rd m3 b = if decide (p_va ph + p_filesz ph ≤ b < p_va ph + p_memsz ph) then 0
     else if decide (p_va ph ≤ b < p_va ph + p_filesz ph) then rd m1 (src + (b - p_va ph)) else rd m1 b) as Hm3.
  { intros b. unfold m3, m2. rewrite memset_rd by lia. change (u8 0) with 0.
    replace (p_va ph + p_filesz ph + (p_memsz ph - p_filesz ph)) with (p_va ph + p_memsz ph) by lia.
    case_decide; [done|]. apply memcpy_copied; lia. }
  assert (kernel_tables sy m3) as Hkt3.
  { eapply kernel_tables_frame; [|exact Hkt1]. intros b Hin%tables_below.
    rewrite Hm3. by rewrite !decide_False by lia. }
  apply wp_load_tables; [done|exact Hkt3|]. apply wp_ret.
  apply (HQ m3 pis1); [done| | |].
  + intros b [Hnt Hns]. unfold in_segment in Hns. rewrite Hm3, !decide_False by lia. by apply Hfr1.
  + intros _ k Hk. rewrite Hm3. destruct (decide (k < p_filesz ph)); [|by rewrite decide_True by lia].
    rewrite decide_False, decide_True by lia. replace (src + (p_va ph + k - p_va ph)) with (src + k) by lia.
    apply Hfr1. apply Hker. lia.
  + destruct Hown1 as [Hl1 Ho1]. split; [done|]. intros pn. by rewrite Ho1, Hsp.
Qed.

Definition in_segments phs (b : Z) : Prop :=
Exists (λ ph, p_type ph = ELF_PTYPE_LOAD ∧ in_segment ph b) phs.

Lemma in_segment_page img pid ph b :
p_type ph = ELF_PTYPE_LOAD → segment_ok img pid ph → in_segment ph b → segment_page ph (b / PAGESIZE) = true.
Proof.
intros Hty [Hal _ _ _ _ _] Hb. unfold in_segment in Hb. unfold segment_page. rewrite Hty, Z.eqb_refl.
pose proof (Z.div_mod (p_va ph) PAGESIZE). pose proof (Z.div_mod b PAGESIZE). pose proof (Z.mod_pos_bound b PAGESIZE).
change PAGESIZE with 4096 in *. lia.
Qed.

Lemma in_segments_page img pid phs b :
Forall (λ ph, p_type ph = ELF_PTYPE_LOAD → segment_ok img pid ph) phs →
in_segments phs b → segments_page phs (b / PAGESIZE) = true.
Proof.
intros Hall (ph & Hin & Hty & Hb)%list.Exists_exists. unfold segments_page. apply existsb_exists.
exists ph. split; [by apply list_elem_of_In|]. rewrite list.Forall_forall in Hall.
by eapply in_segment_page; [|apply Hall|].
Qed.

(** A loaded segment stays loaded when other segments are written. *)
Lemma segment_loaded_agree m0 m m' img pid ph phs :
1 ≤ pid ≤ 4 → (p_type ph = ELF_PTYPE_LOAD → segment_ok img pid ph) →
(∀ pn, segment_page ph pn = true → segments_page phs pn = false) →
Forall (λ ph, p_type ph = ELF_PTYPE_LOAD → segment_ok img pid ph) phs →
agree (λ b, ¬ in_tables sy b ∧ ¬ in_segments phs b) m m' →
segment_loaded m0 m img ph → segment_loaded m0 m' img ph.
Proof.
intros Hpr Hok Hap Hall Ha Hld Hty k Hk. rewrite <- (Hld Hty k Hk). apply Ha.
specialize (Hok Hty). pose proof Hok as [_ Hs _ _ _ _]. destruct (region_bounds pid Hpr) as (Hr1 & _). split.
- intros Hin%tables_below. lia.
- intros Hin%(in_segments_page img pid); [|done]. rewrite Hap in Hin; [done|].
  eapply in_segment_page; [done|done|]. unfold in_segment. lia.
Qed.

Lemma wp_load_segments pid p img m0 n ph (Q : Z → machine D → Prop) s :
zget (processes s) pid = Some p → p_pid p = pid → p_pagetable p = kp → 1 ≤ pid ≤ 4 →
image_range img → img_begin img ≤ ph → ph + sizeof_elf_program * Z.of_nat n ≤ img_end img →
Forall (λ ph, p_type ph = ELF_PTYPE_LOAD → segment_ok img pid ph) (headers n m0 ph) →
segments_apart (headers n m0 ph) →
agree (in_kernel sy) m0 (memory s) → kernel_tables sy (memory s) → zlen (pageinfo s) = NPAGES →
(∀ pn, segments_page (headers n m0 ph) pn = true → zget (pageinfo s) pn = Some (PageInfo PO_FREE 0)) →
(∀ m' pis' c, kernel_tables sy m' →
   agree (λ b, ¬ in_tables sy b ∧ ¬ in_segments (headers n m0 ph) b) (memory s) m' →
   Forall (segment_loaded m0 m' img) (headers n m0 ph) →
   owned (segments_page (headers n m0 ph)) pid (pageinfo s) pis' → Q 0 (set_cpu c (with_pages m' pis' s))) →
WP (load_segments cfg n pid (img_begin img) ph) Q s.
Proof.
intros Hp Hpid Hpt Hpr Himg. pose proof Himg as (Hb & _ & Hker). unfold sizeof_elf_program.
revert ph s Hp. induction n as [|n IH]; intros ph s Hp Hlo Hhi Hok Hap Hag Hkt Hlen Hfree HQ;
  cbn [load_segments headers] in *.
{ apply wp_ret. rewrite <- (with_pages_id s).
  replace (with_pages _ _ s) with (set_cpu (cpu s) (with_pages (memory s) (pageinfo s) s)) by by destruct s.
  apply HQ; [done|by intros ?|constructor|by split]. }
apply wp_bind, wp_get. rewrite (read_program_agree _ _ _ _ Hag).
2:{ unfold sizeof_elf_program. intros b Hbb. apply Hker. lia. }
set (h := read_program m0 ph) in *. set (phs := headers n m0 (ph + sizeof_elf_program)) in *.
apply list.Forall_cons in Hok as [Hok1 Hok]. destruct Hap as [Hap1 Hap].
apply wp_bind. destruct (Z.eqb_spec (p_type h) ELF_PTYPE_LOAD) as [Hty|Hty].
- apply (wp_load_segment pid p h img); [done|done|done|done|done|by apply Hok1|done|done|done| |].
  { intros pn Hpn. apply Hfree. cbn [segments_page existsb]. by rewrite Hpn. }
  intros m1 pis1 Hkt1 Hag1 Hld1 [Hl1 Ho1]. change (0 <? 0) with false. cbv iota.
  change (ph + sizeof_elf_program) with (ph + 56) in *.
  assert (agree (in_kernel sy) (memory s) m1) as Hagk.
  { eapply agree_weaken; [exact Hag1|]. intros b [Hb1 Hb2]. split; [done|]. unfold in_segment.
    destruct (Hok1 Hty) as [_ Hs _ _ _ _]. destruct (region_bounds pid Hpr) as (Hr1 & _).
    change PROC_START_ADDR with 0x100000 in Hb1. lia. }
  apply IH; [done|lia|lia|done|done|by eapply agree_trans|done|done| |].
  + intros pn Hpn. change (zget pis1 pn = Some (PageInfo PO_FREE 0)). rewrite Ho1.
    destruct (segment_page h pn) eqn:E; [by rewrite Hap1 in Hpn|].
    apply Hfree. cbn [segments_page existsb]. rewrite E. exact Hpn.
  + intros m2 pis2 c Hkt2 Hag2 Hld2 Hown2. change (owned (segments_page phs) pid pis1 pis2) in Hown2.
    destruct Hown2 as [Hl2 Ho2].
    apply (HQ m2 pis2 c); [done| | |].
    * intros b [Hnt Hns]. rewrite Hag2, Hag1; [done| |].
      -- split; [done|]. intros Hin. apply Hns. left. done.
      -- split; [done|]. intros Hin. apply Hns. by right.
    * constructor; [|done]. eapply segment_loaded_agree; [done|done|done|done|exact Hag2|].
      intros _ k Hk. etrans; [exact (Hld1 Hty k Hk)|]. case_decide; [|done]. apply Hag, Hker.
      destruct (Hok1 Hty) as [_ _ _ Hf Ho Hi]. lia.
    * split; [done|]. intros pn. rewrite Ho2, Ho1. cbn [segments_page existsb].
      by destruct (segment_page h pn), (segments_page phs pn) eqn:E2; unfold segments_page in E2; rewrite ?E2.
- apply wp_ret. change (0 <? 0) with false. cbv iota.
  assert (∀ pn, segment_page h pn = false) as Hno.
  { intros pn. unfold segment_page. by destruct (Z.eqb_spec (p_type h) ELF_PTYPE_LOAD). }
  change (ph + sizeof_elf_program) with (ph + 56) in *.
  apply IH; [done|lia|lia|done|done|done|done|done| |].
  + intros pn Hpn. apply Hfree. cbn [segments_page existsb]. by rewrite Hno.
  + intros m2 pis2 c Hkt2 Hag2 Hld2 [Hl2 Ho2]. apply (HQ m2 pis2 c); [done| | |].
    * intros b [Hnt Hns]. apply Hag2. split; [done|]. intros Hin. apply Hns. by right.
    * constructor; [by intros ?|done].
    * split; [done|]. intros pn. rewrite Ho2. cbn [segments_page existsb]. by rewrite Hno.
Qed.

Context (ramimages : list ramimage).

Lemma image_ok_range m0 img pid : image_ok sy m0 img pid → image_range img.
Proof. intros []. by split_and!. Qed.

(** Assigning members of one descriptor after the other. *)
Lemma zset_zset {A} (l : list A) i x y : zset (zset l i x) i y = zset l i y.
Proof. unfold zset. case_decide; [|done]. apply list_insert_insert_eq. Qed.

(** The segments' pages are pages of the region below the stack. *)
Lemma segments_page_region img pid phs pn :
1 ≤ pid ≤ 4 → Forall (λ ph, p_type ph = ELF_PTYPE_LOAD → segment_ok img pid ph) phs →
segments_page phs pn = true → region_start pid ≤ pn * PAGESIZE ∧ pn * PAGESIZE < region_end pid - PAGESIZE.
Proof.
intros Hpr Hall (ph & Hin & Hpg)%existsb_exists. apply list_elem_of_In in Hin.
rewrite list.Forall_forall in Hall. unfold segment_page in Hpg.
destruct (Z.eqb_spec (p_type ph) ELF_PTYPE_LOAD) as [Hty|]; [|done].
destruct (Hall ph Hin Hty) as [_ Hs He _ _ _]. lia.
Qed.

Lemma wp_program_load pid p img prog m0 (Q : Z → machine D → Prop) s :
zget (processes s) pid = Some p → p_pid p = pid → p_pagetable p = kp → 1 ≤ pid ≤ 4 →
zget ramimages prog = Some img → image_ok sy m0 img pid →
agree (in_kernel sy) m0 (memory s) → kernel_tables sy (memory s) → zlen (pageinfo s) = NPAGES →
(∀ pn, segments_page (image_headers m0 img) pn = true → zget (pageinfo s) pn = Some (PageInfo PO_FREE 0)) →
(∀ m' pis' c, kernel_tables sy m' →
   agree (λ b, ¬ in_tables sy b ∧ ¬ in_segments (image_headers m0 img) b) (memory s) m' →
   image_loaded m0 m' img →
   owned (segments_page (image_headers m0 img)) pid (pageinfo s) pis' →
   Q 0 (set_processes (zset (processes s) pid
          (set_p_registers (set_reg_rip (e_entry (read_header m0 (img_begin img))) (p_registers p)) p))
        (set_cpu c (with_pages m' pis' s)))) →
WP (program_load cfg ramimages pid prog) Q s.
Proof.
intros Hp Hpid Hpt Hpr Himg Hok Hag Hkt Hlen Hfree HQ. pose proof (image_ok_range _ _ _ Hok) as Hr.
pose proof Hr as (Hb & Hsz & Hker). pose proof (zget_range _ _ _ Himg) as Hprog. unfold zlen in Hprog.
assert (∀ m', agree (in_kernel sy) m0 m' → read_header m' (img_begin img) = read_header m0 (img_begin img)) as Hhd.
{ intros m' Ha. eapply read_header_agree; [exact Ha|]. intros b Hbb. apply Hker. lia. }
unfold program_load. apply wp_bind, wp_massert; [lia|]. apply wp_bind.
eapply wp_liftR; [unfold aref; by rewrite Himg|]. apply wp_bind, wp_get, wp_bind.
rewrite Hhd by done. apply wp_massert; [rewrite (im_magic _ _ _ _ Hok); apply Z.eqb_refl|].
pose proof (im_headers _ _ _ _ Hok) as Hhs. pose proof (ldn_range 8 m0 (img_begin img + 0x20)).
change (ldn 8 m0 (img_begin img + 0x20)) with (e_phoff (read_header m0 (img_begin img))) in *.
pose proof (ldn_range 2 m0 (img_begin img + 0x38)).
change (ldn 2 m0 (img_begin img + 0x38)) with (e_phnum (read_header m0 (img_begin img))) in *.
unfold sizeof_elf_program in Hhs.
assert (img_end img ≤ 0x100000) as Hie by (destruct (Hker (img_end img - 1)); [lia|change PROC_START_ADDR with 0x100000 in *; lia]).
rewrite (wrapU_small 64) by lia.
apply wp_bind. apply (wp_load_segments pid p img m0); try done; [lia|unfold sizeof_elf_program; lia|apply Hok|apply Hok|].
intros m' pis' c Hkt' Hag' Hld Hown. change (0 <? 0) with false. cbv iota. apply wp_bind, wp_get.
rewrite Hhd.
2:{ eapply agree_trans; [exact Hag|]. eapply agree_weaken; [exact Hag'|]. intros b [Hb1 Hb2]. split; [done|].
    intros (ph & Hin & Hty & Hbs)%list.Exists_exists. pose proof (im_segments _ _ _ _ Hok) as Hall.
    rewrite list.Forall_forall in Hall. destruct (Hall ph Hin Hty) as [_ Hs _ _ _ _].
    destruct (region_bounds pid Hpr) as (Hr1 & _). unfold in_segment in Hbs.
    change PROC_START_ADDR with 0x100000 in Hb1. lia. }
apply wp_bind. eapply wp_set_proc; [exact Hp|]. apply wp_ret. by apply HQ.
Qed.

(** ** Setting up a process *)

Abbreviation kpn := (PAGENUMBER (kernel_pagetables (syms cfg))).

(** The owners after a process was given its pages and the kernel's page table. *)
Definition set_up_pages phs pid s (pis' : list physical_pageinfo) : Prop :=
owned (process_page phs pid) pid
  (zset (pageinfo s) kpn (PageInfo PO_KERNEL (2 + count_kernel_users cfg (processes s)))) pis'.

(** The state after [process_setup]. *)
Definition set_up pid (p : proc) m' pis' c s : machine D :=
set_processes (zset (processes s) pid p) (set_cpu c (with_pages m' pis' s)).

Lemma count_users_ready s pid p p' :
zget (processes s) pid = Some p → p_state p = P_FREE → p_state p' = P_RUNNABLE → p_pagetable p' = kp →
count_kernel_users cfg (zset (processes s) pid p') = 1 + count_kernel_users cfg (processes s).
Proof.
intros Hp Hf Hr Hk. unfold count_kernel_users, kernel_pagetable.
pose proof (filter_insert (λ p, p_state p ≠ P_FREE ∧ p_pagetable p = kp) (processes s) pid p p' Hp) as E.
rewrite decide_False in E by (intros [Hn _]; done). rewrite decide_True in E by (rewrite Hr; done). lia.
Qed.

Lemma count_users_small ps : zlen ps = NPROC → count_kernel_users cfg ps ≤ 16.
Proof.
intros Hl. unfold count_kernel_users.
pose proof (length_filter (λ p, p_state p ≠ P_FREE ∧ p_pagetable p = kernel_pagetable sy) ps).
unfold zlen in Hl. change NPROC with 16 in Hl. lia.
Qed.

(** The invariant holds again once the process is runnable. *)
Lemma kernel_inv_set_up pid p p' phs m' pis' c s :
kernel_inv cfg s → zget (processes s) pid = Some p → p_state p = P_FREE → 1 ≤ pid < NPROC →
p_pid p' = pid → p_state p' = P_RUNNABLE → p_pagetable p' = kp →
(∀ pn, process_page phs pid pn = true → zget (pageinfo s) pn = Some (PageInfo PO_FREE 0)) →
kernel_tables sy m' → set_up_pages phs pid s pis' →
kernel_inv cfg (set_up pid p' m' pis' c s).
Proof.
intros I Hp Hf Hpr Hpid Hrun Hpt Hfree Hkt [Hl Ho].
pose proof (count_users_nonneg cfg (processes s)). pose proof (zget_range _ _ _ Hp) as Hr.
assert (∀ j q, zget (zset (processes s) pid p') j = Some q →
  (j = pid ∧ q = p') ∨ (j ≠ pid ∧ zget (processes s) j = Some q)) as Hget.
{ intros j q. rewrite zget_zset by done. case_decide; [intros [= <-]; by left|by right]. }
assert (∀ j, 0 ≤ j ≤ 4 → process_page phs pid (PAGENUMBER (kpage sy j)) = false) as Hnk.
{ intros j Hj. destruct (process_page phs pid _) eqn:E; [|done]. apply Hfree in E.
  rewrite (inv_ktables _ _ I j Hj) in E. by destruct (decide (j = 0)); injection E. }
pose proof (inv_ktables _ _ I 0 ltac:(lia)) as Hk0. rewrite decide_True, kpage0 in Hk0 by done.
pose proof (zget_range _ _ _ Hk0) as Hkr.
split; cbn [set_up with_pages memory processes pageinfo showing set_processes set_cpu set_pageinfo set_memory].
- destruct (inv_ui _ _ I). by split.
- done.
- pose proof (inv_nproc _ _ I). unfold zlen in *. by rewrite length_zset.
- intros i q [[-> ->]|[Hne Hq]]%Hget; [|by apply I]. split; [done|]. intros _. split; [lia|done].
- done.
- intros pn pi. rewrite Ho. destruct (process_page phs pid pn).
  + intros [= <-]. cbn. change PO_KERNEL with (-2). split_and!; [lia|lia|lia|]. intros _ _. exists p'.
    rewrite zget_zset_eq by done. split; [done|]. unfold active. by rewrite Hrun.
  + rewrite zget_zset by done. case_decide as E.
    { intros [= <-]. cbn. change PO_KERNEL with (-2). split_and!; lia. }
    intros Hpi. destruct (inv_page _ _ I pn pi Hpi) as (Hop & Hrc & Hown). split_and!; [lia|lia|done|].
    intros Hx1 Hx2. destruct (Hown Hx1 Hx2) as (q & Hq & Hqa). rewrite zget_zset by done.
    case_decide as E2; [|by exists q]. exfalso. apply Hqa. rewrite <- E2 in Hq. congruence.
- intros j Hj. rewrite Ho, Hnk by done. rewrite zget_zset by done.
  rewrite (count_users_ready s pid p p') by done.
  destruct (decide (j = 0)) as [->|Hne].
  + rewrite kpage0, decide_True by done. do 2 f_equal. lia.
  + pose proof (inv_ktables _ _ I j Hj) as Hkj. rewrite decide_False in Hkj by done.
    case_decide as E; [|done]. exfalso. apply Hne.
    destruct Hcfg as [Hsy _]. destruct (kpage_ok sy (kp_aligned _ Hsy) (kp_pos _ Hsy) (kp_mem _ Hsy) j Hj) as [Hal Hrj].
    pose proof (kp_aligned _ Hsy) as Ha0. pose proof (kp_pos _ Hsy). pose proof (kp_mem _ Hsy).
    unfold kpage in *. change PAGESIZE with 4096 in *. change MEMSIZE_PHYSICAL with 0x200000 in *.
    rewrite !PAGENUMBER_ok in E by lia. change PAGESIZE with 4096 in E.
    pose proof (Z.div_mod kp 4096). pose proof (Z.div_mod (kp + 4096 * j) 4096). lia.
- apply I.
Qed.

Lemma wp_process_setup pid p img prog m0 (Q : unit → machine D → Prop) s :
kernel_inv cfg s → zget (processes s) pid = Some p → p_state p = P_FREE → 1 ≤ pid ≤ 4 →
zget ramimages prog = Some img → image_ok sy m0 img pid → agree (in_kernel sy) m0 (memory s) →
(∀ pn, region_start pid ≤ pn * PAGESIZE < region_end pid → zget (pageinfo s) pn = Some (PageInfo PO_FREE 0)) →
(∀ m' pis' c,
   let s' := set_up pid (ready_proc sy m0 img pid) m' pis' c s in
   kernel_inv cfg s' → agree (λ b, ¬ in_tables sy b ∧ ¬ in_region pid b) (memory s) m' →
   image_loaded m0 m' img → set_up_pages (image_headers m0 img) pid s pis' → Q tt s') →
WP (process_setup cfg ramimages pid prog) Q s.
Proof.
intros I Hp Hst Hpr Himg Hok Hag Hfree HQ.
destruct (region_bounds pid Hpr) as (Hr1 & Hr2 & Hr3).
destruct (inv_proc _ _ I _ _ Hp) as [Hpid _]. pose proof (zget_range _ _ _ Hp) as Hr.
destruct p as [pid' regs0 st pt0]. cbn in Hpid, Hst. subst pid' st.
set (phs := image_headers m0 img) in *.
assert (∀ pn, process_page phs pid pn = true → zget (pageinfo s) pn = Some (PageInfo PO_FREE 0)) as Hfree'.
{ intros pn [Hs|Hs]%orb_true_iff; apply Hfree.
  - apply (segments_page_region img pid) in Hs; [|done|apply Hok]. change PAGESIZE with 4096 in *. lia.
  - change PAGESIZE with 4096 in *. lia. }
unfold process_setup. apply wp_bind. eapply wp_set_proc; [exact Hp|].
apply wp_bind. eapply wp_set_proc; [by apply zget_zset_eq|].
cbn [processes set_processes]. rewrite zset_zset.
pose proof (inv_ktables _ _ I 0 ltac:(lia)) as Hk0. rewrite decide_True, kpage0 in Hk0 by done.
pose proof (zget_range _ _ _ Hk0) as Hkr.
pose proof (count_users_nonneg cfg (processes s)). pose proof (count_users_small _ (inv_nproc _ _ I)).
apply wp_bind. eapply wp_eq; [apply page_at_some; exact Hk0|].
apply wp_bind, wp_modify. cbn [owner refcount].
rewrite (wrapS_small 8) by lia.
set (pis0 := zset (pageinfo s) kpn (PageInfo PO_KERNEL (1 + count_kernel_users cfg (processes s) + 1))).
set (p2 := Proc pid (p_registers (process_init zero_proc 0)) P_FREE kp).
assert (∀ pn, process_page phs pid pn = true → zget pis0 pn = Some (PageInfo PO_FREE 0)) as Hfree0.
{ intros pn Hpn. unfold pis0. rewrite zget_zset by done. case_decide as E; [|by apply Hfree'].
  apply Hfree' in Hpn. rewrite <- E, Hk0 in Hpn. injection Hpn. intros. lia. }
apply wp_bind. eapply (wp_program_load pid p2 img prog m0); [by apply zget_zset_eq|done|done|done|done|done|done|apply I| | |].
{ cbn. pose proof (inv_npages _ _ I). unfold pis0, zlen in *. by rewrite length_zset. }
{ intros pn Hpn. apply Hfree0. unfold process_page. fold phs in Hpn. by rewrite Hpn. }
intros m1 pis1 c1 Hkt1 Hag1 Hld1 Hown1. cbn [processes set_processes set_pageinfo]. rewrite zset_zset.
change (owned (segments_page phs) pid pis0 pis1) in Hown1. destruct Hown1 as [Hl1 Ho1].
apply wp_bind, wp_massert; [done|]. apply wp_bind. eapply wp_set_proc; [by apply zget_zset_eq|].
cbn [processes set_processes set_pageinfo]. rewrite zset_zset. apply wp_bind.
eapply wp_eq; [apply proc_at_some; by apply zget_zset_eq|].
change (PROC_START_ADDR + PROC_SIZE * pid) with (region_end pid).
cbn [p_registers set_p_registers p_pagetable p2 set_p_pagetable].
match goal with |- context [reg_rsp (set_reg_rsp ?a ?r)] => change (reg_rsp (set_reg_rsp a r)) with a end.
set (stack := region_end pid - PAGESIZE).
assert (stack mod PAGESIZE = 0 ∧ region_start pid ≤ stack ∧ stack < 0x200000) as (Hsa & Hsl & Hsh).
{ unfold stack, region_start, region_end. change PROC_START_ADDR with (256 * 4096). change PROC_SIZE with (64 * 4096).
  change PAGESIZE with 4096. split_and!; [|lia|lia].
  replace (256 * 4096 + 64 * 4096 * pid - 4096) with ((255 + 64 * pid) * 4096) by lia. apply Z.mod_mul. lia. }
rewrite (wrapU_small 64 stack) by lia.
pose proof (Z.div_mod stack PAGESIZE) as Hdm. change PAGESIZE with 4096 in Hdm.
assert (stack = stack / PAGESIZE * PAGESIZE) as Hsd by (change PAGESIZE with 4096 in *; lia).
assert (process_page phs pid (stack / PAGESIZE) = true) as Hps.
{ unfold process_page. fold stack. rewrite <- Hsd, Z.eqb_refl. apply orb_true_r. }
assert (segments_page phs (stack / PAGESIZE) = false) as Hss.
{ destruct (segments_page phs _) eqn:E; [|done]. apply (segments_page_region img pid) in E; [|done|apply Hok].
  fold stack in E. lia. }
assert (zget pis1 (stack / PAGESIZE) = Some (PageInfo PO_FREE 0)) as Hpg by (rewrite Ho1, Hss; by apply Hfree0).
apply wp_bind, wp_assign_page; [exact Hl1|lia|change NPROC with 16; lia| |].
{ intros Hno. exfalso. by apply (Hno _ Hsa Hsh Hpg). }
intros pi _ _ _ _. set (pis2 := zset pis1 (stack / PAGESIZE) (PageInfo pid 1)).
apply wp_bind, wp_map_identity; [done|exact Hkt1|done|change MEMSIZE_PHYSICAL with 0x200000; lia|].
intros m2 Hkt2 Hag2. eapply wp_set_proc; [by apply zget_zset_eq|]. cbn [processes set_processes set_memory set_pageinfo]. rewrite zset_zset.
assert (set_up_pages phs pid s pis2) as Hown.
{ split; [unfold pis2, zlen in *; by rewrite length_zset|]. intros pn.
  pose proof (zget_range _ _ _ Hpg) as Hsr. unfold pis2. rewrite zget_zset by done.
  replace (2 + _) with (1 + count_kernel_users cfg (processes s) + 1) by lia. fold pis0.
  destruct (decide (stack / PAGESIZE = pn)) as [<-|Hne]; [by rewrite Hps|]. rewrite Ho1.
  replace (process_page phs pid pn) with (segments_page phs pn); [done|]. unfold process_page. fold stack.
  destruct (Z.eqb_spec (pn * PAGESIZE) stack) as [E|]; [|by rewrite orb_false_r].
  exfalso. apply Hne. rewrite <- E. by apply Z.div_mul. }
pose proof (im_segments _ _ _ _ Hok) as Hall. fold phs in Hall.
apply (HQ m2 pis2 c1); [| | |done].
- eapply (kernel_inv_set_up pid _ _ phs); try done. change NPROC with 16. lia.
- intros b [Hnt Hnr]. etrans; [by apply Hag2|]. apply Hag1. split; [done|].
  intros (ph & Hin & Hty & Hb)%list.Exists_exists. rewrite list.Forall_forall in Hall.
  destruct (Hall ph Hin Hty) as [_ Hs He _ _ _]. apply Hnr. unfold in_region, in_segment in *.
  change PAGESIZE with 4096 in *. lia.
- unfold image_loaded in *. fold phs in Hld1 |- *. rewrite list.Forall_forall in Hld1, Hall |- *.
  intros ph Hin. apply (segment_loaded_agree m0 m1 m2 img pid ph []); [done|by apply Hall|done|constructor| |by apply Hld1].
  intros b [Hnt _]. by apply Hag2.
Qed.

(** ** Setting up several processes *)

(** The pages of a process that was loaded, within its region. *)
Definition region_pages m0 (img : ramimage) pid s : Prop :=
∀ pn, region_start pid ≤ pn * PAGESIZE < region_end pid →
  zget (pageinfo s) pn =
  Some (if process_page (image_headers m0 img) pid pn then PageInfo pid 1 else PageInfo PO_FREE 0).

(** The processes of [l] are ready to run their images, the others free. *)
Record booted m0 (l : list (Z * ramimage)) s : Prop := Booted {
bo_inv : kernel_inv cfg s;
bo_memory : agree (in_kernel sy) m0 (memory s);
bo_ok pid img : (pid, img) ∈ l → 1 ≤ pid ≤ 4 ∧ image_ok sy m0 img pid;
bo_ready pid img : (pid, img) ∈ l → zget (processes s) pid = Some (ready_proc sy m0 img pid);
bo_loaded pid img : (pid, img) ∈ l → image_loaded m0 (memory s) img;
bo_pages pid img : (pid, img) ∈ l → region_pages m0 img pid s;
bo_free pid p : zget (processes s) pid = Some p → pid ∉ l.*1 → p_state p = P_FREE;
bo_unused pid pn : 1 ≤ pid ≤ 4 → pid ∉ l.*1 → region_start pid ≤ pn * PAGESIZE < region_end pid →
  zget (pageinfo s) pn = Some (PageInfo PO_FREE 0)
}.

Lemma regions_apart pid pid' b : in_region pid b → in_region pid' b → pid = pid'.
Proof.
unfold in_region, region_start, region_end. change PROC_START_ADDR with 0x100000. change PROC_SIZE with 0x40000. lia.
Qed.

Lemma image_loaded_agree m0 m m' img pid :
1 ≤ pid ≤ 4 → image_ok sy m0 img pid → agree (in_region pid) m m' →
image_loaded m0 m img → image_loaded m0 m' img.
Proof.
intros Hpr Hok Ha Hl. pose proof (im_segments _ _ _ _ Hok) as Hall. unfold image_loaded in *.
rewrite list.Forall_forall in Hl, Hall |- *. intros ph Hin Hty k Hk. rewrite <- (Hl ph Hin Hty k Hk).
apply Ha. destruct (Hall ph Hin Hty) as [_ Hs He _ _ _]. unfold in_region. change PAGESIZE with 4096 in He. lia.
Qed.

Lemma process_page_region m0 img pid pn :
1 ≤ pid ≤ 4 → image_ok sy m0 img pid → process_page (image_headers m0 img) pid pn = true →
in_region pid (pn * PAGESIZE).
Proof.
intros Hpr Hok. destruct (region_bounds pid Hpr) as (_ & Hr & _). unfold in_region.
intros [Hs|Hs]%orb_true_iff; change PAGESIZE with 4096 in *; [|lia].
apply (segments_page_region img pid) in Hs; [|done|apply Hok]. change PAGESIZE with 4096 in *. lia.
Qed.

Lemma kpn_range : 0 ≤ kpn ∧ kpn * PAGESIZE < PROC_START_ADDR.
Proof.
destruct Hcfg as [Hsy _]. pose proof (kp_pos _ Hsy). pose proof (end_stack _ Hsy). pose proof (kp_end _ Hsy).
change KERNEL_STACK_TOP with 0x80000 in *. change PROC_START_ADDR with 0x100000.
change PAGESIZE with 4096 in *. rewrite PAGENUMBER_ok by lia. change PAGESIZE with 4096.
pose proof (Z.div_mod kp 4096). pose proof (Z.mod_pos_bound kp 4096). pose proof (Z.div_pos kp 4096). lia.
Qed.

(** The pages of another region are not touched by [process_setup]. *)
Lemma set_up_other_pages m0 img pid pid' s pis' pn :
1 ≤ pid ≤ 4 → 1 ≤ pid' → pid' ≠ pid → image_ok sy m0 img pid →
set_up_pages (image_headers m0 img) pid s pis' → in_region pid' (pn * PAGESIZE) →
zget pis' pn = zget (pageinfo s) pn.
Proof.
intros Hpr Hpr' Hne Hok [_ Ho] Hreg. rewrite Ho.
destruct (process_page _ pid pn) eqn:E.
- exfalso. apply Hne. eapply regions_apart; [exact Hreg|by eapply process_page_region].
- destruct kpn_range as [Hk0 Hk]. apply zget_zset_ne. intros <-.
  unfold in_region, region_start in Hreg. change PROC_START_ADDR with 0x100000 in *. change PROC_SIZE with 0x40000 in *. lia.
Qed.

Lemma wp_process_setup_booted m0 l pid img prog (Q : unit → machine D → Prop) s :
booted m0 l s → 1 ≤ pid ≤ 4 → pid ∉ l.*1 → zget ramimages prog = Some img → image_ok sy m0 img pid →
(∀ s', booted m0 ((pid, img) :: l) s' → Q tt s') → WP (process_setup cfg ramimages pid prog) Q s.
Proof.
intros B Hpr Hnew Himg Hok HQ. pose proof (bo_inv _ _ _ B) as I.
destruct (inv_proc_at cfg s pid I) as (p & Hp & _); [change NPROC with 16; lia|].
eapply (wp_process_setup pid p img prog m0); [exact I|exact Hp|by eapply bo_free|done..|apply B| |].
{ intros pn. by eapply bo_unused. }
intros m' pis' c s' I' Hag Hld Hpg. apply HQ. pose proof (zget_range _ _ _ Hp) as Hr.
assert (∀ pid' img', (pid', img') ∈ l → pid' ≠ pid) as Hne.
{ intros pid' img' Hin ->. apply Hnew, list_elem_of_fmap. by exists (pid, img'). }
split; [done|..].
- eapply agree_trans; [apply B|]. eapply agree_weaken; [exact Hag|]. intros b [Hb1 Hb2]. split; [done|].
  unfold in_region. destruct (region_bounds pid Hpr) as (? & _). change PROC_START_ADDR with 0x100000 in Hb1. lia.
- intros pid' img' [[= -> ->]|Hin]%elem_of_cons; [done|by eapply bo_ok].
- intros pid' img' [[= -> ->]|Hin]%elem_of_cons; [by apply zget_zset_eq|].
  etrans; [apply zget_zset_ne; symmetry; by eapply Hne|by eapply bo_ready].
- intros pid' img' [[= -> ->]|Hin]%elem_of_cons; [done|]. destruct (bo_ok _ _ _ B _ _ Hin) as [Hpr' Hok'].
  eapply image_loaded_agree; [exact Hpr'|done| |by eapply bo_loaded]. intros b Hb. apply Hag. split.
  + intros Hin'%tables_below. destruct (region_bounds pid' Hpr') as (? & _). unfold in_region in Hb. lia.
  + intros Hb'. eapply Hne; [exact Hin|]. by eapply regions_apart.
- intros pid' img' [[= -> ->]|Hin]%elem_of_cons pn Hpn.
  + change (zget pis' pn = Some (if process_page (image_headers m0 img) pid pn then PageInfo pid 1 else PageInfo PO_FREE 0)).
    destruct Hpg as [_ Ho]. rewrite Ho. destruct (process_page _ pid pn); [done|].
    destruct kpn_range as [Hk0 Hk]. rewrite zget_zset_ne; [by eapply bo_unused|]. intros <-.
    destruct (region_bounds pid Hpr) as (? & _). change PROC_START_ADDR with 0x100000 in *. lia.
  + change (zget pis' pn = Some (if process_page (image_headers m0 img') pid' pn then PageInfo pid' 1 else PageInfo PO_FREE 0)).
    destruct (bo_ok _ _ _ B _ _ Hin) as [Hpr' _].
    rewrite (set_up_other_pages m0 img pid pid' s); [by eapply bo_pages|done|lia|by eapply Hne|done|done|done].
- intros i q Hq Hni. apply not_elem_of_cons in Hni as [Hni1 Hni2].
  change (zget (zset (processes s) pid (ready_proc sy m0 img pid)) i = Some q) in Hq.
  rewrite zget_zset_ne in Hq by done. by eapply bo_free.
- intros i pn Hi Hni Hpn. apply not_elem_of_cons in Hni as [Hni1 Hni2].
  change (zget pis' pn = Some (PageInfo PO_FREE 0)).
  rewrite (set_up_other_pages m0 img pid i s); [by eapply bo_unused|done|lia|done|done|done|done].
Qed.

(** ** Hardware, pages and processes at power-on *)

Lemma segments_init_ok isy s : ∃ c, segments_init sy isy s = Ret tt (set_cpu c s).
Proof. eexists. reflexivity. Qed.

(** Writes to ports change the devices only. *)
Definition writes_ports (f : M D unit) : Prop := ∀ s, ∃ d, f s = Ret tt (set_dev d s).

Lemma writes_outb port v : writes_ports (outb port v).
Proof. intros s. by eexists. Qed.

Lemma writes_bind f g : writes_ports f → writes_ports g → writes_ports (f;; g).
Proof.
intros Hf Hg s. destruct (Hf s) as [d1 E1]. destruct (Hg (set_dev d1 s)) as [d2 E2].
exists d2. unfold mbind, M_bind. by rewrite E1, E2.
Qed.

Lemma writes_mask : writes_ports interrupt_mask.
Proof.
intros s. unfold interrupt_mask, mbind at 1, M_bind at 1, get.
apply (writes_bind _ _ (writes_outb _ _) (writes_outb _ _)).
Qed.

Lemma interrupt_init_ok s : ∃ d, interrupt_init s = Ret tt (set_dev d (set_interrupts_enabled 0 s)).
Proof.
unfold interrupt_init, mbind at 1, M_bind at 1, modify.
repeat (apply writes_bind; [apply writes_mask || apply writes_outb|]). apply writes_mask.
Qed.

Lemma timer_init_ok rate s : ∃ d ie, timer_init rate s = Ret tt (set_dev d (set_interrupts_enabled ie s)).
Proof.
unfold timer_init. destruct (rate >? 0).
- destruct (writes_outb TIMER_MODE (lors [TIMER_SEL0; TIMER_RATEGEN; TIMER_16BIT]) s) as [d1 E1].
  destruct (writes_outb IO_TIMER1 (Z.rem (TIMER_DIV rate) 256) (set_dev d1 s)) as [d2 E2].
  destruct (writes_outb IO_TIMER1 (TIMER_DIV rate ÷ 256) (set_dev d2 s)) as [d3 E3].
  set (ie := u16 (Z.lor (interrupts_enabled s) (Z.shiftl 1 (INT_TIMER - INT_HARDWARE)))).
  destruct (writes_mask (set_interrupts_enabled ie (set_dev d3 s))) as [d4 E4].
  exists d4, ie. unfold mbind, M_bind. rewrite E1. change (set_dev d2 (set_dev d1 s)) with (set_dev d2 s) in E2.
  rewrite E2. change (set_dev d3 (set_dev d2 s)) with (set_dev d3 s) in E3. rewrite E3. exact E4.
- set (ie := u16 (Z.land (interrupts_enabled s) (Z.lnot (Z.shiftl 1 (INT_TIMER - INT_HARDWARE))))).
  destruct (writes_mask (set_interrupts_enabled ie s)) as [d E].
  exists d, ie. exact E.
Qed.

Lemma hardware_init_ok isy s : ∃ d c m',
hardware_init sy isy s = Ret tt (set_memory m' (set_cpu c (set_dev d (set_interrupts_enabled 0 s)))) ∧
kernel_tables sy m' ∧ agree (λ b, ¬ in_tables sy b) (memory s) m'.
Proof.
destruct (segments_init_ok isy s) as [c Hc]. destruct (interrupt_init_ok (set_cpu c s)) as [d Hd].
destruct (virtual_memory_init_tables sy (cfg_symbols _ Hcfg) (memory s)) as (m' & Hv & Hkt & Hfr).
exists d, (set_cr3 kp c), m'. split_and!; [|done|].
- unfold hardware_init, mbind, M_bind. rewrite Hc, Hd. cbn [get memory set_dev set_interrupts_enabled set_cpu].
  unfold get, liftR. cbn [memory set_dev set_interrupts_enabled set_cpu]. by rewrite Hv.
- intros b Hb. apply Hfr. by rewrite in_tree_tables.
Qed.
(** The owner and reference count of each page after [pageinfo_init]. *)
Definition initial_page (end_ pn : Z) : physical_pageinfo :=
let o := initial_owner end_ (PAGESIZE * pn) in PageInfo (i8 o) (c_bool (negb (o =? PO_FREE))).

Lemma pageinfo_loop_get n end_ k pi : zlen pi = NPAGES → 0 ≤ k → k + Z.of_nat n ≤ NPAGES →
zlen (pageinfo_loop n end_ (PAGESIZE * k) pi) = NPAGES ∧
∀ pn, zget (pageinfo_loop n end_ (PAGESIZE * k) pi) pn =
  if decide (k ≤ pn < k + Z.of_nat n) then Some (initial_page end_ pn) else zget pi pn.
Proof.
change NPAGES with 512. revert k pi. induction n as [|n IH]; intros k pi Hl Hk Hn; cbn [pageinfo_loop].
{ split; [done|]. intros pn. by rewrite decide_False by lia. }
change PAGESIZE with 4096 in *. rewrite wrapU_small by lia.
replace (4096 * k + 4096) with (4096 * (k + 1)) by lia.
assert (PAGENUMBER (4096 * k) = k) as ->
  by (rewrite PAGENUMBER_ok by lia; change PAGESIZE with 4096; rewrite Z.mul_comm; by apply Z.div_mul).
set (pi1 := zset pi k _).
destruct (IH (k + 1) pi1) as [Hl' Hget]; [unfold pi1, zlen in *; by rewrite length_zset|lia|lia|].
split; [done|]. intros pn. rewrite Hget. unfold pi1. rewrite zget_zset by (unfold zlen in Hl; lia).
destruct (decide (k = pn)) as [<-|].
- by rewrite decide_False, decide_True by lia.
- case_decide; [by rewrite decide_True by lia|by rewrite decide_False by lia].
Qed.

Lemma initial_page_cases end_ pn : 0 ≤ pn →
initial_page end_ pn = PageInfo PO_FREE 0 ∨
∃ o, (o = PO_RESERVED ∨ o = PO_KERNEL) ∧ initial_page end_ pn = PageInfo o 1.
Proof.
intros Hpn. unfold initial_page, initial_owner.
destruct (physical_memory_isreserved _); [right; exists PO_RESERVED; by split; [left|]|].
destruct (_ || _); [right; exists PO_KERNEL; by split; [right|]|by left].
Qed.

Lemma initial_page_process pn : PROC_START_ADDR ≤ pn * PAGESIZE → initial_page (end_ sy) pn = PageInfo PO_FREE 0.
Proof.
destruct Hcfg as [Hsy _]. pose proof (end_stack _ Hsy). unfold initial_page, initial_owner, physical_memory_isreserved.
change PROC_START_ADDR with 0x100000. change PAGESIZE with 4096 in *. change KERNEL_STACK_TOP with 0x80000 in *.
change IOPHYSMEM with 0xA0000. change EXTPHYSMEM with 0x100000. intros Hpn.
destruct (Z.eqb_spec (4096 * pn) 0); [lia|]. rewrite (proj2 (Z.ltb_ge (4096 * pn) 0x100000)) by lia.
rewrite andb_false_r. cbn [orb]. rewrite (proj2 (Z.ltb_ge (4096 * pn) (end_ sy))) by lia.
rewrite andb_false_r. cbn [orb]. by destruct (Z.eqb_spec (4096 * pn) (0x80000 - 4096)); [lia|].
Qed.

Lemma initial_page_table j : 0 ≤ j ≤ 4 →
0 ≤ PAGENUMBER (kpage sy j) < 512 ∧ initial_page (end_ sy) (PAGENUMBER (kpage sy j)) = PageInfo PO_KERNEL 1.
Proof.
intros Hj. destruct Hcfg as [Hsy _]. pose proof (end_stack _ Hsy). pose proof (kp_end _ Hsy). pose proof (kp_start _ Hsy).
destruct (kpage_ok sy (kp_aligned _ Hsy) (kp_pos _ Hsy) (kp_mem _ Hsy) j Hj) as [Ha Hr].
unfold kpage in *. change MEMSIZE_PHYSICAL with 0x200000 in *. change KERNEL_STACK_TOP with 0x80000 in *.
change KERNEL_START_ADDR with 0x40000 in *. change PAGESIZE with 4096 in *.
rewrite PAGENUMBER_ok by lia. change PAGESIZE with 4096. pose proof (Z.div_mod (kp + 4096 * j) 4096).
split; [lia|]. unfold initial_page, initial_owner, physical_memory_isreserved.
change PAGESIZE with 4096. replace (4096 * ((kp + 4096 * j) / 4096)) with (kp + 4096 * j) by lia.
change IOPHYSMEM with 0xA0000. change KERNEL_START_ADDR with 0x40000.
set (a := kp + 4096 * j) in *.
replace ((a =? 0) || (a >=? 0xA0000) && (a <? EXTPHYSMEM)) with false by lia.
by replace ((a >=? 0x40000) && (a <? end_ sy) || (a =? KERNEL_STACK_TOP - 4096)) with true by lia.
Qed.

(** The machine when [kernel] is called: the boot loader has loaded the kernel
  with its images, and static data have their initial values. *)
Record power_on s : Prop := PowerOn {
po_ui : ui_ok s;
po_pages : zlen (pageinfo s) = NPAGES;
po_showing : 0 ≤ showing s ≤ NPROC
}.

Lemma initial_processes_get i p : zget initial_processes i = Some p → p_pid p = i ∧ p_state p = P_FREE.
Proof.
intros Hp. assert (0 ≤ i < 16) as Hi by exact (zget_range _ _ _ Hp). unfold initial_processes in *.
unfold zget in Hp. rewrite decide_True in Hp by lia.
change (Z.to_nat NPROC) with 16%nat in Hp.
rewrite list_lookup_fmap, lookup_iota, Z2Nat.id, Z.add_0_l in Hp by lia. by injection Hp as <-.
Qed.

Lemma no_users : count_kernel_users cfg initial_processes = 0.
Proof. done. Qed.

(** The state that the processes are set up in. *)
Lemma kernel_inv_initial s m' d c ie con cp :
power_on s → kernel_tables sy m' → zlen con = CONSOLE_SIZE →
agree (λ b, ¬ in_tables sy b) (memory s) m' →
booted (memory s) [] (set_processes initial_processes (set_interrupts_enabled ie (set_dev d
(set_console con (set_cursorpos cp (set_cpu c (set_pageinfo
  (pageinfo_loop (Z.to_nat (MEMSIZE_PHYSICAL / PAGESIZE)) (end_ sy) 0 (pageinfo s)) (set_memory m' s)))))))).
Proof.
intros [Hui Hl Hsh] Hkt Hcon Hag.
destruct (pageinfo_loop_get (Z.to_nat (MEMSIZE_PHYSICAL / PAGESIZE)) (end_ sy) 0 (pageinfo s) Hl) as [Hl' Hget]; [lia|done|].
change (PAGESIZE * 0) with 0 in Hl', Hget. set (pis := pageinfo_loop _ _ _ _) in *.
change (0 + Z.of_nat (Z.to_nat (MEMSIZE_PHYSICAL / PAGESIZE))) with 512 in Hget.
assert (∀ pn, 0 ≤ pn < 512 → zget pis pn = Some (initial_page (end_ sy) pn)) as Hpis
  by (intros pn Hpn; by rewrite Hget, decide_True by lia).
clearbody pis. split; cbn [processes pageinfo memory set_processes set_interrupts_enabled set_dev set_console set_cursorpos set_cpu set_pageinfo set_memory].
2: by apply agree_tables. 2-5: intros pid img []%elem_of_nil.
- split; cbn [processes pageinfo memory showing set_processes set_interrupts_enabled set_dev set_console set_cursorpos set_cpu set_pageinfo set_memory]; [|done|done| |done| |intros j Hj|done].
  + split; [done|apply Hui].
  + intros i p [Hi Hf]%initial_processes_get. split; [done|]. by intros [].
  + intros pn pi Hpi. pose proof (zget_range _ _ _ Hpi) as Hr. change NPAGES with 512 in Hl'. unfold zlen in *.
    rewrite Hpis in Hpi by lia. injection Hpi as <-. change NPROC with 16.
    destruct (initial_page_cases (end_ sy) pn) as [->|(o & Ho & ->)]; [lia| |]; cbn.
    * change PO_FREE with 0. change PO_KERNEL with (-2). split_and!; lia.
    * change PO_RESERVED with (-1) in Ho. change PO_KERNEL with (-2) in *. split_and!; lia.
  + destruct (initial_page_table j Hj) as [Hr E]. rewrite Hpis, E by done. rewrite no_users. by destruct (decide _).
- by intros pid p [_ Hp]%initial_processes_get _.
- intros pid pn Hpid _ Hpn. destruct (region_bounds pid Hpid) as (? & ? & ?).
  change PAGESIZE with 4096 in Hpn. rewrite Hpis by lia. rewrite initial_page_process; [done|].
  change PROC_START_ADDR with 0x100000. change PAGESIZE with 4096. lia.
Qed.

(** ** Setting up the processes *)

(** The processes that [kernel] sets up, with their program numbers. *)
Definition setups (command : option (list Z)) : list (Z * Z) :=
let is_command c := match command with Some s => lex s c =? 0 | None => false end in
if c_true (FORCE_FORK cfg) then [(1, 4)]
else if is_command (str "fork") then [(1, 4)]
else if is_command (str "forkexit") then [(1, 5)]
else [(1, 0); (2, 1); (3, 2); (4, 3)].

(** [l] is a list of processes with their images for the set-up list [todo]. *)
Definition images_for m0 : list (Z * Z) → list (Z * ramimage) → Prop :=
Forall2 (λ st pi, pi.1 = st.1 ∧ zget ramimages st.2 = Some pi.2 ∧ image_ok sy m0 pi.2 st.1).

Definition setup_all : list (Z * Z) → M D unit :=
foldr (λ st k, process_setup cfg ramimages st.1 st.2;; k) (mret tt).

Lemma wp_setup_all m0 todo l ready (Q : unit → machine D → Prop) s :
images_for m0 todo l → booted m0 ready s → Forall (λ st, 1 ≤ st.1 ≤ 4) todo → NoDup (todo.*1 ++ ready.*1) →
(∀ s', booted m0 (rev_append l ready) s' → Q tt s') → WP (setup_all todo) Q s.
Proof.
intros Him. revert ready s. induction Him as [|[pid prog] [pid' img] todo l (Hpid & Himg & Hok) _ IH];
  intros ready s B Hr Hnd HQ; [by apply wp_ret, HQ|]. cbn in Hpid, Himg, Hok. subst pid'.
apply list.Forall_cons in Hr as [Hr1 Hr2]. cbn in Hnd. apply list.NoDup_cons in Hnd as [Hn Hnd].
cbn [setup_all foldr]. apply wp_bind. eapply wp_process_setup_booted; [exact B|done| |done|done|].
{ intros Hin. apply Hn, elem_of_app. by right. }
intros s1 B1. eapply IH; [exact B1|done| |exact HQ].
cbn. by rewrite <- Permutation_middle; constructor.
Qed.

Lemma wp_setups m0 command l (Q : unit → machine D → Prop) s :
images_for m0 (setups command) l → booted m0 [] s → (∀ s', booted m0 (rev_append l []) s' → Q tt s') →
let is_command c := match command with Some s => lex s c =? 0 | None => false end in
WP (if c_true (FORCE_FORK cfg) then process_setup cfg ramimages 1 4
    else if is_command (str "fork") then process_setup cfg ramimages 1 4
    else if is_command (str "forkexit") then process_setup cfg ramimages 1 5
    else for_ 4 1 (λ i, process_setup cfg ramimages i (i - 1))) Q s.
Proof.
intros Him B HQ is_command.
assert (∀ pid prog, images_for m0 [(pid, prog)] l → 1 ≤ pid ≤ 4 → WP (process_setup cfg ramimages pid prog) Q s) as H1.
{ intros pid prog Hl Hr. apply list.Forall2_cons_inv_l in Hl as ([pid' img] & l' & (E & Himg & Hok) & Hl & ->).
  apply list.Forall2_nil_inv_l in Hl as ->. cbn in E, Himg, Hok. subst pid'.
  eapply wp_process_setup_booted; [exact B|done|apply not_elem_of_nil|done|done|done]. }
change (images_for m0 (if c_true (FORCE_FORK cfg) then [(1, 4)] else if is_command (str "fork") then [(1, 4)]
  else if is_command (str "forkexit") then [(1, 5)] else [(1, 0); (2, 1); (3, 2); (4, 3)]) l) in Him.
destruct (c_true _); [by apply H1|]. destruct (is_command (str "fork")); [by apply H1|].
destruct (is_command (str "forkexit")); [by apply H1|].
change (WP (setup_all [(1, 0); (2, 1); (3, 2); (4, 3)]) Q s).
eapply wp_setup_all; [exact Him|exact B|apply (bool_decide_unpack _); by vm_compute| |exact HQ].
apply (bool_decide_unpack _). by vm_compute.
Qed.

(** [kernel] resumes the first process with the others set up. *)
Lemma wp_kernel command l img (Q : unit → machine D → Prop) s :
power_on s → images_for (memory s) (setups command) l → (1, img) ∈ l →
(∀ s', booted (memory s) (rev_append l []) s' →
   HH (Resume (p_registers (ready_proc sy (memory s) img 1))) (dispatched cfg s' 1)) →
WP (kernel cfg ramimages command) Q s.
Proof.
intros Hpo Him Hin HQ. unfold kernel.
destruct (hardware_init_ok (isyms cfg) s) as (d & c & m' & E & Hkt & Hag).
apply wp_bind. eapply wp_eq; [exact E|]. apply wp_bind, wp_modify, wp_bind, wp_modify, wp_bind.
match goal with |- WP _ _ ?st => destruct (timer_init_ok HZ st) as (d2 & ie & E2) end.
eapply wp_eq; [exact E2|]. apply wp_bind, wp_modify, wp_bind.
eapply wp_setups; [exact Him|exact (kernel_inv_initial s m' d2 c ie console_clear.1 console_clear.2 Hpo Hkt eq_refl Hag)|].
intros s1 B. assert ((1, img) ∈ rev_append l []) as Hin'
  by (by rewrite rev_append_rev, app_nil_r, list_elem_of_In, <- in_rev, <- list_elem_of_In).
eapply (wp_run cfg Hcfg _ _ 1 (ready_proc sy (memory s) img 1)); [apply B|by eapply bo_ready|done|by apply HQ].
Qed.
End start.

(** ** An example machine at power-on *)

(** Little-endian fields. *)
Fixpoint le_bytes (n : nat) (v : Z) : list Z :=
  match n with O => [] | S n => v mod 256 :: le_bytes n (v / 256) end.

Definition ex_elf_program (ty off va filesz memsz : Z) : list Z :=
  le_bytes 4 ty ++ le_bytes 4 5 ++ le_bytes 8 off ++ le_bytes 8 va ++ le_bytes 8 va ++
  le_bytes 8 filesz ++ le_bytes 8 memsz ++ le_bytes 8 PAGESIZE.

(** An image for process [pid]: a note and a segment of two pages with four
    bytes of code. *)
Definition ex_elf (pid : Z) : list Z :=
  let va := region_start pid in
  le_bytes 4 ELF_MAGIC ++ replicate 20 0 ++ le_bytes 8 va ++ le_bytes 8 64 ++ replicate 16 0 ++
  le_bytes 2 2 ++ replicate 6 0 ++
  ex_elf_program 4 176 0 4 4 ++ ex_elf_program ELF_PTYPE_LOAD 176 va 4 0x1800 ++ [0x90; 0x90; 0xCD; 0x30].

Definition ex_image (pid : Z) : ramimage :=
  RamImage (0x5E000 + 0x200 * pid) (0x5E000 + 0x200 * pid + 180).
Definition ex_images : list ramimage := ex_image <$> [1; 2; 3; 4].
Definition ex_boot_memory : mem :=
  foldr (λ pid m, wr_list m (img_begin (ex_image pid)) (ex_elf pid)) ∅ [1; 2; 3; 4].
Definition ex_power_on : machine unit :=
  Machine tt ex_boot_memory (replicate 2000 0) 0
    (Cpu [] [] 0 (PseudoDescriptor 0 0) (PseudoDescriptor 0 0) 0 0 0 0)
    0 0 0 0 [] 0 0 (replicate 512 (PageInfo 0 0)) 0 1.

Lemma ex_power_on_ok : power_on ex_power_on.
Proof.
  split; [split|by vm_compute|done]; [by vm_compute|].
  change (kbd_ok (0, 0)). split; cbn; [lia|by left].
Qed.

#[local] Ltac ex_pids Hin :=
  rewrite !elem_of_cons in Hin; destruct Hin as [->|[->|[->|[->|[]%elem_of_nil]]]]; vm_compute; done.

Lemma ex_headers pid : pid ∈ [1; 2; 3; 4] → image_headers ex_boot_memory (ex_image pid) =
  [ElfProgram 4 5 176 0 0 4 4 4096; ElfProgram ELF_PTYPE_LOAD 5 176 (region_start pid) (region_start pid) 4 0x1800 4096].
Proof. intros Hin. ex_pids Hin. Qed.

Lemma ex_image_ok pid : pid ∈ [1; 2; 3; 4] → image_ok ex_symbols ex_boot_memory (ex_image pid) pid.
Proof.
  intros Hin. assert (1 ≤ pid ≤ 4) as Hpid
    by (rewrite !elem_of_cons in Hin; destruct Hin as [->|[->|[->|[->|[]%elem_of_nil]]]]; lia).
  split; cbn [img_begin img_end ex_image]; [lia|lia| |..].
  - intros b Hb. unfold in_kernel, in_tables. change (kernel_pagetables ex_symbols) with 0x50000.
    change PROC_START_ADDR with 0x100000. change PAGESIZE with 4096. lia.
  - by ex_pids Hin.
  - by ex_pids Hin.
  - rewrite ex_headers by done. constructor; [done|]. constructor; [|constructor]. intros _.
    change (region_start pid) with (0x100000 + 0x40000 * (pid - 1)).
    split; cbn [p_va p_memsz p_filesz p_offset img_begin img_end ex_image]; unfold region_start, region_end;
      change PROC_START_ADDR with 0x100000; change PROC_SIZE with 0x40000; change PAGESIZE with 4096; lia || ex_pids Hin.
  - rewrite ex_headers by done. cbn [segments_apart]. by split_and!.
Qed.

Lemma ex_images_for_memory m : (∀ pid, pid ∈ [1; 2; 3; 4] → image_ok ex_symbols m (ex_image pid) pid) →
  images_for ex_cfg ex_images m (setups ex_cfg None) ((λ i, (i, ex_image i)) <$> [1; 2; 3; 4]).
Proof.
  intros Hok.
  change (Forall2 (λ st pi, pi.1 = st.1 ∧ zget ex_images st.2 = Some pi.2 ∧ image_ok ex_symbols m pi.2 st.1)
    [(1, 0); (2, 1); (3, 2); (4, 3)] [(1, ex_image 1); (2, ex_image 2); (3, ex_image 3); (4, ex_image 4)]).
  repeat (apply list.Forall2_cons; split; [split_and!; [done|done|apply Hok; rewrite !elem_of_cons; cbn; tauto]|]).
  by apply list.Forall2_nil.
Qed.

Lemma ex_images_for : images_for ex_cfg ex_images ex_boot_memory (setups ex_cfg None) ((λ i, (i, ex_image i)) <$> [1; 2; 3; 4]).
Proof. apply ex_images_for_memory, ex_image_ok. Qed.

(** A segment whose address is not page-aligned: the address is rounded down for
    the allocation, and the copy goes to the rounded address, so the bytes at
    [p_va] are not the first ones of the file. *)
Definition ex_segment : elf_program := ElfProgram ELF_PTYPE_LOAD 5 0 0x100010 0x100010 8 8 16.
Definition ex_unaligned : machine unit :=
  set_processes (replicate 16 ex_proc1)
    (ex_machine (wr_list (match virtual_memory_init ex_symbols ∅ with Ok (m, _) => m | Err _ => ∅ end)
                   0x60000 (iota 1 24))).

Lemma program_load_unaligned :
  match program_load_segment ex_cfg 1 ex_segment 0x60000 ex_unaligned with
  | Ret r s' => r = 0 ∧ rd (memory s') <$> iota (p_va ex_segment) 8 = iota 17 8
  | _ => False
  end.
Proof. by vm_compute. Qed.

(** ** The start as a whole *)

Lemma kernel_starts_ok {D : Type} `{PortBus D} cfg ramimages command l img (s : machine D) :
  config_ok cfg → power_on s →
  images_for cfg ramimages (memory s) (setups cfg command) l → (1, img) ∈ l →
  ∃ s', kernel cfg ramimages command s =
      Halt (Resume (p_registers (ready_proc (syms cfg) (memory s) img 1))) s' ∧
    current s' = 1 ∧ in_user cfg s' ∧
    (∀ pid img', (pid, img') ∈ l →
      zget (processes s') pid = Some (ready_proc (syms cfg) (memory s) img' pid) ∧
      image_loaded (memory s) (memory s') img' ∧ region_pages (memory s) img' pid s') ∧
    (∀ pid p, zget (processes s') pid = Some p → pid ∉ l.*1 → p_state p = P_FREE) ∧
    ∀ spin s'', rtc (tame_step cfg spin) s' s'' → in_user cfg s'' ∧
      ∀ pid img' pn, (pid, img') ∈ l → process_page (image_headers (memory s) img') pid pn = true →
        zget (pageinfo s'') pn = Some (PageInfo pid 1).
Proof.
  intros Hcfg Hpo Him Hin.
  set (HH := λ h (s' : machine D), h = Resume (p_registers (ready_proc (syms cfg) (memory s) img 1)) ∧
    ∃ s1, booted cfg (memory s) (rev_append l []) s1 ∧ s' = dispatched cfg s1 1).
  assert (wp False HH (kernel cfg ramimages command) (λ _ _, False) s) as Hwp.
  { eapply wp_kernel; [done|done|exact Him|exact Hin|]. intros s1 B. by split; [|exists s1]. }
  apply wp_must_halt in Hwp as (h & s' & E & -> & s1 & B & ->). exists (dispatched cfg s1 1).
  assert (∀ x, x ∈ rev_append l [] ↔ x ∈ l) as Hl.
  { intros x. by rewrite rev_append_rev, app_nil_r, !list_elem_of_In, <- in_rev. }
  assert (in_user cfg (dispatched cfg s1 1)) as Hu.
  { split; [apply kernel_inv_dispatched, B|]. split; [done|]. exists (ready_proc (syms cfg) (memory s) img 1).
    split; [|done]. eapply (bo_ready _ _ _ _ B), Hl, Hin. }
  split; [exact E|]. split; [done|]. split; [exact Hu|]. split; [|split].
  - intros pid img' Hp%Hl. split; [by eapply (bo_ready _ _ _ _ B)|]. split; [by eapply (bo_loaded _ _ _ _ B)|].
    by eapply (bo_pages _ _ _ _ B).
  - intros pid p Hp Hni. eapply (bo_free _ _ _ _ B); [exact Hp|].
    intros (x & -> & Hx%Hl)%list_elem_of_fmap. apply Hni, list_elem_of_fmap. by exists x.
  - intros spin s'' Hsteps. destruct (steps_keep_pages cfg Hcfg spin _ _ Hu Hsteps) as [Hu' Hpg].
    split; [done|]. intros pid img' pn Hp%Hl Hpn. apply Hpg; [|done].
    destruct (bo_ok _ _ _ _ B _ _ Hp) as [Hpr Hok].
    pose proof (process_page_region cfg _ _ _ _ Hpr Hok Hpn) as Hr. unfold in_region in Hr.
    pose proof (bo_pages _ _ _ _ B _ _ Hp pn Hr) as Hg. by rewrite Hpn in Hg.
Qed.

(** ** Properties *)

(** C3. The kernel starts.  From power-on, with the images of the programs in
    kernel memory, [kernel] fails no assertion and always reaches user mode, in
    process 1 at the entry point of its program with its stack pointer at the end
    of its address range.  At that point the kernel invariant holds; each process
    set up for the boot command is ready at its own entry point, with the bytes
    of its segments in memory and zeros behind them, and owns exactly the pages
    of its segments and its stack page in its range; the other processes are free.
    From there the invariant holds and no process loses one of its pages for as long
    as user code does not store into the kernel's own memory, which at this commit
    nothing but good behaviour prevents ([tame_step]). *)
Theorem kernel_starts {D : Type} `{PortBus D} cfg ramimages command l img (s : machine D) :
  config_ok cfg → power_on s →
  images_for cfg ramimages (memory s) (setups cfg command) l → (1, img) ∈ l →
  ∃ s', kernel cfg ramimages command s =
      Halt (Resume (p_registers (ready_proc (syms cfg) (memory s) img 1))) s' ∧
    current s' = 1 ∧ in_user cfg s' ∧
    (∀ pid img', (pid, img') ∈ l →
      zget (processes s') pid = Some (ready_proc (syms cfg) (memory s) img' pid) ∧
      image_loaded (memory s) (memory s') img' ∧ region_pages (memory s) img' pid s') ∧
    (∀ pid p, zget (processes s') pid = Some p → pid ∉ l.*1 → p_state p = P_FREE) ∧
    ∀ spin s'', rtc (tame_step cfg spin) s' s'' → in_user cfg s'' ∧
      ∀ pid img' pn, (pid, img') ∈ l → process_page (image_headers (memory s) img') pid pn = true →
        zget (pageinfo s'') pn = Some (PageInfo pid 1).
Proof. apply kernel_starts_ok. Qed.

Lemma kernel_starts_witness :
  ∃ s', kernel ex_cfg ex_images None ex_power_on =
      Halt (Resume (p_registers (ready_proc ex_symbols ex_boot_memory (ex_image 1) 1))) s' ∧
    current s' = 1 ∧ in_user ex_cfg s' ∧
    (∀ pid img', (pid, img') ∈ (λ i, (i, ex_image i)) <$> [1; 2; 3; 4] →
      zget (processes s') pid = Some (ready_proc ex_symbols ex_boot_memory img' pid) ∧
      image_loaded ex_boot_memory (memory s') img' ∧ region_pages ex_boot_memory img' pid s') ∧
    (∀ pid p, zget (processes s') pid = Some p → pid ∉ ((λ i, (i, ex_image i)) <$> [1; 2; 3; 4]).*1 → p_state p = P_FREE) ∧
    ∀ spin s'', rtc (tame_step ex_cfg spin) s' s'' → in_user ex_cfg s'' ∧
      ∀ pid img' pn, (pid, img') ∈ (λ i, (i, ex_image i)) <$> [1; 2; 3; 4] →
        process_page (image_headers ex_boot_memory img') pid pn = true →
        zget (pageinfo s'') pn = Some (PageInfo pid 1).
Proof.
  apply (kernel_starts ex_cfg ex_images None ((λ i, (i, ex_image i)) <$> [1; 2; 3; 4]) (ex_image 1) ex_power_on).
  - apply ex_cfg_ok.
  - apply ex_power_on_ok.
  - apply ex_images_for.
  - apply elem_of_cons. by left.
Defined.
