(* ===== verification/Process.v ===== *)
(** * User processes

    Models src/modules/m3/process.h (the system calls), process.c (printing and
    failing) and p-allocator.c.  A process sees the kernel through [Os]: what an
    [int] instruction, a store and the passing of time may do; [OsLaws] states
    what the allocator relies on, and the last section derives it from the
    kernel of Kernel.v.  The processes that fork are in Fork.v. *)
From stdpp Require Import base tactics numbers list gmap relations.
From Stdlib Require Import ZArith Lia.
From S2P Require Import Prelude Mem LibStr Printf VM KTables Machine Hardware Keyboard Wp Pages Loader Kernel KernelInv KernelSafe.

(** ** Printing *)

(** @src modules/m3/process.c 11-11 col *)
Definition col : list Z := [0x0E; 0x0F; 0x0C; 0x0A; 0x09].

(** @src modules/m3/process.c 6-22 app_printf
    On the shared console and [cursorpos]. *)
Definition app_printf (console : list Z) (cursorpos colorid : Z) (fmt : list Z) (va : list varg) :
    res (list Z * Z) :=
  color ← (if colorid <? 0 then Ok 0x0700
           else c ← of_option UB (zget col (u64 colorid mod 5)); Ok (Z.shiftl c 8));
  '(console, cursorpos) ← console_vprintf console cursorpos color fmt va;
  Ok (console, if CROW cursorpos >=? 23 then CPOS 0 0 else cursorpos).

(** @src modules/m3/process.c 31-38 panic
    The message in [buf]; the copies from the literals are their bytes. *)
Definition panic_message (m : mem) (buf : Z) (fmt : list Z) (va : list varg) : res mem :=
  let m := wr_list m buf (str "PANIC: ") in
  '(m, n) ← vsnprintf m (buf + 7) (160 - 7) fmt va;
  let len := i32 (n + 7) in
  Ok (if (len >? 0) && negb (i8 (rd m (buf + (len - 1))) =? 10)
      then wr_list m (buf + len - c_bool (len =? 160 - 1)) [10; 0] else m).

(** @src modules/m3/process.c 28-42 panic
    The console when INT_SYS_PANIC is raised; its [%s] prints the C string. *)
Definition panic (console : list Z) (m : mem) (buf : Z) (fmt : list Z) (va : list varg) :
    res (list Z * mem) :=
  m ← panic_message m buf fmt va;
  '(console, _) ← console_printf console (CPOS 23 0) 0xC000 (str "%s") [VStr (read_cstr 160 m buf)];
  Ok (console, m).

(** @src modules/m3/process.c 44-50 assert_fail *)
Definition assert_fail (console file msg : list Z) (line : Z) : res (list Z) :=
  '(console, _) ← console_printf console (CPOS 23 0) 0xC000
    (str "PANIC: %s:%d: assertion '%s' failed" ++ [10]) [VStr file; VWord line; VStr msg];
  Ok console.

(** ** The panic message *)

(** What [panic] leaves in its buffer for the formatted text [l]: the prefix and
    at most 152 characters, ended by a newline, for which the last character
    gives way when there is no room. *)
Definition panic_text (l : list Z) : list Z :=
  let t := str "PANIC: " ++ take 152 l in
  if i8 (u8 (default 0 (list.last t))) =? 10 then t
  else take 158 t ++ [10].

(** A buffer that holds a text and its NUL, in a memory that is otherwise [m]. *)
Definition holds (m m' : mem) (buf : Z) (t : list Z) : Prop :=
  (∀ i c, t !! i = Some c → rd m' (buf + Z.of_nat i) = u8 c) ∧ rd m' (buf + zlen t) = 0 ∧
  ∀ b, ¬ (buf ≤ b < buf + 160) → rd m' b = rd m b.

Lemma panic_vsnprintf m buf fmt va l : output fmt va = Ok l →
  ∃ m' n, vsnprintf (wr_list m buf (str "PANIC: ")) (buf + 7) 153 fmt va = Ok (m', n) ∧
    7 + n = zlen (str "PANIC: " ++ take 152 l) ∧ 7 ≤ 7 + n ≤ 159 ∧
    holds m m' buf (str "PANIC: " ++ take 152 l).
Proof.
  intros Hl. destruct (snprintf_ok (wr_list m buf (str "PANIC: ")) (buf + 7) 153 fmt va l Hl ltac:(lia))
    as (m' & n & E & Hn & Hin & H0 & Hout).
  assert (7 + n = zlen (str "PANIC: " ++ take 152 l)) as Hlen
    by (unfold zlen in *; rewrite length_app, length_take; change (length (str "PANIC: ")) with 7%nat; lia).
  exists m', n. split; [exact E|]. split; [exact Hlen|]. split; [unfold zlen in *; lia|]. split_and!.
  - intros i c Hi. rewrite lookup_app in Hi. destruct (str "PANIC: " !! i) as [c'|] eqn:Hp.
    + injection Hi as ->. pose proof (lookup_lt_Some _ _ _ Hp) as Hlt. change (length (str "PANIC: ")) with 7%nat in Hlt.
      rewrite Hout, rd_wr_list, decide_True by (change (length (str "PANIC: ")) with 7%nat; lia).
      f_equal. replace (Z.to_nat (buf + Z.of_nat i - buf)) with i by lia. by rewrite Hp.
    + apply lookup_ge_None in Hp. change (length (str "PANIC: ")) with 7%nat in *.
      pose proof (lookup_lt_Some _ _ _ Hi) as Hlt. rewrite length_take in Hlt.
      rewrite lookup_take_lt in Hi by lia.
      replace (buf + Z.of_nat i) with (buf + 7 + Z.of_nat (i - 7)) by lia.
      rewrite Hin by (unfold zlen in *; lia). rewrite Nat2Z.id, Hi. done.
  - rewrite <- Hlen, Z.add_assoc. exact H0.
  - intros b Hb. rewrite Hout by (unfold zlen in *; lia). rewrite rd_wr_list, decide_False; [done|].
    change (length (str "PANIC: ")) with 7%nat. lia.
Qed.

(** A panicking process stays in its buffer.  For a well-typed format, the
    message of [panic] is built without overrunning the 160 bytes of [buf]: it is
    the prefix and the formatted text, cut to fit, always with a newline at the
    end and a NUL after it, and no other byte of memory changes. *)
Theorem panic_buffer m buf fmt va l :
  output fmt va = Ok l →
  ∃ m', panic_message m buf fmt va = Ok m' ∧ holds m m' buf (panic_text l) ∧ zlen (panic_text l) ≤ 159.
Proof.
  intros Hl. destruct (panic_vsnprintf m buf fmt va l Hl) as (m' & n & E & Hlen & Hn & Hin & H0 & Hout).
  unfold panic_message, panic_text. change (160 - 7) with 153. rewrite E. cbn [mbind res_bind].
  set (t := str "PANIC: " ++ take 152 l) in *. rewrite Z.add_comm, wrapS_small by lia.
  assert (rd m' (buf + (7 + n - 1)) = u8 (default 0 (list.last t))) as ->.
  { rewrite last_lookup. destruct (t !! pred (length t)) as [c|] eqn:Hc.
    - replace (buf + (7 + n - 1)) with (buf + Z.of_nat (pred (length t))) by (unfold zlen in Hlen; lia).
      by apply Hin.
    - apply lookup_ge_None in Hc. unfold zlen in Hlen. lia. }
  destruct (Z.gtb_spec (7 + n) 0) as [_|]; [|lia]. cbn [andb].
  destruct (i8 (u8 (default 0 (list.last t))) =? 10); cbn [negb]; eexists; (split; [reflexivity|]).
  { split; [by split_and!|lia]. }
  assert (zlen (take 158 t) = 7 + n - c_bool (7 + n =? 159)) as Htake.
  { unfold zlen in *. rewrite length_take. destruct (Z.eqb_spec (7 + n) 159); cbn [c_bool]; lia. }
  change (160 - 1) with 159. rewrite <- (Z.add_sub_assoc buf (7 + n)), <- Htake.
  assert (zlen (take 158 t ++ [10]) = zlen (take 158 t) + 1) as Hz
    by (unfold zlen; rewrite length_app; cbn; lia).
  rewrite Hz. split; [|rewrite Htake; destruct (Z.eqb_spec (7 + n) 159); cbn [c_bool]; lia]. split_and!.
  - intros i c Hi. rewrite rd_wr_list. cbn [length]. apply lookup_snoc_Some in Hi as [[Hlt Hi]|[-> <-]].
    + rewrite decide_False by (unfold zlen; lia). apply Hin. rewrite lookup_take_lt in Hi; [done|].
      rewrite length_take in Hlt. lia.
    + rewrite decide_True by (unfold zlen; lia). f_equal.
      by replace (Z.to_nat _) with 0%nat by (unfold zlen; lia).
  - rewrite Hz, rd_wr_list. cbn [length]. rewrite decide_True by lia.
    by replace (Z.to_nat _) with 1%nat by lia.
  - intros b Hb. rewrite rd_wr_list. cbn [length]. rewrite decide_False; [by apply Hout|].
    unfold zlen in *. rewrite Htake. destruct (Z.eqb_spec (7 + n) 159); cbn [c_bool]; lia.
Qed.

Lemma panic_buffer_witness :
  ∃ m', panic_message ∅ 0x1000 (str "pid %d") [VWord 3] = Ok m' ∧
    holds ∅ m' 0x1000 (str "PANIC: pid 3" ++ [10]).
Proof.
  destruct (panic_buffer ∅ 0x1000 (str "pid %d") [VWord 3] (str "pid 3")) as (m' & E & H & _);
    [by vm_compute|]. exists m'. split; [exact E|exact H].
Defined.

(** ** System calls *)

(** The kernel as a process sees it: [os_int intno rdi k k' rax] is an interrupt
    instruction and its return; [os_store] an 8-bit store; [os_pause] the time
    between two instructions, in which interrupts may run other processes. *)
Class Os (K : Type) := {
  os_int : Z → Z → K → K → Z → Prop;
  os_store : Z → Z → K → K → Prop;
  os_pause : K → K → Prop
}.

Section calls.
Context {K : Type} `{Os K}.

(** @src modules/m3/process.h 17-23 sys_getpid
    The value of %rdi does not matter. *)
Definition sys_getpid (k k' : K) (result : Z) : Prop :=
∃ rdi rax, os_int INT_SYS_GETPID rdi k k' rax ∧ result = i32 rax.

(** @src modules/m3/process.h 28-32 sys_yield *)
Definition sys_yield (k k' : K) : Prop := ∃ rdi rax, os_int INT_SYS_YIELD rdi k k' rax.

(** @src modules/m3/process.h 38-44 sys_page_alloc *)
Definition sys_page_alloc (addr : Z) (k k' : K) (result : Z) : Prop :=
∃ rax, os_int INT_SYS_PAGE_ALLOC addr k k' rax ∧ result = i32 rax.

(** @src modules/m3/process.h 49-55 sys_fork
  As the parent sees it. *)
Definition sys_fork (k k' : K) (result : Z) : Prop :=
∃ rdi rax, os_int INT_SYS_FORK rdi k k' rax ∧ result = i32 rax.

(** @src modules/m3/process.h 59-66 sys_exit
  The kernel's step; the process does not go on. *)
Definition sys_exit (k k' : K) : Prop := ∃ rdi rax, os_int INT_SYS_EXIT rdi k k' rax.

(** @src modules/m3/process.h 70-75 sys_panic
  The kernel's step; the process does not go on. *)
Definition sys_panic (msg : Z) (k k' : K) : Prop := ∃ rax, os_int INT_SYS_PANIC msg k k' rax.

(** ** p-allocator.c *)

(** @src modules/m3/lib.h 85-91 ROUNDDOWN *)
Definition ROUNDDOWN (a n : Z) : Z := u64 (u64 a - u64 a mod n).
Definition ROUNDUP (a n : Z) : Z := ROUNDDOWN (u64 a + n - 1) n.

(** @src modules/m3/p-allocator.c 3-3 ALLOC_SLOWDOWN *)
Definition ALLOC_SLOWDOWN : Z := 100.

(** @src modules/m3/p-allocator.c 8-9 heap_top
    The variables of the process, and which of the two loops it is in. *)
Record allocator := Allocator {
  heap_top : Z;
  stack_bottom : Z;
  random : rand_state;
  full : bool
}.

(** @src modules/m3/p-allocator.c 11-22 process_main
    Up to the first loop; [end_] is the address of [end], [rsp] the stack
    pointer. *)
Inductive process_start (end_ rsp : Z) : K → allocator → K → Z → Prop :=
| start k k' p :
    sys_getpid k k' p →
    process_start end_ rsp k
      (Allocator (ROUNDUP end_ PAGESIZE) (ROUNDDOWN (rsp - 1) PAGESIZE) (srand p) false) k' p.

(** @src modules/m3/p-allocator.c 26-44 process_main
    One iteration of a loop, or a pause in it. *)
Inductive process_step (p : Z) : allocator * K → allocator * K → Prop :=
| step_skip a k k' rs x :
    full a = false → rand (random a) = (rs, x) → ¬ Z.rem x ALLOC_SLOWDOWN < p → sys_yield k k' →
    process_step p (a, k) (Allocator (heap_top a) (stack_bottom a) rs false, k')
| step_stack a k rs x :
    full a = false → rand (random a) = (rs, x) → Z.rem x ALLOC_SLOWDOWN < p →
    heap_top a = stack_bottom a →
    process_step p (a, k) (Allocator (heap_top a) (stack_bottom a) rs true, k)
| step_fail a k k' rs x r :
    full a = false → rand (random a) = (rs, x) → Z.rem x ALLOC_SLOWDOWN < p →
    heap_top a ≠ stack_bottom a → sys_page_alloc (heap_top a) k k' r → r < 0 →
    process_step p (a, k) (Allocator (heap_top a) (stack_bottom a) rs true, k')
| step_page a k k1 k2 k3 rs x r :
    full a = false → rand (random a) = (rs, x) → Z.rem x ALLOC_SLOWDOWN < p →
    heap_top a ≠ stack_bottom a → sys_page_alloc (heap_top a) k k1 r → ¬ r < 0 →
    os_store (heap_top a) (u8 p) k1 k2 → sys_yield k2 k3 →
    process_step p (a, k) (Allocator (u64 (heap_top a + PAGESIZE)) (stack_bottom a) rs false, k3)
| step_full a k k' : full a = true → sys_yield k k' → process_step p (a, k) (a, k')
| step_pause a k k' : os_pause k k' → process_step p (a, k) (a, k').
End calls.

(** ** What the allocator relies on

    [os_owned k a]: in [k] the page at [a] belongs to the process [pid]. *)
Class OsLaws (K : Type) `{Os K} (pid : Z) := {
  os_owned : K → Z → Prop;
  os_pid : 0 < pid < NPROC;
  os_getpid rdi k k' rax : os_int INT_SYS_GETPID rdi k k' rax → rax = pid;
  os_alloc a k k' rax : 0 ≤ a < 2 ^ 64 → os_int INT_SYS_PAGE_ALLOC a k k' rax →
    rax = 2 ^ 64 - 1 ∨ rax = 0 ∧ os_owned k' a;
  os_int_owned n rdi k k' rax a : n ≠ INT_SYS_EXIT →
    os_int n rdi k k' rax → os_owned k a → os_owned k' a;
  os_store_owned b v k k' a : os_store b v k k' → os_owned k a → os_owned k' a;
  os_pause_owned k k' a : os_pause k k' → os_owned k a → os_owned k' a
}.

Lemma ROUNDDOWN_page a : 0 ≤ a < 2 ^ 64 → ROUNDDOWN a PAGESIZE = a - a mod PAGESIZE.
Proof.
  intros Ha. unfold ROUNDDOWN. change PAGESIZE with 4096. rewrite (wrapU_small 64 a) by lia.
  pose proof (Z.mod_pos_bound a 4096). pose proof (Z.mod_le a 4096). by rewrite wrapU_small by lia.
Qed.

Lemma round_mod a : (a - a mod PAGESIZE) mod PAGESIZE = 0.
Proof.
  change PAGESIZE with 4096. pose proof (Z.div_mod a 4096).
  replace (a - a mod 4096) with (a / 4096 * 4096) by lia. by apply Z.mod_mul.
Qed.

(** Page-aligned addresses are a page apart. *)
Lemma aligned_gap a b : a mod PAGESIZE = 0 → b mod PAGESIZE = 0 → a < b → a + PAGESIZE ≤ b.
Proof.
  change PAGESIZE with 4096. intros Ha Hb Hlt. pose proof (Z.div_mod a 4096). pose proof (Z.div_mod b 4096). lia.
Qed.

Lemma aligned_next a : a mod PAGESIZE = 0 → (a + PAGESIZE) mod PAGESIZE = 0.
Proof. intros Ha. by rewrite Z.add_mod, Ha, Z_mod_same_full. Qed.

Section allocator.
Context {K : Type} `{HO : Os K} (pid : Z) `{HL : !OsLaws K pid}.

(** The heap is the pages from [start] to [heap_top], all owned, below the
  stack. *)
Record heap_ok (start bottom : Z) (c : allocator * K) : Prop := HeapOk {
heap_bottom : stack_bottom c.1 = bottom;
heap_range : start ≤ heap_top c.1 ≤ bottom;
heap_aligned : heap_top c.1 mod PAGESIZE = 0;
heap_owned x : start ≤ x < heap_top c.1 → x mod PAGESIZE = 0 → os_owned c.2 x
}.

(** The same heap in a later state of the kernel. *)
Lemma heap_later start bottom a a' k k' :
(∀ x, os_owned k x → os_owned k' x) → heap_top a' = heap_top a → stack_bottom a' = stack_bottom a →
heap_ok start bottom (a, k) → heap_ok start bottom (a', k').
Proof.
intros Hk Ht Hs [Hb Hr Ha Ho]. cbn in *. split; cbn; rewrite ?Ht, ?Hs; [done..|].
intros x Hx Hm. apply Hk. by apply Ho.
Qed.

Lemma sys_yield_owned (k k' : K) x : sys_yield k k' → os_owned k x → os_owned k' x.
Proof. intros (rdi & rax & Hi). by eapply os_int_owned, Hi. Qed.

Lemma sys_page_alloc_owned addr (k k' : K) r x : sys_page_alloc addr k k' r → os_owned k x → os_owned k' x.
Proof. intros (rax & Hi & _). by eapply os_int_owned, Hi. Qed.

Lemma sys_page_alloc_result addr (k k' : K) r :
0 ≤ addr < 2 ^ 64 → sys_page_alloc addr k k' r → r = -1 ∨ r = 0 ∧ os_owned k' addr.
Proof. intros Ha (rax & Hi & ->). destruct (os_alloc _ _ _ _ Ha Hi) as [->|[-> ?]]; [by left|by right]. Qed.

(** Taking the next page. *)
Lemma heap_page start bottom a k k1 k2 rs f r v :
0 ≤ start → bottom mod PAGESIZE = 0 → bottom < 2 ^ 64 → heap_ok start bottom (a, k) →
heap_top a ≠ stack_bottom a → sys_page_alloc (heap_top a) k k1 r → ¬ r < 0 → os_store (heap_top a) v k1 k2 →
heap_ok start bottom (Allocator (u64 (heap_top a + PAGESIZE)) (stack_bottom a) rs f, k2).
Proof.
intros H0 Hbm Hb64 [Hb Hrg Hal Ho] He Ha Hr Hst. cbn in *.
assert (heap_top a < bottom) as Hlt by (rewrite Hb in He; lia).
pose proof (aligned_gap _ _ Hal Hbm Hlt) as Hgap. change PAGESIZE with 4096 in *.
destruct (sys_page_alloc_result (heap_top a) k k1 r) as [->|[-> Hown]]; [lia|done|lia|].
split; cbn; rewrite ?wrapU_small by lia; [done|lia|by apply (aligned_next (heap_top a))|].
intros y Hy' Hym. eapply os_store_owned; [done|].
destruct (decide (y = heap_top a)) as [->|Hne]; [done|].
eapply sys_page_alloc_owned; [done|]. apply Ho; [|done].
destruct (decide (heap_top a < y)) as [Hgt|]; [|lia].
pose proof (aligned_gap (heap_top a) y Hal Hym Hgt). change PAGESIZE with 4096 in *. lia.
Qed.

Lemma heap_ok_step start bottom p c c' :
0 ≤ start → bottom mod PAGESIZE = 0 → bottom < 2 ^ 64 →
process_step p c c' → heap_ok start bottom c → heap_ok start bottom c'.
Proof.
intros H0 Hbm Hb64 Hstep Hc.
destruct Hstep as [a k k' rs x Hf Hx Hp Hy|a k rs x Hf Hx Hp He|a k k' rs x r Hf Hx Hp He Ha Hr
  |a k k1 k2 k3 rs x r Hf Hx Hp He Ha Hr Hst Hy|a k k' Hf Hy|a k k' Hps].
- by eapply heap_later, Hc; [intros ?; apply sys_yield_owned|..].
- by eapply heap_later, Hc.
- by eapply heap_later, Hc; [intros ?; eapply sys_page_alloc_owned|..].
- eapply heap_later; [intros ?; by apply (sys_yield_owned k2)|done..|]. by eapply heap_page.
- by eapply heap_later, Hc; [intros ?; apply sys_yield_owned|..].
- by eapply heap_later, Hc; [intros ?; apply os_pause_owned|..].
Qed.

(** Where the heap starts and the stack ends. *)
Lemma process_start_heap end_ rsp k a k' p :
0 ≤ end_ → end_ + PAGESIZE ≤ rsp < 2 ^ 64 →
ROUNDUP end_ PAGESIZE ≤ ROUNDDOWN (rsp - 1) PAGESIZE → process_start end_ rsp k a k' p →
p = pid ∧ heap_top a = ROUNDUP end_ PAGESIZE ∧ end_ ≤ ROUNDUP end_ PAGESIZE < end_ + PAGESIZE ∧
ROUNDDOWN (rsp - 1) PAGESIZE mod PAGESIZE = 0 ∧ rsp - PAGESIZE ≤ ROUNDDOWN (rsp - 1) PAGESIZE < rsp ∧
heap_ok (ROUNDUP end_ PAGESIZE) (ROUNDDOWN (rsp - 1) PAGESIZE) (a, k').
Proof.
intros He Hr Hfit [k0' k1' p' (rdi & rax & Hi & ->)]. cbn [heap_top stack_bottom].
unfold ROUNDUP in *. rewrite (wrapU_small 64 end_) in * by (change PAGESIZE with 4096 in *; lia).
set (h0 := ROUNDDOWN _ _) in *. set (b0 := ROUNDDOWN (rsp - 1) PAGESIZE) in *.
assert (h0 = end_ + PAGESIZE - 1 - (end_ + PAGESIZE - 1) mod PAGESIZE ∧
  b0 = rsp - 1 - (rsp - 1) mod PAGESIZE) as [Eh Eb]
  by (split; apply ROUNDDOWN_page; change PAGESIZE with 4096 in *; lia).
assert (h0 mod PAGESIZE = 0 ∧ b0 mod PAGESIZE = 0) as [Hhm Hbm]
  by (rewrite Eh, Eb; split; apply round_mod).
pose proof (Z.mod_pos_bound (end_ + PAGESIZE - 1) PAGESIZE). pose proof (Z.mod_pos_bound (rsp - 1) PAGESIZE).
pose proof os_pid as Hpid. change NPROC with 16 in Hpid.
rewrite (os_getpid _ _ _ _ Hi), wrapS_small by lia. change PAGESIZE with 4096 in *.
split_and!; try done; try lia. split; cbn; [done|lia|done|lia].
Qed.

(** C18. The allocator process.  Against any kernel that keeps the contract of its
    system calls: the process learns its own pid; its heap starts at the page
    after its data, grows by whole pages and never passes the bottom of its
    stack, and at every moment every page of the heap belongs to it, so its
    stores only touch pages it was given. *)
Theorem allocator_heap end_ rsp k0 a0 k1 p a k :
0 ≤ end_ → end_ + PAGESIZE ≤ rsp < 2 ^ 64 →
ROUNDUP end_ PAGESIZE ≤ ROUNDDOWN (rsp - 1) PAGESIZE →
process_start end_ rsp k0 a0 k1 p → rtc (process_step p) (a0, k1) (a, k) →
p = pid ∧ end_ ≤ heap_top a0 < end_ + PAGESIZE ∧ stack_bottom a = stack_bottom a0 ∧
rsp - PAGESIZE ≤ stack_bottom a < rsp ∧
heap_top a0 ≤ heap_top a ≤ stack_bottom a ∧ heap_top a mod PAGESIZE = 0 ∧
∀ x, heap_top a0 ≤ x < heap_top a → x mod PAGESIZE = 0 → os_owned k x.
Proof.
intros He Hr Hfit Hstart Hsteps.
destruct (process_start_heap _ _ _ _ _ _ He Hr Hfit Hstart) as (-> & Ht & Hh0 & Hbm & Hb0 & H0).
set (h0 := ROUNDUP end_ PAGESIZE) in *. set (b0 := ROUNDDOWN (rsp - 1) PAGESIZE) in *. rewrite Ht.
assert (∀ c, rtc (process_step pid) (a0, k1) c → heap_ok h0 b0 c) as Hall.
{ intros c Hc. remember (a0, k1) as c0 eqn:E0. clear E0 Hsteps.
  induction Hc as [|c1 c2 c3 H12 _ IH]; [done|]. apply IH.
  eapply heap_ok_step; [| | |done|done]; change PAGESIZE with 4096 in *; [lia|done|lia]. }
destruct (Hall _ Hsteps) as [Hb Hrg Ha Ho]. cbn in *. pose proof (heap_bottom _ _ _ H0) as Hb'. cbn in Hb'.
rewrite Hb, Hb'. split_and!; try done; lia.
Qed.
End allocator.

(** ** The kernel keeps the contract *)
Section kernel_os.
Context {D : Type} `{PortBus D} (cfg : config) (Hcfg : config_ok cfg) (spin : nat).
Context (i : Z) (Hi : 0 < i < NPROC).
Implicit Types (s k : machine D).

(** Process [i] runs in user mode. *)
Definition running k : Prop := in_user cfg k ∧ current k = i.

(** [k'] is where process [i] runs again, after [s] was left by resuming with the
  registers [r]: at once, or when other processes have run. *)
Definition runs_again s (r : x86_64_registers) k' (rax : Z) : Prop :=
(current s = i ∧ k' = s ∧ rax = reg_rax r) ∨
(current s ≠ i ∧ ∃ s2 reg2 r2, rtc (step_without cfg spin i) s s2 ∧ current s2 ≠ i ∧ regs_ok reg2 ∧
   exception cfg spin reg2 s2 = Halt (Resume r2) k' ∧ current k' = i ∧ rax = reg_rax r2).

Definition kernel_int (n rdi : Z) k k' (rax : Z) : Prop :=
running k ∧ ∃ reg r s, regs_ok reg ∧ reg_intno reg = n ∧ reg_rdi reg = rdi ∧
  exception cfg spin reg k = Halt (Resume r) s ∧ runs_again s r k' rax.

#[local] Instance kernel_os : Os (machine D) := {|
  os_int := kernel_int;
  os_store a v k k' := running k ∧ ¬ kernel_memory (syms cfg) a ∧ k' = set_memory (wr (memory k) a v) k;
  os_pause k k' := running k ∧ rtc (tame_step cfg spin) k k' ∧ running k'
|}.

(** The page at [a] is in use, and its owner is process [i]. *)
Definition owns k (a : Z) : Prop := zget (pageinfo k) (a / PAGESIZE) = Some (PageInfo i 1).

Lemma owns_steps k k' a : in_user cfg k → rtc (tame_step cfg spin) k k' → owns k a → owns k' a.
Proof.
intros Hk Hs Ho. destruct (steps_keep_pages cfg Hcfg spin k k' Hk Hs) as [_ Hp]. by apply Hp.
Qed.

Lemma kernel_int_steps n rdi k k' rax : kernel_int n rdi k k' rax → rtc (tame_step cfg spin) k k'.
Proof.
intros (_ & reg & r & s & Hreg & _ & _ & E & Hr).
eapply rtc_l; [by eapply StepException|]. destruct Hr as [(_ & -> & _)|(_ & s2 & reg2 & r2 & Hs & _ & Hreg2 & E2 & _)].
- done.
- eapply rtc_r; [|by eapply StepException]. clear -Hs. induction Hs as [|s1 s2 s3 [_ H12] _ IH]; [done|].
  by eapply rtc_l.
Qed.

(** The process the kernel finds running. *)
Lemma running_proc k : running k → ∃ p, zget (processes k) i = Some p ∧ runnable p ∧ p_pid p = i.
Proof.
intros ((I & _ & p & Hp & Hr) & Hc). rewrite Hc in Hp. exists p. split_and!; [done|done|].
by destruct (inv_proc _ _ I i p Hp).
Qed.

Lemma kernel_getpid rdi k k' rax : kernel_int INT_SYS_GETPID rdi k k' rax → rax = i.
Proof.
intros (Hk & reg & r & s & Hreg & Hn & _ & E & Hr). destruct (running_proc k Hk) as (p & Hp & Hrun & Hpid).
destruct Hk as [(I & _) Hc]. rewrite <- Hc in Hp.
pose proof (sys_getpid_ok cfg spin k p reg Hcfg I Hp Hrun Hn) as Hwp. unfold wp in Hwp. rewrite E in Hwp.
destruct Hwp as [[]|(Hr' & _ & Hcs & _)]. injection Hr' as ->.
destruct Hr as [(_ & _ & ->)|(Hne & _)]; [done|by rewrite Hcs, Hc in Hne].
Qed.

Lemma kernel_page_alloc a k k' rax : kernel_int INT_SYS_PAGE_ALLOC a k k' rax →
  rax = 2 ^ 64 - 1 ∨ rax = 0 ∧ owns k' a.
Proof.
intros (Hk & reg & r & s & Hreg & Hn & Hrdi & E & Hr). destruct (running_proc k Hk) as (p & Hp & Hrun & Hpid).
destruct Hk as [(I & _) Hc]. rewrite <- Hc in Hp.
pose proof (sys_page_alloc_ok cfg spin k p reg Hcfg I Hp Hrun Hreg Hn) as Hwp. unfold wp in Hwp. rewrite E in Hwp.
destruct Hwp as [[]|(v & Hr' & _ & Hcs & Hv)]. injection Hr' as ->. subst a.
destruct Hr as [(_ & -> & ->)|(Hne & _)]; [|by rewrite Hcs, Hc in Hne].
destruct Hv as [(-> & _)|(-> & (_ & _ & pi & Hpi & _) & Epi & _)]; [by left|right]. split; [done|].
unfold owns. rewrite Epi, Hpid. apply zget_zset_eq. by eapply zget_some.
Qed.

(** The calls the kernel does not serve do not return. *)
Lemma kernel_unserved n rdi k k' rax :
  n ∉ [INT_SYS_GETPID; INT_SYS_YIELD; INT_SYS_PAGE_ALLOC; INT_TIMER; INT_PAGEFAULT] →
  ¬ kernel_int n rdi k k' rax.
Proof.
intros Hn (Hk & reg & r & s & Hreg & <- & _ & E & Hr). destruct (running_proc k Hk) as (p & Hp & Hrun & _).
destruct Hk as [(I & _) Hc]. rewrite <- Hc in Hp.
pose proof (exception_unserved cfg spin k p reg Hcfg I Hp Hrun Hn) as Hwp. unfold wp in Hwp. by rewrite E in Hwp.
Qed.

(** [sys_panic] and [sys_exit] never get to the loop that follows the
  instruction. *)
Theorem sys_panic_exit_noreturn msg k k' : ¬ sys_panic msg k k' ∧ ¬ sys_exit k k'.
Proof.
split.
- intros (rax & Hint). revert Hint. apply kernel_unserved. rewrite !not_elem_of_cons. by split_and!; [..|apply not_elem_of_nil].
- intros (rdi & rax & Hint). revert Hint. apply kernel_unserved. rewrite !not_elem_of_cons. by split_and!; [..|apply not_elem_of_nil].
Qed.

#[local] Instance kernel_laws : OsLaws (machine D) i.
Proof.
refine {| os_owned := owns; os_pid := Hi |}.
- intros rdi k k' rax. apply kernel_getpid.
- intros a k k' rax _. apply kernel_page_alloc.
- intros n rdi k k' rax a _ Hint. apply owns_steps; [apply Hint|]. by eapply kernel_int_steps.
- by intros b v k k' a (_ & _ & ->).
- intros k k' a (Hk & Hs & _). apply owns_steps; [apply Hk|done].
Defined.
End kernel_os.

(** ** An example kernel

    One that only keeps the list of the pages it has given out. *)
#[local] Instance list_os : Os (list Z) := {|
  os_int n rdi k k' rax :=
    (n = INT_SYS_PAGE_ALLOC ∧ k' = rdi :: k ∧ rax = 0) ∨ (n ≠ INT_SYS_PAGE_ALLOC ∧ k' = k ∧ rax = 15);
  os_store _ _ k k' := k' = k;
  os_pause k k' := k' = k
|}.

#[local] Instance list_laws : OsLaws (list Z) 15.
Proof.
  refine {| os_owned k a := a ∈ k |}.
  - done.
  - by intros rdi k k' rax [(? & _)|(_ & _ & ->)].
  - intros a k k' rax _ [(_ & -> & ->)|(? & _)]; [right; split; [done|left]|done].
  - intros n rdi k k' rax a _ [(_ & -> & _)|(_ & -> & _)] ?; [by right|done].
  - by intros b v k k' a ->.
  - by intros k k' a ->.
Defined.

(** Process 15 skips three turns and then allocates its first page. *)
Lemma allocator_heap_witness :
  ∃ a k, heap_top a = 0x104000 ∧ ∀ x, 0x103000 ≤ x < 0x104000 → x mod PAGESIZE = 0 → x ∈ (k : list Z).
Proof.
  set (a0 := Allocator 0x103000 0x13F000 (srand 15) false).
  assert (process_start 0x102345 0x140000 ([] : list Z) a0 [] 15) as H0
    by (apply start; exists 0, 15; split; [by right|done]).
  assert (∀ k : list Z, sys_yield k k) as Hy by (intros k; exists 0, 15; by right).
  assert (∃ a, heap_top a = 0x104000 ∧ rtc (process_step 15) (a0, [] : list Z) (a, [0x103000])) as (a & Ht & Hs).
  { eexists. split; [|do 3 (eapply rtc_l; [by eapply step_skip; [done|reflexivity|by vm_compute|apply Hy]|]);
      eapply rtc_l; [|apply rtc_refl];
      eapply step_page; [done|reflexivity|by vm_compute|done|exists 0; split; [by left|reflexivity]|done|reflexivity|apply Hy]].
    reflexivity. }
  exists a, [0x103000]. split; [exact Ht|].
  destruct (allocator_heap (K := list Z) 15 0x102345 0x140000 [] a0 [] 15 a [0x103000])
    as (_ & _ & _ & _ & _ & _ & Ho); [lia|change PAGESIZE with 4096; lia|by vm_compute|exact H0|exact Hs|].
  rewrite Ht in Ho. exact Ho.
Defined.
