(* ===== verification/Fork.v ===== *)
(** * Processes that fork

    Models src/modules/m3/p-fork.c and p-forkexit.c.  Both are systems of
    processes: a list of pids with the point each process has reached, and the
    kernel's state.  A step is a step of one process, so every interleaving is
    covered; a successful fork appends the child, which continues from the same
    point with the result 0.

    INT_SYS_FORK and INT_SYS_EXIT are handled by no code of the repository.  The
    processes are therefore run against any kernel that does what the comments of
    process.h promise ([ForkLaws]); the kernel of Kernel.v answers both calls with
    a panic ([fork_exit_unimplemented]). *)
From stdpp Require Import base tactics numbers list list_numbers gmap relations.
From Stdlib Require Import ZArith Lia.
From S2P Require Import Prelude Mem LibStr Printf VM KTables Machine Hardware Keyboard Wp Pages Loader Kernel KernelInv KernelSafe Process.

(** ** The kernel's side

    [O i] is what the kernel does for process [i].  [f_live k] are the pids in
    use; [f_owned i k a] says that process [i] has the page at [a].  A forked
    process gets a fresh pid and has the pages of its parent. *)
Class ForkLaws (K : Type) (O : Z → Os K) := {
  f_owned : Z → K → Z → Prop;
  f_live : K → gset Z;
  f_getpid i rdi k k' rax : @os_int K (O i) INT_SYS_GETPID rdi k k' rax → rax = i;
  f_alloc i a k k' rax : 0 ≤ a < 2 ^ 64 → @os_int K (O i) INT_SYS_PAGE_ALLOC a k k' rax →
    rax = 2 ^ 64 - 1 ∨ rax = 0 ∧ f_owned i k' a;
  f_fork i rdi k k' rax : @os_int K (O i) INT_SYS_FORK rdi k k' rax →
    (rax = 2 ^ 64 - 1 ∧ f_live k' = f_live k) ∨
    (0 < rax < NPROC ∧ (rax ∉ f_live k) ∧ f_live k' = {[rax]} ∪ f_live k ∧
     ∀ a, f_owned i k a → f_owned rax k' a);
  f_exit i rdi k k' rax : @os_int K (O i) INT_SYS_EXIT rdi k k' rax → f_live k' = f_live k ∖ {[i]};
  f_int_live i n rdi k k' rax : n ≠ INT_SYS_FORK → n ≠ INT_SYS_EXIT →
    @os_int K (O i) n rdi k k' rax → f_live k' = f_live k;
  f_int_owned i j n rdi k k' rax a : (n ≠ INT_SYS_EXIT ∨ i ≠ j) →
    @os_int K (O i) n rdi k k' rax → f_owned j k a → f_owned j k' a;
  f_store_live i b v k k' : @os_store K (O i) b v k k' → f_live k' = f_live k;
  f_store_owned i j b v k k' a : @os_store K (O i) b v k k' → f_owned j k a → f_owned j k' a;
  f_pause_live i k k' : @os_pause K (O i) k k' → f_live k' = f_live k;
  f_pause_owned i j k k' a : @os_pause K (O i) k k' → f_owned j k a → f_owned j k' a
}.

(** ** p-fork.c *)

(** @src modules/m3/p-fork.c 10-26 process_main
    Where a process is: before the first and the second [sys_fork], before the
    [if], before its second [sys_getpid], in the part that is like p-allocator.c,
    or stopped for good, its assertion having failed, by [assert(p1 >= 0)] or
    [assert(p2 >= 0)] ([NoFork]) or by one of the assertions on the return values
    in lines 18 to 22 ([BadFork]). *)
Inductive fork_pc :=
| Fork1
| Fork2 (p1 : Z)
| Asserts (p1 p2 : Z)
| Ready
| Running (p : Z) (a : allocator)
| NoFork
| BadFork.

(** @src modules/m3/p-fork.c 12-13 process_main *)
Definition after_fork1 (r : Z) : fork_pc := if r >=? 0 then Fork2 r else NoFork.

(** @src modules/m3/p-fork.c 14-15 process_main *)
Definition after_fork2 (p1 r : Z) : fork_pc := if r >=? 0 then Asserts p1 r else NoFork.

(** @src modules/m3/p-fork.c 18-22 process_main *)
Definition check_forks (self p1 p2 : Z) : fork_pc :=
  if (if self =? 1 then negb (p1 =? 0) && negb (p2 =? 0) && negb (p1 =? p2)
      else (p1 =? 0) || (p2 =? 0))
  then Ready else BadFork.

(** Process number [n] of the list, [i], has called [sys_fork] with result [r]:
    it goes on at [next r], and its child, if there is one, at [next 0]. *)
Definition forked {P} (ps : list (Z * P)) (n : nat) (i r : Z) (next : Z → P) : list (Z * P) :=
  <[n := (i, next r)]> ps ++ (if r >? 0 then [(r, next 0)] else []).

Section fork.
Context {K : Type} (O : Z → Os K) (end_ rsp : Z).

(** @src modules/m3/p-fork.c 10-51 process_main
  One step of one process, labelled with what [sys_fork] returned to its caller if
  the step is a call of it.  The second half of the function is the code of
  p-allocator.c, from its [sys_getpid]. *)
Inductive fork_step : option Z → list (Z * fork_pc) * K → list (Z * fork_pc) * K → Prop :=
| step_fork1 ps k k' n i r :
    ps !! n = Some (i, Fork1) → @sys_fork K (O i) k k' r →
    fork_step (Some r) (ps, k) (forked ps n i r after_fork1, k')
| step_fork2 ps k k' n i p1 r :
    ps !! n = Some (i, Fork2 p1) → @sys_fork K (O i) k k' r →
    fork_step (Some r) (ps, k) (forked ps n i r (after_fork2 p1), k')
| step_check ps k k' n i p1 p2 p :
    ps !! n = Some (i, Asserts p1 p2) → @sys_getpid K (O i) k k' p →
    fork_step None (ps, k) (<[n := (i, check_forks p p1 p2)]> ps, k')
| step_start ps k k' n i p a :
    ps !! n = Some (i, Ready) → @process_start K (O i) end_ rsp k a k' p →
    fork_step None (ps, k) (<[n := (i, Running p a)]> ps, k')
| step_wait ps k k' n i pc :
    ps !! n = Some (i, pc) → @os_pause K (O i) k k' → fork_step None (ps, k) (ps, k')
| step_run ps k k' n i p a a' :
    ps !! n = Some (i, Running p a) → @process_step K (O i) p (a, k) (a', k') →
    fork_step None (ps, k) (<[n := (i, Running p a')]> ps, k').

(** A run, with the results of all its calls of [sys_fork] in order. *)
Inductive fork_run : list Z → list (Z * fork_pc) * K → list (Z * fork_pc) * K → Prop :=
| fork_run_nil c : fork_run [] c c
| fork_run_cons l rs c c1 c2 :
    fork_step l c c1 → fork_run rs c1 c2 → fork_run (option_list l ++ rs) c c2.

(** ** p-forkexit.c *)

(** @src modules/m3/p-forkexit.c 12-22 process_main
  Where a process is: in the first loop, before the [sys_getpid] after it, in
  one of the later loops, or in the second loop as a new child that has not yet
  called [sys_getpid]. *)
Inductive exit_pc :=
| Starting (rs : rand_state)
| Broke
| Looping (p : Z) (a : allocator)
| Child (p : Z) (a : allocator).

(** @src modules/m3/p-forkexit.c 44-47 process_main
  The message on the bottom line is cleared. *)
Definition clear_message (console : list Z) : res (list Z) :=
c ← of_option UB (zget console (CPOS 24 0));
if c_true c then '(console, _) ← console_printf console (CPOS 24 0) 0 [10] []; Ok console
else Ok console.

(** @src modules/m3/p-forkexit.c 14-16 process_main
  The result of [sys_fork] in the first loop. *)
Definition after_first_fork (rs : rand_state) (r : Z) : exit_pc := if r =? 0 then Broke else Starting rs.

(** @src modules/m3/p-forkexit.c 49-51 process_main
  The result of [sys_fork] in the second loop. *)
Definition after_loop_fork (p : Z) (a : allocator) (r : Z) : exit_pc :=
if r =? 0 then Child p a else Looping p a.

Definition with_random (rs : rand_state) (a : allocator) : allocator :=
Allocator (heap_top a) (stack_bottom a) rs (full a).

(** @src modules/m3/p-forkexit.c 52-53 process_main *)
Definition removed {P} (ps : list (Z * P)) (n : nat) : list (Z * P) := take n ps ++ drop (S n) ps.

(** @src modules/m3/p-forkexit.c 12-67 process_main
  One step of one process: an iteration of a loop, or what lies between two
  loops.  Lines 23 to 35 are those of p-allocator.c.  The console is shared. *)
Inductive forkexit_step :
  list (Z * exit_pc) * K * list Z → list (Z * exit_pc) * K * list Z → Prop :=
| exit_fork ps k k' con n i rs rs' x r :
    ps !! n = Some (i, Starting rs) → rand rs = (rs', x) → Z.rem x ALLOC_SLOWDOWN = 0 →
    @sys_fork K (O i) k k' r →
    forkexit_step (ps, k, con) (forked ps n i r (after_first_fork rs'), k', con)
| exit_wait ps k k' con n i rs rs' x :
    ps !! n = Some (i, Starting rs) → rand rs = (rs', x) → Z.rem x ALLOC_SLOWDOWN ≠ 0 →
    @sys_yield K (O i) k k' →
    forkexit_step (ps, k, con) (<[n := (i, Starting rs')]> ps, k', con)
| exit_start ps k k' con n i p a :
    ps !! n = Some (i, Broke) → @process_start K (O i) end_ rsp k a k' p →
    forkexit_step (ps, k, con) (<[n := (i, Looping p a)]> ps, k', con)
| exit_stack ps k con n i p a rs x :
    ps !! n = Some (i, Looping p a) → full a = false → rand (random a) = (rs, x) →
    Z.rem x (8 * ALLOC_SLOWDOWN) < 8 * p → heap_top a = stack_bottom a →
    forkexit_step (ps, k, con)
      (<[n := (i, Looping p (Allocator (heap_top a) (stack_bottom a) rs true))]> ps, k, con)
| exit_fail ps k k' con n i p a rs x r :
    ps !! n = Some (i, Looping p a) → full a = false → rand (random a) = (rs, x) →
    Z.rem x (8 * ALLOC_SLOWDOWN) < 8 * p → heap_top a ≠ stack_bottom a →
    @sys_page_alloc K (O i) (heap_top a) k k' r → r < 0 →
    forkexit_step (ps, k, con)
      (<[n := (i, Looping p (Allocator (heap_top a) (stack_bottom a) rs true))]> ps, k', con)
| exit_page ps k k1 k2 con con' n i p a rs x r :
    ps !! n = Some (i, Looping p a) → full a = false → rand (random a) = (rs, x) →
    Z.rem x (8 * ALLOC_SLOWDOWN) < 8 * p → heap_top a ≠ stack_bottom a →
    @sys_page_alloc K (O i) (heap_top a) k k1 r → ¬ r < 0 →
    @os_store K (O i) (heap_top a) (u8 p) k1 k2 → clear_message con = Ok con' →
    forkexit_step (ps, k, con)
      (<[n := (i, Looping p (Allocator (u64 (heap_top a + PAGESIZE)) (stack_bottom a) rs false))]> ps, k2, con')
| exit_fork_again ps k k' con n i p a rs x r :
    ps !! n = Some (i, Looping p a) → full a = false → rand (random a) = (rs, x) →
    Z.rem x (8 * ALLOC_SLOWDOWN) = 8 * p → @sys_fork K (O i) k k' r →
    forkexit_step (ps, k, con) (forked ps n i r (after_loop_fork p (with_random rs a)), k', con)
| exit_child ps k k' con n i p p' a :
    ps !! n = Some (i, Child p a) → @sys_getpid K (O i) k k' p' →
    forkexit_step (ps, k, con) (<[n := (i, Looping p' a)]> ps, k', con)
| exit_exit ps k k' con n i p a rs x :
    ps !! n = Some (i, Looping p a) → full a = false → rand (random a) = (rs, x) →
    Z.rem x (8 * ALLOC_SLOWDOWN) = 8 * p + 1 → @sys_exit K (O i) k k' →
    forkexit_step (ps, k, con) (removed ps n, k', con)
| exit_yield ps k k' con n i p a rs x :
    ps !! n = Some (i, Looping p a) → full a = false → rand (random a) = (rs, x) →
    8 * p + 1 < Z.rem x (8 * ALLOC_SLOWDOWN) → @sys_yield K (O i) k k' →
    forkexit_step (ps, k, con) (<[n := (i, Looping p (with_random rs a))]> ps, k', con)
| exit_full_exit ps k k' con n i p a rs x :
    ps !! n = Some (i, Looping p a) → full a = true → rand (random a) = (rs, x) →
    Z.rem x (2 * ALLOC_SLOWDOWN) = 0 → @sys_exit K (O i) k k' →
    forkexit_step (ps, k, con) (removed ps n, k', con)
| exit_full_yield ps k k' con n i p a rs x :
    ps !! n = Some (i, Looping p a) → full a = true → rand (random a) = (rs, x) →
    Z.rem x (2 * ALLOC_SLOWDOWN) ≠ 0 → @sys_yield K (O i) k k' →
    forkexit_step (ps, k, con) (<[n := (i, Looping p (with_random rs a))]> ps, k', con)
| exit_pause ps k k' con n i pc :
    ps !! n = Some (i, pc) → @os_pause K (O i) k k' → forkexit_step (ps, k, con) (ps, k', con).
End fork.

(** ** Systems of processes *)

Section laws.
Context {K : Type} (O : Z → Os K) `{HF : !ForkLaws K O}.
Implicit Types (k : K) (i j r a : Z) (n : nat).

(** What p-allocator.c needs of the kernel follows. *)
Definition fork_os_laws i (Hi : 0 < i < NPROC) : @OsLaws K (O i) i := {|
  os_owned := f_owned i;
  os_pid := Hi;
  os_getpid := f_getpid i;
  os_alloc := f_alloc i;
  os_int_owned c rdi k k' rax a Hc := f_int_owned i i c rdi k k' rax a (or_introl Hc);
  os_store_owned b v k k' a := f_store_owned i i b v k k' a;
  os_pause_owned k k' a := f_pause_owned i i k k' a
|}.

(** The pids of a system are distinct and those in use, and each process
  satisfies [I]. *)
Record pool_ok {P} (I : Z → P → K → Prop) (ps : list (Z * P)) k : Prop := PoolOk {
pool_nodup : NoDup ps.*1;
pool_live i : i ∈ f_live k ↔ i ∈ ps.*1;
pool_range i : i ∈ ps.*1 → 0 < i < NPROC;
pool_pc i pc : (i, pc) ∈ ps → I i pc k
}.

(** [k'] keeps what the processes other than [i] know of [k]. *)
Definition keeps {P} (I : Z → P → K → Prop) i k k' : Prop := ∀ j pc, j ≠ i → I j pc k → I j pc k'.

Lemma pool_step {P} (I : Z → P → K → Prop) ps k k' n i pc pc' :
pool_ok I ps k → ps !! n = Some (i, pc) → f_live k' = f_live k → keeps I i k k' → I i pc' k' →
pool_ok I (<[n := (i, pc')]> ps) k'.
Proof.
intros [Hnd Hl Hr Hpc] Hn El Hk Hi.
assert ((<[n := (i, pc')]> ps).*1 = ps.*1) as Efst.
{ rewrite list_fmap_insert. apply list_insert_id. by rewrite list_lookup_fmap, Hn. }
split; rewrite ?Efst; [done| |done|]; [intros j; rewrite El; apply Hl|].
intros j qc Hj. apply list_elem_of_lookup in Hj as [x Hx].
destruct (decide (x = n)) as [->|Hne].
- rewrite list_lookup_insert_eq in Hx by (by eapply lookup_lt_Some). by injection Hx as <- <-.
- rewrite list_lookup_insert_ne in Hx by done. apply Hk; [|by apply Hpc; eapply list_elem_of_lookup_2].
  intros ->. apply Hne. eapply (NoDup_lookup ps.*1 x n i); [done|by rewrite list_lookup_fmap, Hx|by rewrite list_lookup_fmap, Hn].
Qed.

(** The same process table in a later state of the kernel. *)
Lemma pool_later {P} (I : Z → P → K → Prop) ps k k' :
pool_ok I ps k → f_live k' = f_live k → (∀ j pc, I j pc k → I j pc k') → pool_ok I ps k'.
Proof.
intros [Hnd Hl Hr Hpc] El Hk. split; [done|intros j; rewrite El; apply Hl|done|]. intros j pc Hj. by apply Hk, Hpc.
Qed.

Lemma pool_forked {P} (I : Z → P → K → Prop) ps k k' n i pc r next :
pool_ok I ps k → ps !! n = Some (i, pc) → @sys_fork K (O i) k k' r → keeps I i k k' → I i (next r) k' →
(0 < r → (r ∉ f_live k) → (∀ a, f_owned i k a → f_owned r k' a) → I r (next 0) k') →
pool_ok I (forked ps n i r next) k'.
Proof.
intros HP Hn (rdi & rax & Hint & ->) Hk Hp Hc. unfold forked.
destruct (f_fork _ _ _ _ _ Hint) as [[-> El]|(Hr & Hni & El & Hown)].
{ change (i32 (2 ^ 64 - 1)) with (-1) in *. change (-1 >? 0) with false. cbv iota. rewrite app_nil_r.
  by eapply pool_step. }
change NPROC with 16 in Hr. rewrite wrapS_small in * by lia.
destruct (Z.gtb_spec rax 0) as [_|]; [|lia]. specialize (Hc ltac:(lia) Hni Hown).
pose proof HP as [Hnd Hl Hrg Hpc].
assert ((<[n := (i, next rax)]> ps).*1 = ps.*1) as Efst.
{ rewrite list_fmap_insert. apply list_insert_id. by rewrite list_lookup_fmap, Hn. }
split; rewrite ?fmap_app, ?Efst; cbn.
- apply NoDup_app; split_and!; [done| |apply NoDup_singleton].
  intros j Hj ->%list_elem_of_singleton. by apply Hni, Hl.
- intros j. rewrite El, elem_of_union, elem_of_singleton, elem_of_app, list_elem_of_singleton, Hl. tauto.
- intros j [?| ->%list_elem_of_singleton]%elem_of_app; [by apply Hrg|change NPROC with 16; lia].
- intros j qc [Hj|[= -> ->]%list_elem_of_singleton]%elem_of_app; [|done].
  apply list_elem_of_lookup in Hj as [x Hx]. destruct (decide (x = n)) as [->|Hne].
  + rewrite list_lookup_insert_eq in Hx by (by eapply lookup_lt_Some). by injection Hx as <- <-.
  + rewrite list_lookup_insert_ne in Hx by done. apply Hk; [|by apply Hpc; eapply list_elem_of_lookup_2].
    intros ->. apply Hne. eapply (NoDup_lookup ps.*1 x n i); [done|by rewrite list_lookup_fmap, Hx|by rewrite list_lookup_fmap, Hn].
Qed.

Lemma pool_removed {P} (I : Z → P → K → Prop) ps k k' n i pc :
pool_ok I ps k → ps !! n = Some (i, pc) → @sys_exit K (O i) k k' → keeps I i k k' →
pool_ok I (removed ps n) k'.
Proof.
intros [Hnd Hl Hr Hpc] Hn (rdi & rax & Hint) Hk. pose proof (f_exit _ _ _ _ _ Hint) as El.
assert (ps ≡ₚ (i, pc) :: removed ps n) as Hperm by (unfold removed; by apply delete_Permutation in Hn; rewrite delete_take_drop in Hn).
assert (ps.*1 ≡ₚ i :: (removed ps n).*1) as Hp1 by exact (fmap_Permutation fst _ _ Hperm).
rewrite Hp1 in Hnd. apply list.NoDup_cons in Hnd as [Hni Hnd].
split; [done|..].
- intros j. rewrite El, elem_of_difference, elem_of_singleton, Hl, Hp1, elem_of_cons. split; [tauto|].
  intros Hj. split; [by right|]. by intros ->.
- intros j Hj. apply Hr. rewrite Hp1. by right.
- intros j qc Hj. apply Hk.
  + intros ->. apply Hni, list_elem_of_fmap. by exists (i, qc).
  + apply Hpc. rewrite Hperm. by right.
Qed.

Lemma sys_fork_cases i k k' r : @sys_fork K (O i) k k' r →
(r = -1 ∧ f_live k' = f_live k) ∨ (0 < r < NPROC ∧ (r ∉ f_live k) ∧ f_live k' = {[r]} ∪ f_live k).
Proof.
intros (rdi & rax & Hint & ->). destruct (f_fork _ _ _ _ _ Hint) as [[-> El]|(Hr & Hni & El & _)]; [by left|right].
change NPROC with 16 in *. by rewrite wrapS_small by lia.
Qed.

Lemma sys_fork_live i k k' r : @sys_fork K (O i) k k' r → f_live k ⊆ f_live k'.
Proof. intros [[_ ->]|(_ & _ & ->)]%sys_fork_cases; [done|apply union_subseteq_r]. Qed.

Lemma sys_fork_owned i j k k' r a : @sys_fork K (O i) k k' r → f_owned j k a → f_owned j k' a.
Proof. intros (rdi & rax & Hint & _). apply (f_int_owned i j INT_SYS_FORK rdi k k' rax a); [by left|exact Hint]. Qed.

(** The other calls and a pause. *)
Definition plain i k k' : Prop := f_live k' = f_live k ∧ ∀ j a, f_owned j k a → f_owned j k' a.

Lemma plain_refl i k : plain i k k.
Proof. by split. Qed.

Lemma plain_trans i k1 k2 k3 : plain i k1 k2 → plain i k2 k3 → plain i k1 k3.
Proof. intros [E1 H1] [E2 H2]. split; [congruence|auto]. Qed.

Lemma int_plain i c rdi k k' rax : c ≠ INT_SYS_FORK → c ≠ INT_SYS_EXIT →
@os_int K (O i) c rdi k k' rax → plain i k k'.
Proof.
intros Hf He Hint. split; [by apply (f_int_live i c rdi k k' rax)|]. intros j a.
apply (f_int_owned i j c rdi k k' rax); [by left|done].
Qed.

Lemma getpid_plain i k k' p : @sys_getpid K (O i) k k' p → plain i k k'.
Proof. intros (rdi & rax & Hint & _). by apply int_plain in Hint. Qed.
Lemma yield_plain i k k' : @sys_yield K (O i) k k' → plain i k k'.
Proof. intros (rdi & rax & Hint). by apply int_plain in Hint. Qed.
Lemma alloc_plain i a k k' r : @sys_page_alloc K (O i) a k k' r → plain i k k'.
Proof. intros (rax & Hint & _). by apply int_plain in Hint. Qed.
Lemma store_plain i b v k k' : @os_store K (O i) b v k k' → plain i k k'.
Proof. intros Hs. split; [by eapply f_store_live|]. intros j a. by eapply f_store_owned. Qed.
Lemma pause_plain i k k' : @os_pause K (O i) k k' → plain i k k'.
Proof. intros Hs. split; [by eapply f_pause_live|]. intros j a. by eapply f_pause_owned. Qed.

Lemma getpid_self i k k' p : 0 < i < NPROC → @sys_getpid K (O i) k k' p → p = i.
Proof.
change NPROC with 16. intros Hi (rdi & rax & Hint & ->). rewrite (f_getpid _ _ _ _ _ Hint). by rewrite wrapS_small by lia.
Qed.

Lemma start_plain i end_ rsp k (a : allocator) k' p : @process_start K (O i) end_ rsp k a k' p → plain i k k'.
Proof. intros [k1 k2 p' Hg]. by eapply getpid_plain. Qed.

Lemma step_plain i p (a a' : allocator) k k' : @process_step K (O i) p (a, k) (a', k') → plain i k k'.
Proof.
intros Hs. inversion Hs; subst; eauto using plain_refl, yield_plain, alloc_plain, pause_plain.
eapply plain_trans; [by eapply alloc_plain|]. eapply plain_trans; [by eapply store_plain|by eapply yield_plain].
Qed.

(** ** The processes of p-fork.c *)
Context (end_ rsp : Z) (He : 0 ≤ end_) (Hrsp : end_ + PAGESIZE ≤ rsp < 2 ^ 64).
Context (Hfit : ROUNDUP end_ PAGESIZE ≤ ROUNDDOWN (rsp - 1) PAGESIZE).
Abbreviation heap_start := (ROUNDUP end_ PAGESIZE).
Abbreviation stack_page := (ROUNDDOWN (rsp - 1) PAGESIZE).

(** The heap of process [i]: pages of its own between its data and its stack. *)
Record has_heap i (a : allocator) k : Prop := HasHeap {
hh_bottom : stack_bottom a = stack_page;
hh_range : heap_start ≤ heap_top a ≤ stack_page;
hh_aligned : heap_top a mod PAGESIZE = 0;
hh_owned x : heap_start ≤ x < heap_top a → x mod PAGESIZE = 0 → f_owned i k x
}.

Lemma has_heap_ok i (Hi : 0 < i < NPROC) (a : allocator) k :
@heap_ok K (O i) i (fork_os_laws i Hi) heap_start stack_page (a, k) ↔ has_heap i a k.
Proof. split; intros [Hb Hr Ha Ho]; split; done. Qed.

Lemma has_heap_later i j (a a' : allocator) k k' :
(∀ x, f_owned i k x → f_owned j k' x) → heap_top a' = heap_top a → stack_bottom a' = stack_bottom a →
has_heap i a k → has_heap j a' k'.
Proof. intros Ho Et Eb [Hb Hr Ha Hown]. split; rewrite ?Et, ?Eb; [done..|]. intros x Hx Hm. by apply Ho, Hown. Qed.

Lemma start_has_heap i k (a : allocator) k' p : 0 < i < NPROC →
@process_start K (O i) end_ rsp k a k' p → p = i ∧ has_heap i a k'.
Proof.
intros Hi Hs. destruct (process_start_heap (HL := fork_os_laws i Hi) i _ _ _ _ _ _ He Hrsp Hfit Hs) as (-> & _ & _ & _ & _ & Hh).
split; [done|]. by apply has_heap_ok in Hh.
Qed.

Lemma heap_bounds : 0 ≤ heap_start ∧ stack_page mod PAGESIZE = 0 ∧ stack_page < 2 ^ 64.
Proof.
pose proof (ROUNDDOWN_page (rsp - 1)) as E. change PAGESIZE with 4096 in *. rewrite E in * by lia.
pose proof (round_mod (rsp - 1)). change PAGESIZE with 4096 in *. pose proof (Z.mod_pos_bound (rsp - 1) 4096).
split_and!; [|done|lia]. unfold ROUNDUP, ROUNDDOWN. by apply wrapU_range.
Qed.

Lemma step_has_heap i (a a' : allocator) k k' : 0 < i < NPROC →
@process_step K (O i) i (a, k) (a', k') → has_heap i a k → has_heap i a' k'.
Proof.
intros Hi Hs Hh. destruct heap_bounds as (H0 & Hm & Hb). apply (has_heap_ok i Hi). apply (has_heap_ok i Hi) in Hh.
by apply (heap_ok_step (HL := fork_os_laws i Hi) i _ _ i (a, k) (a', k')).
Qed.

(** What is known of a process at each point: process 1 is the first one. *)
Definition fork_ok i (pc : fork_pc) k : Prop :=
match pc with
| Fork1 => i = 1
| Fork2 p1 => if decide (i = 1) then p1 ≠ 0 ∧ p1 ∈ f_live k else p1 = 0
| Asserts p1 p2 => if decide (i = 1) then p1 ≠ 0 ∧ p2 ≠ 0 ∧ p1 ≠ p2 else p1 = 0 ∨ p2 = 0
| Running p a => p = i ∧ has_heap i a k
| Ready | NoFork => True
| BadFork => False
end.

Lemma fork_ok_later i pc k k' : f_live k ⊆ f_live k' → (∀ a, f_owned i k a → f_owned i k' a) →
fork_ok i pc k → fork_ok i pc k'.
Proof.
intros Hl Ho. destruct pc; cbn; try done; [case_decide; [intros [? ?]; split; auto|done]|].
intros [-> Hh]. split; [done|]. by eapply has_heap_later.
Qed.

Lemma plain_fork_ok i j pc k k' : plain j k k' → fork_ok i pc k → fork_ok i pc k'.
Proof. intros [El Ho]. apply fork_ok_later; [by rewrite El|apply Ho]. Qed.

(** How many processes will come from this one. *)
Definition fork_weight (pc : fork_pc) : nat := match pc with Fork1 => 4 | Fork2 _ => 2 | _ => 1 end.
Definition fork_total (ps : list (Z * fork_pc)) : nat := sum_list_with (λ q, fork_weight q.2) ps.
Definition fork_failed (ps : list (Z * fork_pc)) : Prop := ∃ i, (i, NoFork) ∈ ps.

Record fork_inv (c : list (Z * fork_pc) * K) : Prop := ForkInv {
fi_pool : pool_ok fork_ok c.1 c.2;
fi_first : 1 ∈ f_live c.2;
fi_total : (fork_total c.1 ≤ 4)%nat;
fi_count : fork_failed c.1 ∨ fork_total c.1 = 4%nat
}.

Lemma sum_insert {A} (f : A → nat) (l : list A) n x y :
l !! n = Some y → (sum_list_with f (<[n := x]> l) + f y = sum_list_with f l + f x)%nat.
Proof.
revert n. induction l as [|z l IH]; intros [|n] Hn; cbn in *; [done..| |].
- injection Hn as ->. lia.
- specialize (IH n Hn). set (u := sum_list_with f (<[n:=x]> l)) in IH. change (f z + u + f y = f z + sum_list_with f l + f x)%nat. lia.
Qed.

Lemma fork_total_insert ps n i pc pc' : ps !! n = Some (i, pc) →
(fork_total (<[n := (i, pc')]> ps) + fork_weight pc = fork_total ps + fork_weight pc')%nat.
Proof. apply (sum_insert (λ q, fork_weight q.2) ps n (i, pc')). Qed.

Lemma fork_failed_insert ps n i pc pc' : ps !! n = Some (i, pc) → pc ≠ NoFork →
fork_failed ps → fork_failed (<[n := (i, pc')]> ps).
Proof.
intros Hn Hne (j & Hj). apply list_elem_of_lookup in Hj as [x Hx]. exists j. apply (list_elem_of_lookup_2 _ x).
rewrite list_lookup_insert_ne; [done|]. intros ->. congruence.
Qed.

(** A step of one process that is not a fork. *)
Lemma fork_inv_plain ps k k' n i pc pc' :
fork_inv (ps, k) → ps !! n = Some (i, pc) → plain i k k' → fork_ok i pc' k' →
pc ≠ NoFork → fork_weight pc' = fork_weight pc → fork_inv (<[n := (i, pc')]> ps, k').
Proof.
intros [HP H1 Ht Hc] Hn [El Ho] Hok Hne Hw. cbn [fst snd] in *. pose proof (fork_total_insert ps n i pc pc' Hn).
split; cbn [fst snd].
- eapply pool_step; [exact HP|exact Hn|done| |done]. intros j qc _. by apply (plain_fork_ok _ i).
- by rewrite El.
- lia.
- destruct Hc as [Hf|Hc]; [left; by eapply fork_failed_insert|right; lia].
Qed.

(** A call of [sys_fork] that divides the weight of its process. *)
Lemma fork_inv_fork ps k k' n i pc r next :
fork_inv (ps, k) → ps !! n = Some (i, pc) → @sys_fork K (O i) k k' r → pc ≠ NoFork →
next (-1) = NoFork → (1 ≤ fork_weight pc)%nat →
(0 < r → (fork_weight (next r) + fork_weight (next 0%Z) = fork_weight pc)%nat) →
(0 < r → r ∈ f_live k' → (r ∉ f_live k) → fork_ok i (next r) k' ∧ fork_ok r (next 0) k') →
fork_inv (forked ps n i r next, k').
Proof.
intros [HP H1 Ht Hc] Hn Hf Hne Hno Hw Hws Hok. cbn [fst snd] in *.
pose proof (sys_fork_live _ _ _ _ Hf) as Hl. split; cbn [fst snd]; [|by apply Hl|..].
- eapply pool_forked; [exact HP|exact Hn|exact Hf|..].
  + intros j qc _. apply fork_ok_later; [done|]. intros a. by apply (sys_fork_owned i j k k' r a).
  + destruct (sys_fork_cases _ _ _ _ Hf) as [[-> _]|(Hr & Hni & El)]; [by rewrite Hno|].
    apply Hok; [lia|by rewrite El; apply elem_of_union_l, elem_of_singleton|done].
  + intros Hr Hni _. destruct (sys_fork_cases _ _ _ _ Hf) as [[-> _]|(_ & _ & El)]; [lia|].
    apply Hok; [lia|by rewrite El; apply elem_of_union_l, elem_of_singleton|done].
- pose proof (fork_total_insert ps n i pc (next r) Hn). unfold forked, fork_total in *. rewrite sum_list_with_app.
  destruct (sys_fork_cases _ _ _ _ Hf) as [[-> _]|(Hr & _)].
  + rewrite Hno in *. change (-1 >? 0) with false. cbn in *. lia.
  + destruct (Z.gtb_spec r 0); [|lia]. specialize (Hws ltac:(lia)). cbn. lia.
- pose proof (fork_total_insert ps n i pc (next r) Hn). unfold forked, fork_total in *. rewrite sum_list_with_app.
  destruct (sys_fork_cases _ _ _ _ Hf) as [[-> _]|(Hr & _)].
  + left. exists i. rewrite Hno. apply elem_of_app. left. apply (list_elem_of_lookup_2 _ n), list_lookup_insert_eq.
    by eapply lookup_lt_Some.
  + destruct (Z.gtb_spec r 0); [|lia]. specialize (Hws ltac:(lia)). destruct Hc as [Hc|Hc].
    * left. destruct (fork_failed_insert ps n i pc (next r) Hn Hne Hc) as [j Hj]. exists j. apply elem_of_app. by left.
    * right. cbn. lia.
Qed.

Lemma fork_inv_step l c c' : fork_step O end_ rsp l c c' → fork_inv c → fork_inv c'.
Proof.
intros Hs Hi. pose proof (fi_pool _ Hi) as HP. pose proof (fi_first _ Hi) as H1.
destruct Hs as [ps k k' n i r Hn Hf|ps k k' n i p1 r Hn Hf|ps k k' n i p1 p2 p Hn Hg|ps k k' n i p a Hn Hst
  |ps k k' n i pc Hn Hps|ps k k' n i p a a' Hn Hst]; cbn in HP, H1;
  pose proof (pool_pc _ _ _ HP i _ (list_elem_of_lookup_2 _ _ _ Hn)) as Hok;
  assert (0 < i < NPROC) as Hir
    by (apply (pool_range _ _ _ HP), list_elem_of_fmap; eexists (i, _); by split; [|eapply list_elem_of_lookup_2]);
  cbn in Hok.
- subst i. eapply fork_inv_fork; try done; try (cbn; lia); unfold after_fork1.
  + intros Hr. by destruct (Z.geb_spec r 0); [|lia].
  + intros Hr Hl Hni. destruct (Z.geb_spec r 0); [|lia]. cbn. split; [by split; [lia|]|].
    rewrite decide_False; [done|]. by intros ->.
- eapply fork_inv_fork; try done; try (cbn; lia); unfold after_fork2.
  + intros Hr. by destruct (Z.geb_spec r 0); [|lia].
  + intros Hr Hl Hni. destruct (Z.geb_spec r 0); [|lia]. cbn. split.
    * case_decide; [|by left]. destruct Hok as [Hp1 Hl1]. split_and!; [done|lia|]. by intros ->.
    * rewrite decide_False; [by right|]. by intros ->.
- rewrite (getpid_self i k k' p Hir Hg). eapply fork_inv_plain; [done|done|by eapply getpid_plain| |done|].
  all: unfold check_forks.
  + destruct (Z.eqb_spec i 1) as [->|Hne].
    * rewrite decide_True in Hok by done. destruct Hok as (? & ? & ?). by rewrite !(proj2 (Z.eqb_neq _ _)).
    * rewrite decide_False in Hok by done. by destruct Hok as [->| ->]; [|rewrite orb_true_r].
  + by destruct (if i =? 1 then _ else _).
- eapply fork_inv_plain; [done|done|by eapply start_plain| |done|done]. by apply start_has_heap in Hst.
- destruct Hi as [_ _ Ht Hc]. destruct (pause_plain _ _ _ Hps) as [El Ho]. split; cbn in *; [|by rewrite El|done|done].
  eapply pool_later; [done|done|]. intros j qc. by apply (plain_fork_ok j i).
- destruct Hok as [-> Hh]. eapply fork_inv_plain; [done|done|by eapply step_plain| |done|done].
  split; [done|]. by eapply step_has_heap.
Qed.

Lemma fork_inv_run rs c c' : fork_run O end_ rsp rs c c' → fork_inv c → fork_inv c'.
Proof. intros Hs. induction Hs as [|l rs c1 c2 c3 H12 _ IH]; [done|]. intros Hi. by eapply IH, fork_inv_step. Qed.

(** How many processes an assertion on a negative result has stopped, and how many
    calls of [sys_fork] the kernel refused and granted. *)
Definition stopped (ps : list (Z * fork_pc)) : nat :=
sum_list_with (λ q, match q.2 with NoFork => 1%nat | _ => 0%nat end) ps.
Definition refused (rs : list Z) : nat := sum_list_with (λ r, if decide (r < 0) then 1%nat else 0%nat) rs.
Definition granted_forks (rs : list Z) : nat := sum_list_with (λ r, if decide (0 < r) then 1%nat else 0%nat) rs.

Lemma stopped_insert ps n i pc pc' : ps !! n = Some (i, pc) → pc ≠ NoFork → pc' ≠ NoFork →
stopped (<[n := (i, pc')]> ps) = stopped ps.
Proof.
intros Hn Hne Hne'. pose proof (sum_insert (λ q, match q.2 with NoFork => 1%nat | _ => 0%nat end) ps n (i, pc') _ Hn) as E.
unfold stopped. cbn in E. destruct pc, pc'; done || lia.
Qed.

Lemma stopped_fork ps k k' n i pc r next :
ps !! n = Some (i, pc) → pc ≠ NoFork → @sys_fork K (O i) k k' r → next (-1) = NoFork →
(∀ x, 0 ≤ x → next x ≠ NoFork) →
stopped (forked ps n i r next) = (stopped ps + refused [r])%nat ∧
length (forked ps n i r next) = (length ps + granted_forks [r])%nat.
Proof.
intros Hn Hne Hf Hno Hnx. unfold refused, granted_forks, forked. cbn [sum_list_with].
rewrite length_app, length_insert.
destruct (sys_fork_cases _ _ _ _ Hf) as [[-> _]|(Hr & _)].
- rewrite decide_True, decide_False by lia. change (-1 >? 0) with false. rewrite app_nil_r, Hno. split; [|cbn; lia].
  pose proof (sum_insert (λ q, match q.2 with NoFork => 1%nat | _ => 0%nat end) ps n (i, NoFork) _ Hn) as E.
  unfold stopped. cbn in E. destruct pc; done || lia.
- rewrite decide_False, decide_True by lia. destruct (Z.gtb_spec r 0); [|lia]. split; [|cbn; lia].
  unfold stopped at 1. rewrite sum_list_with_app. fold (stopped (<[n := (i, next r)]> ps)).
  rewrite (stopped_insert ps n i pc) by (done || apply Hnx; lia). cbn.
  destruct (next 0) eqn:E0; try lia. by destruct (Hnx 0).
Qed.

Lemma stopped_step l c c' : fork_step O end_ rsp l c c' →
stopped c'.1 = (stopped c.1 + refused (option_list l))%nat ∧
length c'.1 = (length c.1 + granted_forks (option_list l))%nat.
Proof.
intros Hs. destruct Hs as [ps k k' n i r Hn Hf|ps k k' n i p1 r Hn Hf|ps k k' n i p1 p2 p Hn Hg|ps k k' n i p a Hn Hst
  |ps k k' n i pc Hn Hps|ps k k' n i p a a' Hn Hst]; cbn [fst option_list].
- eapply stopped_fork; [done..|]. intros x Hx. unfold after_fork1. by destruct (Z.geb_spec x 0); [|lia].
- eapply stopped_fork; [done..|]. intros x Hx. unfold after_fork2. by destruct (Z.geb_spec x 0); [|lia].
- rewrite (stopped_insert ps n i _ _ Hn), length_insert; [cbn; lia|done|].
  unfold check_forks. by destruct (if p =? 1 then _ else _).
- rewrite (stopped_insert ps n i _ _ Hn), length_insert; [cbn; lia|done|done].
- cbn. lia.
- rewrite (stopped_insert ps n i _ _ Hn), length_insert; [cbn; lia|done|done].
Qed.

Lemma stopped_run rs c c' : fork_run O end_ rsp rs c c' →
stopped c'.1 = (stopped c.1 + refused rs)%nat ∧ length c'.1 = (length c.1 + granted_forks rs)%nat.
Proof.
intros Hs. induction Hs as [c|l rs c c1 c2 H1 _ [IHs IHl]]; [cbn; lia|].
destruct (stopped_step _ _ _ H1) as [Es El]. unfold refused, granted_forks in *. rewrite !sum_list_with_app. lia.
Qed.

Lemma stopped_in ps i : (i, NoFork) ∈ ps → (0 < stopped ps)%nat.
Proof.
unfold stopped. induction ps as [|[j pc] ps IH]; [by intros ?%elem_of_nil|].
intros [[= <- <-]|Hin]%elem_of_cons; cbn; [lia|]. specialize (IH Hin). lia.
Qed.

Lemma fork_inv_initial k : f_live k = {[1]} → fork_inv ([(1, Fork1)], k).
Proof.
intros El. split; cbn [fst snd]; [|by rewrite El; apply elem_of_singleton|by cbn; lia|by right].
split; cbn.
- apply NoDup_singleton.
- intros i. by rewrite El, elem_of_singleton, list_elem_of_singleton.
- intros i ->%list_elem_of_singleton. done.
- by intros i pc [= -> ->]%list_elem_of_singleton.
Qed.

(** Past both calls of [sys_fork]. *)
Definition past_forks (pc : fork_pc) : Prop :=
match pc with Asserts _ _ | Ready | Running _ _ => True | _ => False end.

Lemma fork_total_length ps : (length ps ≤ fork_total ps)%nat.
Proof. unfold fork_total. induction ps as [|[i pc] ps IH]; cbn; [done|]. destruct pc; cbn; lia. Qed.

Lemma fork_total_past ps : Forall (λ q, past_forks q.2) ps → fork_total ps = length ps.
Proof. unfold fork_total. induction 1 as [|[i pc] ps Hp _ IH]; [done|]. cbn in *. destruct pc; cbn in *; done || lia. Qed.

(** ** The processes of p-forkexit.c *)

(** What is known of a process at each point: after [sys_getpid], [p] is its own
  pid. *)
Definition exit_ok i (pc : exit_pc) k : Prop :=
match pc with
| Starting _ | Broke => True
| Looping p a => p = i ∧ has_heap i a k
| Child p a => has_heap i a k
end.

Lemma exit_ok_later i pc k k' : (∀ a, f_owned i k a → f_owned i k' a) → exit_ok i pc k → exit_ok i pc k'.
Proof.
intros Ho. destruct pc; cbn; [done..| |]; [intros [-> Hh]; split; [done|]|intros Hh]; by eapply has_heap_later.
Qed.

Record exit_inv (c : list (Z * exit_pc) * K * list Z) : Prop := ExitInv {
xi_pool : pool_ok exit_ok c.1.1 c.1.2;
xi_console : zlen c.2 = CONSOLE_SIZE
}.

Lemma clear_message_ok con : zlen con = CONSOLE_SIZE →
∃ con', clear_message con = Ok con' ∧ zlen con' = CONSOLE_SIZE.
Proof.
intros Hc. unfold clear_message. change (CPOS 24 0) with 1920.
destruct (zget_is_some con 1920) as [c E]; [unfold zlen in Hc; change CONSOLE_SIZE with 2000 in Hc; lia|].
rewrite E. cbn [of_option mbind res_bind]. destruct (c_true c); [|by exists con].
destruct (console_printf_ok con 1920 0 [10] [] Hc) as (con' & cp & E' & Hl & _); [exists []; by split; [vm_compute|constructor]|].
exists con'. by rewrite E'.
Qed.

Lemma exit_keeps i k k' : (∀ j a, j ≠ i → f_owned j k a → f_owned j k' a) → keeps exit_ok i k k'.
Proof. intros Ho j pc Hj. apply exit_ok_later. intros a. by apply Ho. Qed.

Lemma plain_keeps i k k' : plain i k k' → keeps exit_ok i k k'.
Proof. intros [_ Ho]. apply exit_keeps. auto. Qed.

Lemma exit_inv_plain ps k k' con con' n i pc pc' :
exit_inv (ps, k, con) → ps !! n = Some (i, pc) → plain i k k' → exit_ok i pc' k' → zlen con' = CONSOLE_SIZE →
exit_inv (<[n := (i, pc')]> ps, k', con').
Proof.
intros [HP _] Hn Hp Hok Hc. split; [|done]. cbn [fst snd] in *.
eapply pool_step; [exact HP|exact Hn|apply Hp|by apply plain_keeps|done].
Qed.

Lemma exit_inv_fork ps k k' con n i pc r next :
exit_inv (ps, k, con) → ps !! n = Some (i, pc) → @sys_fork K (O i) k k' r → exit_ok i (next r) k' →
(∀ j, 0 < j → j ≠ i → (∀ a, f_owned i k a → f_owned j k' a) → exit_ok j (next 0) k') →
exit_inv (forked ps n i r next, k', con).
Proof.
intros [HP Hc] Hn Hf Hok Hch. split; [|done]. cbn [fst snd] in *. eapply pool_forked; [exact HP|exact Hn|exact Hf| |done|].
- apply exit_keeps. intros j a _. by apply (sys_fork_owned i j k k' r a).
- intros Hr Hni Ho. apply Hch; [done| |done]. intros ->. apply Hni, (pool_live _ _ _ HP), list_elem_of_fmap.
  eexists (i, _). split; [done|]. by eapply list_elem_of_lookup_2.
Qed.

Lemma exit_inv_removed ps k k' con n i pc :
exit_inv (ps, k, con) → ps !! n = Some (i, pc) → @sys_exit K (O i) k k' → exit_inv (removed ps n, k', con).
Proof.
intros [HP Hc] Hn Hx. split; [|done]. cbn [fst snd] in *. eapply pool_removed; [exact HP|exact Hn|exact Hx|].
apply exit_keeps. intros j a Hj. destruct Hx as (rdi & rax & Hint).
apply (f_int_owned i j INT_SYS_EXIT rdi k k' rax a); [by right; congruence|done].
Qed.

Lemma sys_fork_nonzero i k k' r : @sys_fork K (O i) k k' r → r ≠ 0.
Proof. intros [[-> _]|(? & _)]%sys_fork_cases; lia. Qed.

Lemma exit_inv_step c c' : forkexit_step O end_ rsp c c' → exit_inv c → exit_inv c'.
Proof.
intros Hs Hi. pose proof (xi_pool _ Hi) as HP. pose proof (xi_console _ Hi) as Hcon.
destruct Hs as [ps k k' con n i rs rs' x r Hn Hr Hx Hf|ps k k' con n i rs rs' x Hn Hr Hx Hy
  |ps k k' con n i p a Hn Hst|ps k con n i p a rs x Hn Hfl Hr Hx Ht|ps k k' con n i p a rs x r Hn Hfl Hr Hx Ht Hal Hneg
  |ps k k1 k2 con con' n i p a rs x r Hn Hfl Hr Hx Ht Hal Hneg Hsto Hcl|ps k k' con n i p a rs x r Hn Hfl Hr Hx Hf
  |ps k k' con n i p p' a Hn Hg|ps k k' con n i p a rs x Hn Hfl Hr Hx Hex|ps k k' con n i p a rs x Hn Hfl Hr Hx Hy
  |ps k k' con n i p a rs x Hn Hfl Hr Hx Hex|ps k k' con n i p a rs x Hn Hfl Hr Hx Hy|ps k k' con n i pc Hn Hps];
  cbn in HP, Hcon; pose proof (pool_pc _ _ _ HP i _ (list_elem_of_lookup_2 _ _ _ Hn)) as Hok;
  assert (0 < i < NPROC) as Hir
    by (apply (pool_range _ _ _ HP), list_elem_of_fmap; eexists (i, _); by split; [|eapply list_elem_of_lookup_2]);
  cbn in Hok.
- eapply exit_inv_fork; [done|done|done|..]; unfold after_first_fork; [by destruct (r =? 0)|done].
- eapply exit_inv_plain; [done|done|by eapply yield_plain|done|done].
- eapply exit_inv_plain; [done|done|by eapply start_plain|by apply start_has_heap in Hst|done].
- destruct Hok as [-> Hh]. eapply exit_inv_plain; [done|done|apply plain_refl| |done].
  split; [done|]. by eapply has_heap_later, Hh.
- destruct Hok as [-> Hh]. apply alloc_plain in Hal. eapply exit_inv_plain; [done|done|done| |done].
  split; [done|]. eapply has_heap_later, Hh; [apply Hal|done|done].
- destruct Hok as [-> Hh]. destruct (clear_message_ok con Hcon) as (con2 & E & Hl). rewrite E in Hcl. injection Hcl as <-.
  eapply exit_inv_plain; [done|done| | |done].
  + eapply plain_trans; [by eapply alloc_plain|by eapply store_plain].
  + split; [done|]. destruct heap_bounds as (H0 & Hm & Hb). apply (has_heap_ok i Hir). apply (has_heap_ok i Hir) in Hh.
    by eapply (heap_page (HL := fork_os_laws i Hir) i).
- destruct Hok as [-> Hh]. pose proof (sys_fork_nonzero _ _ _ _ Hf) as Hr0.
  eapply exit_inv_fork; [done|done|done|..]; unfold after_loop_fork.
  + rewrite (proj2 (Z.eqb_neq _ _)) by done. split; [done|].
    eapply has_heap_later, Hh; [intros y; by apply (sys_fork_owned i i k k' r y)|done|done].
  + intros j _ _ Ho. by eapply has_heap_later, Hh.
- eapply exit_inv_plain; [done|done|by eapply getpid_plain| |done].
  split; [by eapply getpid_self|]. apply getpid_plain in Hg. by eapply has_heap_later, Hok; [apply Hg|..].
- by eapply exit_inv_removed.
- destruct Hok as [-> Hh]. apply yield_plain in Hy. eapply exit_inv_plain; [done|done|done| |done].
  split; [done|]. by eapply has_heap_later, Hh; [apply Hy|..].
- by eapply exit_inv_removed.
- destruct Hok as [-> Hh]. apply yield_plain in Hy. eapply exit_inv_plain; [done|done|done| |done].
  split; [done|]. by eapply has_heap_later, Hh; [apply Hy|..].
- destruct (pause_plain _ _ _ Hps) as [El Ho]. split; [|done]. cbn [fst snd].
  eapply pool_later; [exact HP|done|]. intros j qc. apply exit_ok_later. apply Ho.
Qed.

Lemma exit_inv_reachable c c' : rtc (forkexit_step O end_ rsp) c c' → exit_inv c → exit_inv c'.
Proof. intros Hs. induction Hs as [|c1 c2 c3 H12 _ IH]; [done|]. intros Hi. by eapply IH, exit_inv_step. Qed.

Lemma exit_inv_initial k rs con : f_live k = {[1]} → zlen con = CONSOLE_SIZE → exit_inv ([(1, Starting rs)], k, con).
Proof.
intros El Hc. split; [|done]. split; cbn.
- apply NoDup_singleton.
- intros i. by rewrite El, elem_of_singleton, list_elem_of_singleton.
- intros i ->%list_elem_of_singleton. done.
- by intros i pc [= -> ->]%list_elem_of_singleton.
Qed.

(** ** Properties *)

(** C19. The processes of p-fork.c.  Against any kernel that keeps the contract of
    process.h, which lets it refuse a fork with -1, in every interleaving that
    starts with process 1 alone and with [rs] the results of all calls of
    [sys_fork] so far: pids are distinct and the kernel's; every granted call added
    one process, and there are never more than four; every refused call stopped
    its caller at [assert(p1 >= 0)] or [assert(p2 >= 0)], and these assertions fail
    in no other case; the assertions on the return values in lines 18 to 22 never
    fail; when every process is past its two calls there are exactly four; and
    every process in the second half knows its own pid and has a heap of whole
    pages of its own, between the end of its data and its stack page. *)
Theorem fork_three_copies k0 k ps rs :
f_live k0 = {[1]} → fork_run O end_ rsp rs ([(1, Fork1)], k0) (ps, k) →
NoDup ps.*1 ∧ (∀ i, i ∈ f_live k ↔ i ∈ ps.*1) ∧
length ps = (1 + granted_forks rs)%nat ∧ (length ps ≤ 4)%nat ∧
stopped ps = refused rs ∧ ((∀ r, r ∈ rs → 0 ≤ r) → ∀ i, (i, NoFork) ∉ ps) ∧
(∀ i, (i, BadFork) ∉ ps) ∧
(Forall (λ q, past_forks q.2) ps → length ps = 4%nat) ∧
∀ i p (a : allocator), (i, Running p a) ∈ ps → p = i ∧ has_heap i a k.
Proof.
intros El Hs. destruct (fork_inv_run _ _ _ Hs (fork_inv_initial k0 El)) as [[Hnd Hl _ Hpc] _ Ht Hc].
destruct (stopped_run _ _ _ Hs) as [Es En]. cbn [fst snd] in *. split_and!; [done|done|exact En| |exact Es| | | |].
- pose proof (fork_total_length ps). lia.
- intros Hrs i Hi%stopped_in. change (stopped ps = refused rs) in Es. enough (refused rs = 0%nat) by lia.
  clear -Hrs. unfold refused. induction rs as [|r rs IH]; [done|]. cbn. rewrite IH; [|set_solver].
  rewrite decide_False; [done|]. specialize (Hrs r ltac:(left)). lia.
- intros i Hi. by apply (Hpc i BadFork).
- intros Hall. destruct Hc as [(i & Hi)|Hc]; [|by rewrite <- fork_total_past].
  rewrite list.Forall_forall in Hall. exfalso. by apply (Hall (i, NoFork)).
- intros i p a Hi. by apply (Hpc i (Running p a)).
Qed.

(** C20. The processes of p-forkexit.c.  Against any kernel that keeps the contract
    of process.h, however the processes fork, allocate and exit: pids are distinct
    and the kernel's; a process in the allocating loops has its own pid in [p],
    after a fork inside the loop too, once the child has asked for it; every heap,
    copied ones included, is whole pages of the process between its data and its
    stack page; and the shared console keeps its size, so that clearing the
    message never fails. *)
Theorem forkexit_processes k0 k rs con0 con ps :
f_live k0 = {[1]} → zlen con0 = CONSOLE_SIZE →
rtc (forkexit_step O end_ rsp) ([(1, Starting rs)], k0, con0) (ps, k, con) →
NoDup ps.*1 ∧ (∀ i, i ∈ f_live k ↔ i ∈ ps.*1) ∧
(∀ i p (a : allocator), (i, Looping p a) ∈ ps → p = i ∧ has_heap i a k) ∧
(∀ i p (a : allocator), (i, Child p a) ∈ ps → has_heap i a k) ∧
∃ con', clear_message con = Ok con'.
Proof.
intros El Hc Hs. destruct (exit_inv_reachable _ _ Hs (exit_inv_initial k0 rs con0 El Hc)) as [[Hnd Hl _ Hpc] Hcon].
cbn [fst snd] in *. split_and!; [done|done| | |].
- intros i p a Hi. by apply (Hpc i (Looping p a)).
- intros i p a Hi. by apply (Hpc i (Child p a)).
- destruct (clear_message_ok con Hcon) as (con' & E & _). by exists con'.
Qed.
End laws.

(** C21. This kernel has no fork and no exit.  From the kernel invariant, an
    exception for INT_SYS_FORK or INT_SYS_EXIT never resumes any process: the
    kernel panics and waits for the user to power off or reboot. *)
Theorem fork_exit_unimplemented {D : Type} `{PortBus D} cfg spin (s : machine D) p reg :
  config_ok cfg → kernel_inv cfg s →
  zget (processes s) (current s) = Some p → runnable p →
  reg_intno reg = INT_SYS_FORK ∨ reg_intno reg = INT_SYS_EXIT →
  wp True (λ h _, user_stop h) (exception cfg spin reg) (λ _ _, False) s.
Proof.
  intros Hcfg I Hp Hr Hi. apply exception_unserved with p; [done..|].
  rewrite !not_elem_of_cons. destruct Hi as [-> | ->]; by split_and!; [..|apply not_elem_of_nil].
Qed.

Lemma fork_exit_unimplemented_witness :
  ∃ m, kernel_inv ex_cfg (ex_machine m) ∧
    wp True (λ h _, user_stop h) (exception ex_cfg 5 (ex_registers INT_SYS_FORK 0 0)) (λ _ _, False) (ex_machine m).
Proof.
  destruct ex_memory as [m Hm]. exists m. split; [by apply ex_machine_inv|].
  eapply (fork_exit_unimplemented ex_cfg 5 (ex_machine m));
    [apply ex_cfg_ok|by apply ex_machine_inv|reflexivity|reflexivity|by left].
Defined.

(** ** An example kernel

    It keeps the pids in use and the pages given out, and forks into any free
    pid. *)
Definition pid_kernel : Type := gset Z * list (Z * Z).

Definition pid_int (i c rdi : Z) (k k' : pid_kernel) (rax : Z) : Prop :=
  if decide (c = INT_SYS_PAGE_ALLOC) then k' = (k.1, (i, rdi) :: k.2) ∧ rax = 0
  else if decide (c = INT_SYS_FORK) then
    (rax = 2 ^ 64 - 1 ∧ k' = k) ∨
    (0 < rax < NPROC ∧ (rax ∉ k.1) ∧
     k' = ({[rax]} ∪ k.1, ((λ q, (rax, q.2)) <$> filter (λ q, q.1 = i) k.2) ++ k.2))
  else if decide (c = INT_SYS_EXIT) then k' = (k.1 ∖ {[i]}, filter (λ q, q.1 ≠ i) k.2)
  else k' = k ∧ rax = i.

Definition pid_os (i : Z) : Os pid_kernel :=
  {| os_int := pid_int i; os_store _ _ k k' := k' = k; os_pause k k' := k' = k |}.

#[local] Instance pid_laws : ForkLaws pid_kernel pid_os.
Proof.
  refine {| f_owned i k a := (i, a) ∈ k.2; f_live k := k.1 |}; cbn; unfold pid_int.
  - by intros i rdi k k' rax [_ ->].
  - intros i a k k' rax _ [-> ->]. right. split; [done|left].
  - intros i rdi k k' rax [[-> ->]|(Hr & Hn & ->)]; [by left|right]. split_and!; [lia|lia|done|done|].
    intros a Ha. apply elem_of_app. left. apply list_elem_of_fmap. exists (i, a). split; [done|].
    by apply list_elem_of_filter.
  - by intros i rdi k k' rax ->.
  - intros i c rdi k k' rax Hf He. rewrite (decide_False _ _ Hf), (decide_False _ _ He).
    case_decide; by intros [-> _].
  - intros i j c rdi k k' rax a Hc. repeat case_decide; [intros [-> _]; by right| | |by intros [-> _]].
    + intros [[-> ->]|(_ & _ & ->)]; [done|]. intros Ha. apply elem_of_app. by right.
    + intros -> Ha. apply list_elem_of_filter. split; [|done]. cbn. destruct Hc; congruence.
  - by intros i b v k k' ->.
  - by intros i j b v k k' a ->.
  - by intros i k k' ->.
  - by intros i j k k' a ->.
Defined.

Lemma pid_fork i r (k : pid_kernel) :
  0 < r < NPROC → r ∉ k.1 →
  @sys_fork _ (pid_os i) k ({[r]} ∪ k.1, ((λ q, (r, q.2)) <$> filter (λ q, q.1 = i) k.2) ++ k.2) r.
Proof.
  intros Hr Hn. exists 0, r. split; [by right|]. change NPROC with 16 in Hr. by rewrite wrapS_small by lia.
Qed.

(** Process 1 forks 2, process 2 forks 3 and process 1 forks 4. *)
Lemma fork_three_copies_witness :
  ∃ k ps, fork_run pid_os 0x102345 0x140000 [2; 3; 4] ([(1, Fork1)], ({[1]}, [])) (ps, k) ∧
    length ps = 4%nat ∧ ∀ i, (i, NoFork) ∉ ps.
Proof.
  eassert (fork_run pid_os 0x102345 0x140000 [2; 3; 4] ([(1, Fork1)], ({[1]}, []))
    ([(1, Asserts 2 4); (2, Asserts 0 3); (3, Asserts 0 0); (4, Asserts 2 0)], _)) as Hs.
  { eapply (fork_run_cons _ _ _ (Some 2) [3; 4]);
      [eapply (step_fork1 pid_os 0x102345 0x140000 [(1, Fork1)] _ _ 0 1 2); [done|by apply pid_fork]|].
    eapply (fork_run_cons _ _ _ (Some 3) [4]);
      [eapply (step_fork2 pid_os 0x102345 0x140000 [(1, Fork2 2); (2, Fork2 0)] _ _ 1 2 0 3); [done|by apply pid_fork]|].
    eapply (fork_run_cons _ _ _ (Some 4) []);
      [eapply (step_fork2 pid_os 0x102345 0x140000 [(1, Fork2 2); (2, Asserts 0 3); (3, Asserts 0 0)] _ _ 0 1 2 4); [done|by apply pid_fork]|].
    apply fork_run_nil. }
  eexists _, _. split; [exact Hs|].
  destruct (fork_three_copies pid_os 0x102345 0x140000) with (5 := Hs) as (_ & _ & _ & _ & _ & Hno & _ & H4 & _);
    [lia|change PAGESIZE with 4096; lia|by vm_compute|reflexivity|].
  split; [apply H4; by repeat constructor|]. apply Hno. intros r. rewrite !elem_of_cons, elem_of_nil. lia.
Defined.

(** Process 1 forks in the first loop; its child, process 15, asks for its pid and
    takes its first page, with a message on the bottom line of the console. *)
Lemma forkexit_processes_witness :
  ∃ k ps con a, rtc (forkexit_step pid_os 0x102345 0x140000)
      ([(1, Starting (RandState true 685))], ({[1]}, []), replicate 2000 0x0743) (ps, k, con) ∧
    (15, Looping 15 a) ∈ ps ∧ heap_top a = 0x104000 ∧ (15, 0x103000) ∈ k.2.
Proof.
  set (a0 := Allocator 0x103000 0x13F000 (srand 15) false).
  assert (∀ k, @process_start _ (pid_os 15) 0x102345 0x140000 k a0 k 15) as Hst
    by (intros k; apply (start 0x102345 0x140000 k k 15); exists 0, 15; by split).
  eassert (rtc (forkexit_step pid_os 0x102345 0x140000)
      ([(1, Starting (RandState true 685))], ({[1]}, []), replicate 2000 0x0743)
      (_, _, _)) as Hs.
  { eapply rtc_l.
    { eapply (exit_fork pid_os 0x102345 0x140000 _ _ _ _ 0 1 _ _ _ 15); [done|reflexivity|by vm_compute|by apply pid_fork]. }
    eapply rtc_l; [eapply (exit_start pid_os 0x102345 0x140000 _ _ _ _ 1 15 15 a0); [done|apply Hst]|].
    apply rtc_once.
    eapply (exit_page pid_os 0x102345 0x140000 _ _ _ _ _ _ 1 15 15 a0 _ _ 0);
      [done|done|reflexivity|by vm_compute|done|by exists 0|done|reflexivity|by vm_compute]. }
  eexists _, _, _, _. split; [exact Hs|]. split; [by apply (list_elem_of_lookup_2 _ 1)|]. split; [by vm_compute|].
  destruct (forkexit_processes pid_os 0x102345 0x140000) with (6 := Hs) as (_ & _ & Hl & _);
    [lia|change PAGESIZE with 4096; lia|by vm_compute|reflexivity|by vm_compute|].
  destruct (Hl 15 15 _ ltac:(by apply (list_elem_of_lookup_2 _ 1))) as [_ Hh]. apply (hh_owned _ _ _ _ _ _ Hh); [|done]. by vm_compute.
Defined.
