(* ===== verification/RoundRobin.v ===== *)
(** * The round-robin thread scheduler

    Models assignments/a2/scheduling_rr/main.c: the scheduler's loop, the
    worker threads it grants quanta to, the mutex and the two condition
    variables that connect them, and the report.

    Everything the threads share is read and written with the mutex held, so a
    step of the system below is one critical section of one thread.  A waiter on
    a condition variable sleeps until a signal or a broadcast makes it ready, or
    until a spurious wakeup does; it then competes for the mutex.

    The sequential reference [rr_run] lets the granted worker consume its slice
    at once.  The theorems: every interleaving of the threads computes what
    [rr_run] does, the threads never deadlock, [rr_run] terminates with a correct
    schedule, and no runnable thread is passed over more than n - 1 times. *)
From stdpp Require Import base tactics numbers list option.
From Stdlib Require Import ZArith Lia.
From S2P Require Import Prelude.

Definition INT_MAX : Z := 2 ^ 31 - 1.
Definition INT_MIN : Z := - 2 ^ 31.

(** C's int arithmetic: overflow is undefined. *)
Definition int_ (z : Z) : res Z :=
  if decide (INT_MIN ≤ z ≤ INT_MAX) then Ok z else Err UB.

Lemma int_ok z : INT_MIN ≤ z ≤ INT_MAX → int_ z = Ok z.
Proof. intros. unfold int_. by rewrite decide_True. Qed.

Definition aget {A} (l : list A) (i : Z) : res A := of_option UB (zget l i).

(** @src assignments/a2/scheduling_rr/main.c 17-20 Input
    The arrays hold the entries of the [threads] threads. *)
Record Input := MkInput { threads : Z; q : Z; at_ : list Z; bt : list Z }.

(** What the threads share (lines 159, 166-171). *)
(** @src assignments/a2/scheduling_rr/main.c 22-42 WorkerCtx *)
Record shared := Shared {
  rem : list Z;
  turn_id : Z;
  grant : Z;
  consumed : Z;
  slice_done : bool;
  all_started : bool;
  stop : bool
}.

(** The scheduler's own variables. *)
(** @src assignments/a2/scheduling_rr/main.c 200-206 main *)
Record sched := Sched { now : Z; finished : Z; idx : Z; finish : list Z }.

(** ** Reading the input

    The results of the successive calls of scanf: a number, or [None] where the
    text does not start with one. *)
Abbreviation tokens := (list (option Z)).

Definition scan_int (l : tokens) : option (Z * tokens) :=
  match l with Some z :: l => Some (z, l) | _ => None end.

(** @src assignments/a2/scheduling_rr/main.c 138-144 main *)
Fixpoint read_threads (n : nat) (l : tokens) : option (list Z * list Z * tokens) :=
  match n with
  | O => Some ([], [], l)
  | S n =>
    '(a, l) ← scan_int l;
    '(b, l) ← scan_int l;
    if b <=? 0 then None else
    '(ats, bts, l) ← read_threads n l;
    Some (a :: ats, b :: bts, l)
  end.

(** [None] is an exit with status 1. *)
(** @src assignments/a2/scheduling_rr/main.c 132-146 main *)
Definition read_input (l : tokens) : option Input :=
  '(threads, l) ← scan_int l;
  if (threads <? 1) || (threads >? 10) then None else
  '(ats, bts, l) ← read_threads (Z.to_nat threads) l;
  '(q, l) ← scan_int l;
  if q <=? 0 then None else Some (MkInput threads q ats bts).

(** ** The scheduler *)

(** The do-while loop; it leaves the new value of [i] and what it picked. *)
(** @src assignments/a2/scheduling_rr/main.c 211-214 main *)
Fixpoint pick_loop (fuel : nat) (inp : Input) (rem : list Z) (now start_i i : Z) : res (Z * Z) :=
  match fuel with
  | O => Err NoFuel
  | S fuel =>
    r ← aget rem i;
    a ← aget (at_ inp) i;
    if (r >? 0) && (a <=? now) then Ok (i, i) else
    let i := Z.rem (i + 1) (threads inp) in
    if i =? start_i then Ok (i, -1) else pick_loop fuel inp rem now start_i i
  end.

(** @src assignments/a2/scheduling_rr/main.c 218-224 main *)
Fixpoint next_arrival_loop (inp : Input) (rem : list Z) (ks : list Z) (next_arrival : Z) : res Z :=
  match ks with
  | [] => Ok next_arrival
  | k :: ks =>
    r ← aget rem k;
    a ← aget (at_ inp) k;
    next_arrival_loop inp rem ks
      (if (r >? 0) && ((next_arrival =? -1) || (a <? next_arrival)) then a else next_arrival)
  end.

Definition next_arrival (inp : Input) (rem : list Z) : res Z :=
  next_arrival_loop inp rem (iota 0 (Z.to_nat (threads inp))) (-1).

(** An iteration up to where it waits for a worker: the loop is over, it
    continues at a later time, or the picked thread has a quantum. *)
Inductive decision :=
| Finished
| Retry (sc : sched)
| Grant (picked quantum : Z) (sc : sched).

(** @src assignments/a2/scheduling_rr/main.c 207-231 main *)
Definition sched_pick (inp : Input) (rem : list Z) (sc : sched) : res decision :=
  if negb (finished sc <? threads inp) then Ok Finished else
  '(i, picked) ← pick_loop (Z.to_nat (threads inp)) inp rem (now sc) (idx sc) (idx sc);
  if picked =? -1 then
    na ← next_arrival inp rem;
    Ok (Retry (Sched (if na >? now sc then na else now sc) (finished sc) i (finish sc)))
  else
    r ← aget rem picked;
    Ok (Grant picked (if r <? q inp then r else q inp) (Sched (now sc) (finished sc) i (finish sc))).

(** @src assignments/a2/scheduling_rr/main.c 238-245 main *)
Definition sched_after (inp : Input) (rem : list Z) (picked consumed : Z) (sc : sched) : res sched :=
  now ← int_ (now sc + consumed);
  r ← aget rem picked;
  f ← aget (finish sc) picked;
  let done := (r =? 0) && (f =? -1) in
  Ok (Sched now (if done then finished sc + 1 else finished sc)
        (Z.rem (picked + 1) (threads inp))
        (if done then zset (finish sc) picked now else finish sc)).

(** ** A worker *)

(** What a worker does with the mutex held, from the test of line 89: it
    sleeps, returns, gives the turn back, or runs for a slice. *)
Inductive turn :=
| TSleep
| TReturn
| TSkip (sh : shared)
| TWork (slice : Z).

(** @src assignments/a2/scheduling_rr/main.c 89-104 rr_thread *)
Definition worker_turn (id : Z) (sh : shared) : res turn :=
  if negb (stop sh) && negb (turn_id sh =? id) then Ok TSleep else
  if stop sh then Ok TReturn else
  r ← aget (rem sh) id;
  if r <=? 0 then
    Ok (TSkip (Shared (rem sh) (-1) (grant sh) 0 true (all_started sh) (stop sh)))
  else
    let slice := grant sh in
    let slice := if slice <=? 0 then 1 else slice in
    let slice := if slice >? r then r else slice in
    Ok (TWork slice).

(** @src assignments/a2/scheduling_rr/main.c 119-123 rr_thread *)
Definition worker_done (id slice : Z) (sh : shared) : res shared :=
  r ← aget (rem sh) id;
  r ← int_ (r - slice);
  Ok (Shared (zset (rem sh) id r) (-1) (grant sh) slice true (all_started sh) (stop sh)).

(** ** The report *)
Inductive output :=
| Row (p bt tat wt : Z)
| AvgTurnaround (total n : Z)
| AvgWaiting (total n : Z).

(** @src assignments/a2/scheduling_rr/main.c 257-266 main *)
Fixpoint report_rows (inp : Input) (finish : list Z) (ps : list Z) (total_wt total_tat : Z) :
    res (list output * Z * Z) :=
  match ps with
  | [] => Ok ([], total_wt, total_tat)
  | p :: ps =>
    f ← aget finish p;
    a ← aget (at_ inp) p;
    b ← aget (bt inp) p;
    tat ← int_ (f - a);
    wt ← int_ (tat - b);
    let wt := if wt <? 0 then 0 else wt in
    total_wt ← int_ (total_wt + wt);
    total_tat ← int_ (total_tat + tat);
    '(rows, total_wt, total_tat) ← report_rows inp finish ps total_wt total_tat;
    Ok (Row (p + 1) b tat wt :: rows, total_wt, total_tat)
  end.

(** @src assignments/a2/scheduling_rr/main.c 257-268 main *)
Definition report (inp : Input) (finish : list Z) : res (list output) :=
  '(rows, total_wt, total_tat) ←
    report_rows inp finish (iota 0 (Z.to_nat (threads inp))) 0 0;
  Ok (rows ++ [AvgTurnaround total_tat (threads inp); AvgWaiting total_wt (threads inp)]).

(** ** The threads, interleaved *)
Inductive thread := Main | Worker (k : Z).
#[export] Instance thread_eq_dec : EqDecision thread.
Proof. solve_decision. Defined.

(** Where the main thread is. *)
(** @src assignments/a2/scheduling_rr/main.c 173-270 main *)
Inductive main_pc :=
| MCreate (k : Z)        (* about to create worker k *)
| MLock                  (* line 202: wants the mutex *)
| MLoop                  (* line 207, mutex held *)
| MTest (picked : Z)     (* line 236, mutex held *)
| MSleep (picked : Z)    (* in pthread_cond_wait(&cv_done) *)
| MReady (picked : Z)    (* woken, wants the mutex back *)
| MJoin (k : Z)          (* line 253 *)
| MReport                (* line 257 *)
| MReturn (status : Z) (out : list output)
| MFault.                (* an int overflowed *)

(** Where a worker is. *)
(** @src assignments/a2/scheduling_rr/main.c 80-129 rr_thread *)
Inductive worker_pc :=
| WNew                   (* not created yet *)
| WLock                  (* line 84: wants the mutex *)
| WBarrier               (* line 85, mutex held *)
| WBarSleep | WBarReady  (* in the wait of line 85; woken *)
| WTest                  (* line 89, mutex held *)
| WSleep | WReady        (* in the wait of line 90; woken *)
| WWork (slice : Z)      (* lines 109-117, no mutex *)
| WRelock (slice : Z)    (* line 119: wants the mutex *)
| WReturn
| WFault.

#[export] Instance worker_pc_eq_dec : EqDecision worker_pc.
Proof. solve_decision. Defined.

Record sys := Sys {
  sh : shared;
  sc : sched;
  mtx : option thread;
  mpc : main_pc;
  wpc : list worker_pc
}.

(** pthread_cond_broadcast(&cv_turn) *)
(** @src assignments/a2/scheduling_rr/main.c 204-204 main *)
Definition wake (w : worker_pc) : worker_pc :=
  match w with WBarSleep => WBarReady | WSleep => WReady | w => w end.
Definition broadcast_turn (ws : list worker_pc) : list worker_pc := wake <$> ws.

(** pthread_cond_signal(&cv_done): only the main thread ever waits on it. *)
(** @src assignments/a2/scheduling_rr/main.c 124-124 rr_thread *)
Definition signal_done (m : main_pc) : main_pc :=
  match m with MSleep p => MReady p | m => m end.

(** @src assignments/a2/scheduling_rr/main.c 158-171 main *)
Definition init_sh (inp : Input) : shared := Shared (bt inp) (-1) 0 0 false false false.
Definition init_sc (inp : Input) : sched :=
  Sched 0 0 0 (replicate (Z.to_nat (threads inp)) (-1)).
Definition init_sys (inp : Input) : sys :=
  Sys (init_sh inp) (init_sc inp) None (MCreate 0)
    (replicate (Z.to_nat (threads inp)) WNew).

(** One iteration of the main loop from line 207, with the mutex held; when the
    loop is over, [stop] is set, the workers are woken and the mutex is freed. *)
(** @src assignments/a2/scheduling_rr/main.c 207-251 main *)
Definition main_loop (inp : Input) (s : sys) : sys :=
  match sched_pick inp (rem (sh s)) (sc s) with
  | Err _ => Sys (sh s) (sc s) (mtx s) MFault (wpc s)
  | Ok Finished =>
    let sh' := Shared (rem (sh s)) (turn_id (sh s)) (grant (sh s)) (consumed (sh s))
                 (slice_done (sh s)) (all_started (sh s)) true in
    Sys sh' (sc s) None (MJoin 0) (broadcast_turn (wpc s))
  | Ok (Retry sc') => Sys (sh s) sc' (mtx s) MLoop (wpc s)
  | Ok (Grant picked g sc') =>
    let sh' := Shared (rem (sh s)) picked g (consumed (sh s)) false
                 (all_started (sh s)) (stop (sh s)) in
    Sys sh' sc' (mtx s) (MTest picked) (broadcast_turn (wpc s))
  end.

(** Line 236 with the mutex held, and what follows it. *)
(** @src assignments/a2/scheduling_rr/main.c 236-245 main *)
Definition main_test (inp : Input) (picked : Z) (s : sys) : sys :=
  if slice_done (sh s) then
    match sched_after inp (rem (sh s)) picked (consumed (sh s)) (sc s) with
    | Ok sc' => Sys (sh s) sc' (mtx s) MLoop (wpc s)
    | Err _ => Sys (sh s) (sc s) (mtx s) MFault (wpc s)
    end
  else Sys (sh s) (sc s) None (MSleep picked) (wpc s).

(** A worker at line 89 with the mutex held. *)
(** @src assignments/a2/scheduling_rr/main.c 87-107 rr_thread *)
Definition worker_test (id : Z) (s : sys) : sys :=
  match worker_turn id (sh s) with
  | Err _ => Sys (sh s) (sc s) (mtx s) (mpc s) (zset (wpc s) id WFault)
  | Ok TSleep => Sys (sh s) (sc s) None (mpc s) (zset (wpc s) id WSleep)
  | Ok TReturn => Sys (sh s) (sc s) None (mpc s) (zset (wpc s) id WReturn)
  | Ok (TSkip sh') => Sys sh' (sc s) (mtx s) (signal_done (mpc s)) (wpc s)
  | Ok (TWork slice) => Sys (sh s) (sc s) None (mpc s) (zset (wpc s) id (WWork slice))
  end.

(** A worker that has the mutex back after its slice. *)
(** @src assignments/a2/scheduling_rr/main.c 119-126 rr_thread *)
Definition worker_finish (id slice : Z) (s : sys) : sys :=
  match worker_done id slice (sh s) with
  | Err _ => Sys (sh s) (sc s) (Some (Worker id)) (mpc s) (zset (wpc s) id WFault)
  | Ok sh' =>
    Sys sh' (sc s) (Some (Worker id)) (signal_done (mpc s)) (zset (wpc s) id WTest)
  end.

(** The steps of the system.  The flag says whether the step is a spurious
    wakeup of a waiter. *)
(** @src assignments/a2/scheduling_rr/main.c 80-270 main *)
Inductive step (inp : Input) : bool → sys → sys → Prop :=
| step_create sh sc m ws k :
    k < threads inp →
    step inp false (Sys sh sc m (MCreate k) ws) (Sys sh sc m (MCreate (k + 1)) (zset ws k WLock))
| step_create_error sh sc m ws k :
    k < threads inp →
    step inp false (Sys sh sc m (MCreate k) ws) (Sys sh sc m (MReturn 1 []) ws)
| step_created sh sc m ws k :
    threads inp ≤ k →
    step inp false (Sys sh sc m (MCreate k) ws) (Sys sh sc m MLock ws)
| step_start h sc ws :
    step inp false (Sys h sc None MLock ws)
      (Sys (Shared (rem h) (turn_id h) (grant h) (consumed h) (slice_done h) true (stop h))
         sc (Some Main) MLoop (broadcast_turn ws))
| step_loop s : mpc s = MLoop → step inp false s (main_loop inp s)
| step_test s p : mpc s = MTest p → step inp false s (main_test inp p s)
| step_main_spurious sh sc m ws p :
    step inp true (Sys sh sc m (MSleep p) ws) (Sys sh sc m (MReady p) ws)
| step_main_lock sh sc ws p :
    step inp false (Sys sh sc None (MReady p) ws) (Sys sh sc (Some Main) (MTest p) ws)
| step_join sh sc m ws k :
    k < threads inp → zget ws k = Some WReturn →
    step inp false (Sys sh sc m (MJoin k) ws) (Sys sh sc m (MJoin (k + 1)) ws)
| step_joined sh sc m ws k :
    threads inp ≤ k →
    step inp false (Sys sh sc m (MJoin k) ws) (Sys sh sc m MReport ws)
| step_report sh sc m ws :
    step inp false (Sys sh sc m MReport ws)
      (Sys sh sc m (match report inp (finish sc) with Ok l => MReturn 0 l | Err _ => MFault end) ws)
| step_lock sh sc mp ws k :
    zget ws k = Some WLock →
    step inp false (Sys sh sc None mp ws) (Sys sh sc (Some (Worker k)) mp (zset ws k WBarrier))
| step_barrier_wait sh sc m mp ws k :
    zget ws k = Some WBarrier → all_started sh = false →
    step inp false (Sys sh sc m mp ws) (Sys sh sc None mp (zset ws k WBarSleep))
| step_barrier_pass sh sc m mp ws k :
    zget ws k = Some WBarrier → all_started sh = true →
    step inp false (Sys sh sc m mp ws) (Sys sh sc m mp (zset ws k WTest))
| step_barrier_spurious sh sc m mp ws k :
    zget ws k = Some WBarSleep →
    step inp true (Sys sh sc m mp ws) (Sys sh sc m mp (zset ws k WBarReady))
| step_barrier_lock sh sc mp ws k :
    zget ws k = Some WBarReady →
    step inp false (Sys sh sc None mp ws) (Sys sh sc (Some (Worker k)) mp (zset ws k WBarrier))
| step_turn s k : zget (wpc s) k = Some WTest → step inp false s (worker_test k s)
| step_turn_spurious sh sc m mp ws k :
    zget ws k = Some WSleep →
    step inp true (Sys sh sc m mp ws) (Sys sh sc m mp (zset ws k WReady))
| step_turn_lock sh sc mp ws k :
    zget ws k = Some WReady →
    step inp false (Sys sh sc None mp ws) (Sys sh sc (Some (Worker k)) mp (zset ws k WTest))
| step_worked sh sc m mp ws k g :
    zget ws k = Some (WWork g) →
    step inp false (Sys sh sc m mp ws) (Sys sh sc m mp (zset ws k (WRelock g)))
| step_finish s k g :
    zget (wpc s) k = Some (WRelock g) → mtx s = None →
    step inp false s (worker_finish k g s).

(** The return of main ends the process, whatever its threads are doing. *)
Definition running (s : sys) : bool :=
  match mpc s with MReturn _ _ => false | _ => true end.

(** [run inp n k s]: some [n] steps lead to [s], [k] of them spurious wakeups. *)
Inductive run (inp : Input) : nat → nat → sys → Prop :=
| run_init : run inp 0 0 (init_sys inp)
| run_step n k s s' : run inp n k s → running s = true → step inp false s s' →
    run inp (S n) k s'
| run_spurious n k s s' : run inp n k s → running s = true → step inp true s s' →
    run inp (S n) (S k) s'.

(** ** The sequential reference *)

(** An iteration in which the granted thread consumes its quantum at once;
    [None] when the loop is over. *)
Definition seq_step (inp : Input) (st : list Z * sched) : res (option (list Z * sched)) :=
  d ← sched_pick inp st.1 st.2;
  match d with
  | Finished => Ok None
  | Retry sc => Ok (Some (st.1, sc))
  | Grant p g sc =>
    r ← aget st.1 p;
    let rem := zset st.1 p (r - g) in
    sc ← sched_after inp rem p g sc;
    Ok (Some (rem, sc))
  end.

Fixpoint seq_loop (fuel : nat) (inp : Input) (st : list Z * sched) : res sched :=
  match fuel with
  | O => Err NoFuel
  | S fuel =>
    o ← seq_step inp st;
    match o with None => Ok st.2 | Some st => seq_loop fuel inp st end
  end.

Definition rr_run (fuel : nat) (inp : Input) : res (list output) :=
  sc ← seq_loop fuel inp (bt inp, init_sc inp);
  report inp (finish sc).

(** ** Well-formed inputs *)
Definition zsum (l : list Z) : Z := foldr Z.add 0 l.
Definition latest (inp : Input) : Z := foldr Z.max 0 (at_ inp).
Definition earliest (inp : Input) : Z := foldr Z.min 0 (at_ inp).

(** What [read_input] accepts. *)
Record wf (inp : Input) : Prop := {
  wf_threads : 1 ≤ threads inp ≤ 10;
  wf_q : 0 < q inp;
  wf_at : Z.of_nat (length (at_ inp)) = threads inp;
  wf_bt : Z.of_nat (length (bt inp)) = threads inp;
  wf_pos : ∀ k b, zget (bt inp) k = Some b → 0 < b
}.

(** The times and their totals are ints. *)
Definition fits (inp : Input) : Prop :=
  threads inp * (latest inp + zsum (bt inp) - earliest inp) ≤ INT_MAX.

Definition runnable (inp : Input) (rem : list Z) (now k : Z) : Prop :=
  ∃ r a, zget rem k = Some r ∧ zget (at_ inp) k = Some a ∧ 0 < r ∧ a ≤ now.

(** ** Sums and extrema over the threads *)
Lemma zsum_zset l k r r' :
  zget l k = Some r → zsum (zset l k r') = zsum l - r + r'.
Proof.
  unfold zget, zset. case_decide; [|done]. generalize (Z.to_nat k) as i. clear.
  assert (∀ (x : Z) l, zsum (x :: l) = x + zsum l) as Hc by done.
  induction l as [|x l IH]; intros [|i]; [done..| |]; cbn [lookup list_lookup].
  - intros [= ->]. change (<[0%nat := r']> (r :: l)) with (r' :: l). rewrite !Hc. lia.
  - intros Hi. change (<[S i := r']> (x :: l)) with (x :: <[i := r']> l).
    rewrite !Hc, (IH i Hi). lia.
Qed.

Lemma zsum_nonneg l : (∀ k r, zget l k = Some r → 0 ≤ r) → 0 ≤ zsum l.
Proof.
  induction l as [|x l IH]; cbn; intros H; [done|]. fold (zsum l).
  pose proof (H 0 x eq_refl). enough (0 ≤ zsum l) by lia. apply IH. intros k r Hk.
  pose proof (zget_some _ _ _ Hk). apply (H (k + 1)).
  unfold zget in *. rewrite decide_True by lia. rewrite decide_True in Hk by lia.
  by replace (Z.to_nat (k + 1)) with (S (Z.to_nat k)) by lia.
Qed.

Lemma zget_ge_zsum l k r :
  (∀ j r, zget l j = Some r → 0 ≤ r) → zget l k = Some r → r ≤ zsum l.
Proof.
  intros H Hk. pose proof (zget_some _ _ _ Hk).
  assert (0 ≤ zsum (zset l k 0)) as Hs.
  { apply zsum_nonneg. intros j s. rewrite zget_zset by done. case_decide; [|apply H]. intros [= <-]. lia. }
  rewrite (zsum_zset _ _ _ _ Hk) in Hs. lia.
Qed.

Lemma zget_elem {A} (l : list A) k x : zget l k = Some x → x ∈ l.
Proof. unfold zget. case_decide; [|done]. apply list_elem_of_lookup_2. Qed.

Lemma latest_ge inp k a : zget (at_ inp) k = Some a → a ≤ latest inp.
Proof.
  intros Hk%zget_elem. unfold latest. induction Hk as [x l|x y l _ IH]; cbn; lia.
Qed.
Lemma latest_nonneg inp : 0 ≤ latest inp.
Proof. unfold latest. induction (at_ inp); cbn; lia. Qed.
Lemma earliest_le inp k a : zget (at_ inp) k = Some a → earliest inp ≤ a.
Proof.
  intros Hk%zget_elem. unfold earliest. induction Hk as [x l|x y l _ IH]; cbn; lia.
Qed.
Lemma earliest_nonpos inp : earliest inp ≤ 0.
Proof. unfold earliest. induction (at_ inp); cbn; lia. Qed.

(** ** Picking the next thread *)
Lemma aget_some {A} (l : list A) k x : zget l k = Some x → aget l k = Ok x.
Proof. unfold aget. by intros ->. Qed.

(** Walking all the way round a cycle of [n] visits everyone. *)
Lemma cycle_visits n start k :
  0 < n → 0 ≤ k < n → ∃ j, 0 ≤ j < n ∧ (start + j) mod n = k.
Proof.
  intros. exists ((k - start) mod n). split; [apply Z.mod_pos_bound; lia|].
  rewrite Zplus_mod_idemp_r. replace (start + (k - start)) with k by lia.
  by apply Z.mod_small.
Qed.

Section pick.
Context (inp : Input) (Hwf : wf inp).

Lemma at_get k : 0 ≤ k < threads inp → ∃ a, zget (at_ inp) k = Some a.
Proof. intros. apply zget_is_some. rewrite (wf_at _ Hwf). lia. Qed.

Lemma bt_get k : 0 ≤ k < threads inp → ∃ b, zget (bt inp) k = Some b.
Proof. intros. apply zget_is_some. rewrite (wf_bt _ Hwf). lia. Qed.

(** [p] is the first runnable thread from [start] on, in cyclic order. *)
Definition first_from (rem : list Z) (now start p : Z) : Prop :=
  ∃ m, 0 ≤ m < threads inp ∧ p = (start + m) mod threads inp ∧
    runnable inp rem now p ∧
    ∀ j, 0 ≤ j < m → ¬ runnable inp rem now ((start + j) mod threads inp).

Lemma pick_loop_spec rem now start fuel m :
  Z.of_nat (length rem) = threads inp → 0 ≤ start < threads inp →
  0 ≤ m < threads inp → Z.of_nat fuel = threads inp - m →
  (∀ j, 0 ≤ j < m → ¬ runnable inp rem now ((start + j) mod threads inp)) →
  (∃ p, pick_loop fuel inp rem now start ((start + m) mod threads inp) = Ok (p, p) ∧
     first_from rem now start p) ∨
  (pick_loop fuel inp rem now start ((start + m) mod threads inp) = Ok (start, -1) ∧
     ∀ k, ¬ runnable inp rem now k).
Proof.
  intros Hl Hs. pose proof (wf_threads _ Hwf) as Hn. set (n := threads inp) in *.
  revert m. induction fuel as [|fuel IH]; intros m Hm Hf Hno; [lia|].
  cbn [pick_loop]. set (i := (start + m) mod n).
  assert (0 ≤ i < n) as Hi by (apply Z.mod_pos_bound; lia).
  destruct (zget_is_some rem i) as [r Hr]; [lia|]. destruct (at_get i Hi) as [a Ha].
  rewrite (aget_some _ _ _ Hr), (aget_some _ _ _ Ha). cbn.
  destruct ((r >? 0) && (a <=? now)) eqn:E.
  { left. exists i. split; [done|]. exists m. split_and!; [lia|lia|done| |done].
    exists r, a. repeat split; [done..| |]; lia. }
  assert (¬ runnable inp rem now i) as Hnot.
  { intros (r' & a' & Hr' & Ha' & ? & ?). simplify_eq. lia. }
  assert (Z.rem (i + 1) n = (start + (m + 1)) mod n) as Hstep.
  { rewrite Z.rem_mod_nonneg by lia. unfold i. rewrite Zplus_mod_idemp_l. by replace (start + m + 1) with (start + (m + 1)) by lia. }
  fold n. rewrite Hstep. destruct (decide (m + 1 = n)) as [Hend|Hend].
  - replace ((start + (m + 1)) mod n) with start.
    2:{ apply Z.mod_unique with 1; [left|]; lia. }
    rewrite Z.eqb_refl.
    right. split; [done|]. intros k Hk.
    destruct Hk as (r' & a' & Hr' & Ha' & Hk). pose proof (zget_some _ _ _ Hr') as Hkr. rewrite Hl in Hkr.
    destruct (cycle_visits n start k) as (j & Hj & <-); [lia|lia|].
    destruct (decide (j = m)) as [->|]; [|apply (Hno j); [lia|]].
    + apply Hnot. by exists r', a'.
    + by exists r', a'.
  - destruct (Z.eqb_spec ((start + (m + 1)) mod n) start) as [Eq|_].
    { exfalso. pose proof (Z.div_mod (start + (m + 1)) n ltac:(lia)) as Hdm. rewrite Eq in Hdm.
      destruct (decide ((start + (m + 1)) / n ≤ 0)); nia. }
    apply IH; [lia..|]. intros j Hj. destruct (decide (j = m)) as [->|]; [done|]. apply Hno. lia.
Qed.

Lemma pick_spec rem now start :
  Z.of_nat (length rem) = threads inp → 0 ≤ start < threads inp →
  (∃ p, pick_loop (Z.to_nat (threads inp)) inp rem now start start = Ok (p, p) ∧
     first_from rem now start p) ∨
  (pick_loop (Z.to_nat (threads inp)) inp rem now start start = Ok (start, -1) ∧
     ∀ k, ¬ runnable inp rem now k).
Proof.
  intros Hl Hs. pose proof (pick_loop_spec rem now start (Z.to_nat (threads inp)) 0 Hl Hs) as H.
  rewrite Z.add_0_r, Z.mod_small in H by lia. apply H; lia.
Qed.

(** The earliest arrival of a thread with work left, all of which arrive later
    than time 0 when it is asked for. *)
Lemma next_arrival_loop_spec rem ks acc :
  (∀ k, k ∈ ks → ∃ r, zget rem k = Some r) →
  (∀ k, k ∈ ks → ∃ a, zget (at_ inp) k = Some a) →
  (∀ k r a, k ∈ ks → zget rem k = Some r → zget (at_ inp) k = Some a → 0 < r → 0 < a) →
  acc = -1 ∨ 0 < acc →
  ∃ na, next_arrival_loop inp rem ks acc = Ok na ∧
    (acc ≠ -1 → 0 < na ≤ acc) ∧
    (∀ k r a, k ∈ ks → zget rem k = Some r → zget (at_ inp) k = Some a → 0 < r → 0 < na ≤ a) ∧
    (na = acc ∨ ∃ k r, k ∈ ks ∧ zget rem k = Some r ∧ zget (at_ inp) k = Some na ∧ 0 < r).
Proof.
  intros H1 H2 H3. revert acc. induction ks as [|k ks IH]; intros acc Hacc.
  { exists acc. split_and!; [done|lia| |by left]. by intros ??? ?%elem_of_nil. }
  cbn [next_arrival_loop]. destruct (H1 k) as [r Hr]; [left|]. destruct (H2 k) as [a Ha]; [left|].
  rewrite (aget_some _ _ _ Hr), (aget_some _ _ _ Ha). cbn.
  pose proof (H3 k r a ltac:(left) Hr Ha) as Hpos.
  set (acc' := if (r >? 0) && ((acc =? -1) || (a <? acc)) then a else acc).
  assert (acc' = acc ∨ 0 < r ∧ acc' = a) as Hc by (unfold acc'; destruct (r >? 0) eqn:?; destruct ((acc =? -1) || (a <? acc))%bool; cbn; lia).
  assert (0 < r → acc' ≠ -1 ∧ acc' ≤ a) as Hc2.
  { intros Hrp. unfold acc'. destruct (Z.gtb_spec r 0); [|lia]. cbn.
    destruct (Z.eqb_spec acc (-1)); cbn; [lia|]. destruct (Z.ltb_spec a acc); lia. }
  assert (acc ≠ -1 → acc' ≠ -1 ∧ acc' ≤ acc) as Hc3.
  { intros Hne. unfold acc'. destruct (Z.gtb_spec r 0); cbn; [|lia].
    destruct (Z.eqb_spec acc (-1)); cbn; [lia|]. destruct (Z.ltb_spec a acc); lia. }
  destruct (IH) with (acc := acc') as (na & -> & I1 & I2 & I3).
  { intros. apply H1. by right. } { intros. apply H2. by right. }
  { intros. eapply H3; [by right|done..]. } { lia. }
  exists na. split; [done|]. split_and!.
  - lia.
  - intros k' r' a' [->|Hin]%elem_of_cons Hr' Ha' Hp; simplify_eq; [lia|by eapply I2].
  - destruct I3 as [->|(k' & r' & ? & ?)]; [|right; exists k', r'; split; [by right|done]].
    destruct Hc as [->|[? ->]]; [by left|right]. exists k, r. split; [left|done].
Qed.

Lemma next_arrival_spec rem now :
  Z.of_nat (length rem) = threads inp → 0 ≤ now →
  (∀ k, ¬ runnable inp rem now k) → (∃ k r, zget rem k = Some r ∧ 0 < r) →
  ∃ na k, next_arrival inp rem = Ok na ∧ now < na ≤ latest inp ∧ runnable inp rem na k.
Proof.
  intros Hl Hnow Hno (k0 & r0 & Hr0 & Hp0). unfold next_arrival.
  assert (∀ k r a, zget rem k = Some r → zget (at_ inp) k = Some a → 0 < r → now < a) as Hlate.
  { intros k r a Hr Ha Hp. destruct (decide (a ≤ now)); [|lia]. exfalso. apply (Hno k). by exists r, a. }
  destruct (next_arrival_loop_spec rem (iota 0 (Z.to_nat (threads inp))) (-1)) as (na & -> & _ & H2 & H3).
  { intros k Hk%elem_of_iota. apply zget_is_some. lia. }
  { intros k Hk%elem_of_iota. apply at_get. lia. }
  { intros k r a _ Hr Ha Hp. pose proof (Hlate k r a Hr Ha Hp). lia. }
  { by left. }
  pose proof (zget_some _ _ _ Hr0). destruct (at_get k0) as [a0 Ha0]; [lia|].
  destruct (H2 k0 r0 a0) as [? _]; [apply elem_of_iota; lia|done..|].
  destruct H3 as [->|(k & r & _ & Hr & Ha & Hp)]; [lia|]. exists na, k. split_and!; [done|by eapply Hlate| |].
  - by eapply latest_ge.
  - exists r, na. repeat split; [done..|lia].
Qed.
End pick.

(** ** The sequential schedule *)

(** How many threads have no work left. *)
Definition zeros (rem : list Z) : Z := zsum ((λ r, c_bool (r =? 0)) <$> rem).

Lemma zget_fmap {A B} (f : A → B) l k : zget (f <$> l) k = f <$> zget l k.
Proof. unfold zget. case_decide; [apply list_lookup_fmap|done]. Qed.

Lemma zset_fmap {A B} (f : A → B) l k x : f <$> zset l k x = zset (f <$> l) k (f x).
Proof. unfold zset. case_decide; [apply list_fmap_insert|done]. Qed.

Lemma zeros_zset rem k r r' :
  zget rem k = Some r → zeros (zset rem k r') = zeros rem - c_bool (r =? 0) + c_bool (r' =? 0).
Proof.
  intros Hk. unfold zeros. rewrite zset_fmap. apply zsum_zset. by rewrite zget_fmap, Hk.
Qed.

Lemma zeros_all rem :
  (∃ k r, zget rem k = Some r ∧ r ≠ 0) ∧ zeros rem < Z.of_nat (length rem) ∨
  (∀ k r, zget rem k = Some r → r = 0) ∧ zeros rem = Z.of_nat (length rem).
Proof.
  assert (∀ A (x : A) l k, 0 ≤ k → zget (x :: l) (k + 1) = zget l k) as Hc.
  { intros A x l k Hk. unfold zget. rewrite !decide_True by lia.
    by replace (Z.to_nat (k + 1)) with (S (Z.to_nat k)) by lia. }
  induction rem as [|r rem IH].
  { right. split; [|done]. intros k r Hk%zget_some. cbn in Hk. lia. }
  assert (zeros (r :: rem) = c_bool (r =? 0) + zeros rem) as -> by done. cbn [length].
  destruct IH as [[(k & x & Hk & Hx) IH]|[H IH]].
  - left. split; [|unfold c_bool; destruct (r =? 0); lia].
    exists (k + 1), x. rewrite Hc; [done|]. apply zget_some in Hk. lia.
  - destruct (Z.eqb_spec r 0) as [->|Hr]; cbn.
    + right. split; [|lia]. intros k x Hk. pose proof (zget_some _ _ _ Hk).
      destruct (decide (k = 0)) as [->|]; [by injection Hk as <-|].
      replace k with (k - 1 + 1) in Hk by lia. rewrite Hc in Hk by lia. by eapply H.
    + left. split; [by exists 0, r|lia].
Qed.

Section seq.
Context (inp : Input) (Hwf : wf inp) (Hfits : fits inp).

(** The schedule so far: no thread ran before it arrived or for more than its
    burst, and the finished ones have their finish times. *)
Record good (st : list Z * sched) : Prop := {
  g_rem : Z.of_nat (length st.1) = threads inp;
  g_fin : Z.of_nat (length (finish st.2)) = threads inp;
  g_idx : 0 ≤ idx st.2 < threads inp;
  g_now : 0 ≤ now st.2 ≤ latest inp + (zsum (bt inp) - zsum st.1);
  g_sum : zsum st.1 ≤ zsum (bt inp);
  g_finished : finished st.2 = zeros st.1;
  g_thread k r a b f :
    zget st.1 k = Some r → zget (at_ inp) k = Some a → zget (bt inp) k = Some b →
    zget (finish st.2) k = Some f →
    0 ≤ r ≤ b ∧ (0 < r → f = -1) ∧
    (r = 0 → Z.max 0 a + b ≤ f ≤ now st.2) ∧
    (r < b → Z.max 0 a + (b - r) ≤ now st.2)
}.

Lemma good_rem_pos st k r : good st → zget st.1 k = Some r → 0 ≤ r.
Proof.
  intros Hg Hk. pose proof (zget_some _ _ _ Hk) as Hr. rewrite (g_rem _ Hg) in Hr.
  destruct (at_get inp Hwf k Hr) as [a Ha]. destruct (bt_get inp Hwf k Hr) as [b Hb].
  destruct (zget_is_some (finish st.2) k) as [f Hf]; [rewrite (g_fin _ Hg); lia|].
  by eapply (g_thread _ Hg k r a b f).
Qed.

Lemma work_nonneg : 0 ≤ zsum (bt inp).
Proof. apply zsum_nonneg. intros k r ?%(wf_pos _ Hwf). lia. Qed.

Lemma good_init : good (bt inp, init_sc inp).
Proof.
  pose proof (wf_threads _ Hwf). pose proof (latest_nonneg inp).
  split; cbn [fst snd init_sc now idx finish finished].
  - apply (wf_bt _ Hwf).
  - rewrite length_replicate. lia.
  - lia.
  - lia.
  - lia.
  - destruct (zeros_all (bt inp)) as [_|[Hall _]].
    + unfold zeros. assert (∀ x, x ∈ bt inp → 0 < x) as Hp.
      { intros x (i & Hi)%list_elem_of_lookup. apply (wf_pos _ Hwf (Z.of_nat i)).
        unfold zget. rewrite decide_True, Nat2Z.id by lia. done. }
      revert Hp. generalize (bt inp) as l. induction l as [|x l IH]; intros Hp; [done|].
      change (0 = c_bool (x =? 0) + zsum ((λ r, c_bool (r =? 0)) <$> l)).
      rewrite <- IH by (intros; apply Hp; by right).
      pose proof (Hp x ltac:(left)). destruct (Z.eqb_spec x 0); cbn; lia.
    + exfalso. destruct (bt_get inp Hwf 0) as [b Hb]; [lia|].
      pose proof (wf_pos _ Hwf _ _ Hb). pose proof (Hall _ _ Hb). lia.
  - intros k r a b f Hr Ha Hb Hf. simplify_eq. pose proof (wf_pos _ Hwf _ _ Hr).
    assert (f = -1) as ->.
    { apply zget_elem, elem_of_replicate in Hf. tauto. }
    lia.
Qed.

(** What an iteration does in a good state. *)
Lemma sched_pick_spec rem sc :
  good (rem, sc) →
  (sched_pick inp rem sc = Ok Finished ∧ (∀ k r, zget rem k = Some r → r = 0)) ∨
  (∃ na k, let sc' := Sched na (finished sc) (idx sc) (finish sc) in
     sched_pick inp rem sc = Ok (Retry sc') ∧ good (rem, sc') ∧ now sc < na ∧
     (∀ k, ¬ runnable inp rem (now sc) k) ∧ runnable inp rem na k) ∨
  (∃ p r, let g := Z.min r (q inp) in
     sched_pick inp rem sc = Ok (Grant p g (Sched (now sc) (finished sc) p (finish sc))) ∧
     first_from inp rem (now sc) (idx sc) p ∧ zget rem p = Some r ∧ 0 < g ≤ r).
Proof.
  intros Hg. pose proof (g_rem _ Hg) as Hl. pose proof (g_idx _ Hg) as Hi. pose proof (g_now _ Hg) as Hnow.
  pose proof (g_finished _ Hg) as Hfin. cbn [fst snd] in *. unfold sched_pick. rewrite Hfin.
  destruct (zeros_all rem) as [[Hex Hz]|[H0 Hz]].
  2:{ left. rewrite (proj2 (Z.ltb_ge _ _)) by lia. done. }
  right. rewrite (proj2 (Z.ltb_lt _ _)) by lia. cbn [negb].
  destruct (pick_spec inp Hwf rem (now sc) (idx sc) Hl Hi) as [(p & -> & Hp)|[-> Hno]]; cbn.
  - right. destruct Hp as (m & Hm & Hpm & Hrun & Hfirst).
    pose proof Hrun as (r & a & Hr & Ha & Hpos & Hle).
    destruct (Z.eqb_spec p (-1)) as [->|_]; [apply zget_some in Hr; lia|].
    rewrite (aget_some _ _ _ Hr). cbn. exists p, r. pose proof (wf_q _ Hwf).
    split_and!; [|by exists m|done|lia|lia]. rewrite <- Hfin.
    do 3 f_equal. destruct (Z.ltb_spec r (q inp)); lia.
  - left. destruct (next_arrival_spec inp Hwf rem (now sc) Hl) as (na & k & -> & Hna & Hk); [lia|done| |].
    { destruct Hex as (k & r & Hk & Hr). exists k, r. split; [done|].
      pose proof (good_rem_pos _ _ _ Hg Hk). lia. }
    cbn. exists na, k. rewrite <- Hfin.
    split_and!; [|destruct Hg; split; cbn in *|lia|done|done]; try done.
    + destruct (Z.gtb_spec na (now sc)); [done|lia].
    + lia.
    + intros k' r a b f Hr Ha Hb Hf. destruct (g_thread0 k' r a b f) as (?&?&?&?); [done..|]. lia.
Qed.

(** Granting a quantum to a runnable thread keeps the state good. *)
Lemma sched_after_spec rem sc p r g :
  good (rem, sc) → runnable inp rem (now sc) p → zget rem p = Some r → 0 < g ≤ r →
  let sc0 := Sched (now sc) (finished sc) p (finish sc) in
  ∃ sc', sched_after inp (zset rem p (r - g)) p g sc0 = Ok sc' ∧
    good (zset rem p (r - g), sc') ∧ idx sc' = (p + 1) mod threads inp.
Proof.
  intros Hg (r' & a & Hr' & Ha & _ & Hat) Hr Hgr. assert (r' = r) as -> by congruence. clear Hr'. cbn zeta.
  pose proof (zget_some _ _ _ Hr) as Hp. pose proof (wf_threads _ Hwf) as Hn.
  destruct Hg as [Hl Hlf Hi Hnow Hsum Hfin Hthr]; cbn [fst snd] in *. rewrite Hl in Hp.
  destruct (bt_get inp Hwf p Hp) as [b Hb].
  destruct (zget_is_some (finish sc) p) as [f Hf]; [lia|].
  destruct (Hthr p r a b f Hr Ha Hb Hf) as (Hb1 & Hf1 & _ & Hrun).
  assert (now sc + g ≤ latest inp + (zsum (bt inp) - zsum (zset rem p (r - g)))) as Hnow'.
  { rewrite (zsum_zset _ _ _ _ Hr). lia. }
  assert (0 ≤ zsum (zset rem p (r - g))) as Hpos.
  { apply zsum_nonneg. intros k x. rewrite zget_zset by lia. case_decide; [intros [= <-]; lia|].
    intros Hk. pose proof (zget_some _ _ _ Hk) as Hkr. rewrite Hl in Hkr.
    destruct (at_get inp Hwf k Hkr) as [a' ?]. destruct (bt_get inp Hwf k Hkr) as [b' ?].
    destruct (zget_is_some (finish sc) k) as [f' ?]; [lia|]. by eapply (Hthr k x a' b' f'). }
  unfold sched_after, int_. cbn [now finished idx finish].
  pose proof (latest_nonneg inp). pose proof (earliest_nonpos inp). unfold fits in Hfits.
  assert (latest inp + zsum (bt inp) - earliest inp ≤ INT_MAX) by nia.
  rewrite decide_True by (unfold INT_MIN; lia). cbn.
  rewrite (aget_some (zset rem p (r - g)) p (r - g)) by (apply zget_zset_eq; lia). rewrite (aget_some _ _ _ Hf). cbn.
  rewrite (Hf1 ltac:(lia)) in Hf |- *. eexists. split; [done|].
  rewrite Z.rem_mod_nonneg by lia. split; [|done].
  rewrite Z.eqb_refl, andb_true_r.
  split; cbn [fst snd now finished idx finish].
  - by rewrite length_zset.
  - destruct (r - g =? 0); [by rewrite length_zset|done].
  - apply Z.mod_pos_bound. lia.
  - lia.
  - rewrite (zsum_zset _ _ _ _ Hr). lia.
  - rewrite (zeros_zset _ _ _ _ Hr). destruct (Z.eqb_spec r 0); [lia|].
    destruct (r - g =? 0); cbn; lia.
  - intros k x a' b' f' Hk Ha' Hb' Hf'. rewrite zget_zset in Hk by lia.
    case_decide as E; [subst k; injection Hk as <-|].
    + simplify_eq. destruct (Z.eqb_spec (r - g) 0).
      * rewrite zget_zset_eq in Hf' by lia. injection Hf' as <-. lia.
      * simplify_eq. lia.
    + assert (zget (finish sc) k = Some f') as Hfk.
      { destruct (r - g =? 0); [|done]. by rewrite zget_zset_ne in Hf' by done. }
      destruct (Hthr k x a' b' f') as (?&?&?&?); [done..|]. lia.
Qed.

(** An iteration either ends the loop with all work done, or leads to a good
    state with less to do. *)
Definition stalled (st : list Z * sched) : Z :=
  match sched_pick inp st.1 st.2 with Ok (Retry _) => 1 | _ => 0 end.
Definition todo (st : list Z * sched) : Z := 2 * zsum st.1 + stalled st.

Lemma stalled_range st : 0 ≤ stalled st ≤ 1.
Proof. unfold stalled. destruct (sched_pick _ _ _) as [[]|]; lia. Qed.

Lemma stalled_runnable rem sc k : good (rem, sc) → runnable inp rem (now sc) k → stalled (rem, sc) = 0.
Proof.
  intros Hg Hk. unfold stalled; cbn [fst snd].
  destruct (sched_pick_spec rem sc Hg) as [[-> _]|[(?&?&_&_&_&Hno&_)|(?&?&->&_)]]; [done| |done].
  by destruct (Hno k).
Qed.

Lemma seq_grant rem sc p r :
  good (rem, sc) → let g := Z.min r (q inp) in let sc0 := Sched (now sc) (finished sc) p (finish sc) in
  sched_pick inp rem sc = Ok (Grant p g sc0) → runnable inp rem (now sc) p →
  zget rem p = Some r → 0 < g ≤ r →
  ∃ sc', seq_step inp (rem, sc) = Ok (Some (zset rem p (r - g), sc')) ∧
    sched_after inp (zset rem p (r - g)) p g sc0 = Ok sc' ∧
    good (zset rem p (r - g), sc') ∧ idx sc' = (p + 1) mod threads inp ∧ now sc ≤ now sc'.
Proof.
  intros Hg g sc0 Hpick Hrun Hr Hgr.
  destruct (sched_after_spec rem sc p r g Hg Hrun Hr Hgr) as (sc' & Hafter & Hgood & Hidx).
  exists sc'. fold sc0 in Hafter. split_and!; [|done..|].
  - unfold seq_step; cbn [fst snd]. rewrite Hpick. cbn. rewrite (aget_some _ _ _ Hr). cbn.
    by rewrite Hafter.
  - unfold sched_after in Hafter.
    apply bind_ok in Hafter as (now' & Hn & Hafter). apply bind_ok in Hafter as (? & _ & Hafter).
    apply bind_ok in Hafter as (? & _ & Hafter). injection Hafter as <-.
    unfold int_ in Hn. case_decide; [|done]. injection Hn as <-. cbn. lia.
Qed.

Lemma seq_step_spec st :
  good st →
  (seq_step inp st = Ok None ∧ sched_pick inp st.1 st.2 = Ok Finished ∧
     (∀ k r, zget st.1 k = Some r → r = 0)) ∨
  (∃ st', seq_step inp st = Ok (Some st') ∧ good st' ∧ todo st' < todo st).
Proof.
  destruct st as [rem sc]. intros Hg.
  destruct (sched_pick_spec rem sc Hg) as [[E H]|[(na & k & E & Hg' & Hna & Hno & Hrun)|(p & r & E & Hf & Hr & Hgr)]].
  - left. unfold seq_step; cbn [fst snd]. by rewrite E.
  - right. eexists. unfold seq_step; cbn [fst snd]. rewrite E. cbn.
    split_and!; [done|done|]. unfold todo; cbn [fst].
    rewrite (stalled_runnable rem _ k Hg' Hrun). unfold stalled; cbn [fst snd]. rewrite E. lia.
  - right. destruct Hf as (m & _ & _ & Hrun & _).
    destruct (seq_grant rem sc p r Hg E Hrun Hr Hgr) as (sc' & -> & _ & Hg' & _).
    eexists. split_and!; [done|done|]. unfold todo; cbn [fst].
    pose proof (stalled_range (zset rem p (r - r `min` q inp), sc')).
    pose proof (stalled_range (rem, sc)). rewrite (zsum_zset _ _ _ _ Hr). lia.
Qed.

(** The states the loop goes through. *)
Inductive seq_reach : list Z * sched → Prop :=
| seq_init : seq_reach (bt inp, init_sc inp)
| seq_next st st' : seq_reach st → seq_step inp st = Ok (Some st') → seq_reach st'.

Lemma seq_reach_good st : seq_reach st → good st.
Proof.
  induction 1 as [|st st' _ IH E]; [apply good_init|].
  destruct (seq_step_spec st IH) as [[E' _]|(? & E' & ? & _)]; rewrite E in E'; by simplify_eq.
Qed.

Lemma seq_loop_total st fuel :
  seq_reach st → todo st < Z.of_nat fuel →
  ∃ rem sc, seq_loop fuel inp st = Ok sc ∧ seq_reach (rem, sc) ∧
    sched_pick inp rem sc = Ok Finished ∧ (∀ k r, zget rem k = Some r → r = 0).
Proof.
  revert st. induction fuel as [|fuel IH]; intros st Hst Hf.
  { pose proof (stalled_range st). pose proof (zsum_nonneg st.1) as Hz. unfold todo in Hf.
    exfalso. enough (0 ≤ zsum st.1) by lia. apply Hz. intros k r Hk.
    eapply good_rem_pos; [by apply seq_reach_good|exact Hk]. }
  cbn [seq_loop].
  destruct (seq_step_spec st) as [(-> & E & H0)|(st' & E & _ & Hlt)]; [by apply seq_reach_good| |].
  - destruct st as [rem sc]. by exists rem, sc.
  - rewrite E. cbn. apply IH; [by eapply seq_next|lia].
Qed.

(** ... and it ends in the same state from each of them. *)
Lemma seq_loop_prefix st :
  seq_reach st → ∃ n, ∀ fuel, seq_loop (n + fuel) inp (bt inp, init_sc inp) = seq_loop fuel inp st.
Proof.
  induction 1 as [|st st' _ [n IH] E]; [by exists O|].
  exists (n + 1)%nat. intros fuel. replace (n + 1 + fuel)%nat with (n + S fuel)%nat by lia.
  rewrite IH. cbn [seq_loop]. by rewrite E.
Qed.

Lemma seq_loop_mono fuel fuel' st sc :
  seq_loop fuel inp st = Ok sc → (fuel ≤ fuel')%nat → seq_loop fuel' inp st = Ok sc.
Proof.
  revert fuel' st. induction fuel as [|fuel IH]; intros [|fuel'] st H Hle; [done|done|lia|].
  cbn [seq_loop] in *. destruct (seq_step inp st) as [[st'|]|]; cbn in *; [|done..].
  apply IH; [done|lia].
Qed.

(** ** The report *)

(** The turnaround time the report gives thread [k]. *)
Definition turnaround (finish : list Z) (k : Z) : Z :=
  default 0 (zget finish k) - default 0 (zget (at_ inp) k).

Definition row (finish : list Z) (k : Z) : output :=
  let b := default 0 (zget (bt inp) k) in
  Row (k + 1) b (turnaround finish k) (turnaround finish k - b).

Lemma report_rows_spec rem sc ks wt tat T :
  good (rem, sc) → (∀ k r, zget rem k = Some r → r = 0) →
  (∀ k, k ∈ ks → 0 ≤ k < threads inp) →
  T = latest inp + zsum (bt inp) - earliest inp →
  0 ≤ wt ≤ tat → tat + Z.of_nat (length ks) * T ≤ INT_MAX →
  report_rows inp (finish sc) ks wt tat =
    Ok (row (finish sc) <$> ks,
        wt + zsum ((λ k, turnaround (finish sc) k - default 0 (zget (bt inp) k)) <$> ks),
        tat + zsum (turnaround (finish sc) <$> ks)).
Proof.
  intros Hg Hz Hks HT. pose proof work_nonneg. pose proof (latest_nonneg inp). pose proof (earliest_nonpos inp).
  revert wt tat. induction ks as [|k ks IH]; intros wt tat Hwt Htat.
  { cbn. by rewrite !Z.add_0_r. }
  cbn [report_rows fmap list_fmap length] in *.
  pose proof (Hks k ltac:(left)) as Hk. destruct (at_get inp Hwf k Hk) as [a Ha].
  destruct (bt_get inp Hwf k Hk) as [b Hb]. pose proof (wf_pos _ Hwf _ _ Hb).
  destruct Hg as [Hl Hlf _ Hnow _ _ Hthr]; cbn [fst snd] in *.
  destruct (zget_is_some (finish sc) k) as [f Hf]; [lia|].
  destruct (zget_is_some rem k) as [r Hr]; [lia|]. pose proof (Hz _ _ Hr) as ->.
  destruct (Hthr k 0 a b f Hr Ha Hb Hf) as (_ & _ & Hf1 & _). specialize (Hf1 eq_refl).
  assert (zsum rem = 0) as Hsum.
  { clear -Hz. assert (∀ x, x ∈ rem → x = 0) as Hx.
    { intros x (i & Hi)%list_elem_of_lookup. apply (Hz (Z.of_nat i)).
      unfold zget. rewrite decide_True, Nat2Z.id by lia. done. }
    clear Hz. induction rem as [|x l IH]; [done|]. cbn. fold (zsum l).
    rewrite IH by (intros; apply Hx; by right). pose proof (Hx x ltac:(left)). lia. }
  rewrite Hsum in Hnow. pose proof (earliest_le inp k a Ha).
  rewrite (aget_some _ _ _ Hf), (aget_some _ _ _ Ha), (aget_some _ _ _ Hb). cbn.
  assert (turnaround (finish sc) k = f - a) as Et by (unfold turnaround; by rewrite Hf, Ha).
  unfold row at 1. rewrite Et, Hb. cbn [default].
  assert (0 ≤ Z.of_nat (length ks) * T) by (apply Z.mul_nonneg_nonneg; lia).
  assert (b ≤ f - a ≤ T) by lia.
  assert (tat + (f - a) + Z.of_nat (length ks) * T ≤ INT_MAX) by nia.
  rewrite (int_ok (f - a)) by (unfold INT_MIN; lia). cbn.
  rewrite (int_ok (f - a - b)) by (unfold INT_MIN; lia). cbn.
  destruct (Z.ltb_spec (f - a - b) 0); [lia|].
  rewrite (int_ok (wt + (f - a - b))) by (unfold INT_MIN; lia). cbn.
  rewrite (int_ok (tat + (f - a))) by (unfold INT_MIN; lia). cbn.
  rewrite IH; [|by intros; apply Hks; right|lia|lia].
  unfold zsum. cbn. by rewrite !Z.add_assoc.
Qed.
End seq.

(** C12. The round-robin schedule is correct for every accepted input whose times
    are ints: the loop ends, and the report has a row per thread whose turnaround
    time is at least its burst (also counted from time 0, where scheduling
    starts) and at most what running all the work after the latest arrival
    takes, whose waiting time is the difference, and the totals are the sums. *)
Theorem rr_run_correct inp fuel :
  wf inp → fits inp → 2 * zsum (bt inp) + 1 < Z.of_nat fuel →
  ∃ rows tat wt,
    rr_run fuel inp =
      Ok (rows ++ [AvgTurnaround (zsum tat) (threads inp); AvgWaiting (zsum wt) (threads inp)]) ∧
    Z.of_nat (length rows) = threads inp ∧ length tat = length rows ∧ length wt = length rows ∧
    ∀ k a b, zget (at_ inp) k = Some a → zget (bt inp) k = Some b →
      ∃ t, zget tat k = Some t ∧ zget wt k = Some (t - b) ∧
        zget rows k = Some (Row (k + 1) b t (t - b)) ∧
        Z.max 0 a + b - a ≤ t ≤ latest inp + zsum (bt inp) - a.
Proof.
  intros Hwf Hfits Hfuel. pose proof (stalled_range inp (bt inp, init_sc inp)).
  destruct (seq_loop_total inp Hwf Hfits (bt inp, init_sc inp) fuel) as (rem & sc & Hloop & Hreach & _ & Hz).
  { constructor. } { unfold todo; cbn [fst]. lia. }
  pose proof (seq_reach_good inp Hwf Hfits _ Hreach) as Hg.
  pose proof (wf_threads _ Hwf) as Hn. unfold rr_run, report. rewrite Hloop. cbn.
  set (ks := iota 0 (Z.to_nat (threads inp))).
  assert (∀ k, k ∈ ks → 0 ≤ k < threads inp) as Hks by (intros k ?%elem_of_iota; lia).
  assert (length ks = Z.to_nat (threads inp)) as Hlen by apply length_iota.
  rewrite (report_rows_spec inp Hwf rem sc ks 0 0 _ Hg Hz Hks eq_refl);
    [|lia|rewrite Hlen, Z2Nat.id by lia; exact Hfits]. cbn -[zsum].
  eexists _, _, _. split; [reflexivity|]. rewrite !length_fmap, Hlen. split_and!; [lia|done..|].
  intros k a b Ha Hb. rewrite !zget_fmap.
  pose proof (zget_some _ _ _ Ha) as Hk. rewrite (wf_at _ Hwf) in Hk.
  assert (zget ks k = Some k) as ->.
  { unfold zget, ks. rewrite decide_True, lookup_iota by lia. f_equal. lia. }
  cbn -[Z.max]. exists (turnaround inp (finish sc) k). unfold row. rewrite Hb. split_and!; [done..| |].
  all: destruct Hg as [Hl Hlf _ Hnow _ _ Hthr]; cbn [fst snd] in *.
  all: destruct (zget_is_some rem k) as [r Hr]; [lia|]; pose proof (Hz _ _ Hr) as ->.
  all: destruct (zget_is_some (finish sc) k) as [f Hf]; [lia|].
  all: destruct (Hthr k 0 a b f Hr Ha Hb Hf) as (_ & _ & Hf1 & _); specialize (Hf1 eq_refl).
  all: assert (0 ≤ zsum rem) by (apply zsum_nonneg; intros j x Hj; rewrite (Hz _ _ Hj); lia).
  all: unfold turnaround; rewrite Hf, Ha; cbn; lia.
Qed.

Definition ex_input : Input := MkInput 3 3 [0; 5; 1] [7; 4; 2].
Lemma ex_input_wf : wf ex_input.
Proof.
  split; cbn; try lia. intros k b Hk%zget_elem. unfold ex_input in Hk. cbn in Hk.
  repeat (apply elem_of_cons in Hk as [->|Hk]; [lia|]). by apply elem_of_nil in Hk.
Qed.
Lemma ex_input_fits : fits ex_input.
Proof. vm_compute. discriminate. Qed.

Lemma rr_run_correct_witness :
  ∃ rows tat wt, rr_run 28 ex_input =
    Ok (rows ++ [AvgTurnaround (zsum tat) 3; AvgWaiting (zsum wt) 3]).
Proof.
  destruct (rr_run_correct ex_input 28 ex_input_wf ex_input_fits) as (rows & tat & wt & H & _);
    [reflexivity|]. exists rows, tat, wt. exact H.
Defined.

(** ** Fairness *)
Section fairness.
Context (inp : Input) (Hwf : wf inp) (Hfits : fits inp).

(** A run of the loop and the threads it grants quanta to. *)
Inductive grants : list Z * sched → list Z → list Z * sched → Prop :=
| grants_nil st : grants st [] st
| grants_retry st sc' ps st' :
    sched_pick inp st.1 st.2 = Ok (Retry sc') → grants (st.1, sc') ps st' → grants st ps st'
| grants_grant st p g sc' st1 ps st' :
    sched_pick inp st.1 st.2 = Ok (Grant p g sc') → seq_step inp st = Ok (Some st1) →
    grants st1 ps st' → grants st (p :: ps) st'.

Lemma passed_over rem sc ps st' k :
  good inp (rem, sc) → runnable inp rem (now sc) k → grants (rem, sc) ps st' → k ∉ ps →
  Z.of_nat (length ps) ≤ (k - idx sc) mod threads inp.
Proof.
  intros Hg Hk H. remember (rem, sc) as st eqn:Est. revert rem sc Est Hg Hk.
  pose proof (wf_threads _ Hwf) as Hn.
  induction H as [st|st sc' ps st' E _ _|st p g sc' st1 ps st' E Estep _ IH];
    intros rem sc -> Hg Hk Hnot.
  { cbn. pose proof (Z.mod_pos_bound (k - idx sc) (threads inp)). lia. }
  { cbn [fst snd] in E. destruct (sched_pick_spec inp Hwf rem sc Hg) as [[E' _]|[(?&?&_&_&_&Hno&_)|(?&?&E'&_)]].
    - congruence.
    - by destruct (Hno k).
    - congruence. }
  cbn [fst snd] in E. apply not_elem_of_cons in Hnot as [Hne Hnot].
  destruct (sched_pick_spec inp Hwf rem sc Hg) as [[E' _]|[(?&?&_&_&_&Hno&_)|(p' & r & E' & Hfirst & Hr & Hgr)]];
    [congruence|by destruct (Hno k)|].
  rewrite E in E'. injection E' as <- -> ->. destruct Hfirst as (m & Hm & Hpm & Hrun & Hbefore).
  destruct (seq_grant inp Hwf Hfits rem sc p r Hg E Hrun Hr Hgr) as (sc1 & E1 & _ & Hg1 & Hidx & Hnow).
  rewrite E1 in Estep. injection Estep as <-.
  assert (runnable inp (zset rem p (r - r `min` q inp)) (now sc1) k) as Hk1.
  { destruct Hk as (rk & ak & Hrk & Hak & ? & ?). exists rk, ak.
    rewrite zget_zset_ne by done. repeat split; [done..|lia]. }
  specialize (IH _ _ eq_refl Hg1 Hk1 Hnot). rewrite Hidx in IH.
  set (n := threads inp) in *. cbn [length].
  set (d := (k - idx sc) mod n) in *. assert (0 ≤ d < n) as Hd by (apply Z.mod_pos_bound; lia).
  assert ((idx sc + d) mod n = k) as Hdk.
  { unfold d. rewrite Zplus_mod_idemp_r. replace (idx sc + (k - idx sc)) with k by lia.
    apply Z.mod_small. destruct Hk as (rk & _ & Hrk & _). apply zget_some in Hrk.
    pose proof (g_rem _ _ Hg) as Hl. cbn [fst] in Hl. unfold n. lia. }
  assert (m < d).
  { destruct (decide (d < m)) as [Hlt|]; [exfalso; apply (Hbefore d); [lia|by rewrite Hdk]|].
    destruct (decide (d = m)) as [Heq|]; [|lia]. exfalso. apply Hne. rewrite Hpm, <- Heq. done. }
  assert ((k - (p + 1) mod n) mod n = d - m - 1) as E2; [|lia].
  rewrite Hpm, Zplus_mod_idemp_l, Zminus_mod_idemp_r. rewrite <- Hdk, Zminus_mod_idemp_l.
  replace (idx sc + d - (idx sc + m + 1)) with (d - m - 1) by lia. apply Z.mod_small. lia.
Qed.
End fairness.

(** C13. No runnable thread waits for more than n - 1 quanta of other threads:
    in any stretch of the schedule from a state where thread [k] has arrived and
    has work left, fewer than n quanta are granted before [k] gets one. *)
Theorem rr_bounded_waiting inp st ps st' k :
  wf inp → fits inp → seq_reach inp st → runnable inp st.1 (now st.2) k →
  grants inp st ps st' → k ∉ ps → Z.of_nat (length ps) < threads inp.
Proof.
  intros Hwf Hfits Hst Hk Hps Hnot. destruct st as [rem sc].
  pose proof (passed_over inp Hwf Hfits rem sc ps st' k (seq_reach_good inp Hwf Hfits _ Hst) Hk Hps Hnot).
  pose proof (wf_threads _ Hwf). pose proof (Z.mod_pos_bound (k - idx sc) (threads inp)). lia.
Qed.

Definition ex_st : list Z * sched := ([4; 4; 2], Sched 3 0 1 [-1; -1; -1]).
Lemma rr_bounded_waiting_witness : Z.of_nat (length [2]) < 3.
Proof.
  apply (rr_bounded_waiting ex_input ex_st [2] ([4; 4; 0], Sched 5 1 0 [-1; -1; 5]) 0).
  - apply ex_input_wf.
  - apply ex_input_fits.
  - apply seq_next with (bt ex_input, init_sc ex_input); [constructor|reflexivity].
  - exists 4, 0. repeat split; vm_compute; discriminate || reflexivity.
  - eapply grants_grant; [reflexivity|reflexivity|apply grants_nil].
  - intros H. apply list_elem_of_singleton in H. discriminate.
Defined.

(** ** The threads implement the sequential schedule *)
Definition main_holds (m : main_pc) : bool :=
  match m with MLoop | MTest _ => true | _ => false end.
Definition worker_holds (w : worker_pc) : bool :=
  match w with WBarrier | WTest => true | _ => false end.

Section interleaving.
Context (inp : Input) (Hwf : wf inp) (Hfits : fits inp).

(** What a worker's place says about the shared state: a sleeping worker is not
    the one whose turn it is (no wakeup is lost), and only the one whose turn
    it is works, for the quantum it was granted. *)
Definition worker_ok (h : shared) (m : option thread) (mp : main_pc) (k : Z) (w : worker_pc) : Prop :=
  worker_holds w = bool_decide (m = Some (Worker k)) ∧
  match mp with
  | MCreate c => w = WNew ↔ c ≤ k
  | MJoin c => w ≠ WNew ∧ (k < c → w = WReturn)
  | MReturn _ _ => True
  | _ => w ≠ WNew
  end ∧
  match w with
  | WNew | WLock | WBarrier | WBarReady => True
  | WBarSleep => all_started h = false
  | WTest | WReady => all_started h = true
  | WSleep => all_started h = true ∧ stop h = false ∧ turn_id h ≠ k
  | WWork g | WRelock g => turn_id h = k ∧ grant h = g ∧ all_started h = true ∧ stop h = false
  | WReturn => all_started h = true ∧ stop h = true
  | WFault => False
  end.

(** What the main thread's place says: in the loop the state is one the
    sequential loop goes through, and while it waits for worker [p] it is one
    grant later, before or after the worker's update. *)
Definition main_ok (h : shared) (c : sched) (mp : main_pc) : Prop :=
  match mp with
  | MCreate k => 0 ≤ k ≤ threads inp ∧ h = init_sh inp ∧ c = init_sc inp
  | MLock => h = init_sh inp ∧ c = init_sc inp
  | MLoop => all_started h = true ∧ stop h = false ∧ turn_id h = -1 ∧ seq_reach inp (rem h, c)
  | MTest p | MSleep p | MReady p =>
    all_started h = true ∧ stop h = false ∧
    ∃ rem0 c0 r, let g := Z.min r (q inp) in
      seq_reach inp (rem0, c0) ∧ sched_pick inp rem0 c0 = Ok (Grant p g c) ∧
      c = Sched (now c0) (finished c0) p (finish c0) ∧
      runnable inp rem0 (now c0) p ∧ zget rem0 p = Some r ∧ 0 < g ≤ r ∧
      (slice_done h = false ∧ turn_id h = p ∧ grant h = g ∧ rem h = rem0 ∨
       slice_done h = true ∧ turn_id h = -1 ∧ consumed h = g ∧ rem h = zset rem0 p (r - g) ∧
         mp ≠ MSleep p)
  | MJoin _ | MReport =>
    all_started h = true ∧ stop h = true ∧ turn_id h = -1 ∧ seq_reach inp (rem h, c) ∧
    sched_pick inp (rem h) c = Ok Finished
  | MReturn 0 out =>
    seq_reach inp (rem h, c) ∧ sched_pick inp (rem h) c = Ok Finished ∧
    report inp (finish c) = Ok out
  | MReturn status out => status = 1 ∧ out = []
  | MFault => False
  end.

Record sys_ok (s : sys) : Prop := {
  ok_len : Z.of_nat (length (wpc s)) = threads inp;
  ok_mtx : main_holds (mpc s) = bool_decide (mtx s = Some Main);
  ok_owner k : mtx s = Some (Worker k) → 0 ≤ k < threads inp;
  ok_joined c : mpc s = MJoin c → 0 ≤ c;
  ok_main : main_ok (sh s) (sc s) (mpc s);
  ok_worker k w : zget (wpc s) k = Some w → worker_ok (sh s) (mtx s) (mpc s) k w
}.

Lemma sys_ok_init : sys_ok (init_sys inp).
Proof.
  pose proof (wf_threads _ Hwf). split; cbn.
  - rewrite length_replicate. lia.
  - done.
  - done.
  - done.
  - split_and!; [lia..|done|done].
  - intros k w Hk. pose proof (zget_some _ _ _ Hk). apply zget_elem, elem_of_replicate in Hk as [-> _].
    split_and!; [done| |done]. split; [lia|done].
Qed.

(** A worker moves: the others stay as they are. *)
Lemma worker_step h h' c m m' mp mp' ws k w w' :
  sys_ok (Sys h c m mp ws) → zget ws k = Some w →
  main_holds mp' = bool_decide (m' = Some Main) →
  (∀ j, m' = Some (Worker j) → j = k ∨ m = Some (Worker j)) →
  (∀ c, mp' = MJoin c → mp = MJoin c) →
  main_ok h' c mp' → worker_ok h' m' mp' k w' →
  (∀ j v, 0 ≤ j → j ≠ k → worker_ok h m mp j v → worker_ok h' m' mp' j v) →
  sys_ok (Sys h' c m' mp' (zset ws k w')).
Proof.
  intros [Hl Hm Ho Hj Hmain Hw] Hk Hm' Ho' Hj' Hmain' Hself Hother; cbn in *.
  pose proof (zget_some _ _ _ Hk). split; cbn.
  - by rewrite length_zset.
  - done.
  - intros j [->|?]%Ho'; [lia|by apply Ho].
  - intros c0 E. eapply Hj, Hj', E.
  - done.
  - intros j v. rewrite zget_zset by lia. destruct (decide (k = j)) as [E|E]; intros Hv.
    + injection Hv as <-. by subst j.
    + apply Hother; [apply zget_some in Hv; lia|done|by apply Hw].
Qed.

(** Only the owner of the mutex sees it change hands. *)
Lemma worker_ok_mtx h m m' mp k w :
  worker_ok h m mp k w → m ≠ Some (Worker k) → m' ≠ Some (Worker k) → worker_ok h m' mp k w.
Proof.
  intros (H & ?) Hm Hm'. split; [|done]. rewrite H. by rewrite !bool_decide_eq_false_2.
Qed.

Lemma worker_holds_owner h m mp k w :
  worker_ok h m mp k w → worker_holds w = true → m = Some (Worker k).
Proof. intros [-> _] H. by apply bool_decide_eq_true in H. Qed.

Lemma main_holds_owner s : sys_ok s → main_holds (mpc s) = true → mtx s = Some Main.
Proof. intros Hs. rewrite (ok_mtx _ Hs). apply bool_decide_eq_true. Qed.

(** Waking the workers up: nobody sleeps afterwards, so the conditions of the
    sleepers are dropped. *)
Lemma worker_ok_wake h h' m m' mp mp' k w :
  worker_ok h m mp k w → m ≠ Some (Worker k) → m' ≠ Some (Worker k) →
  all_started h' = true → stop h = false →
  (∀ g, w ≠ WWork g ∧ w ≠ WRelock g) →
  (match mp with MCreate _ | MJoin _ | MReturn _ _ => False | _ => True end) →
  (match mp' with MCreate _ => False | MJoin c => c = 0 | _ => True end) → 0 ≤ k →
  worker_ok h' m' mp' k (wake w).
Proof.
  intros (Hh & Hc & Hw) Hm Hm' Hst Hstop Hwork Hmp Hmp' Hk.
  rewrite bool_decide_eq_false_2 in Hh by done.
  assert (w ≠ WNew) as Hnew by (by destruct mp).
  split; [|split].
  - rewrite bool_decide_eq_false_2 by done. by destruct w.
  - destruct mp'; try done; try (by destruct w). subst. split; [by destruct w|lia].
  - destruct w; cbn in *; try done; try tauto.
    + by destruct (Hwork slice) as [? _].
    + by destruct (Hwork slice) as [_ ?].
    + destruct Hw; congruence.
Qed.

(** The main thread moves without touching the workers. *)
Lemma main_step h h' c c' m m' mp mp' ws :
  sys_ok (Sys h c m mp ws) →
  main_holds mp' = bool_decide (m' = Some Main) →
  (∀ j, m' = Some (Worker j) → m = Some (Worker j)) →
  (∀ c, mp' = MJoin c → 0 ≤ c) →
  main_ok h' c' mp' →
  (∀ k w, 0 ≤ k < threads inp → zget ws k = Some w → worker_ok h m mp k w → worker_ok h' m' mp' k w) →
  sys_ok (Sys h' c' m' mp' ws).
Proof.
  intros [Hl Hm Ho Hj Hmain Hw] Hm' Ho' Hj' Hmain' Hws; cbn in *. split; cbn; auto.
  intros k w Hk. apply Hws; auto. pose proof (zget_some _ _ _ Hk). lia.
Qed.

(** The main thread moves and wakes all workers. *)
Lemma main_wake h h' c c' m m' mp mp' ws :
  sys_ok (Sys h c m mp ws) →
  main_holds mp' = bool_decide (m' = Some Main) →
  (∀ k, m ≠ Some (Worker k)) → (∀ k, m' ≠ Some (Worker k)) →
  (∀ c, mp' = MJoin c → 0 ≤ c) →
  main_ok h' c' mp' → all_started h' = true → stop h = false → turn_id h = -1 →
  match mp with MCreate _ | MJoin _ | MReturn _ _ => False | _ => True end →
  match mp' with MCreate _ => False | MJoin c => c = 0 | _ => True end →
  sys_ok (Sys h' c' m' mp' (broadcast_turn ws)).
Proof.
  intros [Hl Hm Ho Hj Hmain Hw] Hm' Hn Hn' Hj' Hmain' Hst Hstop Hturn Hmp Hmp'; cbn in *.
  split; cbn; auto.
  - unfold broadcast_turn. by rewrite length_fmap.
  - intros k E. by destruct (Hn' k).
  - intros k w'. unfold broadcast_turn. rewrite zget_fmap.
    destruct (zget ws k) as [w|] eqn:Hk; [|done]. cbn. intros [= <-].
    pose proof (zget_some _ _ _ Hk) as Hr. pose proof (Hw k w Hk) as Hok.
    eapply worker_ok_wake; eauto; [|lia].
    destruct Hok as (_ & _ & Hok). intros g. split; intros ->; cbn in Hok; lia.
Qed.

Lemma main_owner s : sys_ok s → main_holds (mpc s) = true → ∀ k, mtx s ≠ Some (Worker k).
Proof. intros Hs Hh k. rewrite (main_holds_owner s Hs Hh). done. Qed.

Lemma main_loop_ok s : sys_ok s → mpc s = MLoop → sys_ok (main_loop inp s).
Proof.
  intros Hs Hpc. pose proof (main_holds_owner s Hs) as Hmtx. pose proof (main_owner s Hs) as Hown.
  rewrite Hpc in Hmtx, Hown. specialize (Hmtx eq_refl). specialize (Hown eq_refl).
  destruct s as [h c m mp ws]; cbn in *; subst mp m.
  destruct (ok_main _ Hs) as (Hst & Hstop & Hturn & Hreach); cbn in *.
  pose proof (seq_reach_good inp Hwf Hfits _ Hreach) as Hg. unfold main_loop; cbn [sh sc mtx wpc].
  destruct (sched_pick_spec inp Hwf _ _ Hg) as [[E Hz]|[(na & k & E & Hg' & _)|(p & r & E & Hf & Hr & Hgr)]];
    rewrite E.
  - eapply main_wake; [exact Hs|done|done|done|by intros ? [= <-]| |done..]. by repeat split.
  - eapply main_step; [exact Hs|done|done|done| |by intros]. split_and!; [done..|].
    eapply seq_next; [exact Hreach|]. unfold seq_step; cbn [fst snd]. by rewrite E.
  - eapply main_wake; [exact Hs|done|done|done|done| |done..]. cbn [main_ok all_started stop]. split_and!; [done..|].
    exists (rem h), c, r. cbn zeta. pose proof Hf as (m & _ & _ & Hrun & _).
    split_and!; [done|done|done|done|done|lia|lia|]. by left.
Qed.

Lemma main_test_ok s p : sys_ok s → mpc s = MTest p → sys_ok (main_test inp p s).
Proof.
  intros Hs Hpc. pose proof (main_holds_owner s Hs) as Hmtx.
  rewrite Hpc in Hmtx. specialize (Hmtx eq_refl).
  destruct s as [h c m mp ws]; cbn in *; subst mp m.
  destruct (ok_main _ Hs) as (Hst & Hstop & rem0 & c0 & r & Hreach & E & Ec & Hrun & Hr & Hgr & Hd); cbn in *.
  pose proof (seq_reach_good inp Hwf Hfits _ Hreach) as Hg. unfold main_test; cbn [sh sc mtx wpc].
  destruct Hd as [(Hd & Hturn & Hgrant & Hrem)|(Hd & Hturn & Hcons & Hrem & _)]; rewrite Hd.
  - eapply main_step; [exact Hs|done|done|done| |].
    + cbn. split_and!; [done..|]. exists rem0, c0, r. cbn zeta. split_and!; [done|done|done|done|done|lia|lia|]. by left.
    + intros k w Hk _ Hw. eapply (worker_ok_mtx _ (Some Main)); [|done..]. exact Hw.
  - rewrite Ec in E. destruct (seq_grant inp Hwf Hfits rem0 c0 p r Hg E Hrun Hr Hgr) as (c1 & Estep & Eafter & _).
    rewrite Hrem, Hcons, Ec, Eafter. eapply main_step; [exact Hs|done..| |by intros].
    split_and!; [done..|]. rewrite Hrem. by eapply seq_next.
Qed.

(** A worker leaves the critical section, or stays where it is, and nothing it
    shares changes. *)
Lemma worker_move h c m m' mp ws k w w' :
  sys_ok (Sys h c m mp ws) → zget ws k = Some w →
  (m = None ∨ m = Some (Worker k) ∨ m' = m ∧ worker_holds w' = worker_holds w) →
  (m' = None ∧ worker_holds w' = false ∨ m' = Some (Worker k) ∧ worker_holds w' = true ∨
     m' = m ∧ worker_holds w' = worker_holds w) →
  (∀ c, mp = MCreate c → w ≠ WNew) → w' ≠ WNew → w ≠ WReturn →
  (worker_ok h m mp k w → match mp with MFault => False | _ => True end →
     worker_holds w' = bool_decide (m' = Some (Worker k)) →
     match w' with
     | WNew | WLock | WBarrier | WBarReady => True
     | WBarSleep => all_started h = false
     | WTest | WReady => all_started h = true
     | WSleep => all_started h = true ∧ stop h = false ∧ turn_id h ≠ k
     | WWork g | WRelock g => turn_id h = k ∧ grant h = g ∧ all_started h = true ∧ stop h = false
     | WReturn => all_started h = true ∧ stop h = true
     | WFault => False
     end) →
  sys_ok (Sys h c m' mp (zset ws k w')).
Proof.
  intros Hs Hk Hm Hm' Hnew Hnew' Hret Hself. pose proof (ok_worker _ Hs k w Hk) as Hw; cbn in Hw.
  pose proof (ok_mtx _ Hs) as Hmain; cbn in Hmain. pose proof (ok_main _ Hs) as Hmo; cbn in Hmo.
  assert (worker_holds w' = bool_decide (m' = Some (Worker k))) as Hh.
  { destruct Hm' as [[-> ->]|[[-> ->]|[-> ->]]]; [done|by rewrite bool_decide_eq_true_2|apply Hw]. }
  eapply worker_step; [exact Hs|exact Hk| | |done|exact Hmo| |].
  - rewrite Hmain. destruct Hm' as [[E1 _]|[[E1 _]|[E1 _]]], Hm as [E2|[E2|[E2 _]]]; subst; done.
  - intros j ->. destruct Hm' as [[? _]|[[[= ->] _]|[<- _]]]; [done|by left|by right].
  - split; [exact Hh|split].
    + destruct Hw as (_ & Hc & _). destruct mp; try done.
      * split; [done|]. intros Hle. exfalso. by apply (Hnew _ eq_refl), Hc.
      * split; [done|]. intros Hle. exfalso. by apply Hret, Hc.
    + apply Hself; [exact Hw| |exact Hh]. by destruct mp.
  - intros j v _ Hj Hv. destruct Hm' as [[-> _]|[[-> _]|[-> _]]].
    + eapply worker_ok_mtx; [exact Hv| |done]. intros ->. destruct Hm as [?|[[= <-]|[? _]]]; done.
    + eapply worker_ok_mtx; [exact Hv| |congruence]. intros ->.
      destruct Hm as [?|[[= <-]|[E _]]]; [done|done|]. injection E as <-. done.
    + exact Hv.
Qed.

(** When it is some thread's turn, the main thread waits for that thread. *)
Lemma turn_waits s k :
  sys_ok s → running s = true → turn_id (sh s) = k → 0 ≤ k →
  (mpc s = MTest k ∨ mpc s = MSleep k ∨ mpc s = MReady k) ∧
  all_started (sh s) = true ∧ stop (sh s) = false ∧ slice_done (sh s) = false ∧
  ∃ c0 r, let g := Z.min r (q inp) in
    seq_reach inp (rem (sh s), c0) ∧ sched_pick inp (rem (sh s)) c0 = Ok (Grant k g (sc s)) ∧
    sc s = Sched (now c0) (finished c0) k (finish c0) ∧
    runnable inp (rem (sh s)) (now c0) k ∧ zget (rem (sh s)) k = Some r ∧ 0 < g ≤ r ∧
    grant (sh s) = g.
Proof.
  intros Hs Hrun Hk Hpos. pose proof (ok_main _ Hs) as Hmain. destruct s as [h c m mp ws]; cbn in *.
  assert (∀ p, (∃ rem0 c0 r, let g := Z.min r (q inp) in
      seq_reach inp (rem0, c0) ∧ sched_pick inp rem0 c0 = Ok (Grant p g c) ∧
      c = Sched (now c0) (finished c0) p (finish c0) ∧
      runnable inp rem0 (now c0) p ∧ zget rem0 p = Some r ∧ 0 < g ≤ r ∧
      (slice_done h = false ∧ turn_id h = p ∧ grant h = g ∧ rem h = rem0 ∨
       slice_done h = true ∧ turn_id h = -1 ∧ consumed h = g ∧ rem h = zset rem0 p (r - g) ∧
         mp ≠ MSleep p)) → p = k ∧ slice_done h = false ∧
    ∃ c0 r, let g := Z.min r (q inp) in
      seq_reach inp (rem h, c0) ∧ sched_pick inp (rem h) c0 = Ok (Grant k g c) ∧
      c = Sched (now c0) (finished c0) k (finish c0) ∧
      runnable inp (rem h) (now c0) k ∧ zget (rem h) k = Some r ∧ 0 < g ≤ r ∧ grant h = g) as Hp.
  { intros p (rem0 & c0 & r & H1 & H2 & H3 & H4 & H5 & H6 & [(?&E&?&Er)|(_&?&_)]); [|lia].
    rewrite E in Hk. subst p rem0. split_and!; [done..|]. exists c0, r. done. }
  destruct mp; cbn in *; try done;
    try (destruct Hmain as (? & ? & Hc); destruct (Hp _ Hc) as (-> & Hrest); clear Hp Hc; tauto).
  - destruct Hmain as (_ & -> & _). cbn in Hk. lia.
  - destruct Hmain as (-> & _). cbn in Hk. lia.
  - lia.
  - lia.
  - lia.
Qed.

Lemma worker_test_ok s k :
  sys_ok s → running s = true → zget (wpc s) k = Some WTest → sys_ok (worker_test k s).
Proof.
  intros Hs Hrun Hk. pose proof (ok_worker _ Hs _ _ Hk) as Hw. pose proof (zget_some _ _ _ Hk) as Hr.
  pose proof (turn_waits s k Hs Hrun) as Hturn.
  pose proof (worker_holds_owner _ _ _ _ _ Hw eq_refl) as Hm.
  destruct s as [h c m mp ws]; cbn in *; subst m. destruct Hw as (_ & _ & Hst).
  unfold worker_test, worker_turn; cbn [sh sc mtx mpc wpc].
  destruct (stop h) eqn:Hstop; cbn.
  { eapply worker_move; [exact Hs|exact Hk|by right; left|by left|done..]. }
  destruct (Z.eqb_spec (turn_id h) k) as [E|E]; cbn.
  2:{ eapply worker_move; [exact Hs|exact Hk|by right; left|by left|done..]. }
  destruct Hturn as (_ & _ & _ & _ & c0 & r & _ & _ & _ & _ & Hrem & Hg & Hgrant); [done|lia|].
  rewrite (aget_some _ _ _ Hrem). cbn. destruct (Z.leb_spec r 0); [lia|].
  assert ((if (if grant h <=? 0 then 1 else grant h) >? r then r
           else if grant h <=? 0 then 1 else grant h) = grant h) as ->.
  { destruct (Z.leb_spec (grant h) 0); [lia|]. destruct (Z.gtb_spec (grant h) r); lia. }
  eapply worker_move; [exact Hs|exact Hk|by right; left|by left|done..].
Qed.

Lemma worker_finish_ok s k g :
  sys_ok s → running s = true → zget (wpc s) k = Some (WRelock g) → mtx s = None →
  sys_ok (worker_finish k g s).
Proof.
  intros Hs Hrun Hk Hm. pose proof (ok_worker _ Hs _ _ Hk) as Hw. pose proof (zget_some _ _ _ Hk) as Hr.
  destruct Hw as (_ & _ & Ht & Hgr & _).
  destruct (turn_waits s k Hs Hrun Ht) as (Hpc & Hst & Hstop & Hd & c0 & r & Hreach & Hpick & Hc & Hrn & Hrem & Hg & Hgrant); [lia|].
  pose proof (main_holds_owner s Hs) as Hmain.
  destruct s as [h c m mp ws]; cbn in *; subst m.
  assert (signal_done mp = MReady k) as Hsig.
  { destruct Hpc as [->|[->| ->]]; [by specialize (Hmain eq_refl)|done..]. }
  pose proof (seq_reach_good inp Hwf Hfits _ Hreach) as Hgood.
  destruct (at_get inp Hwf k) as [a Ha]; [pose proof (ok_len _ Hs) as Hl; cbn in Hl; lia|].
  unfold worker_finish, worker_done; cbn [sh sc mtx mpc wpc]. rewrite (aget_some _ _ _ Hrem). cbn.
  assert (INT_MIN ≤ r - g ≤ INT_MAX) as Hint.
  { pose proof (zget_ge_zsum _ _ _ (λ k r, good_rem_pos inp Hwf _ k r Hgood) Hrem) as Hle; cbn in Hle.
    pose proof (g_sum _ _ Hgood) as Hs'; cbn in Hs'. pose proof (latest_nonneg inp).
    pose proof (earliest_nonpos inp). unfold fits in Hfits. pose proof (wf_threads _ Hwf).
    unfold INT_MIN. nia. }
  rewrite (int_ok _ Hint). cbn. rewrite Hsig.
  eapply worker_step; [exact Hs|exact Hk|done| |done| | |].
  - intros j [= ->]. by left.
  - cbn. split_and!; [done|done|]. exists (rem h), c0, r. cbn zeta.
    split_and!; [done|done|done|done|done|lia|lia|]. right. split_and!; [done|done|lia| |done].
    by rewrite <- Hgrant, Hgr.
  - split_and!; [by rewrite bool_decide_eq_true_2|done|done].
  - intros j v Hj0 Hj (H1 & H2 & H3). split_and!.
    + rewrite H1. rewrite !bool_decide_eq_false_2; [done|congruence|done].
    + by destruct Hpc as [->|[->| ->]].
    + destruct v; cbn in *; try done; try tauto.
      * split_and!; [tauto|tauto|lia].
      * lia.
      * lia.
Qed.


Lemma report_total rem sc :
  good inp (rem, sc) → (∀ k r, zget rem k = Some r → r = 0) → ∃ out, report inp (finish sc) = Ok out.
Proof.
  intros Hg Hz. pose proof (wf_threads _ Hwf). unfold report.
  assert (∀ k, k ∈ iota 0 (Z.to_nat (threads inp)) → 0 ≤ k < threads inp) as Hks
    by (intros k ?%elem_of_iota; lia).
  rewrite (report_rows_spec inp Hwf rem sc _ 0 0 _ Hg Hz Hks eq_refl);
    [by eexists|lia|rewrite length_iota, Z2Nat.id by lia; exact Hfits].
Qed.

Lemma create_ok h c m ws k :
  sys_ok (Sys h c m (MCreate k) ws) → k < threads inp →
  sys_ok (Sys h c m (MCreate (k + 1)) (zset ws k WLock)).
Proof.
  intros Hs Hlt. pose proof (ok_main _ Hs) as (Hk & Hh & Hc); cbn in *.
  pose proof (ok_mtx _ Hs) as Hm; cbn in Hm.
  destruct (zget_is_some ws k) as [w Hw]; [pose proof (ok_len _ Hs); cbn in *; lia|].
  pose proof (ok_worker _ Hs _ _ Hw) as (H1 & H2 & _); cbn in *.
  assert (w = WNew) as -> by (apply H2; lia).
  eapply worker_step; [exact Hs|exact Hw|done|by right|done| | |].
  - split_and!; [lia..|done|done].
  - split_and!; [done| |done]. split; [done|lia].
  - intros j v _ Hj (? & Hv & ?). split_and!; [done| |done]. rewrite Hv. lia.
Qed.

Lemma start_ok h c ws :
  sys_ok (Sys h c None MLock ws) →
  sys_ok (Sys (Shared (rem h) (turn_id h) (grant h) (consumed h) (slice_done h) true (stop h))
    c (Some Main) MLoop (broadcast_turn ws)).
Proof.
  intros Hs. pose proof (ok_main _ Hs) as Hmain; cbn in Hmain. destruct Hmain as [-> ->].
  eapply main_wake; [exact Hs|done|done|done|done| |done..].
  split_and!; [done..|]. constructor.
Qed.

Lemma join_ok h c m ws k :
  sys_ok (Sys h c m (MJoin k) ws) → zget ws k = Some WReturn →
  sys_ok (Sys h c m (MJoin (k + 1)) ws).
Proof.
  intros Hs Hw. pose proof (ok_joined _ Hs k eq_refl).
  eapply main_step; [exact Hs|apply (ok_mtx _ Hs)|done|intros ? [= <-]; lia|apply (ok_main _ Hs)|].
  intros j w _ Hj (? & (? & Hr) & ?). split_and!; [done|done| |done].
  intros Hlt. destruct (decide (j = k)) as [->|]; [congruence|apply Hr; lia].
Qed.

Lemma report_ok h c m ws :
  sys_ok (Sys h c m MReport ws) →
  sys_ok (Sys h c m (match report inp (finish c) with Ok l => MReturn 0 l | Err _ => MFault end) ws).
Proof.
  intros Hs. destruct (ok_main _ Hs) as (Hst & Hstop & Hturn & Hreach & Hpick); cbn in *.
  pose proof (seq_reach_good inp Hwf Hfits _ Hreach) as Hg.
  destruct (sched_pick_spec inp Hwf _ _ Hg) as [[_ Hz]|[(?&?&E&_)|(?&?&E&_)]]; [|congruence..].
  destruct (report_total _ _ Hg Hz) as [out Hout]. rewrite Hout.
  eapply main_step; [exact Hs|apply (ok_mtx _ Hs)|done|done|done|].
  intros j w _ _ (? & ? & ?). by split_and!.
Qed.

Lemma sys_ok_step s s' b :
  sys_ok s → running s = true → step inp b s s' → sys_ok s'.
Proof.
  intros Hs Hrun H. pose proof (wf_threads _ Hwf) as Hn. destruct H; cbn in Hrun.
  - by apply create_ok.
  - eapply main_step; [exact Hs|apply (ok_mtx _ Hs)|done|done|done|].
    intros j w _ _ (? & ? & ?). by split_and!.
  - pose proof (ok_main _ Hs) as (Hk & Hh & Hc); cbn in *.
    eapply main_step; [exact Hs|apply (ok_mtx _ Hs)|done|done|done|].
    intros j w Hj _ (? & Hw & ?). split_and!; [done| |done]. rewrite Hw. lia.
  - by apply start_ok.
  - by apply main_loop_ok.
  - by apply main_test_ok.
  - eapply main_step; [exact Hs|apply (ok_mtx _ Hs)|done|done| |by intros].
    destruct (ok_main _ Hs) as (? & ? & rem0 & c0 & r & ? & ? & ? & ? & ? & ? & Hd); cbn in *.
    split_and!; [done..|]. exists rem0, c0, r. cbn zeta. split_and!; [done|done|done|done|done|lia|lia|].
    destruct Hd as [?|(?&?&?&?&?)]; [by left|done].
  - eapply main_step; [exact Hs|done|done|done| |].
    + destruct (ok_main _ Hs) as (? & ? & rem0 & c0 & r & ? & ? & ? & ? & ? & ? & Hd); cbn in *.
      split_and!; [done..|]. exists rem0, c0, r. cbn zeta. split_and!; [done|done|done|done|done|lia|lia|].
      destruct Hd as [?|(?&?&?&?&?)]; [by left|by right].
    + intros j w _ _ Hw. by apply (worker_ok_mtx _ None).
  - by apply join_ok.
  - eapply main_step; [exact Hs|apply (ok_mtx _ Hs)|done|done|apply (ok_main _ Hs)|].
    intros j w _ _ (? & (? & _) & ?). by split_and!.
  - by apply report_ok.
  - eapply worker_move; [exact Hs|eassumption|by left|by right; left|done..].
  - pose proof (worker_holds_owner _ _ _ _ _ (ok_worker _ Hs _ _ H) eq_refl) as E; cbn in E.
    eapply worker_move; [exact Hs|eassumption|by right; left|by left|done..].
  - eapply worker_move; [exact Hs|eassumption|by right; right|by right; right|done..].
  - eapply worker_move; [exact Hs|eassumption|by right; right|by right; right|done..].
  - eapply worker_move; [exact Hs|eassumption|by left|by right; left|done..].
  - by apply worker_test_ok.
  - eapply worker_move; [exact Hs|eassumption|by right; right|by right; right|done..|].
    intros (_ & _ & ?) _ _. tauto.
  - eapply worker_move; [exact Hs|eassumption|by left|by right; left|done..|].
    intros (_ & _ & ?) _ _. tauto.
  - eapply worker_move; [exact Hs|eassumption|by right; right|by right; right|done..|].
    intros (_ & _ & ?) _ _. tauto.
  - by apply worker_finish_ok.
Qed.

Lemma run_ok n k s : run inp n k s → sys_ok s.
Proof. induction 1; [apply sys_ok_init|by eapply sys_ok_step..]. Qed.

(** ** Progress *)
(** A worker that does not sleep and has not returned moves when the mutex is
    free or its own. *)
Lemma worker_can_step s k w :
  sys_ok s → zget (wpc s) k = Some w → mtx s = None ∨ worker_holds w = true →
  match w with WNew | WBarSleep | WSleep | WReturn | WFault => False | _ => True end →
  ∃ s', step inp false s s'.
Proof.
  intros Hs Hk Hm Hw. pose proof (ok_worker _ Hs _ _ Hk) as Hok.
  destruct s as [h c m mp ws]; cbn in *.
  destruct w; try done; try (destruct Hm as [->|?]; [eexists; by econstructor|done]).
  - destruct (all_started h) eqn:E; eexists; [by eapply step_barrier_pass|by eapply step_barrier_wait].
  - eexists. by apply step_turn.
Qed.

Lemma progress s : sys_ok s → running s = true → ∃ s', step inp false s s'.
Proof.
  intros Hs Hrun. destruct (mtx s) as [[|k]|] eqn:Hm.
  - pose proof (ok_mtx _ Hs) as Hh. rewrite Hm, bool_decide_eq_true_2 in Hh by done.
    destruct (mpc s) eqn:Hpc; try done; eexists; [by apply step_loop|by apply step_test].
  - pose proof (ok_owner _ Hs k Hm) as Hk.
    destruct (zget_is_some (wpc s) k) as [w Hw]; [rewrite (ok_len _ Hs); lia|].
    destruct (ok_worker _ Hs k w Hw) as [Hh _]. rewrite bool_decide_eq_true_2 in Hh by done.
    eapply worker_can_step; [done|exact Hw|by right|by destruct w].
  - pose proof (ok_main _ Hs) as Hmain.
    pose proof (λ k w Hw, worker_can_step s k w Hs Hw (or_introl Hm)) as Hws.
    pose proof (ok_joined _ Hs) as Hj0. pose proof (ok_worker _ Hs) as Hok.
    pose proof (ok_len _ Hs) as Hlen. pose proof (ok_mtx _ Hs) as Hmm.
    destruct s as [h c m mp ws]; cbn in *; subst m. destruct mp as [k| | |p|p|p|k| | |]; try done.
    + destruct (decide (k < threads inp)); eexists; [by apply step_create|apply step_created; lia].
    + eexists. apply step_start.
    + destruct Hmain as (Hst & Hstop & rem0 & c0 & r & Hreach & _ & _ & _ & Hr & _ & Hd).
      pose proof (g_rem _ _ (seq_reach_good inp Hwf Hfits _ Hreach)) as Hl; cbn in Hl.
      destruct Hd as [(_ & Ht & _ & _)|(_ & _ & _ & _ & ?)]; [|done].
      destruct (zget_is_some ws p) as [w Hw]; [pose proof (zget_some _ _ _ Hr); lia|].
      pose proof (Hok p w Hw) as (_ & Hnew & Hw'). apply (Hws p w Hw).
      destruct w; try done; cbn in Hw'; intuition congruence.
    + eexists. apply step_main_lock.
    + destruct (decide (k < threads inp)) as [Hk|]; [|eexists; apply step_joined; lia].
      destruct (zget_is_some ws k) as [w Hw]; [pose proof (Hj0 k eq_refl); lia|].
      destruct (Hok k w Hw) as (_ & [Hnew _] & Hw'). destruct Hmain as (Hst & Hstop & _).
      destruct (decide (w = WReturn)) as [->|Hret]; [eexists; by apply step_join|].
      apply (Hws k w Hw). destruct w; try done; cbn in Hw'; intuition congruence.
    + eexists. apply step_report.
Qed.

(** ** How long a run can be

    A weight that every step decreases, but for spurious wakeups. *)
Definition worker_weight (w : worker_pc) : Z :=
  match w with
  | WNew => 12 | WLock => 11 | WBarrier => 10 | WBarReady => 11 | WReady => 9
  | WTest => 8 | WWork _ => 7 | WRelock _ => 6 | WBarSleep | WSleep | WReturn | WFault => 0
  end.

Definition unit_weight : Z := 12 * threads inp + 8.

Definition main_weight (h : shared) (c : sched) (mp : main_pc) : Z :=
  let work := 4 * unit_weight * zsum (rem h) in
  let done := if slice_done h then 2 * unit_weight else 0 in
  match mp with
  | MCreate _ => work + 2 * unit_weight + 11 * threads inp + 2
  | MLock => work + 2 * unit_weight + 11 * threads inp + 1
  | MLoop => work + unit_weight * (1 + stalled inp (rem h, c))
  | MReady _ => work + done + 3
  | MTest _ => work + done + 2
  | MSleep _ => work + done + 1
  | MJoin k => Z.max 0 (threads inp - k) + 2
  | MReport => 1
  | MReturn _ _ | MFault => 0
  end.

Definition weight (s : sys) : Z :=
  main_weight (sh s) (sc s) (mpc s) + zsum (worker_weight <$> wpc s).

Lemma worker_weight_range w : 0 ≤ worker_weight w ≤ 12.
Proof. destruct w; cbn; lia. Qed.

Lemma weight_zset ws k w w' :
  zget ws k = Some w →
  zsum (worker_weight <$> zset ws k w') =
    zsum (worker_weight <$> ws) - worker_weight w + worker_weight w'.
Proof. intros Hk. rewrite zset_fmap. apply zsum_zset. by rewrite zget_fmap, Hk. Qed.

Lemma weight_wake ws :
  zsum (worker_weight <$> broadcast_turn ws) ≤
    zsum (worker_weight <$> ws) + 11 * Z.of_nat (length ws).
Proof.
  unfold broadcast_turn. induction ws as [|w ws IH]; [done|].
  cbn [fmap list_fmap length]. unfold zsum in *. cbn [foldr].
  assert (worker_weight (wake w) ≤ worker_weight w + 11) by (destruct w; cbn; lia). lia.
Qed.

Lemma workers_weight_nonneg ws : 0 ≤ zsum (worker_weight <$> ws).
Proof.
  apply zsum_nonneg. intros k r. rewrite zget_fmap.
  destruct (zget ws k) as [w|]; [|done]. intros [= <-]. apply worker_weight_range.
Qed.

Lemma weight_worker h c m m' mp ws k w w' :
  zget ws k = Some w → worker_weight w' < worker_weight w →
  weight (Sys h c m' mp (zset ws k w')) < weight (Sys h c m mp ws).
Proof. intros Hk Hlt. unfold weight; cbn [sh sc mpc wpc]. rewrite (weight_zset _ _ _ _ Hk). lia. Qed.

Lemma weight_loop s : sys_ok s → mpc s = MLoop → weight (main_loop inp s) < weight s.
Proof.
  intros Hs Hpc. pose proof (ok_main _ Hs) as Hmain. pose proof (ok_len _ Hs) as Hlen.
  pose proof (wf_threads _ Hwf). destruct s as [h c m mp ws]; cbn in *; subst mp.
  destruct Hmain as (_ & _ & _ & Hreach).
  pose proof (seq_reach_good inp Hwf Hfits _ Hreach) as Hg. pose proof (weight_wake ws).
  unfold main_loop; cbn [sh sc mtx wpc].
  destruct (sched_pick_spec inp Hwf _ _ Hg) as [[E Hz]|[(na & k & E & Hg' & _ & _ & Hk)|(p & r & E & _)]];
    rewrite E; unfold weight; cbn [sh sc mpc wpc main_weight rem slice_done].
  - assert (0 ≤ zsum (rem h)). { apply zsum_nonneg. intros k r Hk. rewrite (Hz _ _ Hk). lia. }
    pose proof (stalled_range inp (rem h, c)). unfold unit_weight. nia.
  - rewrite (stalled_runnable inp Hwf (rem h) _ k Hg' Hk). unfold stalled; cbn [fst snd]. rewrite E.
    unfold unit_weight. lia.
  - pose proof (stalled_range inp (rem h, c)).
    assert (0 ≤ unit_weight * stalled inp (rem h, c)) by (unfold unit_weight; nia).
    rewrite Z.mul_add_distr_l. unfold unit_weight in *. lia.
Qed.

Lemma weight_test s p : sys_ok s → mpc s = MTest p → weight (main_test inp p s) < weight s.
Proof.
  intros Hs Hpc. pose proof (main_test_ok s p Hs Hpc) as Hs'. pose proof (ok_main _ Hs') as Hmain.
  pose proof (wf_threads _ Hwf).
  destruct s as [h c m mp ws]; cbn in *; subst mp. unfold main_test in *; cbn [sh sc mtx wpc] in *.
  destruct (slice_done h) eqn:Hd.
  - destruct (sched_after _ _ _ _ _) as [c'|]; [|done].
    unfold weight; cbn [sh sc mpc wpc main_weight]. rewrite Hd.
    pose proof (stalled_range inp (rem h, c')). unfold unit_weight. nia.
  - unfold weight; cbn [sh sc mpc wpc main_weight]. rewrite Hd. lia.
Qed.

Lemma weight_turn s k :
  sys_ok s → running s = true → zget (wpc s) k = Some WTest → weight (worker_test k s) < weight s.
Proof.
  intros Hs Hrun Hk. pose proof (turn_waits s k Hs Hrun) as Hturn. pose proof (zget_some _ _ _ Hk).
  destruct s as [h c m mp ws]; cbn in *. unfold worker_test, worker_turn; cbn [sh sc mtx mpc wpc].
  destruct (stop h) eqn:Hstop; cbn; [by eapply weight_worker|].
  destruct (Z.eqb_spec (turn_id h) k) as [E|E]; cbn; [|by eapply weight_worker].
  destruct Hturn as (_ & _ & _ & _ & c0 & r & _ & _ & _ & _ & Hrem & Hg & _); [done|lia|].
  rewrite (aget_some _ _ _ Hrem). cbn. destruct (Z.leb_spec r 0); [lia|]. by eapply weight_worker.
Qed.

Lemma weight_finish s k g :
  sys_ok s → running s = true → zget (wpc s) k = Some (WRelock g) → mtx s = None →
  weight (worker_finish k g s) < weight s.
Proof.
  intros Hs Hrun Hk Hm. pose proof (worker_finish_ok s k g Hs Hrun Hk Hm) as Hs'.
  pose proof (ok_worker _ Hs _ _ Hk) as (_ & _ & Ht & Hgr & _). pose proof (zget_some _ _ _ Hk) as Hr.
  destruct (turn_waits s k Hs Hrun Ht) as (Hpc & _ & _ & Hd & c0 & r & _ & _ & _ & _ & Hrem & Hg & Hgrant); [lia|].
  pose proof (main_holds_owner s Hs) as Hmain. pose proof (wf_threads _ Hwf).
  destruct s as [h c m mp ws]; cbn in *; subst m.
  unfold worker_finish, worker_done in *; cbn [sh sc mtx mpc wpc] in *.
  rewrite (aget_some _ _ _ Hrem) in *. cbn in *. destruct (int_ (r - g)) as [r'|] eqn:Hi; cbn in *.
  2:{ pose proof (ok_worker _ Hs' k WFault) as Hw; cbn in Hw.
      rewrite zget_zset_eq in Hw by lia. destruct (Hw eq_refl) as (_ & _ & ?). done. }
  unfold int_ in Hi. case_decide; [|done]. injection Hi as <-.
  unfold weight; cbn [sh sc mpc wpc]. rewrite (weight_zset _ _ _ _ Hk). cbn [worker_weight].
  assert (4 * unit_weight * zsum (rem h) + 1 ≤ main_weight h c mp) as Hw.
  { destruct Hpc as [->|[->| ->]]; cbn; rewrite Hd; lia. }
  assert (signal_done mp = MReady k) as ->.
  { destruct Hpc as [->|[->| ->]]; [by specialize (Hmain eq_refl)|done..]. }
  cbn [main_weight rem slice_done]. rewrite (zsum_zset _ _ _ _ Hrem). unfold unit_weight in *. nia.
Qed.

Ltac weigh := unfold weight; cbn [RoundRobin.sh RoundRobin.sc mpc wpc main_weight].

Lemma weight_step s s' b :
  sys_ok s → running s = true → step inp b s s' → weight s' < weight s + (if b then 12 else 0).
Proof.
  intros Hs Hrun H. pose proof (wf_threads _ Hwf) as Hn. destruct H; cbn in Hrun; rewrite ?Z.add_0_r.
  - pose proof (ok_main _ Hs) as (Hk & _); cbn in *.
    destruct (zget_is_some ws k) as [w Hw]; [pose proof (ok_len _ Hs); cbn in *; lia|].
    pose proof (ok_worker _ Hs _ _ Hw) as (_ & H2 & _); cbn in *.
    assert (w = WNew) as -> by (apply H2; lia).
    weigh. rewrite (weight_zset _ _ _ _ Hw). cbn [worker_weight]. lia.
  - pose proof (ok_main _ Hs) as (_ & Hh & _); cbn in Hh. rewrite Hh. weigh. unfold unit_weight. cbn [init_sh rem].
    pose proof (work_nonneg inp Hwf). nia.
  - weigh. lia.
  - pose proof (ok_len _ Hs) as Hl; cbn in Hl. pose proof (weight_wake ws).
    weigh. cbn [rem].
    pose proof (stalled_range inp (rem h, sc0)). unfold unit_weight. nia.
  - by apply weight_loop.
  - by apply weight_test.
  - weigh. lia.
  - weigh. lia.
  - weigh. lia.
  - weigh. lia.
  - weigh. destruct (report _ _); cbn [main_weight]; lia.
  - by eapply weight_worker.
  - by eapply weight_worker.
  - by eapply weight_worker.
  - weigh. rewrite (weight_zset _ _ _ _ H). cbn [worker_weight]. lia.
  - by eapply weight_worker.
  - by apply weight_turn.
  - weigh. rewrite (weight_zset _ _ _ _ H). cbn [worker_weight]. lia.
  - by eapply weight_worker.
  - by eapply weight_worker.
  - by apply weight_finish.
Qed.

Lemma run_weight n k s : run inp n k s → weight s + Z.of_nat n ≤ weight (init_sys inp) + 12 * Z.of_nat k.
Proof.
  induction 1 as [|n k s s' Hr IH Hrun Hstep|n k s s' Hr IH Hrun Hstep]; [lia|..].
  - pose proof (weight_step s s' false (run_ok _ _ _ Hr) Hrun Hstep) as Hw. cbv beta iota in Hw. lia.
  - pose proof (weight_step s s' true (run_ok _ _ _ Hr) Hrun Hstep) as Hw. cbv beta iota in Hw. lia.
Qed.

Lemma weight_nonneg s : sys_ok s → 0 ≤ weight s.
Proof.
  intros Hs. pose proof (wf_threads _ Hwf). pose proof (workers_weight_nonneg (wpc s)).
  assert (0 ≤ main_weight (sh s) (sc s) (mpc s)); [|unfold weight; lia].
  assert (0 ≤ unit_weight) by (unfold unit_weight; lia).
  assert ((∃ p, mpc s = MTest p ∨ mpc s = MSleep p ∨ mpc s = MReady p) ∨ mpc s = MLoop ∨
    (∃ k, mpc s = MCreate k) ∨ mpc s = MLock → 0 ≤ zsum (rem (sh s))) as Hpos.
  { pose proof (ok_main _ Hs) as Hm. intros Hpc. destruct s as [h c m mp ws]; cbn in *.
    destruct Hpc as [[p Hpc]|[->|[[k ->]| ->]]]; cbn in *.
    - assert (∃ rem0 c0 r, seq_reach inp (rem0, c0) ∧ zget rem0 p = Some r ∧ Z.min r (q inp) ≤ r ∧
        (rem h = rem0 ∨ rem h = zset rem0 p (r - Z.min r (q inp)))) as (rem0 & c0 & r & Hre & Hr & Hle & Hd).
      { destruct Hpc as [->|[->| ->]]; cbn in Hm;
          destruct Hm as (_ & _ & rem0 & c0 & r & ? & _ & _ & _ & ? & ? & [(_&_&_&?)|(_&_&_&?&_)]);
          exists rem0, c0, r; (split_and!; [done|done|lia|(by left) || (by right)]). }
      pose proof (seq_reach_good inp Hwf Hfits _ Hre) as Hg. apply zsum_nonneg. intros j x Hj.
      destruct Hd as [Hd|Hd]; rewrite Hd in Hj; [by eapply (good_rem_pos inp Hwf (rem0, c0))|].
      rewrite zget_zset in Hj by (by eapply zget_some). destruct (decide (p = j)).
      + injection Hj as <-. lia.
      + by eapply (good_rem_pos inp Hwf (rem0, c0)).
    - destruct Hm as (_ & _ & _ & Hre). apply zsum_nonneg. intros j x Hj.
      by eapply (good_rem_pos inp Hwf _ _ _ (seq_reach_good inp Hwf Hfits _ Hre)).
    - destruct Hm as (_ & -> & _). apply (work_nonneg inp Hwf).
    - destruct Hm as (-> & _). apply (work_nonneg inp Hwf). }
  pose proof (stalled_range inp (rem (sh s), sc s)).
  destruct (mpc s) eqn:Hpc; cbn [main_weight]; try lia.
  all: assert (0 ≤ zsum (rem (sh s))) by (apply Hpos; eauto 6).
  all: destruct (slice_done (sh s)); nia.
Qed.

Lemma return_runs s out fuel :
  sys_ok s → mpc s = MReturn 0 out → 2 * zsum (bt inp) + 1 < Z.of_nat fuel →
  rr_run fuel inp = Ok out.
Proof.
  intros Hs Hpc Hf. pose proof (ok_main _ Hs) as Hm. rewrite Hpc in Hm. destruct Hm as (Hre & Hpick & Hrep).
  destruct (seq_loop_total inp Hwf Hfits (bt inp, init_sc inp) fuel) as (rem' & sc' & Hloop & _).
  { constructor. }
  { unfold todo; cbn [fst]. pose proof (stalled_range inp (bt inp, init_sc inp)). lia. }
  destruct (seq_loop_prefix inp _ Hre) as [n Hn].
  assert (seq_loop (n + 1) inp (bt inp, init_sc inp) = Ok (sc s)) as Hend.
  { rewrite Hn. cbn [seq_loop]. unfold seq_step; cbn [fst snd]. by rewrite Hpick. }
  assert (sc' = sc s) as ->.
  { pose proof (seq_loop_mono inp _ (fuel + (n + 1)) _ _ Hloop ltac:(lia)) as H1.
    pose proof (seq_loop_mono inp _ (fuel + (n + 1)) _ _ Hend ltac:(lia)) as H2. congruence. }
  unfold rr_run. by rewrite Hloop.
Qed.
End interleaving.

(** C10. Every interleaving of the threads computes the sequential schedule: no
    int overflows in any thread of a reachable state, and when main returns 0
    it has printed the report of the sequential reference. *)
Theorem rr_interleavings inp n k s :
  wf inp → fits inp → run inp n k s →
  mpc s ≠ MFault ∧ (∀ j, zget (wpc s) j ≠ Some WFault) ∧
  (∀ out fuel, mpc s = MReturn 0 out → 2 * zsum (bt inp) + 1 < Z.of_nat fuel →
     rr_run fuel inp = Ok out).
Proof.
  intros Hwf Hfits Hrun%run_ok; [|done..]. split_and!.
  - intros E. pose proof (ok_main _ _ Hrun) as Hm. by rewrite E in Hm.
  - intros j Hj. by destruct (ok_worker _ _ Hrun _ _ Hj) as (_ & _ & ?).
  - intros out fuel. by apply return_runs.
Qed.

(** The number of steps of a run. *)
Lemma run_bound inp n k s :
  wf inp → fits inp → run inp n k s →
  Z.of_nat n ≤ (4 * zsum (bt inp) + 2) * (12 * threads inp + 8) + 23 * threads inp + 2 +
    12 * Z.of_nat k.
Proof.
  intros Hwf Hfits Hrun. pose proof (run_ok inp Hwf Hfits _ _ _ Hrun) as Hs.
  pose proof (run_weight inp Hwf Hfits _ _ _ Hrun) as Hw.
  pose proof (weight_nonneg inp Hwf Hfits s Hs). pose proof (wf_threads _ Hwf).
  assert (zsum (worker_weight <$> replicate (Z.to_nat (threads inp)) WNew) = 12 * threads inp) as E.
  { rewrite <- (Z2Nat.id (threads inp)) at 2 by lia. generalize (Z.to_nat (threads inp)) as m.
    induction m as [|m IH]; [done|]. cbn [replicate fmap list_fmap worker_weight].
    unfold zsum in *. cbn [foldr]. rewrite IH. lia. }
  unfold weight in Hw at 2. cbn [init_sys sh sc mpc wpc main_weight init_sh rem] in Hw.
  rewrite E in Hw. unfold unit_weight in Hw. lia.
Qed.

(** C11. The threads never deadlock and lose no wakeup: as long as main has not
    returned some thread can take a step that is not a spurious wakeup.  And a
    run takes only boundedly many steps beyond those its spurious wakeups cause,
    so every execution with finitely many of these ends with main's return. *)
Theorem rr_terminates inp n k s :
  wf inp → fits inp → run inp n k s →
  Z.of_nat n ≤ (4 * zsum (bt inp) + 2) * (12 * threads inp + 8) + 23 * threads inp + 2 +
    12 * Z.of_nat k ∧
  (running s = true → ∃ s', step inp false s s').
Proof.
  intros Hwf Hfits Hrun. split; [by eapply run_bound|]. apply progress; [done..|]. by eapply run_ok.
Qed.

(** A run of a single thread with one unit of work, which returns. *)
Definition ex_one : Input := MkInput 1 1 [0] [1].

Lemma ex_one_wf : wf ex_one.
Proof.
  split; cbn; try lia. intros k b Hk%zget_elem. cbn in Hk.
  apply elem_of_cons in Hk as [->|Hk]; [lia|]. by apply elem_of_nil in Hk.
Qed.

Lemma ex_one_fits : fits ex_one.
Proof. vm_compute. discriminate. Qed.

(** Extend the run in the context by a step. *)
Ltac forward c :=
  match goal with R : run _ ?n ?k ?s |- _ =>
    let H := fresh in
    eassert (H : step ex_one false s _) by c;
    apply (run_step _ n k s _ R eq_refl) in H; clear R; rename H into R; cbn in R
  end.

Lemma ex_one_run :
  ∃ n s, run ex_one n 0 s ∧ mpc s = MReturn 0 [Row 1 1 1 0; AvgTurnaround 1 1; AvgWaiting 0 1].
Proof.
  pose proof (run_init ex_one) as R. cbn in R.
  forward ltac:(by apply step_create). forward ltac:(by apply step_created).
  forward ltac:(apply step_start). forward ltac:(by apply step_loop).
  forward ltac:(by apply (step_test _ _ 0)). forward ltac:(by apply (step_lock _ _ _ _ _ 0)).
  forward ltac:(by apply (step_barrier_pass _ _ _ _ _ _ 0)). forward ltac:(by apply (step_turn _ _ 0)).
  forward ltac:(by apply (step_worked _ _ _ _ _ _ 0 1)). forward ltac:(by apply (step_finish _ _ 0 1)).
  forward ltac:(by apply (step_turn _ _ 0)). forward ltac:(apply step_main_lock).
  forward ltac:(by apply (step_test _ _ 0)). forward ltac:(by apply step_loop).
  forward ltac:(by apply (step_turn_lock _ _ _ _ _ 0)). forward ltac:(by apply (step_turn _ _ 0)).
  forward ltac:(by apply step_join). forward ltac:(by apply step_joined).
  forward ltac:(apply step_report).
  eexists _, _. split; [exact R|reflexivity].
Qed.

Lemma rr_interleavings_witness :
  rr_run 4 ex_one = Ok [Row 1 1 1 0; AvgTurnaround 1 1; AvgWaiting 0 1].
Proof.
  destruct ex_one_run as (n & s & Hrun & Hs).
  destruct (rr_interleavings ex_one n 0 s ex_one_wf ex_one_fits Hrun) as (_ & _ & H).
  apply (H _ 4%nat Hs). reflexivity.
Defined.

Lemma rr_terminates_witness : ∃ s', step ex_one false (init_sys ex_one) s'.
Proof.
  destruct (rr_terminates ex_one 0 0 (init_sys ex_one) ex_one_wf ex_one_fits (run_init ex_one)) as [_ H].
  apply H. reflexivity.
Defined.
