(* ===== verification/LinkedList.v ===== *)
(** * The doubly linked list exercise

    Models modules/m2/double_link/linked_list/linked_list.c over an explicit
    heap: the list nodes and the data blocks the C heap holds, each at its
    pointer.  A freed object is no longer in the heap, so using it is undefined,
    and so is reading a member that was never written ([None]).

    The file is handed out with bugs to find.  The theorems show what the correct
    functions do to a well-formed list ([dll]) and what the others do instead. *)
From Stdlib Require Import ZArith Lia.
From stdpp Require Import base tactics numbers list gmap option.
From S2P Require Import Prelude.

(** @src modules/m2/double_link/linked_list/linked_list.h 7-12 node_t *)
Record node := Node {
  data : option Z;
  next : option Z;
  prev : option Z
}.

(** The C heap: nodes, and blocks of bytes. *)
Record heap := Heap {
  nodes : gmap Z node;
  blocks : gmap Z (list Z)
}.

Definition NULL : Z := 0.

(** The members of the node at [p]. *)
Definition node_at (h : heap) (p : Z) : res node := of_option UB (nodes h !! p).
Definition get_data (h : heap) (p : Z) : res Z := n ← node_at h p; of_option UB (data n).
Definition get_next (h : heap) (p : Z) : res Z := n ← node_at h p; of_option UB (next n).
Definition get_prev (h : heap) (p : Z) : res Z := n ← node_at h p; of_option UB (prev n).

Definition set_node (h : heap) (p : Z) (n : node) : heap := Heap (<[p := n]> (nodes h)) (blocks h).
Definition set_data (h : heap) (p v : Z) : res heap :=
  n ← node_at h p; Ok (set_node h p (Node (Some v) (next n) (prev n))).
Definition set_next (h : heap) (p v : Z) : res heap :=
  n ← node_at h p; Ok (set_node h p (Node (data n) (Some v) (prev n))).
Definition set_prev (h : heap) (p v : Z) : res heap :=
  n ← node_at h p; Ok (set_node h p (Node (data n) (next n) (Some v))).

(** free of a data block (of NULL, nothing) and of a node. *)
Definition free_block (h : heap) (p : Z) : res heap :=
  if p =? NULL then Ok h else
  _ ← of_option UB (blocks h !! p); Ok (Heap (nodes h) (delete p (blocks h))).
Definition free_node (h : heap) (p : Z) : res heap :=
  _ ← node_at h p; Ok (Heap (delete p (nodes h)) (blocks h)).

(** memcmp(a, b, n) == 0; reading past a block is undefined. *)
Definition memcmp_eq (h : heap) (a b n : Z) : res bool :=
  if n =? 0 then Ok true else
  la ← of_option UB (blocks h !! a);
  lb ← of_option UB (blocks h !! b);
  _ ← (if decide (n ≤ Z.of_nat (length la) ∧ n ≤ Z.of_nat (length lb)) then Ok tt else Err UB);
  Ok (bool_decide (take (Z.to_nat n) la = take (Z.to_nat n) lb)).

(** The allocator of the C library. *)
Class Malloc := {
  malloc : heap → Z → option Z;
  malloc_fresh h n p :
    malloc h n = Some p → p ≠ NULL ∧ nodes h !! p = None ∧ blocks h !! p = None
}.

(** ** The functions *)

(** [current] does not move, so the fuel is the number of rounds tried. *)
(** @src modules/m2/double_link/linked_list/linked_list.c 28-31 length_list *)
Fixpoint length_loop (fuel : nat) (current len : Z) : res Z :=
  match fuel with
  | O => Err NoFuel
  | S fuel => if current =? NULL then Ok len else length_loop fuel current (len + 1)
  end.

(** @src modules/m2/double_link/linked_list/linked_list.c 22-32 length_list *)
Definition length_list (fuel : nat) (head_list : Z) : res Z :=
  if head_list =? NULL then Ok 0 else length_loop fuel head_list 0.

(** @src modules/m2/double_link/linked_list/linked_list.c 39-39 get_first *)
Definition get_first (h : heap) (head_list : Z) : res Z := get_data h head_list.

(** The walk to the last node, which get_last and insert_last share. *)
(** @src modules/m2/double_link/linked_list/linked_list.c 49-52 get_last *)
Fixpoint last_loop (fuel : nat) (h : heap) (curr : Z) : res Z :=
  match fuel with
  | O => Err NoFuel
  | S fuel =>
    n ← get_next h curr;
    if n =? NULL then Ok curr else last_loop fuel h n
  end.

(** @src modules/m2/double_link/linked_list/linked_list.c 45-54 get_last *)
Definition get_last (fuel : nat) (h : heap) (head_list : Z) : res Z :=
  if head_list =? NULL then Ok NULL else
  curr ← last_loop fuel h head_list;
  get_data h curr.

(** @src modules/m2/double_link/linked_list/linked_list.c 64-64 insert_first *)
Definition insert_first (h : heap) (head_list to_add size : Z) : heap * Z := (h, head_list).

Section insert.
Context `{Malloc}.

(** malloc of a node, whose members are not initialised; NULL on failure. *)
Definition malloc_node (h : heap) : heap * Z :=
  match malloc h 24 with
  | Some p => (Heap (<[p := Node None None None]> (nodes h)) (blocks h), p)
  | None => (h, NULL)
  end.

(** malloc of [n] bytes and memcpy of them from [src] (lines 79-80). *)
(** @src modules/m2/double_link/linked_list/linked_list.c 79-80 insert_last *)
Definition malloc_copy (h : heap) (src n : Z) : res (heap * Z) :=
  match malloc h n with
  | Some p =>
    l ← (if n =? 0 then Ok [] else of_option UB (blocks h !! src));
    if decide (n ≤ Z.of_nat (length l))
    then Ok (Heap (nodes h) (<[p := take (Z.to_nat n) l]> (blocks h)), p)
    else Err UB
  | None => if n =? 0 then Ok (h, NULL) else Err UB
  end.

(** Linking the new node (lines 83-96). *)
(** @src modules/m2/double_link/linked_list/linked_list.c 83-97 insert_last *)
Definition link_last (fuel : nat) (h : heap) (head_list new_element : Z) : res (heap * Z) :=
  if head_list =? NULL then
    h ← set_prev h new_element NULL;
    h ← set_next h new_element NULL;
    Ok (h, new_element)
  else
    curr ← last_loop fuel h head_list;
    h ← set_next h curr new_element;
    h ← set_prev h new_element curr;
    Ok (h, head_list).

(** @src modules/m2/double_link/linked_list/linked_list.c 74-97 insert_last *)
Definition insert_last (fuel : nat) (h : heap) (head_list to_add size : Z) : res (heap * Z) :=
  if to_add =? NULL then Ok (h, head_list) else
  let '(h, new_element) := malloc_node h in
  '(h, new_data) ← malloc_copy h to_add (u64 (size - 1));
  h ← set_data h new_element new_data;
  link_last fuel h head_list new_element.
End insert.

(** @src modules/m2/double_link/linked_list/linked_list.c 108-108 get *)
Definition get (h : heap) (head_list index : Z) : Z := NULL.

(** Unlinking the node [curr] (lines 128-138). *)
(** @src modules/m2/double_link/linked_list/linked_list.c 128-138 remove_element *)
Definition unlink (h : heap) (head_list curr : Z) : res (heap * Z * Z) :=
  n ← get_next h curr;
  h ← (if n =? NULL then Ok h else p ← get_prev h curr; set_prev h n p);
  '(h, head_list) ←
    (if curr =? head_list then n ← get_next h curr; Ok (h, n)
     else p ← get_prev h curr; n ← get_next h curr; h ← set_next h p n; Ok (h, head_list));
  d ← get_data h curr;
  h ← free_block h d;
  h ← free_node h curr;
  Ok (h, head_list, 1).

(** @src modules/m2/double_link/linked_list/linked_list.c 126-143 remove_element *)
Fixpoint remove_loop (fuel : nat) (h : heap) (head_list to_remove size curr : Z) :
    res (heap * Z * Z) :=
  match fuel with
  | O => Err NoFuel
  | S fuel =>
    if curr =? NULL then Ok (h, head_list, 0) else
    d ← get_data h curr;
    eq ← memcmp_eq h d to_remove size;
    if (eq : bool) then unlink h head_list curr
    else n ← get_next h curr; remove_loop fuel h head_list to_remove size n
  end.

(** The new heap, the new head and the result. *)
(** @src modules/m2/double_link/linked_list/linked_list.c 119-144 remove_element *)
Definition remove_element (fuel : nat) (h : heap) (head_list to_remove size : Z) :
    res (heap * Z * Z) :=
  if head_list =? NULL then Ok (h, head_list, 0) else
  remove_loop fuel h head_list to_remove size head_list.

(** @src modules/m2/double_link/linked_list/linked_list.c 155-163 reverse_helper *)
Fixpoint reverse_loop (fuel : nat) (h : heap) (head_list curr placeholder : Z) : res (heap * Z) :=
  match fuel with
  | O => Err NoFuel
  | S fuel =>
    if curr =? NULL then Ok (h, head_list) else
    n ← get_next h curr;
    let head_list := if n =? NULL then curr else head_list in
    h ← set_prev h curr n;
    h ← set_next h curr placeholder;
    p ← get_prev h curr;
    reverse_loop fuel h head_list p curr
  end.

(** @src modules/m2/double_link/linked_list/linked_list.c 151-165 reverse_helper *)
Definition reverse_helper (fuel : nat) (h : heap) (head_list : Z) : res (heap * Z) :=
  n ← get_next h head_list;
  if n =? NULL then Ok (h, head_list) else reverse_loop fuel h head_list head_list NULL.

(** The argument is the list's head; a NULL [head_list] pointer does nothing. *)
(** @src modules/m2/double_link/linked_list/linked_list.c 174-178 reverse *)
Definition reverse (fuel : nat) (h : heap) (head_list : option Z) : res (heap * option Z) :=
  match head_list with
  | None => Ok (h, None)
  | Some hd => '(h, hd) ← reverse_helper fuel h hd; Ok (h, Some hd)
  end.

(** @src modules/m2/double_link/linked_list/linked_list.c 188-203 remove_first *)
Definition remove_first (h : heap) (head_list : Z) : res (heap * Z * Z) :=
  if head_list =? NULL then Ok (h, head_list, NULL) else
  let curr := head_list in
  head_list ← get_next h head_list;
  h ← (if head_list =? NULL then Ok h else set_prev h head_list NULL);
  d ← get_data h curr;
  h ← free_block h d;
  h ← free_node h curr;
  d ← get_data h curr;
  Ok (h, head_list, d).

(** @src modules/m2/double_link/linked_list/linked_list.c 213-213 remove_last *)
Definition remove_last (h : heap) (head_list : Z) : heap * Z * Z := (h, head_list, NULL).

(** ** Well-formed lists *)

(** The pointer to the first node of [l], or [e]. *)
Definition first_ptr (l : list (Z * Z)) (e : Z) : Z :=
  match l with [] => e | (p, _) :: _ => p end.

(** [l]: the nodes and their data pointers, from a node whose [prev] is [b] to
    one whose [next] is [e]. *)
Fixpoint seg (m : gmap Z node) (b : Z) (l : list (Z * Z)) (e : Z) : Prop :=
  match l with
  | [] => True
  | (p, d) :: l =>
    p ≠ NULL ∧ m !! p = Some (Node (Some d) (Some (first_ptr l e)) (Some b)) ∧ seg m p l e
  end.

Definition dll (h : heap) (head_list : Z) (l : list (Z * Z)) : Prop :=
  head_list = first_ptr l NULL ∧ NoDup l.*1 ∧ seg (nodes h) NULL l NULL.

Fixpoint last_ptr (b : Z) (l : list (Z * Z)) : Z :=
  match l with [] => b | (p, _) :: l => last_ptr p l end.

Section seg.
Implicit Types (m : gmap Z node) (l : list (Z * Z)).

Lemma first_ptr_app l1 l2 e : first_ptr (l1 ++ l2) e = first_ptr l1 (first_ptr l2 e).
Proof. by destruct l1 as [|[]]. Qed.

Lemma last_ptr_app b l1 l2 : last_ptr b (l1 ++ l2) = last_ptr (last_ptr b l1) l2.
Proof. revert b. induction l1 as [|[p d] l1 IH]; intros b; [done|]. apply IH. Qed.

Lemma seg_app m b l1 l2 e :
  seg m b (l1 ++ l2) e ↔ seg m b l1 (first_ptr l2 e) ∧ seg m (last_ptr b l1) l2 e.
Proof.
  revert b. induction l1 as [|[p d] l1 IH]; intros b; cbn; [tauto|].
  rewrite IH, first_ptr_app. tauto.
Qed.

Lemma seg_frame m m' b l e :
  (∀ p, p ∈ l.*1 → m' !! p = m !! p) → seg m b l e → seg m' b l e.
Proof.
  revert b. induction l as [|[p d] l IH]; intros b Hm; cbn; [done|]. intros (Hp & Hn & Hl).
  split_and!; [done| |].
  - rewrite Hm; [done|left].
  - apply IH; [|done]. intros x Hx. apply Hm. by right.
Qed.

Lemma seg_nonnull m b l e p : seg m b l e → p ∈ l.*1 → p ≠ NULL.
Proof.
  revert b. induction l as [|[q d] l IH]; intros b; cbn; [by intros _ ?%elem_of_nil|].
  intros (Hq & _ & Hl) [->|Hin]%elem_of_cons; [done|by eapply IH].
Qed.

(** Changing the [next] of the last node and the [prev] of the first. *)
Lemma seg_snoc m b l p d e :
  seg m b (l ++ [(p, d)]) e ↔
  seg m b l p ∧ p ≠ NULL ∧ m !! p = Some (Node (Some d) (Some e) (Some (last_ptr b l))).
Proof. rewrite seg_app. cbn. tauto. Qed.

End seg.

(** The accessors on a node whose members are known. *)
Lemma get_next_at h p d n b : nodes h !! p = Some (Node d (Some n) b) → get_next h p = Ok n.
Proof. intros H. unfold get_next, node_at. by rewrite H. Qed.
Lemma get_prev_at h p d n b : nodes h !! p = Some (Node d n (Some b)) → get_prev h p = Ok b.
Proof. intros H. unfold get_prev, node_at. by rewrite H. Qed.
Lemma get_data_at h p d n b : nodes h !! p = Some (Node (Some d) n b) → get_data h p = Ok d.
Proof. intros H. unfold get_data, node_at. by rewrite H. Qed.
Lemma set_next_at h p d n b v :
  nodes h !! p = Some (Node d n b) → set_next h p v = Ok (set_node h p (Node d (Some v) b)).
Proof. intros H. unfold set_next, node_at. by rewrite H. Qed.
Lemma set_prev_at h p d n b v :
  nodes h !! p = Some (Node d n b) → set_prev h p v = Ok (set_node h p (Node d n (Some v))).
Proof. intros H. unfold set_prev, node_at. by rewrite H. Qed.
Lemma set_data_at h p d n b v :
  nodes h !! p = Some (Node d n b) → set_data h p v = Ok (set_node h p (Node (Some v) n b)).
Proof. intros H. unfold set_data, node_at. by rewrite H. Qed.

Create HintDb dll discriminated.
#[export] Hint Resolve get_next_at get_prev_at get_data_at set_next_at set_prev_at set_data_at : dll.

(** The walk gets past the nodes before [e]. *)
Lemma last_loop_skip h b l e fuel :
  seg (nodes h) b l e → e ≠ NULL →
  last_loop (length l + fuel) h (first_ptr l e) = last_loop fuel h e.
Proof.
  revert b. induction l as [|[q c] l IH]; intros b Hs He; [done|].
  destruct Hs as (_ & Hq & Hl). cbn [length Nat.add last_loop first_ptr].
  erewrite get_next_at by exact Hq. cbn [mbind res_bind].
  destruct (Z.eqb_spec (first_ptr l e) NULL) as [E|_]; [|by eapply IH].
  exfalso. destruct l as [|[x y] l]; cbn in E; [done|]. by destruct Hl.
Qed.

Lemma last_loop_spec h b l fuel p d :
  seg (nodes h) b (l ++ [(p, d)]) NULL → (length l < fuel)%nat →
  last_loop fuel h (first_ptr l p) = Ok p.
Proof.
  intros (Hs & Hp & Hn)%seg_snoc Hf.
  replace fuel with (length l + S (fuel - length l - 1))%nat by lia.
  rewrite (last_loop_skip _ _ _ _ _ Hs Hp). cbn [last_loop]. by erewrite get_next_at by exact Hn.
Qed.

Lemma get_last_spec h hd l p d fuel :
  dll h hd (l ++ [(p, d)]) → (length l < fuel)%nat → get_last fuel h hd = Ok d.
Proof.
  intros (-> & _ & Hs) Hf. unfold get_last. rewrite first_ptr_app; cbn [first_ptr].
  assert (first_ptr l p ≠ NULL) as Hne.
  { eapply seg_nonnull; [exact Hs|]. destruct l as [|[]]; cbn; left. }
  destruct (Z.eqb_spec (first_ptr l p) NULL); [done|].
  rewrite (last_loop_spec h NULL l fuel p d Hs Hf). cbn.
  apply seg_snoc in Hs as (_ & _ & Hp). by erewrite get_data_at by exact Hp.
Qed.

(** ** Reversal *)

(** The loop swaps the two links of every node it passes. *)
Lemma reverse_loop_spec h b l hd fuel :
  seg (nodes h) b l NULL → NoDup l.*1 → (length l < fuel)%nat →
  ∃ h', reverse_loop fuel h hd (first_ptr l NULL) b = Ok (h', last_ptr (if bool_decide (l = []) then hd else b) l) ∧
    blocks h' = blocks h ∧ (∀ p, p ∉ l.*1 → nodes h' !! p = nodes h !! p) ∧
    seg (nodes h') NULL (rev l) b.
Proof.
  revert h b hd fuel. induction l as [|[p d] l IH]; intros h b hd [|fuel] Hs Hnd Hf; cbn in Hf; try lia.
  { exists h. by split_and!. }
  cbn [seg first_ptr] in Hs. destruct Hs as (Hp & Hn & Hl).
  cbn in Hnd. apply list.NoDup_cons in Hnd as [Hnot Hnd].
  cbn [reverse_loop first_ptr]. destruct (Z.eqb_spec p NULL); [done|].
  erewrite get_next_at by exact Hn. cbn [mbind res_bind].
  erewrite set_prev_at by exact Hn. cbn [mbind res_bind].
  erewrite set_next_at by apply lookup_insert_eq. cbn [mbind res_bind].
  erewrite get_prev_at by apply lookup_insert_eq. cbn [mbind res_bind].
  set (h1 := set_node _ p (Node (Some d) (Some b) (Some (first_ptr l NULL)))).
  assert (∀ q, q ≠ p → nodes h1 !! q = nodes h !! q) as Hother.
  { intros q Hq. cbn. by rewrite !lookup_insert_ne by done. }
  destruct (IH h1 p (if first_ptr l NULL =? NULL then p else hd) fuel) as (h' & -> & Hb & Hf' & Hs').
  { eapply seg_frame; [|exact Hl]. intros q Hq. apply Hother. by intros ->. }
  { done. } { lia. }
  exists h'. split_and!.
  - f_equal. f_equal. rewrite (bool_decide_eq_false_2 (_ :: _ = [])) by done. cbn [last_ptr].
    by destruct l as [|[q c] l].
  - by rewrite Hb.
  - intros q [Hq1 Hq2]%not_elem_of_cons. rewrite Hf' by done. by apply Hother.
  - cbn [rev]. apply seg_snoc. split_and!; [done|done|].
    rewrite Hf' by done. unfold h1; cbn. rewrite lookup_insert_eq.
    do 3 f_equal. clear. destruct l as [|[q c] l]; [done|]. cbn [first_ptr rev].
    by rewrite last_ptr_app.
Qed.

Lemma fst_rev (l : list (Z * Z)) : (rev l).*1 = rev l.*1.
Proof. induction l as [|x l IH]; [done|]. cbn. by rewrite fmap_app, IH. Qed.

Lemma first_ptr_rev l e : first_ptr (rev l) e = last_ptr e l.
Proof.
  revert e. induction l as [|[p d] l IH]; intros e; [done|]. cbn. by rewrite first_ptr_app, IH.
Qed.

(** C31. [reverse] reverses a well-formed list of at least one node in place: the
    same nodes with the same data, linked in the opposite order, and nothing
    else of the heap changes. *)
Theorem reverse_spec h hd l fuel :
  dll h hd l → l ≠ [] → (length l < fuel)%nat →
  ∃ h' hd', reverse fuel h (Some hd) = Ok (h', Some hd') ∧ dll h' hd' (rev l) ∧
    blocks h' = blocks h ∧ ∀ p, p ∉ l.*1 → nodes h' !! p = nodes h !! p.
Proof.
  intros (-> & Hnd & Hs) Hne Hf. unfold reverse, reverse_helper.
  destruct l as [|[p d] l]; [done|]. pose proof Hs as (Hp & Hn & _). cbn [first_ptr].
  erewrite get_next_at by exact Hn. cbn [mbind res_bind].
  destruct (Z.eqb_spec (first_ptr l NULL) NULL) as [E|_].
  - destruct l as [|[q c] l].
    + exists h, p. split_and!; [done|split_and!; [done|done|exact Hs]|done|done].
    + exfalso. destruct Hs as (_ & _ & Hq & _). done.
  - destruct (reverse_loop_spec h NULL ((p, d) :: l) p fuel Hs Hnd Hf) as (h' & E & Hb & Hfr & Hs').
    cbn [first_ptr] in E. rewrite E. cbn [mbind res_bind].
    eexists _, _. split_and!; [reflexivity| |done|done].
    split_and!; [|rewrite fst_rev; by rewrite <- Permutation_rev|done].
    rewrite bool_decide_eq_false_2 by done. by rewrite first_ptr_rev.
Qed.

(** A two-node list. *)
Definition ex_heap : heap := Heap
  {[ 16 := Node (Some 100) (Some 48) (Some 0); 48 := Node (Some 200) (Some 0) (Some 16) ]}
  {[ 100 := [7; 8]; 200 := [9; 9]; 300 := [9; 9] ]}.

Lemma ex_dll : dll ex_heap 16 [(16, 100); (48, 200)].
Proof.
  split_and!; [done| |by split_and!].
  repeat (apply list.NoDup_cons; split; [rewrite ?list_elem_of_singleton; set_unfold; lia|]). apply NoDup_nil_2.
Qed.

Lemma reverse_spec_witness : ∃ h', reverse 3 ex_heap (Some 16) = Ok (h', Some 48) ∧
  dll h' 48 [(48, 200); (16, 100)].
Proof.
  destruct (reverse_spec ex_heap 16 [(16, 100); (48, 200)] 3 ex_dll) as (h' & hd' & E & Hd & _);
    [done|cbn; lia|]. exists h'. assert (hd' = 48) as -> by apply Hd. by split.
Defined.

(** ** Removal *)

(** The node after [p] gets the [prev] of [p] (lines 128-130). *)
Lemma relink_next h p d b l :
  nodes h !! p = Some (Node (Some d) (Some (first_ptr l NULL)) (Some b)) →
  seg (nodes h) p l NULL → p ∉ l.*1 → NoDup l.*1 →
  ∃ h', (if first_ptr l NULL =? NULL then Ok h
         else x ← get_prev h p; set_prev h (first_ptr l NULL) x) = Ok h' ∧
    seg (nodes h') b l NULL ∧ blocks h' = blocks h ∧
    (∀ q, q ∉ l.*1 → nodes h' !! q = nodes h !! q).
Proof.
  intros Hn Hs Hp Hnd. destruct l as [|[q c] l]; cbn [first_ptr].
  { exists h. by split_and!. }
  destruct Hs as (Hq & Hqn & Hs). destruct (Z.eqb_spec q NULL); [done|].
  erewrite get_prev_at by exact Hn. cbn [mbind res_bind]. erewrite set_prev_at by exact Hqn.
  cbn in Hnd. apply list.NoDup_cons in Hnd as [Hq2 Hnd].
  eexists. split; [reflexivity|]. cbn [nodes blocks set_node]. split_and!; [|done|].
  - split_and!; [done|by rewrite lookup_insert_eq|]. eapply seg_frame; [|exact Hs].
    intros x Hx. apply lookup_insert_ne. by intros <-.
  - intros x [Hx _]%not_elem_of_cons. by rewrite lookup_insert_ne.
Qed.

(** The node before [p], or the head, skips [p] (lines 131-135). *)
Lemma relink_prev h p d n l :
  nodes h !! p = Some (Node (Some d) (Some n) (Some (last_ptr NULL l))) →
  seg (nodes h) NULL l p → p ∉ l.*1 → NoDup l.*1 →
  ∃ h', (if p =? first_ptr l p then x ← get_next h p; Ok (h, x)
         else x ← get_prev h p; y ← get_next h p; h ← set_next h x y; Ok (h, first_ptr l p)) =
        Ok (h', first_ptr l n) ∧
    seg (nodes h') NULL l n ∧ blocks h' = blocks h ∧
    (∀ q, q ∉ l.*1 → nodes h' !! q = nodes h !! q).
Proof.
  intros Hn Hs Hp Hnd. erewrite get_next_at by exact Hn. erewrite get_prev_at by exact Hn.
  destruct l as [|[q c] l _] using rev_ind.
  { cbn [first_ptr]. rewrite Z.eqb_refl. exists h. by split_and!. }
  rewrite !first_ptr_app, last_ptr_app, !fmap_app in *. cbn [first_ptr last_ptr fmap list_fmap fst] in *.
  apply not_elem_of_app in Hp as [Hp Hpq%not_elem_of_cons]. destruct Hpq as [Hpq _].
  apply list.NoDup_app in Hnd as (_ & Hq1 & _).
  apply seg_snoc in Hs as (Hs & Hq & Hqn).
  destruct (Z.eqb_spec p (first_ptr l q)) as [E|_].
  { exfalso. destruct l as [|[x y] l]; cbn in E; [done|]. apply Hp. subst. left. }
  cbn [mbind res_bind]. erewrite set_next_at by exact Hqn. cbn [mbind res_bind].
  eexists. split; [reflexivity|]. cbn [nodes blocks set_node]. split_and!; [|done|].
  - apply seg_snoc. split_and!; [|done|by rewrite lookup_insert_eq]. eapply seg_frame; [|exact Hs].
    intros x Hx. apply lookup_insert_ne. intros <-. apply (Hq1 q Hx). left.
  - intros x Hx. apply not_elem_of_app in Hx as [_ [Hx _]%not_elem_of_cons].
    by rewrite lookup_insert_ne.
Qed.

(** The node of [p] goes, its neighbours are linked, its data is freed. *)
Lemma unlink_spec h hd l1 p d l2 :
  dll h hd (l1 ++ (p, d) :: l2) → (d ≠ NULL → is_Some (blocks h !! d)) →
  ∃ h' hd', unlink h hd p = Ok (h', hd', 1) ∧ dll h' hd' (l1 ++ l2) ∧
    nodes h' !! p = None ∧ blocks h' = (if d =? NULL then blocks h else delete d (blocks h)) ∧
    (∀ q, q ∉ (l1 ++ (p, d) :: l2).*1 → nodes h' !! q = nodes h !! q).
Proof.
  intros (-> & Hnd & Hs) Hd. rewrite fmap_app in *; cbn [fmap list_fmap fst] in *.
  apply list.NoDup_app in Hnd as (Hnd1 & Hdisj & Hnd2). apply list.NoDup_cons in Hnd2 as [Hp2 Hnd2].
  apply seg_app in Hs as [Hs1 (Hp & Hn & Hs2)]. rewrite first_ptr_app. cbn [first_ptr] in *.
  assert (p ∉ l1.*1) as Hp1 by (intros Hin; apply (Hdisj p Hin); left).
  assert (∀ q, q ∈ l1.*1 → q ∉ l2.*1) as Hd12 by (intros q H1 H2; apply (Hdisj q H1); by right).
  destruct (relink_next h p d _ l2 Hn Hs2 Hp2 Hnd2) as (h1 & E1 & Hl2 & Hb1 & Hfr1).
  pose proof (Hfr1 p Hp2) as Hn1. rewrite Hn in Hn1.
  destruct (relink_prev h1 p d _ l1 Hn1) as (h2 & E2 & Hl1 & Hb2 & Hfr2); [|done|done|].
  { eapply seg_frame; [|exact Hs1]. intros q Hq. by apply Hfr1, Hd12. }
  pose proof (Hfr2 p Hp1) as Hn2. rewrite Hn1 in Hn2.
  unfold unlink. erewrite get_next_at by exact Hn. cbn [mbind res_bind] in *. rewrite E1.
  cbn [mbind res_bind] in *. rewrite E2. cbn [mbind res_bind]. erewrite get_data_at by exact Hn2.
  cbn [mbind res_bind].
  assert (free_block h2 d = Ok (Heap (nodes h2) (if d =? NULL then blocks h else delete d (blocks h)))) as ->.
  { unfold free_block. rewrite <- Hb1, <- Hb2. destruct (Z.eqb_spec d NULL) as [|Hnull]; [by destruct h2|].
    destruct (Hd Hnull) as [bl Hbl]. by rewrite Hb2, Hb1, Hbl. }
  cbn [mbind res_bind]. unfold free_node, node_at; cbn [nodes blocks]. rewrite Hn2. cbn.
  eexists _, _. split; [reflexivity|]. cbn [nodes blocks]. split_and!; [|by rewrite lookup_delete_eq|done|].
  - split_and!; [by rewrite first_ptr_app| |].
    + rewrite fmap_app. by apply list.NoDup_app.
    + eapply seg_frame with (m := nodes h2).
      * intros q Hq. apply lookup_delete_ne. intros <-. rewrite fmap_app in Hq.
        by apply elem_of_app in Hq as [?|?].
      * apply seg_app. split; [done|]. eapply seg_frame; [|exact Hl2]. intros q Hq. apply Hfr2.
        intros H1. by apply (Hd12 q).
  - intros q Hq. apply not_elem_of_app in Hq as [Hq1 [Hqp Hq2]%not_elem_of_cons].
    cbn [nodes]. rewrite lookup_delete_ne by done. by rewrite Hfr2, Hfr1.
Qed.

(** The search stops at the first node whose data compares equal. *)
Lemma remove_loop_spec h hd x sz l b fuel :
  seg (nodes h) b l NULL → (length l < fuel)%nat →
  (∀ i d, l.*2 !! i = Some d → ∃ v, memcmp_eq h d x sz = Ok v) →
  (∃ l1 p d l2, l = l1 ++ (p, d) :: l2 ∧ (∀ c, c ∈ l1.*2 → memcmp_eq h c x sz = Ok false) ∧
     memcmp_eq h d x sz = Ok true ∧
     remove_loop fuel h hd x sz (first_ptr l NULL) = unlink h hd p) ∨
  ((∀ c, c ∈ l.*2 → memcmp_eq h c x sz = Ok false) ∧
     remove_loop fuel h hd x sz (first_ptr l NULL) = Ok (h, hd, 0)).
Proof.
  revert b fuel. induction l as [|[p d] l IH]; intros b [|fuel] Hs Hf Hcmp; cbn in Hf; try lia.
  { right. split; [by intros ? ?%elem_of_nil|done]. }
  destruct Hs as (Hp & Hn & Hs). cbn [remove_loop first_ptr].
  destruct (Z.eqb_spec p NULL); [done|]. erewrite get_data_at by exact Hn. cbn [mbind res_bind].
  destruct (Hcmp O d eq_refl) as [v Hv]. rewrite Hv. cbn [mbind res_bind]. destruct v.
  { left. exists [], p, d, l. split_and!; [done|by intros ? ?%elem_of_nil|done|done]. }
  erewrite get_next_at by exact Hn. cbn [mbind res_bind].
  destruct (IH p fuel Hs ltac:(lia)) as [(l1 & q & c & l2 & -> & H1 & H2 & E)|[H E]].
  - intros i. apply (Hcmp (S i)).
  - left. exists ((p, d) :: l1), q, c, l2. split_and!; [done| |done|done].
    intros y [->|Hy]%elem_of_cons; [done|by apply H1].
  - right. split; [|done]. intros y [->|Hy]%elem_of_cons; [done|by apply H].
Qed.

(** C32. [remove_element] on a well-formed list whose data blocks can be compared
    with the argument removes the first node that compares equal and returns 1:
    its neighbours are linked, it and its data are freed, and the rest of the
    heap is unchanged; when no node compares equal it returns 0 and changes
    nothing. *)
Theorem remove_element_spec h hd l x sz fuel :
  dll h hd l → (length l < fuel)%nat →
  (∀ i d, l.*2 !! i = Some d → is_Some (blocks h !! d) ∧ ∃ v, memcmp_eq h d x sz = Ok v) →
  (∃ l1 p d l2 h' hd', l = l1 ++ (p, d) :: l2 ∧
     (∀ c, c ∈ l1.*2 → memcmp_eq h c x sz = Ok false) ∧ memcmp_eq h d x sz = Ok true ∧
     remove_element fuel h hd x sz = Ok (h', hd', 1) ∧ dll h' hd' (l1 ++ l2) ∧
     nodes h' !! p = None ∧ blocks h' = (if d =? NULL then blocks h else delete d (blocks h)) ∧
     ∀ q, q ∉ l.*1 → nodes h' !! q = nodes h !! q) ∨
  ((∀ c, c ∈ l.*2 → memcmp_eq h c x sz = Ok false) ∧
     remove_element fuel h hd x sz = Ok (h, hd, 0)).
Proof.
  intros Hl Hf Hd. unfold remove_element. pose proof Hl as (Ehd & Hnd & Hs).
  destruct (Z.eqb_spec hd NULL) as [Hz|Hz].
  { right. split; [|done]. destruct l as [|[p d] l]; [by intros ? ?%elem_of_nil|].
    destruct Hs as (? & _). cbn in Ehd. congruence. }
  destruct (remove_loop_spec h hd x sz l NULL fuel Hs Hf) as [(l1 & p & d & l2 & El & H1 & H2 & E)|[H E]].
  - intros i d Hi. by apply (Hd i).
  - left. rewrite El in Hl. destruct (unlink_spec h hd l1 p d l2 Hl) as (h' & hd' & Eu & ? & ? & ? & ?).
    { intros _. apply (Hd (length l1)). rewrite El, fmap_app. cbn.
      rewrite lookup_app_r by (by rewrite length_fmap). by rewrite length_fmap, Nat.sub_diag. }
    exists l1, p, d, l2, h', hd'. rewrite Ehd at 2. rewrite E, El. by split_and!.
  - right. split; [done|]. by rewrite Ehd at 2.
Qed.

Lemma remove_element_spec_witness :
  ∃ h' hd' l', remove_element 3 ex_heap 16 300 2 = Ok (h', hd', 1) ∧ dll h' hd' l' ∧
    length l' = 1%nat.
Proof.
  destruct (remove_element_spec ex_heap 16 [(16, 100); (48, 200)] 300 2 3 ex_dll)
    as [(l1 & p & d & l2 & h' & hd' & El & _ & _ & E & Hl & _)|[H _]].
  - cbn. lia.
  - intros [|[|i]] d; cbn; intros [= <-]; split; eauto; eexists; vm_compute; reflexivity.
  - exists h', hd', (l1 ++ l2). split_and!; [exact E|exact Hl|].
    apply (f_equal length) in El. rewrite length_app in *. cbn in El. lia.
  - exfalso. assert (memcmp_eq ex_heap 200 300 2 = Ok false) as E by (apply H; right; left).
    discriminate E.
Defined.

(** ** Insertion and the other defects of the exercise *)
Lemma seg_notin m b l e p : seg m b l e → m !! p = None → p ∉ l.*1.
Proof.
  intros Hs Hp. revert b Hs. induction l as [|[x y] l IH]; intros b Hs; [by intros ?%elem_of_nil|].
  destruct Hs as (_ & Hx & Hl). intros [E|Hq]%elem_of_cons; [cbn in E; congruence|by eapply IH].
Qed.

Lemma seg_insert m b l e p n : seg m b l e → p ∉ l.*1 → seg (<[p := n]> m) b l e.
Proof.
  intros Hs Hp. eapply seg_frame; [|exact Hs]. intros q Hq. apply lookup_insert_ne. by intros <-.
Qed.

(** The new node and its copy of the data, before it is linked. *)
Lemma insert_last_alloc `{Malloc} h hd l x bs size p q fuel :
  seg (nodes h) NULL l NULL → x ≠ NULL → blocks h !! x = Some bs →
  1 ≤ size ≤ Z.of_nat (length bs) → size < 2 ^ 64 → malloc h 24 = Some p →
  malloc (Heap (<[p := Node None None None]> (nodes h)) (blocks h)) (size - 1) = Some q →
  ∃ h1, insert_last fuel h hd x size = link_last fuel h1 hd p ∧
    nodes h1 !! p = Some (Node (Some q) None None) ∧ seg (nodes h1) NULL l NULL ∧
    blocks h1 !! q = Some (take (Z.to_nat (size - 1)) bs).
Proof.
  intros Hs Hx Hbs Hsz Hsz64 Hp Hq. destruct (malloc_fresh _ _ _ Hp) as (_ & Hpn & _).
  unfold insert_last. destruct (Z.eqb_spec x NULL); [done|]. unfold malloc_node. rewrite Hp.
  unfold malloc_copy; cbn [nodes blocks]. rewrite (wrapU_small 64) by lia. rewrite Hq, Hbs.
  assert (∃ l0, (if size - 1 =? 0 then Ok [] else Ok bs) = Ok l0 ∧ size - 1 ≤ Z.of_nat (length l0) ∧
    take (Z.to_nat (size - 1)) l0 = take (Z.to_nat (size - 1)) bs) as (l0 & El0 & Hl0 & Hd).
  { destruct (Z.eqb_spec (size - 1) 0) as [E|]; [|exists bs; split_and!; [done|lia|done]].
    exists []. by rewrite E. }
  cbn [of_option]. rewrite El0. cbn [mbind res_bind]. rewrite decide_True, Hd by done. cbn [mbind res_bind].
  erewrite set_data_at by apply lookup_insert_eq. cbn [mbind res_bind].
  eexists. split_and!; [reflexivity|apply lookup_insert_eq| |apply lookup_insert_eq].
  cbn. rewrite insert_insert_eq. apply seg_insert; [done|by eapply seg_notin].
Qed.

(** A list whose last node has an uninitialised [next] cannot be walked. *)
Lemma get_last_uninit h b l p d fuel :
  seg (nodes h) b l p → nodes h !! p = Some (Node d None (Some (last_ptr b l))) → p ≠ NULL →
  (length l ≤ fuel)%nat → get_last (S fuel) h (first_ptr l p) = Err UB.
Proof.
  intros Hs Hp Hp0 Hf. unfold get_last. destruct (Z.eqb_spec (first_ptr l p) NULL) as [E|_].
  { exfalso. destruct l as [|[x y] l]; cbn in E; [done|]. by destruct Hs. }
  replace (S fuel) with (length l + S (fuel - length l))%nat by lia.
  rewrite (last_loop_skip _ _ _ _ _ Hs Hp0). cbn [last_loop]. unfold get_next, node_at. by rewrite Hp.
Qed.

(** What [insert_last] does with the memory it gets.  On an empty list it
    makes a well-formed list of one node, whose data is the first size - 1 bytes
    of the argument, so the last byte is lost.  On a non-empty list it leaves
    the [next] member of the new node uninitialised, and the next walk over the
    list, [get_last], reads that member. *)
Theorem insert_last_spec `{Malloc} h hd l x bs size p q fuel :
  dll h hd l → x ≠ NULL → blocks h !! x = Some bs → 1 ≤ size ≤ Z.of_nat (length bs) → size < 2 ^ 64 →
  malloc h 24 = Some p →
  malloc (Heap (<[p := Node None None None]> (nodes h)) (blocks h)) (size - 1) = Some q →
  (length l < fuel)%nat →
  ∃ h' hd', insert_last fuel h hd x size = Ok (h', hd') ∧
    blocks h' !! q = Some (take (Z.to_nat (size - 1)) bs) ∧
    (l = [] → dll h' hd' [(p, q)]) ∧
    (l ≠ [] → hd' = hd ∧ ∀ fuel', (length l < fuel')%nat → get_last fuel' h' hd' = Err UB).
Proof.
  intros (Ehd & Hnd & Hs) Hx Hbs Hsz Hsz64 Hp Hq Hf. destruct (malloc_fresh _ _ _ Hp) as (Hp0 & Hpn & _).
  destruct (insert_last_alloc h hd l x bs size p q fuel Hs Hx Hbs Hsz Hsz64 Hp Hq)
    as (h1 & -> & H1 & Hs1 & Hb1). unfold link_last. rewrite Ehd.
  destruct l as [|[r c] l _] using rev_ind; cbn [first_ptr].
  - rewrite Z.eqb_refl. erewrite set_prev_at by exact H1. cbn [mbind res_bind].
    erewrite set_next_at by apply lookup_insert_eq. cbn [mbind res_bind].
    eexists _, _. split_and!; [reflexivity|exact Hb1| |done]. intros _.
    split_and!; [done|apply NoDup_singleton|]. cbn. split_and!; [done| |done]. apply lookup_insert_eq.
  - pose proof (proj1 (seg_snoc _ _ _ _ _ _) Hs1) as (Hl & Hr & Hrn). assert (p ≠ r) as Hpr by congruence.
    rewrite first_ptr_app; cbn [first_ptr]. rewrite length_app in Hf; cbn in Hf.
    destruct (Z.eqb_spec (first_ptr l r) NULL) as [E|_].
    { exfalso. destruct l as [|[y z] l]; cbn in E; [done|]. by destruct Hl. }
    rewrite (last_loop_spec h1 NULL l fuel r c) by (done || lia). cbn [mbind res_bind].
    erewrite set_next_at by exact Hrn. cbn [mbind res_bind].
    erewrite set_prev_at by (cbn; rewrite lookup_insert_ne by done; exact H1). cbn [mbind res_bind].
    eexists _, _. split_and!; [reflexivity|exact Hb1|by destruct l|]. intros _. split; [done|].
    intros [|fuel'] Hf'; [lia|]. rewrite length_app in Hf'; cbn in Hf'.
    replace (first_ptr l r) with (first_ptr (l ++ [(r, c)]) p) by (by rewrite first_ptr_app).
    eapply get_last_uninit; [| |done|rewrite length_app; cbn; lia].
    + pose proof (seg_notin _ _ _ _ _ Hs Hpn) as Hpl. rewrite fmap_app in Hpl, Hnd.
      apply not_elem_of_app in Hpl as [Hpl _]. apply list.NoDup_app in Hnd as (_ & Hrl & _).
      cbn [nodes set_node]. apply seg_snoc. split_and!; [|done|].
      * apply seg_insert; [apply seg_insert; [done|]|done]. intros Hin. apply (Hrl r Hin). left.
      * by rewrite lookup_insert_ne, lookup_insert_eq.
    + cbn [nodes set_node]. rewrite lookup_insert_eq. by rewrite last_ptr_app.
Qed.

(** A bump allocator, and the instance it gives. *)
Definition ex_malloc (h : heap) (n : Z) : option Z :=
  Some (1 + foldr Z.max 0 ((map_to_list (nodes h)).*1 ++ (map_to_list (blocks h)).*1)).

Lemma max_fresh l : ∀ p, p ∈ l → p < 1 + foldr Z.max 0 l.
Proof. induction 1; cbn; lia. Qed.

#[export] Instance ex_Malloc : Malloc.
Proof.
  refine {| malloc := ex_malloc |}. intros h n p [= <-]. unfold NULL.
  set (l := _ ++ _). pose proof (max_fresh l) as Hl. split_and!.
  - assert (0 ≤ foldr Z.max 0 l) by (clear; induction l; cbn; lia). lia.
  - destruct (nodes h !! _) as [v|] eqn:E; [|done]. exfalso. apply elem_of_map_to_list in E.
    eapply Z.lt_irrefl, Hl, elem_of_app; left. by apply (list_elem_of_fmap_2 fst) in E.
  - destruct (blocks h !! _) as [v|] eqn:E; [|done]. exfalso. apply elem_of_map_to_list in E.
    eapply Z.lt_irrefl, Hl, elem_of_app; right. by apply (list_elem_of_fmap_2 fst) in E.
Defined.

Lemma insert_last_spec_witness :
  ∃ h', insert_last 3 ex_heap 16 300 2 = Ok (h', 16) ∧ get_last 3 h' 16 = Err UB.
Proof.
  destruct (insert_last_spec ex_heap 16 [(16, 100); (48, 200)] 300 [9; 9] 2 301 302 3 ex_dll)
    as (h' & hd' & E & _ & _ & H); [done|reflexivity|cbn; lia|lia|reflexivity|reflexivity|cbn; lia|].
  destruct (H ltac:(done)) as [-> Hget]. exists h'. split; [exact E|]. apply Hget. cbn. lia.
Defined.

(** The other functions handed out with defects: [length_list] does not
    return on a non-empty list, because it does not advance; [remove_first] on a
    well-formed non-empty list whose data can be freed unlinks and frees the first
    node and then reads that node's data pointer. *)
Theorem length_list_remove_first_defects h hd l :
  dll h hd l → l ≠ [] →
  (∀ p d, head l = Some (p, d) → d ≠ NULL → is_Some (blocks h !! d)) →
  (∀ fuel, length_list fuel hd = Err NoFuel) ∧ remove_first h hd = Err UB.
Proof.
  intros (Ehd & Hnd & Hs) Hne Hd. destruct l as [|[p d] l]; [done|]. destruct Hs as (Hp & Hn & Hs).
  specialize (Hd p d eq_refl). cbn [first_ptr] in Ehd. rewrite Ehd. split.
  - intros fuel. unfold length_list. destruct (Z.eqb_spec p NULL); [done|]. generalize 0 as len.
    induction fuel as [|fuel IH]; intros len; [done|]. cbn [length_loop].
    destruct (Z.eqb_spec p NULL); [done|]. apply IH.
  - unfold remove_first. destruct (Z.eqb_spec p NULL); [done|]. erewrite get_next_at by exact Hn.
    cbn [mbind res_bind].
    assert (∃ h1, (if first_ptr l NULL =? NULL then Ok h else set_prev h (first_ptr l NULL) NULL) = Ok h1 ∧
      nodes h1 !! p = Some (Node (Some d) (Some (first_ptr l NULL)) (Some NULL)) ∧ blocks h1 = blocks h)
      as (h1 & -> & H1 & Hb).
    { destruct l as [|[q c] l]; cbn [first_ptr]; [by exists h|]. destruct Hs as (Hq & Hqn & _).
      destruct (Z.eqb_spec q NULL); [done|]. erewrite set_prev_at by exact Hqn. eexists. split_and!; [done| |done].
      cbn. rewrite lookup_insert_ne; [done|]. intros ->. cbn in Hnd.
      apply list.NoDup_cons in Hnd as [Hnot _]. apply Hnot. left. }
    cbn [mbind res_bind]. erewrite get_data_at by exact H1. cbn [mbind res_bind].
    assert (∃ h2, free_block h1 d = Ok h2 ∧ nodes h2 = nodes h1) as (h2 & -> & H2).
    { unfold free_block. destruct (Z.eqb_spec d NULL) as [|Hd0]; [by exists h1|].
      destruct (Hd Hd0) as [bl Hbl]. rewrite Hb, Hbl. by eexists. }
    cbn [mbind res_bind]. unfold free_node, node_at. rewrite H2, H1. cbn.
    unfold get_data, node_at; cbn. by rewrite lookup_delete_eq.
Qed.

Lemma length_list_remove_first_defects_witness :
  length_list 1000 16 = Err NoFuel ∧ remove_first ex_heap 16 = Err UB.
Proof.
  destruct (length_list_remove_first_defects ex_heap 16 _ ex_dll) as [H1 H2]; [done| |by split].
  intros p d [= <- <-] _. by eexists.
Defined.
