(* ===== verification/InkConfig.v ===== *)
(** * The configuration of the inklings simulation

    Models assignments/a4/inklings/cink: the configuration structures of
    include/config.h, the YAML-like parser of src/config.c, the start of the
    simulation in src/sim.c and src/main.c, and src/logs.c, which repeats the
    search for a directory.

    Strings are lists of bytes without their NUL.  The working directory, the
    directories that exist and the content of the configuration file are
    arguments.  The theorems: the parser reads back what [render] writes, what it
    stores always fits the arrays of the structures, and on the configuration
    file of the repository it never reaches the messages. *)
From stdpp Require Import base tactics numbers list option.
From Stdlib Require Import ZArith Lia.
From S2P Require Import Prelude CText.

(** ** The C library on strings *)
Definition str_eqb (a b : bytes) : bool := bool_decide (a = b).

(** strncmp(p, h, strlen(h)) == 0 *)
Fixpoint starts_with (h p : bytes) : bool :=
  match h, p with
  | [], _ => true
  | a :: h, b :: p => (a =? b) && starts_with h p
  | _, [] => false
  end.

(** The part of a buffer before the first NUL. *)
Fixpoint c_string (l : bytes) : bytes :=
  match l with [] => [] | c :: l => if c =? 0 then [] else c :: c_string l end.

(** strchr(p, c), as the parts before and after. *)
Fixpoint split_at (c : Z) (p : bytes) : option (bytes * bytes) :=
  match p with
  | [] => None
  | x :: p => if x =? c then Some ([], p) else '(a, b) ← split_at c p; Some (x :: a, b)
  end.

Definition tolower (c : Z) : Z := if (65 <=? c) && (c <=? 90) then c + 32 else c.
Definition strcasecmp_eq (a b : bytes) : bool := str_eqb (tolower <$> a) (tolower <$> b).

(** fgets into a buffer of [n + 1] bytes: a line and what remains. *)
Fixpoint fgets_loop (n : nat) (l : bytes) : bytes * bytes :=
  match n, l with
  | O, _ => ([], l)
  | _, [] => ([], [])
  | S n, c :: l => if c =? 10 then ([c], l) else let '(a, b) := fgets_loop n l in (c :: a, b)
  end.
Definition fgets (size : nat) (l : bytes) : option (bytes * bytes) :=
  match l with [] => None | _ => Some (fgets_loop (size - 1) l) end.

(** snprintf(buf, size, "%s", v) *)
Definition snprintf_s (size : Z) (v : bytes) : bytes := take (Z.to_nat (size - 1)) v.

(** ** The structures *)

(** @src assignments/a4/inklings/cink/include/config.h 6-9 LogsConfig *)
Record LogsConfig := MkLogs { dir : bytes; actions : bytes }.

(** @src assignments/a4/inklings/cink/include/config.h 11-19 SimulationConfig *)
Record SimulationConfig := MkSimulation {
  default_rows : Z; default_cols : Z; min_rows : Z; min_cols : Z;
  min_threads : Z; default_threads : Z; draw_colored_traveler_heads : Z
}.

(** @src assignments/a4/inklings/cink/include/config.h 21-28 InkConfig *)
Record InkConfig := MkInk {
  max_level : Z; max_add_ink : Z; refill_ink : Z;
  initial_red_level : Z; initial_green_level : Z; initial_blue_level : Z
}.

(** @src assignments/a4/inklings/cink/include/config.h 30-41 TimingConfig *)
Record TimingConfig := MkTiming {
  min_producer_sleep_us : Z; producer_sleep_us : Z; inkling_sleep_us : Z;
  inkling_sleep_step_us : Z; inkling_sleep_min_us : Z; inkling_sleep_max_us : Z;
  arg_warning_sleep_s : Z; shutdown_delay_s : Z; event_loop_interval_ms : Z;
  event_loop_sleep_s : Z
}.

(** @src assignments/a4/inklings/cink/include/config.h 43-45 EventLoopConfig *)
Record EventLoopConfig := MkEventLoop { max_recursive_depth : Z }.

(** @src assignments/a4/inklings/cink/include/config.h 47-52 ProducersConfig *)
Record ProducersConfig := MkProducers {
  speedup_factor_num : Z; speedup_factor_den : Z;
  slowdown_factor_num : Z; slowdown_factor_den : Z
}.

(** @src assignments/a4/inklings/cink/include/config.h 54-56 IOConfig *)
Record IOConfig := MkIO { pipe_path : bytes }.

(** @src assignments/a4/inklings/cink/include/config.h 58-64 IconDirectionsConfig *)
Record IconDirectionsConfig := MkIcons {
  north : bytes; west : bytes; south : bytes; east : bytes; none : bytes
}.

(** @src assignments/a4/inklings/cink/include/config.h 66-73 MessagesConfig *)
Record MessagesConfig := MkMessages {
  ink_tank_header : bytes; live_threads_label : bytes; no_args_message : bytes;
  quit_no_threads_message : bytes; quit_esc_message : bytes; quit_generic_message : bytes
}.

(** @src assignments/a4/inklings/cink/include/config.h 75-78 UIConfig *)
Record UIConfig := MkUI { icon_directions : IconDirectionsConfig; messages : MessagesConfig }.

(** @src assignments/a4/inklings/cink/include/config.h 80-89 AppConfig *)
Record AppConfig := MkApp {
  logs : LogsConfig; simulation : SimulationConfig; ink : InkConfig; timing : TimingConfig;
  event_loop : EventLoopConfig; producers : ProducersConfig; io : IOConfig; ui : UIConfig
}.

(** memset(cfg, 0, sizeof *cfg) *)
(** @src assignments/a4/inklings/cink/src/config.c 119-119 load_config *)
Definition zero_config : AppConfig :=
  MkApp (MkLogs [] []) (MkSimulation 0 0 0 0 0 0 0) (MkInk 0 0 0 0 0 0)
    (MkTiming 0 0 0 0 0 0 0 0 0 0) (MkEventLoop 0) (MkProducers 0 0 0 0) (MkIO [])
    (MkUI (MkIcons [] [] [] [] []) (MkMessages [] [] [] [] [] [])).

(** @src assignments/a4/inklings/cink/src/config.c 10-22 Section *)
Inductive Section_ :=
| SEC_NONE | SEC_LOGS | SEC_SIMULATION | SEC_INK | SEC_TIMING | SEC_EVENT_LOOP
| SEC_PRODUCERS | SEC_IO | SEC_UI | SEC_UI_ICON | SEC_UI_MESSAGES.
#[export] Instance Section_eq_dec : EqDecision Section_.
Proof. solve_decision. Defined.

(** ** Parsing a line *)

(** @src assignments/a4/inklings/cink/src/config.c 33-36 trim *)
Fixpoint trim_end (l : bytes) : bytes :=
  match l with
  | [] => []
  | c :: l => match trim_end l with [] => if isspace c then [] else [c] | r => c :: r end
  end.

(** @src assignments/a4/inklings/cink/src/config.c 25-38 trim *)
Definition trim (s : bytes) : bytes := trim_end (skip_space s).

(** @src assignments/a4/inklings/cink/src/config.c 41-46 parse_bool_or_int *)
Definition parse_bool_or_int (v : bytes) : res Z :=
  if strcasecmp_eq v (str "true") then Ok 1
  else if strcasecmp_eq v (str "false") then Ok 0 else atoi v.

Definition quote : Z := 34.

(** @src assignments/a4/inklings/cink/src/config.c 49-56 strip_quotes *)
Definition strip_quotes (v : bytes) : bytes :=
  if decide (2 ≤ length v)%nat then
    if (default 0 (head v) =? quote) && (default 0 (list.last v) =? quote)
    then take (length v - 2) (drop 1 v) else v
  else v.

(** The top-level section headers. *)
(** @src assignments/a4/inklings/cink/src/config.c 133-157 load_config *)
Definition headers : list (bytes * Section_) :=
  [(str "logs:", SEC_LOGS); (str "simulation:", SEC_SIMULATION); (str "ink:", SEC_INK);
   (str "timing:", SEC_TIMING); (str "event_loop:", SEC_EVENT_LOOP);
   (str "producers:", SEC_PRODUCERS); (str "io:", SEC_IO); (str "ui:", SEC_UI)].

Fixpoint find_header (hs : list (bytes * Section_)) (p : bytes) : option Section_ :=
  match hs with
  | [] => None
  | (h, s) :: hs => if starts_with h p then Some s else find_header hs p
  end.

(** The section a header line starts, with the UI subsections. *)
(** @src assignments/a4/inklings/cink/src/config.c 133-166 load_config *)
Definition new_section (section : Section_) (p : bytes) : option Section_ :=
  match find_header headers p with
  | Some s => Some s
  | None =>
    if bool_decide (section = SEC_UI) && starts_with (str "icon_directions:") p
    then Some SEC_UI_ICON
    else if bool_decide (section = SEC_UI) && starts_with (str "messages:") p
    then Some SEC_UI_MESSAGES else None
  end.

(** One branch of an else-if chain over the keys, which are distinct: the member
    named [name] is set when it is the key, and kept otherwise. *)
Definition field_int (key value : bytes) (name : String.string) (old : Z) : res Z :=
  if str_eqb key (str name) then atoi value else Ok old.
Arguments field_int key value name%_string_scope old.
Definition field_str (key value : bytes) (size : Z) (name : String.string) (old : bytes) : bytes :=
  if str_eqb key (str name) then snprintf_s size value else old.
Arguments field_str key value size name%_string_scope old.

(** @src assignments/a4/inklings/cink/src/config.c 184-190 load_config *)
Definition set_logs (k v : bytes) (c : LogsConfig) : LogsConfig :=
  MkLogs (field_str k v 256 "dir" (dir c)) (field_str k v 256 "actions" (actions c)).

(** @src assignments/a4/inklings/cink/src/config.c 192-207 load_config *)
Definition set_simulation (k v : bytes) (c : SimulationConfig) : res SimulationConfig :=
  x1 ← field_int k v "default_rows" (default_rows c);
  x2 ← field_int k v "default_cols" (default_cols c);
  x3 ← field_int k v "min_rows" (min_rows c);
  x4 ← field_int k v "min_cols" (min_cols c);
  x5 ← field_int k v "min_threads" (min_threads c);
  x6 ← field_int k v "default_threads" (default_threads c);
  x7 ← (if str_eqb k (str "draw_colored_traveler_heads") then parse_bool_or_int v
        else Ok (draw_colored_traveler_heads c));
  Ok (MkSimulation x1 x2 x3 x4 x5 x6 x7).

(** @src assignments/a4/inklings/cink/src/config.c 209-222 load_config *)
Definition set_ink (k v : bytes) (c : InkConfig) : res InkConfig :=
  x1 ← field_int k v "max_level" (max_level c);
  x2 ← field_int k v "max_add_ink" (max_add_ink c);
  x3 ← field_int k v "refill_ink" (refill_ink c);
  x4 ← field_int k v "initial_red_level" (initial_red_level c);
  x5 ← field_int k v "initial_green_level" (initial_green_level c);
  x6 ← field_int k v "initial_blue_level" (initial_blue_level c);
  Ok (MkInk x1 x2 x3 x4 x5 x6).

(** @src assignments/a4/inklings/cink/src/config.c 224-245 load_config *)
Definition set_timing (k v : bytes) (c : TimingConfig) : res TimingConfig :=
  x1 ← field_int k v "min_producer_sleep_us" (min_producer_sleep_us c);
  x2 ← field_int k v "producer_sleep_us" (producer_sleep_us c);
  x3 ← field_int k v "inkling_sleep_us" (inkling_sleep_us c);
  x4 ← field_int k v "inkling_sleep_step_us" (inkling_sleep_step_us c);
  x5 ← field_int k v "inkling_sleep_min_us" (inkling_sleep_min_us c);
  x6 ← field_int k v "inkling_sleep_max_us" (inkling_sleep_max_us c);
  x7 ← field_int k v "arg_warning_sleep_s" (arg_warning_sleep_s c);
  x8 ← field_int k v "shutdown_delay_s" (shutdown_delay_s c);
  x9 ← field_int k v "event_loop_interval_ms" (event_loop_interval_ms c);
  x10 ← field_int k v "event_loop_sleep_s" (event_loop_sleep_s c);
  Ok (MkTiming x1 x2 x3 x4 x5 x6 x7 x8 x9 x10).

(** @src assignments/a4/inklings/cink/src/config.c 247-250 load_config *)
Definition set_event_loop (k v : bytes) (c : EventLoopConfig) : res EventLoopConfig :=
  x1 ← field_int k v "max_recursive_depth" (max_recursive_depth c);
  Ok (MkEventLoop x1).

(** @src assignments/a4/inklings/cink/src/config.c 252-261 load_config *)
Definition set_producers (k v : bytes) (c : ProducersConfig) : res ProducersConfig :=
  x1 ← field_int k v "speedup_factor_num" (speedup_factor_num c);
  x2 ← field_int k v "speedup_factor_den" (speedup_factor_den c);
  x3 ← field_int k v "slowdown_factor_num" (slowdown_factor_num c);
  x4 ← field_int k v "slowdown_factor_den" (slowdown_factor_den c);
  Ok (MkProducers x1 x2 x3 x4).

(** @src assignments/a4/inklings/cink/src/config.c 263-267 load_config *)
Definition set_io (k v : bytes) (c : IOConfig) : IOConfig :=
  MkIO (field_str k v 256 "pipe_path" (pipe_path c)).

(** @src assignments/a4/inklings/cink/src/config.c 269-285 load_config *)
Definition set_icons (k v : bytes) (c : IconDirectionsConfig) : IconDirectionsConfig :=
  MkIcons (field_str k v 8 "north" (north c)) (field_str k v 8 "west" (west c))
    (field_str k v 8 "south" (south c)) (field_str k v 8 "east" (east c))
    (field_str k v 8 "none" (none c)).

(** @src assignments/a4/inklings/cink/src/config.c 287-306 load_config *)
Definition set_messages (k v : bytes) (c : MessagesConfig) : MessagesConfig :=
  MkMessages (field_str k v 128 "ink_tank_header" (ink_tank_header c))
    (field_str k v 64 "live_threads_label" (live_threads_label c))
    (field_str k v 256 "no_args_message" (no_args_message c))
    (field_str k v 256 "quit_no_threads_message" (quit_no_threads_message c))
    (field_str k v 256 "quit_esc_message" (quit_esc_message c))
    (field_str k v 256 "quit_generic_message" (quit_generic_message c)).

(** The switch over the section. *)
(** @src assignments/a4/inklings/cink/src/config.c 182-311 load_config *)
Definition set_key (section : Section_) (k v : bytes) (c : AppConfig) : res AppConfig :=
  let '(MkApp lg sm ik tm ev pr io ui) := c in
  match section with
  | SEC_LOGS => Ok (MkApp (set_logs k v lg) sm ik tm ev pr io ui)
  | SEC_SIMULATION => sm ← set_simulation k v sm; Ok (MkApp lg sm ik tm ev pr io ui)
  | SEC_INK => ik ← set_ink k v ik; Ok (MkApp lg sm ik tm ev pr io ui)
  | SEC_TIMING => tm ← set_timing k v tm; Ok (MkApp lg sm ik tm ev pr io ui)
  | SEC_EVENT_LOOP => ev ← set_event_loop k v ev; Ok (MkApp lg sm ik tm ev pr io ui)
  | SEC_PRODUCERS => pr ← set_producers k v pr; Ok (MkApp lg sm ik tm ev pr io ui)
  | SEC_IO => Ok (MkApp lg sm ik tm ev pr (set_io k v io) ui)
  | SEC_UI_ICON => Ok (MkApp lg sm ik tm ev pr io (MkUI (set_icons k v (icon_directions ui)) (messages ui)))
  | SEC_UI_MESSAGES =>
    Ok (MkApp lg sm ik tm ev pr io (MkUI (icon_directions ui) (set_messages k v (messages ui))))
  | SEC_NONE | SEC_UI => Ok c
  end.

(** One round of the loop on the line fgets read. *)
(** @src assignments/a4/inklings/cink/src/config.c 125-311 load_config *)
Definition load_line (line : bytes) (st : Section_ * AppConfig) : res (Section_ * AppConfig) :=
  let '(section, cfg) := st in
  let p := trim (c_string line) in
  if (default 0 (head p) =? 0) || (default 0 (head p) =? 35) then Ok st else
  match new_section section p with
  | Some s => Ok (s, cfg)
  | None =>
    match split_at 58 p with
    | None => Ok st
    | Some (before, after) =>
      let key := trim before in
      let value := strip_quotes (trim after) in
      cfg ← set_key section key value cfg;
      Ok (section, cfg)
    end
  end.

(** @src assignments/a4/inklings/cink/src/config.c 121-124 load_config *)
Fixpoint load_loop (fuel : nat) (file : bytes) (st : Section_ * AppConfig) : res (Section_ * AppConfig) :=
  match fuel with
  | O => Err NoFuel
  | S fuel =>
    match fgets 512 file with
    | None => Ok st
    | Some (line, file) => st ← load_line line st; load_loop fuel file st
    end
  end.

(** The parser on the content of the file: every round consumes a byte. *)
(** @src assignments/a4/inklings/cink/src/config.c 119-315 load_config *)
Definition parse_config (file : bytes) : res AppConfig :=
  st ← load_loop (S (length file)) file (SEC_NONE, zero_config); Ok st.2.

(** ** Finding the file *)
Definition PATH_MAX : Z := 4096.

Section files.
(** getcwd, whether opendir succeeds, and the content of a file fopen opens. *)
Context (getcwd : option bytes) (opendir : bytes → bool) (fopen : bytes → option bytes).

(** @src assignments/a4/inklings/cink/src/config.c 76-92 find_relative_dir *)
Fixpoint try_dirs (cwd name : bytes) (out_sz : Z) (candidates : list bytes) : option bytes :=
  match candidates with
  | [] => None
  | c :: cs =>
    let candidate :=
      match c with
      | [] => snprintf_s PATH_MAX (cwd ++ str "/" ++ name)
      | _ => snprintf_s PATH_MAX (cwd ++ str "/" ++ c ++ str "/" ++ name)
      end in
    if opendir candidate then Some (snprintf_s out_sz candidate)
    else try_dirs cwd name out_sz cs
  end.

(** [None] is an exit with status 1. *)
(** @src assignments/a4/inklings/cink/src/config.c 61-99 find_relative_dir *)
Definition find_relative_dir (name : bytes) (out_sz : Z) : option bytes :=
  cwd ← getcwd; try_dirs cwd name out_sz [[]; str ".."; str "../.."].

(** How load_config leaves: the process exits, it returns -1, or 0 with the
    configuration. *)
Inductive load_result := Exit1 | OpenFailed | Loaded (r : res AppConfig).

(** @src assignments/a4/inklings/cink/src/config.c 104-316 load_config *)
Definition load_config : load_result :=
  match find_relative_dir (str "config") PATH_MAX with
  | None => Exit1
  | Some config_dir =>
    let config_path := snprintf_s PATH_MAX (config_dir ++ str "/" ++ str "inklings_config.yaml") in
    match fopen config_path with
    | None => OpenFailed
    | Some file => Loaded (parse_config file)
    end
  end.

(** logs.c has its own copy of the search, and prints what it would do. *)
(** @src assignments/a4/inklings/cink/src/logs.c 21-59 find_relative_dir *)
Definition logs_find_relative_dir (name : bytes) (out_sz : Z) : option bytes :=
  find_relative_dir name out_sz.

(** @src assignments/a4/inklings/cink/src/logs.c 61-70 main *)
Definition logs_main : option (list bytes * Z) :=
  logs_path ← logs_find_relative_dir (str "logs") PATH_MAX;
  Some ([str "logs_c: using logs directory: " ++ logs_path ++ [10];
         str "logs_c: please implement merging " ++ logs_path ++ str "/*.txt into actions.txt" ++ [10]],
        0).
End files.

(** ** The simulation's start *)

(** @src assignments/a4/inklings/cink/include/sim.h 8-14 TravelDirection *)
Inductive TravelDirection := DIR_NORTH | DIR_WEST | DIR_SOUTH | DIR_EAST.
(** @src assignments/a4/inklings/cink/include/sim.h 16-21 InklingType *)
Inductive InklingType := TRAV_RED | TRAV_GREEN | TRAV_BLUE.

(** @src assignments/a4/inklings/cink/include/sim.h 24-30 InklingInfo *)
Record InklingInfo := MkInkling {
  ik_type : InklingType; row : Z; col : Z; ik_dir : TravelDirection; is_live : Z
}.

(** The members sim_init leaves alone hold what the caller's object held. *)
(** @src assignments/a4/inklings/cink/include/sim.h 33-51 SimState *)
Record SimState := MkSim {
  config : AppConfig; grid : list (list Z); num_rows : Z; num_cols : Z;
  inklings : list InklingInfo; num_inklings : Z;
  red_level : Z; green_level : Z; blue_level : Z
}.

(** @src assignments/a4/inklings/cink/src/sim.c 5-21 sim_init *)
Definition sim_init (state : SimState) (cfg : AppConfig) : SimState * Z :=
  (MkSim cfg (grid state) (default_rows (simulation cfg)) (default_cols (simulation cfg))
     (inklings state) (num_inklings state)
     (initial_red_level (ink cfg)) (initial_green_level (ink cfg)) (initial_blue_level (ink cfg)), 0).

(** @src assignments/a4/inklings/cink/src/sim.c 23-26 sim_shutdown *)
Definition sim_shutdown (state : SimState) : SimState := state.
(** @src assignments/a4/inklings/cink/src/ascii_art.c 19-22 event_loop *)
Definition event_loop_run (state : SimState) : SimState := state.

(** @src assignments/a4/inklings/cink/include/ascii_art.h 9-19 TextColor *)
Inductive TextColor :=
| TEXT_DEFAULT | TEXT_BLACK | TEXT_RED | TEXT_GREEN | TEXT_YELLOW | TEXT_BLUE
| TEXT_MAGENTA | TEXT_CYAN | TEXT_WHITE.

(** The exit status of the program. *)
(** @src assignments/a4/inklings/cink/src/main.c 9-35 main *)
Definition main (getcwd : option bytes) (opendir : bytes → bool) (fopen : bytes → option bytes)
    (state : SimState) : res (Z * SimState) :=
  match load_config getcwd opendir fopen with
  | Exit1 | OpenFailed => Ok (1, state)
  | Loaded r =>
    cfg ← r;
    let '(state, e) := sim_init state cfg in
    if negb (e =? 0) then Ok (1, state)
    else Ok (0, sim_shutdown (event_loop_run state))
  end.

(** ** Writing a configuration that the parser reads back *)
Definition show_str (v : bytes) : bytes := quote :: v ++ [quote].

Definition header (h : String.string) : bytes := str h ++ [10].
Arguments header h%_string_scope.
Definition entry (key : String.string) (w : bytes) : bytes := str "  " ++ str key ++ str ": " ++ w ++ [10].
Arguments entry key%_string_scope w.

Definition render_logs (c : LogsConfig) : list bytes :=
  [header "logs:"; entry "dir" (show_str (dir c)); entry "actions" (show_str (actions c))].
Definition render_simulation (c : SimulationConfig) : list bytes :=
  [header "simulation:"; entry "default_rows" (show_int (default_rows c));
   entry "default_cols" (show_int (default_cols c)); entry "min_rows" (show_int (min_rows c));
   entry "min_cols" (show_int (min_cols c)); entry "min_threads" (show_int (min_threads c));
   entry "default_threads" (show_int (default_threads c));
   entry "draw_colored_traveler_heads" (show_int (draw_colored_traveler_heads c))].
Definition render_ink (c : InkConfig) : list bytes :=
  [header "ink:"; entry "max_level" (show_int (max_level c));
   entry "max_add_ink" (show_int (max_add_ink c)); entry "refill_ink" (show_int (refill_ink c));
   entry "initial_red_level" (show_int (initial_red_level c));
   entry "initial_green_level" (show_int (initial_green_level c));
   entry "initial_blue_level" (show_int (initial_blue_level c))].
Definition render_timing (c : TimingConfig) : list bytes :=
  [header "timing:"; entry "min_producer_sleep_us" (show_int (min_producer_sleep_us c));
   entry "producer_sleep_us" (show_int (producer_sleep_us c));
   entry "inkling_sleep_us" (show_int (inkling_sleep_us c));
   entry "inkling_sleep_step_us" (show_int (inkling_sleep_step_us c));
   entry "inkling_sleep_min_us" (show_int (inkling_sleep_min_us c));
   entry "inkling_sleep_max_us" (show_int (inkling_sleep_max_us c));
   entry "arg_warning_sleep_s" (show_int (arg_warning_sleep_s c));
   entry "shutdown_delay_s" (show_int (shutdown_delay_s c));
   entry "event_loop_interval_ms" (show_int (event_loop_interval_ms c));
   entry "event_loop_sleep_s" (show_int (event_loop_sleep_s c))].
Definition render_event_loop (c : EventLoopConfig) : list bytes :=
  [header "event_loop:"; entry "max_recursive_depth" (show_int (max_recursive_depth c))].
Definition render_producers (c : ProducersConfig) : list bytes :=
  [header "producers:"; entry "speedup_factor_num" (show_int (speedup_factor_num c));
   entry "speedup_factor_den" (show_int (speedup_factor_den c));
   entry "slowdown_factor_num" (show_int (slowdown_factor_num c));
   entry "slowdown_factor_den" (show_int (slowdown_factor_den c))].
Definition render_io (c : IOConfig) : list bytes :=
  [header "io:"; entry "pipe_path" (show_str (pipe_path c))].
Definition render_icons (c : IconDirectionsConfig) : list bytes :=
  [header "ui:"; header "  icon_directions:"; entry "north" (show_str (north c));
   entry "west" (show_str (west c)); entry "south" (show_str (south c));
   entry "east" (show_str (east c)); entry "none" (show_str (none c))].
Definition render_messages (c : MessagesConfig) : list bytes :=
  [header "ui:"; header "  messages:"; entry "ink_tank_header" (show_str (ink_tank_header c));
   entry "live_threads_label" (show_str (live_threads_label c));
   entry "no_args_message" (show_str (no_args_message c));
   entry "quit_no_threads_message" (show_str (quit_no_threads_message c));
   entry "quit_esc_message" (show_str (quit_esc_message c));
   entry "quit_generic_message" (show_str (quit_generic_message c))].

Definition render_lines (c : AppConfig) : list bytes :=
  render_logs (logs c) ++ render_simulation (simulation c) ++ render_ink (ink c) ++
  render_timing (timing c) ++ render_event_loop (event_loop c) ++ render_producers (producers c) ++
  render_io (io c) ++ render_icons (icon_directions (ui c)) ++ render_messages (messages (ui c)).

(** The file: "ui:" is written again before "messages:", which the parser
    recognises only right inside the UI section. *)
Definition render (c : AppConfig) : bytes := concat (render_lines c).

(** A string that fits an array of [size] bytes and a line of the file. *)
Definition str_ok (size : Z) (v : bytes) : Prop :=
  Z.of_nat (length v) < size ∧ ∀ c, c ∈ v → c ≠ 0 ∧ c ≠ 10.

(** ** Lemmas on the parser *)

Lemma trim_end_id l c : isspace c = false → trim_end (l ++ [c]) = l ++ [c].
Proof.
  intros Hc. induction l as [|x l IH]; cbn; [by rewrite Hc|]. rewrite IH. by destruct l.
Qed.

Lemma trim_end_space l c : isspace c = true → trim_end (l ++ [c]) = trim_end l.
Proof. intros Hc. induction l as [|x l IH]; cbn; [by rewrite Hc|]. by rewrite IH. Qed.

(** A string whose first and last bytes are not spaces. *)
Definition tight (w : bytes) : Prop :=
  ∃ c l d, w = c :: l ∧ isspace c = false ∧ list.last w = Some d ∧ isspace d = false.

Lemma tight_snoc w : tight w → ∃ l d, w = l ++ [d] ∧ isspace d = false.
Proof.
  intros (c & l & d & _ & _ & Hl & Hd). apply last_Some in Hl as [l' ->]. eauto.
Qed.

Lemma trim_tight w : tight w → trim w = w.
Proof.
  intros Hw. unfold trim. destruct (tight_snoc w Hw) as (l & d & E & Hd).
  destruct Hw as (c & l0 & _ & E0 & Hc & _). rewrite E0 at 1. cbn. rewrite Hc, <- E0, E.
  by apply trim_end_id.
Qed.

Lemma tight_app a w : tight a → tight w → tight (a ++ w).
Proof.
  intros (c & l & _ & -> & Hc & _ & _) (c' & l' & d & -> & _ & Hl & Hd).
  exists c, (l ++ c' :: l'), d. split_and!; [done|done| |done].
  change ((c :: l) ++ c' :: l') with (c :: (l ++ c' :: l')). rewrite last_cons, last_app, Hl. done.
Qed.

Lemma c_string_id l : (∀ c, c ∈ l → c ≠ 0) → c_string l = l.
Proof.
  induction l as [|c l IH]; intros H; cbn; [done|].
  destruct (Z.eqb_spec c 0) as [E|_]; [by destruct (H c); [left|]|].
  rewrite IH; [done|]. intros x Hx. apply H. by right.
Qed.

(** The two strings differ before either ends, whatever follows. *)
Fixpoint differ (h k : bytes) : bool :=
  match h, k with
  | a :: h, b :: k => negb (a =? b) || differ h k
  | _, _ => false
  end.

Lemma differ_starts h k t : differ h k = true → starts_with h (k ++ t) = false.
Proof.
  revert k. induction h as [|a h IH]; intros [|b k]; cbn; try done.
  destruct (Z.eqb_spec a b); cbn; [apply IH|done].
Qed.

Lemma split_at_app c k t : c ∉ k → split_at c (k ++ c :: t) = Some (k, t).
Proof.
  induction k as [|x k IH]; intros Hk; cbn; [by rewrite Z.eqb_refl|].
  apply not_elem_of_cons in Hk as [Hx Hk].
  destruct (Z.eqb_spec x c) as [E|_]; [by destruct Hx|]. by rewrite IH.
Qed.

(** What a key must be for its line to be read as an entry. *)
Definition key_ok (k : bytes) : bool :=
  forallb (λ h, differ h (k ++ str ": "))
    (str "icon_directions:" :: str "messages:" :: headers.*1) &&
  forallb (λ c, negb (isspace c) && negb (c =? 0) && negb (c =? 58) && negb (c =? 35) && negb (c =? 10)) k &&
  negb (bool_decide (k = [])).

Lemma find_header_none k t hs :
  forallb (λ h, differ h k) hs.*1 = true → find_header hs (k ++ t) = None.
Proof.
  induction hs as [|[h s] hs IH]; cbn; [done|]. intros [H1 H2]%andb_true_iff.
  rewrite differ_starts by done. by apply IH.
Qed.

Lemma key_chars k c : key_ok k = true → c ∈ k →
  isspace c = false ∧ c ≠ 0 ∧ c ≠ 58 ∧ c ≠ 35 ∧ c ≠ 10.
Proof.
  unfold key_ok. rewrite !andb_true_iff. intros [[_ H] _] Hc.
  rewrite forallb_forall in H. apply list_elem_of_In, H in Hc.
  rewrite !andb_true_iff, !negb_true_iff, !Z.eqb_neq in Hc. tauto.
Qed.

Lemma key_tight k : key_ok k = true → tight k.
Proof.
  intros Hk. pose proof (key_chars k) as Hc. destruct k as [|c k].
  { unfold key_ok in Hk. rewrite bool_decide_eq_true_2 in Hk by done. by rewrite andb_false_r in Hk. }
  destruct (list.last (c :: k)) as [d|] eqn:El; [|by apply last_None in El].
  exists c, k, d. split_and!; [done|apply (Hc c Hk); left|done|].
  apply (Hc d Hk). apply last_Some in El as [l' ->]. apply elem_of_app. right. left.
Qed.

Lemma trim_line p : tight p → trim (str "  " ++ p ++ [10]) = p.
Proof.
  intros Hp. destruct (tight_snoc p Hp) as (l & d & E & Hd). destruct Hp as (c & l0 & _ & E0 & Hc & _).
  unfold trim. change (skip_space (str "  " ++ p ++ [10])) with (skip_space (p ++ [10])).
  rewrite E0. cbn [app skip_space]. rewrite Hc. change (c :: l0 ++ [10]) with ((c :: l0) ++ [10]).
  rewrite <- E0, trim_end_space by done. rewrite E. by apply trim_end_id.
Qed.

Lemma entry_assoc k w : entry k w = str "  " ++ (str k ++ str ": " ++ w) ++ [10].
Proof. unfold entry. by rewrite <- !app_assoc. Qed.

(** An entry line sets its key. *)
Lemma load_line_entry section cfg k w :
  key_ok (str k) = true → tight w → (∀ c, c ∈ w → c ≠ 0) →
  load_line (entry k w) (section, cfg) =
    (cfg ← set_key section (str k) (strip_quotes w) cfg; Ok (section, cfg)).
Proof.
  rewrite entry_assoc. generalize (str k) as key. intros key Hk Hw H0. unfold load_line.
  pose proof (key_tight key Hk) as Ht.
  assert (tight (key ++ str ": " ++ w)) as Hp.
  { destruct Hw as (c & l & d & -> & Hc & Hl & Hd). destruct Ht as (c' & l' & _ & -> & Hc' & _ & _).
    exists c', (l' ++ str ": " ++ c :: l), d. split_and!; [done|done| |done].
    rewrite app_assoc, last_app, Hl. done. }
  rewrite c_string_id, trim_line by
    (done || (intros c; rewrite !elem_of_app; intros [Hc|[[Hc|[Hc|Hc]]|Hc]];
       [| by apply (key_chars key) | | by apply H0 |]; repeat (apply elem_of_cons in Hc as [->|Hc]; [done|]);
       by apply elem_of_nil in Hc)).
  set (p := key ++ str ": " ++ w) in *.
  assert ((default 0 (head p) =? 0) || (default 0 (head p) =? 35) = false) as ->.
  { destruct Ht as (c & l & d & E & Hc & _). unfold p. rewrite E.
    destruct (key_chars key c Hk) as (_ & Hc0 & _ & Hc35 & _); [rewrite E; left|].
    cbn. by rewrite (proj2 (Z.eqb_neq c 0)), (proj2 (Z.eqb_neq c 35)). }
  pose proof Hk as Hd. unfold key_ok in Hd. rewrite !andb_true_iff in Hd. destruct Hd as [[Hd _] _].
  cbn [forallb] in Hd. apply andb_true_iff in Hd as [Hd1 [Hd2 Hd]%andb_true_iff].
  assert (p = (key ++ str ": ") ++ w) as Ep by (unfold p; by rewrite app_assoc).
  assert (new_section section p = None) as ->.
  { unfold new_section. rewrite Ep, (find_header_none _ _ _ Hd).
    rewrite (differ_starts _ _ _ Hd1), (differ_starts _ _ _ Hd2).
    by rewrite !andb_false_r. }
  assert (split_at 58 p = Some (key, 32 :: w)) as ->.
  { apply (split_at_app 58 key (32 :: w)). intros Hin.
    by destruct (key_chars key 58 Hk Hin) as (_ & _ & ? & _). }
  cbv zeta. rewrite (trim_tight key Ht).
  assert (trim (32 :: w) = w) as -> by (by apply (trim_tight w)). done.
Qed.

(** ** Values *)
Lemma strip_quotes_show v : strip_quotes (show_str v) = v.
Proof.
  assert (length (show_str v) = length v + 2)%nat as Hl
    by (unfold show_str; cbn; rewrite length_app; cbn; lia).
  assert (list.last (show_str v) = Some quote) as Hq.
  { change (show_str v) with ((quote :: v) ++ [quote]). by rewrite last_snoc. }
  unfold strip_quotes. rewrite decide_True, Hl, Hq by lia. cbn [default head show_str].
  rewrite Z.eqb_refl. change (drop 1 (quote :: v ++ [quote])) with (v ++ [quote]).
  replace (length v + 2 - 2)%nat with (length v) by lia. cbn. apply take_app_length.
Qed.

Lemma show_str_tight v : tight (show_str v).
Proof.
  exists quote, (v ++ [quote]), quote. split_and!; [done|done| |done].
  change (show_str v) with ((quote :: v) ++ [quote]). by rewrite last_snoc.
Qed.

Lemma show_int_tight z : int_ok z → tight (show_int z).
Proof.
  intros Hz. pose proof (show_int_chars z) as Hc. pose proof (show_int_nonempty z Hz) as Hne.
  destruct (show_int z) as [|c l] eqn:E; [done|].
  destruct (list.last (c :: l)) as [d|] eqn:El; [|by apply last_None in El].
  exists c, l, d. split_and!; [done| |done|].
  - apply (Hc c Hz). left.
  - apply (Hc d Hz). apply last_Some in El as [l' ->]. apply elem_of_app. right. left.
Qed.

Lemma strip_quotes_int z : int_ok z → strip_quotes (show_int z) = show_int z.
Proof.
  intros Hz. unfold strip_quotes. destruct (decide _) as [Hlen|]; [|done].
  pose proof (show_int_chars z) as Hc. destruct (show_int z) as [|c l]; [done|].
  destruct (Hc c Hz) as (_ & _ & _ & H); [left|].
  assert ((default 0 (head (c :: l)) =? quote) = false) as ->; [by apply Z.eqb_neq|done].
Qed.

Lemma parse_bool_show z : int_ok z → parse_bool_or_int (show_int z) = Ok z.
Proof.
  intros Hz. unfold parse_bool_or_int, strcasecmp_eq, str_eqb.
  assert (∀ t, bool_decide (tolower <$> show_int z = tolower <$> (116 :: t)) = false ∧
    bool_decide (tolower <$> show_int z = tolower <$> (102 :: t)) = false) as H.
  { intros t. destruct (show_int z) as [|c l] eqn:E; [by split|].
    assert (c = 45 ∨ isdigit c = true) as Hc.
    { unfold int_ok, show_int in *. destruct (Z.ltb_spec z 0); [by injection E as <-; left|right].
      destruct (show_digits_spec 10 z) as (Hd & _); [lia|lia|]. rewrite E in Hd. cbn in Hd.
      by apply andb_true_iff in Hd as [? _]. }
    assert (tolower c = c) as Ht by (unfold tolower, isdigit in *; destruct Hc; [subst; done|];
      destruct (Z.leb_spec 65 c), (Z.leb_spec c 90); cbn; lia).
    split; apply bool_decide_eq_false_2; intros Heq; apply (f_equal head) in Heq;
      cbn in Heq; rewrite Ht in Heq; injection Heq as Heq; unfold isdigit in Hc; lia. }
  change (str "true") with (116 :: drop 1 (str "true")).
  change (str "false") with (102 :: drop 1 (str "false")).
  rewrite (proj1 (H _)), (proj2 (H _)). by apply atoi_show.
Qed.

(** ** The loop over the lines *)
Fixpoint load_lines (ls : list bytes) (st : Section_ * AppConfig) : res (Section_ * AppConfig) :=
  match ls with [] => Ok st | l :: ls => st ← load_line l st; load_lines ls st end.

(** A line fgets reads whole. *)
Definition line_ok (l : bytes) : Prop :=
  ∃ b, l = b ++ [10] ∧ (10 ∉ b) ∧ (length b < 511)%nat.

Lemma fgets_line b rest n :
  10 ∉ b → (length b < n)%nat → fgets_loop n ((b ++ [10]) ++ rest) = (b ++ [10], rest).
Proof.
  revert n. induction b as [|c b IH]; intros [|n] Hb Hn; cbn in Hn; try lia; [done|].
  apply not_elem_of_cons in Hb as [Hc Hb]. cbn. rewrite (proj2 (Z.eqb_neq c 10)) by done.
  by rewrite IH by (done || lia).
Qed.

Lemma load_loop_lines ls st fuel :
  (∀ l, l ∈ ls → line_ok l) → (length ls < fuel)%nat →
  load_loop fuel (concat ls) st = load_lines ls st.
Proof.
  revert st fuel. induction ls as [|l ls IH]; intros st [|fuel] Hl Hf; cbn in Hf; try lia; [done|].
  destruct (Hl l) as (b & E & Hb & Hn); [left|].
  assert (fgets 512 (concat (l :: ls)) = Some (l, concat ls)) as Eg.
  { cbn [concat]. rewrite E. unfold fgets. change (512 - 1)%nat with 511%nat.
    rewrite fgets_line by done. by destruct b. }
  cbn [load_loop load_lines]. rewrite Eg. destruct (load_line l st) as [st'|]; cbn; [|done].
  apply IH; [|lia]. intros x Hx. apply Hl. by right.
Qed.

Lemma length_concat_ge ls : (∀ l, l ∈ ls → line_ok l) → (length ls ≤ length (concat ls))%nat.
Proof.
  induction ls as [|l ls IH]; intros Hl; [done|]. cbn. rewrite length_app.
  destruct (Hl l) as (b & -> & _); [left|]. rewrite length_app; cbn.
  assert (length ls ≤ length (concat ls))%nat; [|lia]. apply IH. intros x Hx. apply Hl. by right.
Qed.

(** The parser always returns: every round consumes at least a byte. *)
Lemma fgets_loop_shorter n l : (0 < n)%nat → l ≠ [] → (length (fgets_loop n l).2 < length l)%nat.
Proof.
  intros Hn Hl. destruct n as [|n], l as [|c l]; try done; [lia|]. cbn.
  destruct (c =? 10); cbn; [lia|]. clear. revert l. induction n as [|n IH]; intros l; cbn.
  - cbn. lia.
  - destruct l as [|x l]; cbn; [lia|]. destruct (x =? 10); cbn; [lia|].
    specialize (IH l). destruct (fgets_loop n l) as [a b]; cbn in *.  lia.
Qed.

Lemma entry_ok k w :
  key_ok (str k) = true → (∀ c, c ∈ w → c ≠ 10) → (length (str k) + length w ≤ 500)%nat → line_ok (entry k w).
Proof.
  intros Hk Hw Hl. exists (str "  " ++ str k ++ str ": " ++ w). split_and!.
  - unfold entry. by rewrite <- !app_assoc.
  - rewrite !elem_of_app. intros [H|[H|[H|H]]].
    + repeat (apply elem_of_cons in H as [H|H]; [done|]). by apply elem_of_nil in H.
    + by destruct (key_chars _ _ Hk H) as (_ & _ & _ & _ & ?).
    + repeat (apply elem_of_cons in H as [H|H]; [done|]). by apply elem_of_nil in H.
    + by apply (Hw 10).
  - rewrite !length_app. cbn [length str]. change (length (str "  ")) with 2%nat.
    change (length (str ": ")) with 2%nat. lia.
Qed.

Lemma entry_str_ok size k v :
  key_ok (str k) = true → (length (str k) ≤ 40)%nat → size ≤ 256 → str_ok size v →
  line_ok (entry k (show_str v)).
Proof.
  intros Hk Hl Hs [Hv Hc]. apply entry_ok; [done| |].
  - unfold show_str. intros c [->|[Hin|Hin]%elem_of_app]%elem_of_cons; [done|by apply Hc|].
    apply list_elem_of_singleton in Hin as ->. done.
  - unfold show_str. cbn [length]. rewrite length_app; cbn. lia.
Qed.

Lemma entry_int_ok k z :
  key_ok (str k) = true → (length (str k) ≤ 40)%nat → int_ok z → line_ok (entry k (show_int z)).
Proof.
  intros Hk Hl Hz. apply entry_ok; [done| |].
  - intros c Hc. by apply (show_int_chars z c Hz).
  - enough (length (show_int z) ≤ 11)%nat by lia. unfold show_int, int_ok in *.
    destruct (Z.ltb_spec z 0); cbn -[show_digits].
    + destruct (show_digits_spec 10 (- z)) as (_ & _ & _ & ?); [lia|lia|lia].
    + destruct (show_digits_spec 10 z) as (_ & _ & _ & ?); [lia|lia|lia].
Qed.

(** A round on an entry of each kind. *)
Lemma load_entry_int section cfg k z ls :
  key_ok (str k) = true → int_ok z →
  load_lines (entry k (show_int z) :: ls) (section, cfg) =
    (cfg ← set_key section (str k) (show_int z) cfg; load_lines ls (section, cfg)).
Proof.
  intros Hk Hz. cbn [load_lines]. rewrite load_line_entry, strip_quotes_int; [|done..|by apply show_int_tight|].
  - destruct (set_key _ _ _ _); done.
  - intros c Hc. by apply (show_int_chars z c Hz).
Qed.

Lemma load_entry_str section cfg k size v ls :
  key_ok (str k) = true → str_ok size v →
  load_lines (entry k (show_str v) :: ls) (section, cfg) =
    (cfg ← set_key section (str k) v cfg; load_lines ls (section, cfg)).
Proof.
  intros Hk Hv. cbn [load_lines].
  rewrite load_line_entry, strip_quotes_show; [|done|apply show_str_tight|].
  - destruct (set_key _ _ _ _); done.
  - unfold show_str. intros c [->|[Hin|Hin]%elem_of_app]%elem_of_cons; [done|by apply Hv|].
    by apply list_elem_of_singleton in Hin as ->.
Qed.

Lemma field_int_eq k z old : int_ok z → field_int (str k) (show_int z) k old = Ok z.
Proof. intros Hz. unfold field_int, str_eqb. rewrite bool_decide_eq_true_2 by done. by apply atoi_show. Qed.

Lemma field_str_eq k size v old : str_ok size v → field_str (str k) v size k old = v.
Proof.
  intros [Hv _]. unfold field_str, str_eqb, snprintf_s. rewrite bool_decide_eq_true_2 by done.
  apply take_ge. lia.
Qed.

(** What a configuration must be for its structures to hold it. *)
Record config_ok (c : AppConfig) : Prop := {
  ok_dir : str_ok 256 (dir (logs c)); ok_actions : str_ok 256 (actions (logs c));
  ok_simulation : let s := simulation c in
    Forall int_ok [default_rows s; default_cols s; min_rows s; min_cols s; min_threads s;
      default_threads s; draw_colored_traveler_heads s];
  ok_ink : let i := ink c in
    Forall int_ok [max_level i; max_add_ink i; refill_ink i; initial_red_level i;
      initial_green_level i; initial_blue_level i];
  ok_timing : let t := timing c in
    Forall int_ok [min_producer_sleep_us t; producer_sleep_us t; inkling_sleep_us t;
      inkling_sleep_step_us t; inkling_sleep_min_us t; inkling_sleep_max_us t;
      arg_warning_sleep_s t; shutdown_delay_s t; event_loop_interval_ms t; event_loop_sleep_s t];
  ok_event_loop : int_ok (max_recursive_depth (event_loop c));
  ok_producers : let p := producers c in
    Forall int_ok [speedup_factor_num p; speedup_factor_den p; slowdown_factor_num p; slowdown_factor_den p];
  ok_io : str_ok 256 (pipe_path (io c));
  ok_icons : let d := icon_directions (ui c) in
    Forall (str_ok 8) [north d; west d; south d; east d; none d];
  ok_messages : let m := messages (ui c) in
    str_ok 128 (ink_tank_header m) ∧ str_ok 64 (live_threads_label m) ∧
    Forall (str_ok 256) [no_args_message m; quit_no_threads_message m; quit_esc_message m;
      quit_generic_message m]
}.

(** ** Each section reads back *)

(** Decide every comparison of key names. *)
Ltac eval_keys :=
  repeat match goal with |- context [str_eqb (str ?a) (str ?b)] =>
    let r := eval vm_compute in (str_eqb (str a) (str b)) in
    change (str_eqb (str a) (str b)) with r; cbv iota
  end.

Lemma load_header section cfg h ls s :
  load_line (header h) (section, cfg) = Ok (s, cfg) →
  load_lines (header h :: ls) (section, cfg) = load_lines ls (s, cfg).
Proof. intros E. cbn [load_lines]. by rewrite E. Qed.

Lemma load_entry_step section cfg cfg' k z ls :
  key_ok (str k) = true → int_ok z → set_key section (str k) (show_int z) cfg = Ok cfg' →
  load_lines (entry k (show_int z) :: ls) (section, cfg) = load_lines ls (section, cfg').
Proof. intros Hk Hz E. by rewrite load_entry_int, E. Qed.

Lemma load_entry_str_step section cfg cfg' k size v ls :
  key_ok (str k) = true → str_ok size v → set_key section (str k) v cfg = Ok cfg' →
  load_lines (entry k (show_str v) :: ls) (section, cfg) = load_lines ls (section, cfg').
Proof. intros Hk Hz E. by rewrite (load_entry_str _ _ _ size), E. Qed.

(** A round on an entry: evaluate the chain of comparisons. *)
Ltac reduce_members :=
  cbv beta iota delta [mbind res_bind
    default_rows default_cols min_rows min_cols min_threads default_threads draw_colored_traveler_heads
    max_level max_add_ink refill_ink initial_red_level initial_green_level initial_blue_level
    min_producer_sleep_us producer_sleep_us inkling_sleep_us inkling_sleep_step_us
    inkling_sleep_min_us inkling_sleep_max_us arg_warning_sleep_s shutdown_delay_s
    event_loop_interval_ms event_loop_sleep_s max_recursive_depth speedup_factor_num
    speedup_factor_den slowdown_factor_num slowdown_factor_den dir actions pipe_path
    north west south east none ink_tank_header live_threads_label no_args_message
    quit_no_threads_message quit_esc_message quit_generic_message icon_directions messages].

Ltac load_int :=
  erewrite load_entry_step;
  [|reflexivity|assumption
   |unfold set_key, set_simulation, set_ink, set_timing, set_event_loop, set_producers, field_int;
    eval_keys; reduce_members; rewrite ?atoi_show, ?parse_bool_show by assumption; reduce_members;
    reflexivity].

Ltac load_str :=
  erewrite load_entry_str_step;
  [|reflexivity|eassumption
   |unfold set_key, set_logs, set_io, set_icons, set_messages;
    rewrite field_str_eq by assumption; unfold field_str; eval_keys; reduce_members; reflexivity].

Section sections.
Context (sec : Section_) (lg0 : LogsConfig) (sm0 : SimulationConfig) (ik0 : InkConfig)
  (tm0 : TimingConfig) (ev0 : EventLoopConfig) (pr0 : ProducersConfig) (io0 : IOConfig) (ui0 : UIConfig)
  (ls : list bytes).

Lemma load_simulation s :
  Forall int_ok [default_rows s; default_cols s; min_rows s; min_cols s; min_threads s;
      default_threads s; draw_colored_traveler_heads s] →
  load_lines (render_simulation s ++ ls) (sec, MkApp lg0 sm0 ik0 tm0 ev0 pr0 io0 ui0) =
    load_lines ls (SEC_SIMULATION, MkApp lg0 s ik0 tm0 ev0 pr0 io0 ui0).
Proof.
  destruct s. rewrite !list.Forall_cons. intros (?&?&?&?&?&?&?&_).
  unfold render_simulation. cbn [app]. reduce_members.
  erewrite load_header by reflexivity. do 7 load_int. done.
Qed.

Lemma load_logs l :
  str_ok 256 (dir l) → str_ok 256 (actions l) →
  load_lines (render_logs l ++ ls) (sec, MkApp lg0 sm0 ik0 tm0 ev0 pr0 io0 ui0) =
    load_lines ls (SEC_LOGS, MkApp l sm0 ik0 tm0 ev0 pr0 io0 ui0).
Proof.
  destruct l. intros ? ?.
  unfold render_logs. cbn [app]. reduce_members.
  do 1 erewrite load_header by reflexivity. do 2 load_str. done.
Qed.

Lemma load_ink i :
  Forall int_ok [max_level i; max_add_ink i; refill_ink i; initial_red_level i;
    initial_green_level i; initial_blue_level i] →
  load_lines (render_ink i ++ ls) (sec, MkApp lg0 sm0 ik0 tm0 ev0 pr0 io0 ui0) =
    load_lines ls (SEC_INK, MkApp lg0 sm0 i tm0 ev0 pr0 io0 ui0).
Proof.
  destruct i. rewrite !list.Forall_cons. intros (?&?&?&?&?&?&_).
  unfold render_ink. cbn [app]. reduce_members.
  do 1 erewrite load_header by reflexivity. do 6 load_int. done.
Qed.

Lemma load_timing t :
  Forall int_ok [min_producer_sleep_us t; producer_sleep_us t; inkling_sleep_us t;
    inkling_sleep_step_us t; inkling_sleep_min_us t; inkling_sleep_max_us t;
    arg_warning_sleep_s t; shutdown_delay_s t; event_loop_interval_ms t; event_loop_sleep_s t] →
  load_lines (render_timing t ++ ls) (sec, MkApp lg0 sm0 ik0 tm0 ev0 pr0 io0 ui0) =
    load_lines ls (SEC_TIMING, MkApp lg0 sm0 ik0 t ev0 pr0 io0 ui0).
Proof.
  destruct t. rewrite !list.Forall_cons. intros (?&?&?&?&?&?&?&?&?&?&_).
  unfold render_timing. cbn [app]. reduce_members.
  do 1 erewrite load_header by reflexivity. do 10 load_int. done.
Qed.

Lemma load_event_loop e :
  int_ok (max_recursive_depth e) →
  load_lines (render_event_loop e ++ ls) (sec, MkApp lg0 sm0 ik0 tm0 ev0 pr0 io0 ui0) =
    load_lines ls (SEC_EVENT_LOOP, MkApp lg0 sm0 ik0 tm0 e pr0 io0 ui0).
Proof.
  destruct e. intros ?.
  unfold render_event_loop. cbn [app]. reduce_members.
  do 1 erewrite load_header by reflexivity. do 1 load_int. done.
Qed.

Lemma load_producers p :
  Forall int_ok [speedup_factor_num p; speedup_factor_den p; slowdown_factor_num p;
    slowdown_factor_den p] →
  load_lines (render_producers p ++ ls) (sec, MkApp lg0 sm0 ik0 tm0 ev0 pr0 io0 ui0) =
    load_lines ls (SEC_PRODUCERS, MkApp lg0 sm0 ik0 tm0 ev0 p io0 ui0).
Proof.
  destruct p. rewrite !list.Forall_cons. intros (?&?&?&?&_).
  unfold render_producers. cbn [app]. reduce_members.
  do 1 erewrite load_header by reflexivity. do 4 load_int. done.
Qed.

Lemma load_io o :
  str_ok 256 (pipe_path o) →
  load_lines (render_io o ++ ls) (sec, MkApp lg0 sm0 ik0 tm0 ev0 pr0 io0 ui0) =
    load_lines ls (SEC_IO, MkApp lg0 sm0 ik0 tm0 ev0 pr0 o ui0).
Proof.
  destruct o. intros ?.
  unfold render_io. cbn [app]. reduce_members.
  do 1 erewrite load_header by reflexivity. do 1 load_str. done.
Qed.

Lemma load_icons d :
  Forall (str_ok 8) [north d; west d; south d; east d; none d] →
  load_lines (render_icons d ++ ls) (sec, MkApp lg0 sm0 ik0 tm0 ev0 pr0 io0 ui0) =
    load_lines ls (SEC_UI_ICON, MkApp lg0 sm0 ik0 tm0 ev0 pr0 io0 (MkUI d (messages ui0))).
Proof.
  destruct d. rewrite !list.Forall_cons. intros (?&?&?&?&?&_).
  unfold render_icons. cbn [app]. reduce_members.
  do 2 erewrite load_header by reflexivity. do 5 load_str. done.
Qed.

Lemma load_messages m :
  str_ok 128 (ink_tank_header m) ∧ str_ok 64 (live_threads_label m) ∧
  Forall (str_ok 256) [no_args_message m; quit_no_threads_message m; quit_esc_message m;
    quit_generic_message m] →
  load_lines (render_messages m ++ ls) (sec, MkApp lg0 sm0 ik0 tm0 ev0 pr0 io0 ui0) =
    load_lines ls (SEC_UI_MESSAGES, MkApp lg0 sm0 ik0 tm0 ev0 pr0 io0 (MkUI (icon_directions ui0) m)).
Proof.
  destruct m. rewrite !list.Forall_cons. intros (?&?&?&?&?&?&_).
  unfold render_messages. cbn [app]. reduce_members.
  do 2 erewrite load_header by reflexivity. do 6 load_str. done.
Qed.
End sections.

Lemma header_ok h : forallb (λ c, negb (c =? 10)) (str h) && (length (str h) <? 511)%nat = true → line_ok (header h).
Proof.
  intros [Hc Hl]%andb_true_iff. exists (str h). split_and!; [done| |by apply Nat.ltb_lt].
  intros Hin. rewrite forallb_forall in Hc. by apply list_elem_of_In, Hc in Hin.
Qed.

Lemma render_lines_ok c : config_ok c → ∀ l, l ∈ render_lines c → line_ok l.
Proof.
  intros [? ? Hs Hi Ht ? Hp ? Hd (? & ? & Hm)]; cbv zeta in *.
  rewrite !list.Forall_cons in Hs. rewrite !list.Forall_cons in Hi. rewrite !list.Forall_cons in Ht.
  rewrite !list.Forall_cons in Hp. rewrite !list.Forall_cons in Hd. rewrite !list.Forall_cons in Hm.
  destruct_and?.
  apply list.Forall_forall. unfold render_lines. rewrite !list.Forall_app.
  unfold render_logs, render_simulation, render_ink, render_timing, render_event_loop,
    render_producers, render_io, render_icons, render_messages.
  split_and!; repeat (apply list.Forall_cons; split); try (by apply list.Forall_nil);
    try (apply header_ok; reflexivity);
    try (apply entry_int_ok; [reflexivity|vm_compute; lia|assumption]);
    try (eapply entry_str_ok; [reflexivity|vm_compute; lia| |eassumption]; lia).
Qed.

(** C29. The parser reads back every configuration that [render] writes, whatever
    its numbers and strings, as long as they fit the structures. *)
Theorem parse_render c : config_ok c → parse_config (render c) = Ok c.
Proof.
  intros Hc. pose proof (render_lines_ok c Hc) as Hl. unfold parse_config, render.
  rewrite load_loop_lines; [|exact Hl|pose proof (length_concat_ge _ Hl); lia].
  destruct Hc as [? ? Hs Hi Ht ? Hp ? Hd Hm]. unfold render_lines, zero_config.
  rewrite load_logs, load_simulation, load_ink, load_timing, load_event_loop, load_producers,
    load_io, load_icons by assumption.
  rewrite <- (app_nil_r (render_messages _)), load_messages by assumption.
  by destruct c as [? ? ? ? ? ? ? []].
Qed.

Definition ex_config : AppConfig :=
  MkApp (MkLogs (str "logs") (str "a: b#.txt")) (MkSimulation 8 (-1) 20 20 8 4 1)
    (MkInk 50 10 10 20 10 2147483647) (MkTiming 1 2 3 4 5 (-2147483648) 7 8 9 10) (MkEventLoop 5)
    (MkProducers 8 10 12 10) (MkIO (str " /tmp/my pipe ")) 
    (MkUI (MkIcons (str "N") [] [34] (str "E") (str " ")) (MkMessages (str "tank: ") [] [] [] [] (str "bye"))).

Lemma str_ok_dec size v :
  (Z.of_nat (length v) <? size) && forallb (λ c, negb (c =? 0) && negb (c =? 10)) v = true → str_ok size v.
Proof.
  intros [Hl Hc]%andb_true_iff. split; [by apply Z.ltb_lt|]. intros c Hin.
  rewrite forallb_forall in Hc. apply list_elem_of_In, Hc in Hin.
  rewrite andb_true_iff, !negb_true_iff, !Z.eqb_neq in Hin. done.
Qed.

Lemma ex_config_ok : config_ok ex_config.
Proof.
  split; cbv zeta; try (apply str_ok_dec; reflexivity);
    repeat (apply list.Forall_cons; split); try (by apply list.Forall_nil);
    try (apply str_ok_dec; reflexivity); try (unfold int_ok; cbn; lia).
  split_and!; try (apply str_ok_dec; reflexivity).
  repeat (apply list.Forall_cons; split); try (by apply list.Forall_nil); apply str_ok_dec; reflexivity.
Qed.

Lemma parse_render_witness : parse_config (render ex_config) = Ok ex_config.
Proof. apply parse_render, ex_config_ok. Defined.

(** ** What the parser stores fits *)
Lemma trim_end_split l : ∃ suf, l = trim_end l ++ suf ∧
  (trim_end l = [] ∨ ∃ t d, trim_end l = t ++ [d] ∧ isspace d = false).
Proof.
  induction l as [|c l (suf & E & IH)]; [by exists []; split; [|left]|]. cbn.
  destruct (trim_end l) as [|x t] eqn:Et.
  - destruct (isspace c) eqn:Hc.
    + exists (c :: l). split; [done|by left].
    + exists l. split; [done|right]. by exists [], c.
  - exists suf. split; [by rewrite E at 1|right]. destruct IH as [|(t' & d & E' & Hd)]; [done|].
    exists (c :: t'), d. by rewrite E'.
Qed.

Lemma skip_space_split l : ∃ pre, l = pre ++ skip_space l.
Proof.
  induction l as [|c l (pre & E)]; [by exists []|]. cbn. destruct (isspace c).
  - exists (c :: pre). cbn. by f_equal.
  - by exists [].
Qed.

Lemma trim_split l : ∃ pre suf, l = pre ++ trim l ++ suf ∧
  (trim l = [] ∨ ∃ t d, trim l = t ++ [d] ∧ isspace d = false).
Proof.
  unfold trim. destruct (skip_space_split l) as [pre E]. destruct (trim_end_split (skip_space l)) as (suf & E' & H).
  exists pre, suf. split; [|done]. by rewrite <- E'.
Qed.

Lemma trim_subset l c : c ∈ trim l → c ∈ l.
Proof.
  destruct (trim_split l) as (pre & suf & E & _). rewrite E at 2. rewrite !elem_of_app. tauto.
Qed.

Lemma strip_quotes_subset v c : c ∈ strip_quotes v → c ∈ v.
Proof.
  unfold strip_quotes. destruct (decide _); [|done]. destruct (_ && _); [|done].
  intros Hc. rewrite <- (take_drop 1 v). apply elem_of_app. right.
  rewrite <- (take_drop (length v - 2) (drop 1 v)). apply elem_of_app. by left.
Qed.

Lemma split_at_subset x p a b c : split_at x p = Some (a, b) → c ∈ a ∨ c ∈ b → c ∈ p.
Proof.
  revert a b. induction p as [|y p IH]; intros a b; cbn; [done|].
  destruct (y =? x).
  - intros [= <- <-] [H|H]; [by apply elem_of_nil in H|by right].
  - destruct (split_at x p) as [[a' b']|]; [|done]. cbn. intros [= <- <-] [H|H].
    + apply elem_of_cons in H as [->|H]; [left|right]. by eapply IH; [|left].
    + right. by eapply IH; [|right].
Qed.

Lemma c_string_split l : ∃ suf, l = c_string l ++ suf ∧ 0 ∉ c_string l.
Proof.
  induction l as [|c l (suf & E & H)]; cbn; [exists []; split; [done|by intros ?%elem_of_nil]|].
  destruct (Z.eqb_spec c 0) as [->|].
  - exists (0 :: l). split; [done|by intros ?%elem_of_nil].
  - exists suf. split; [cbn; by f_equal|]. intros [?|?]%elem_of_cons; [lia|done].
Qed.

(** A newline is only at the end of what fgets reads. *)
Lemma fgets_newline n l a b : (fgets_loop n l).1 = a ++ 10 :: b → b = [].
Proof.
  revert l a. induction n as [|n IH]; intros l a; cbn; [by destruct a|].
  destruct l as [|c l]; cbn; [by destruct a|]. destruct (Z.eqb_spec c 10) as [->|Hc].
  - cbn. destruct a as [|x a]; [by intros [= <-]|]. intros [= _ E]. by destruct a.
  - specialize (IH l). destruct (fgets_loop n l) as [u v]. cbn in *.
    destruct a as [|x a]; [intros [= E _]; by destruct Hc|]. intros [= _ E]. by eapply IH.
Qed.

(** The bytes of a trimmed line. *)
Lemma line_chars n l c : c ∈ trim (c_string (fgets_loop n l).1) → c ≠ 0 ∧ c ≠ 10.
Proof.
  intros Hc. set (line := (fgets_loop n l).1) in *. destruct (c_string_split line) as (s1 & E1 & H0).
  destruct (trim_split (c_string line)) as (pre & suf & E & Hend). split.
  - intros ->. by apply H0, trim_subset.
  - intros ->. destruct Hend as [Hnil|(t & d & Et & Hd)]; [rewrite Hnil in Hc; by apply elem_of_nil in Hc|].
    apply list_elem_of_split in Hc as (t1 & t2 & Hc). rewrite Hc in E.
    assert (t2 ++ suf ++ s1 = []) as Hz.
    { apply (fgets_newline n l (pre ++ t1)). change (fgets_loop n l).1 with line. rewrite E1, E. by rewrite <- !app_assoc. }
    apply app_eq_nil in Hz as [-> _]. rewrite Et in Hc. apply app_inj_tail in Hc as [_ ->]. discriminate Hd.
Qed.

Definition clean (v : bytes) : Prop := ∀ c, c ∈ v → c ≠ 0 ∧ c ≠ 10.

Lemma field_str_ok k v size n old :
  0 < size → clean v → str_ok size old → str_ok size (field_str k v size n old).
Proof.
  intros Hs Hv Hold. unfold field_str, snprintf_s. destruct (str_eqb _ _); [|done]. split.
  - rewrite length_take. lia.
  - intros c Hc. apply Hv. rewrite <- (take_drop (Z.to_nat (size - 1)) v). apply elem_of_app. by left.
Qed.

Lemma atoi_ok v z : atoi v = Ok z → int_ok z.
Proof. unfold atoi. destruct (decide _); [|done]. by intros [= <-]. Qed.

Lemma field_int_ok k v n old z : field_int k v n old = Ok z → int_ok old → int_ok z.
Proof. unfold field_int. destruct (str_eqb _ _); [intros E _; by eapply atoi_ok|by intros [= <-]]. Qed.

Lemma parse_bool_ok v z : parse_bool_or_int v = Ok z → int_ok z.
Proof.
  unfold parse_bool_or_int. destruct (strcasecmp_eq _ _); [by intros [= <-]|].
  destruct (strcasecmp_eq _ _); [by intros [= <-]|apply atoi_ok].
Qed.

Lemma int_list_ok l l' : Forall int_ok l → Forall2 (λ x y, int_ok x → int_ok y) l l' → Forall int_ok l'.
Proof. intros H H2. induction H2; [done|]. apply list.Forall_cons in H as [? ?]. apply list.Forall_cons. auto. Qed.

Create HintDb config discriminated.
#[export] Hint Resolve field_int_ok field_str_ok : config.

(** Invert a chain of assignments and check each member. *)
Ltac int_section :=
  intros H; repeat (apply bind_ok in H as (? & ? & H)); injection H as <-; cbv zeta;
  rewrite !list.Forall_cons; reduce_members; intros Hs; destruct_and? Hs;
  split_and!; try (by apply list.Forall_nil); eauto with config.

Lemma set_simulation_ok k v s s' :
  set_simulation k v s = Ok s' →
  Forall int_ok [default_rows s; default_cols s; min_rows s; min_cols s; min_threads s;
      default_threads s; draw_colored_traveler_heads s] →
  Forall int_ok [default_rows s'; default_cols s'; min_rows s'; min_cols s'; min_threads s';
      default_threads s'; draw_colored_traveler_heads s'].
Proof.
  unfold set_simulation. int_section.
  match goal with E : (if ?b then _ else _) = Ok ?x |- int_ok ?x => destruct b end;
    [by eapply parse_bool_ok|by simplify_eq].
Qed.

Lemma set_ink_ok k v s s' :
  set_ink k v s = Ok s' →
  Forall int_ok [max_level s; max_add_ink s; refill_ink s; initial_red_level s;
      initial_green_level s; initial_blue_level s] →
  Forall int_ok [max_level s'; max_add_ink s'; refill_ink s'; initial_red_level s';
      initial_green_level s'; initial_blue_level s'].
Proof. unfold set_ink. int_section. Qed.

Lemma set_timing_ok k v s s' :
  set_timing k v s = Ok s' →
  Forall int_ok [min_producer_sleep_us s; producer_sleep_us s; inkling_sleep_us s;
      inkling_sleep_step_us s; inkling_sleep_min_us s; inkling_sleep_max_us s;
      arg_warning_sleep_s s; shutdown_delay_s s; event_loop_interval_ms s; event_loop_sleep_s s] →
  Forall int_ok [min_producer_sleep_us s'; producer_sleep_us s'; inkling_sleep_us s';
      inkling_sleep_step_us s'; inkling_sleep_min_us s'; inkling_sleep_max_us s';
      arg_warning_sleep_s s'; shutdown_delay_s s'; event_loop_interval_ms s'; event_loop_sleep_s s'].
Proof. unfold set_timing. int_section. Qed.

Lemma set_producers_ok k v s s' :
  set_producers k v s = Ok s' →
  Forall int_ok [speedup_factor_num s; speedup_factor_den s; slowdown_factor_num s; slowdown_factor_den s] →
  Forall int_ok [speedup_factor_num s'; speedup_factor_den s'; slowdown_factor_num s'; slowdown_factor_den s'].
Proof. unfold set_producers. int_section. Qed.

Lemma set_key_ok section k v c c' :
  clean v → set_key section k v c = Ok c' → config_ok c → config_ok c'.
Proof.
  intros Hv E Hc. pose proof Hc as [? ? Hs Hi Ht He Hp Ho Hd Hm]. destruct c as [lg sm ik tm ev pr io ui].
  cbv zeta in *. cbn [logs simulation ink timing event_loop producers InkConfig.io InkConfig.ui] in *.
  unfold set_key in E. destruct section; try (by simplify_eq);
    try (apply bind_ok in E as (x & Ex & E)); injection E as <-; split; try assumption; cbv zeta;
    cbn [logs simulation ink timing event_loop producers InkConfig.io InkConfig.ui set_logs set_io
         dir actions pipe_path icon_directions messages].
  1-2: by apply field_str_ok.
  - by eapply set_simulation_ok.
  - by eapply set_ink_ok.
  - by eapply set_timing_ok.
  - unfold set_event_loop in Ex. apply bind_ok in Ex as (z & Ez & Ex). injection Ex as <-. by eapply field_int_ok.
  - by eapply set_producers_ok.
  - by apply field_str_ok.
  - rewrite !list.Forall_cons in Hd. rewrite !list.Forall_cons. destruct_and? Hd.
    split_and!; try (by apply list.Forall_nil); by apply field_str_ok.
  - rewrite !list.Forall_cons in Hm. rewrite !list.Forall_cons. destruct_and? Hm.
    split_and!; try (by apply list.Forall_nil); by apply field_str_ok.
Qed.

Lemma load_line_ok n l st st' :
  load_line (fgets_loop n l).1 st = Ok st' → config_ok st.2 → config_ok st'.2.
Proof.
  unfold load_line. destruct st as [section cfg]. set (p := trim _).
  assert (clean p) as Hp by (intros c; apply line_chars). clearbody p.
  destruct (_ || _); [by intros [= <-]|]. destruct (new_section _ _); [by intros [= <-]|].
  destruct (split_at 58 p) as [[a b]|] eqn:Es; [|by intros [= <-]].
  intros E Hc. apply bind_ok in E as (cfg' & E & [= <-]). eapply set_key_ok; [|exact E|exact Hc].
  intros c Hin. apply Hp. eapply split_at_subset; [exact Es|right]. by apply trim_subset, strip_quotes_subset.
Qed.

Lemma zero_config_ok : config_ok zero_config.
Proof.
  split; cbv zeta; try (apply str_ok_dec; reflexivity);
    repeat (apply list.Forall_cons; split); try (by apply list.Forall_nil);
    try (apply str_ok_dec; reflexivity); try (unfold int_ok; cbn; lia).
  split_and!; try (apply str_ok_dec; reflexivity).
  repeat (apply list.Forall_cons; split); try (by apply list.Forall_nil); apply str_ok_dec; reflexivity.
Qed.

(** Errors are only those of atoi. *)
Definition only_ub {A} (m : res A) : Prop := match m with Ok _ => True | Err e => e = UB end.

Lemma bind_ub {A B} (m : res A) (k : A → res B) :
  only_ub m → (∀ a, only_ub (k a)) → only_ub (m ≫= k).
Proof. destruct m; cbn; auto. Qed.

Lemma atoi_ub v : only_ub (atoi v).
Proof. unfold atoi. by destruct (decide _). Qed.

Lemma field_int_ub k v n old : only_ub (field_int k v n old).
Proof. unfold field_int. destruct (str_eqb _ _); [apply atoi_ub|done]. Qed.

Lemma set_key_ub section k v c : only_ub (set_key section k v c).
Proof.
  destruct c, section; try done; cbn [set_key];
    unfold set_simulation, set_ink, set_timing, set_event_loop, set_producers;
    repeat (apply bind_ub; [|intros ?]); try apply field_int_ub; try done.
  destruct (str_eqb _ _); [|done]. unfold parse_bool_or_int.
  destruct (strcasecmp_eq _ _); [done|]. destruct (strcasecmp_eq _ _); [done|apply atoi_ub].
Qed.

Lemma load_line_ub line st : only_ub (load_line line st).
Proof.
  unfold load_line. destruct st as [section cfg]. destruct (_ || _); [done|].
  destruct (new_section _ _); [done|]. destruct (split_at _ _) as [[a b]|]; [|done].
  apply bind_ub; [apply set_key_ub|done].
Qed.

Lemma load_loop_ub file st fuel : (length file < fuel)%nat → only_ub (load_loop fuel file st).
Proof.
  revert file st. induction fuel as [|fuel IH]; intros file st Hf; [lia|]. cbn [load_loop].
  unfold fgets. destruct file as [|x file]; [done|].
  pose proof (fgets_loop_shorter (512 - 1) (x :: file) ltac:(lia) ltac:(done)) as Hs.
  destruct (fgets_loop (512 - 1) (x :: file)) as [line rest]. cbn [snd] in Hs.
  apply bind_ub; [apply load_line_ub|]. intros st'. apply IH. cbn in *. lia.
Qed.

Lemma load_loop_ok fuel file st st' :
  load_loop fuel file st = Ok st' → config_ok st.2 → config_ok st'.2.
Proof.
  revert file st. induction fuel as [|fuel IH]; intros file st; cbn [load_loop]; [done|].
  unfold fgets. destruct file as [|x file]; [by intros [= <-]|].
  destruct (fgets_loop (512 - 1) (x :: file)) as [line rest] eqn:Ef. intros E Hc.
  apply bind_ok in E as (st1 & E1 & E). eapply IH; [exact E|].
  eapply load_line_ok; [|exact Hc]. rewrite Ef. exact E1.
Qed.

(** C30. The parser returns on every file, and what it stores fits the
    structures: every string is shorter than its array and has no NUL or newline
    inside, every number is an int.  The only undefined behaviour it can run into
    is that of atoi on a number that is not an int. *)
Theorem parse_config_fits file :
  match parse_config file with Ok c => config_ok c | Err e => e = UB end.
Proof.
  unfold parse_config.
  pose proof (load_loop_ub file (SEC_NONE, zero_config) (S (length file)) ltac:(lia)) as Hub.
  destruct (load_loop _ _ _) as [st|e] eqn:E; cbn [mbind res_bind]; [|exact Hub].
  eapply load_loop_ok; [exact E|apply zero_config_ok].
Qed.

(** ** The configuration file of the repository *)

(** A line of the file, its double quotes written as single ones. *)
Definition yaml (s : String.string) : bytes := ((λ c, if c =? 39 then quote else c) <$> str s) ++ [10].
Arguments yaml s%_string_scope.

(** @src assignments/a4/inklings/config/inklings_config.yaml 1-61 inklings_config *)
Definition inklings_config : bytes :=
  concat [
    yaml "# config for your inklings program";
    yaml "";
    yaml "logs:";
    yaml "  dir: 'logs'";
    yaml "  actions: 'actions.txt'";
    yaml "";
    yaml "simulation:";
    yaml "  default_rows: 8";
    yaml "  default_cols: 8";
    yaml "  min_rows: 20";
    yaml "  min_cols: 20";
    yaml "  min_threads: 8";
    yaml "  default_threads: 4";
    yaml "  draw_colored_traveler_heads: true";
    yaml "";
    yaml "ink:";
    yaml "  max_level: 50";
    yaml "  max_add_ink: 10";
    yaml "  refill_ink: 10";
    yaml "  initial_red_level: 20";
    yaml "  initial_green_level: 10";
    yaml "  initial_blue_level: 40";
    yaml "";
    yaml "timing:";
    yaml "  min_producer_sleep_us: 30000";
    yaml "  producer_sleep_us: 100000";
    yaml "  inkling_sleep_us: 1000000";
    yaml "  inkling_sleep_step_us: 100000";
    yaml "  inkling_sleep_min_us: 0";
    yaml "  inkling_sleep_max_us: 2147483647";
    yaml "  arg_warning_sleep_s: 2";
    yaml "  shutdown_delay_s: 30";
    yaml "  event_loop_interval_ms: 1000";
    yaml "  event_loop_sleep_s: 1";
    yaml "";
    yaml "event_loop:";
    yaml "  max_recursive_depth: 5";
    yaml "";
    yaml "producers:";
    yaml "  speedup_factor_num: 8";
    yaml "  speedup_factor_den: 10";
    yaml "  slowdown_factor_num: 12";
    yaml "  slowdown_factor_den: 10";
    yaml "";
    yaml "io:";
    yaml "  pipe_path: '/tmp/my_pipe'";
    yaml "";
    yaml "ui:";
    yaml "  icon_directions:";
    yaml "    north: '\u2191'";
    yaml "    west:  '\u2190'";
    yaml "    south: '\u2193'";
    yaml "    east:  '\u2192'";
    yaml "    none:  ' '";
    yaml "  messages:";
    yaml "    ink_tank_header: 'Ink Tank Levels, the MAX is: '";
    yaml "    live_threads_label: 'Live Threads: '";
    yaml "    no_args_message: 'No arguments provided, running with 8x8 grid and 4 threads.\n\tThis message will dissapear in 2 seconds... \n'";
    yaml "    quit_no_threads_message: 'drawState callint it quits, no threads left...'";
    yaml "    quit_esc_message: 'I see you pressed ESC, game over...'";
    yaml "    quit_generic_message: 'Somebody called quits, goodbye sweet digital world, this was their message: '"
  ].

(** On the configuration file of the repository load_config fills in every
    section but the messages, all of which stay empty: "messages:" is recognised
    only while the section is the UI's own, and by then it is that of the icons. *)
Theorem inklings_config_loads :
  ∃ icons, parse_config inklings_config =
    Ok (MkApp (MkLogs (str "logs") (str "actions.txt")) (MkSimulation 8 8 20 20 8 4 1)
      (MkInk 50 10 10 20 10 40)
      (MkTiming 30000 100000 1000000 100000 0 2147483647 2 30 1000 1) (MkEventLoop 5)
      (MkProducers 8 10 12 10) (MkIO (str "/tmp/my_pipe"))
      (MkUI icons (MkMessages [] [] [] [] [] []))).
Proof. eexists. vm_compute. reflexivity. Qed.
