(* ===== verification/MkBootDisk.v ===== *)
(** * The boot disk builder

    Models modules/m3/build/mkbootdisk.c, the program that writes the disk image
    WeensyOS boots from: [diskwrite] with its partial and interrupted writes, the
    boot sector's signature, the files and sector skips of the command line, the
    search of a partition table and the multiboot header.

    The disk is a seekable file; each call of write consumes the next of a list
    of results the operating system gives ([WPart], [WIntr], [WFail]), and writes
    everything once the list is used up.  A read that a signal interrupts is
    retried by the code, so [readsect] is modelled by its final result.  Messages
    to stderr are left out: every one is followed by the exit with status 1.

    The theorems: whatever partial writes happen, the image written is that of
    the reference definition [image]; with "-p" the search finds the first partition
    of the reference list [partitions], and the program writes inside it alone; and
    the search does not return on an extended partition that links to itself. *)
From stdpp Require Import base tactics numbers list option.
From Stdlib Require Import ZArith Lia.
From S2P Require Import Prelude.

Abbreviation bytes := (list Z).

Inductive wres := WPart (n : Z) | WIntr | WFail.

(** The file behind [diskfd], and the globals. *)
(** @src modules/m3/build/mkbootdisk.c 28-30 diskfd *)
Record disk := Disk {
  content : bytes;
  pos : Z;
  maxoff : Z;
  curoff : Z;
  writes : list wres
}.

(** How a function leaves: with a value, or by exiting the process. *)
Inductive result (A : Type) := Val (a : A) | Exit (status : Z) | OutOfFuel.
Arguments Val {A} a.
Arguments Exit {A} status.
Arguments OutOfFuel {A}.

Definition M (A : Type) : Type := disk → result A * disk.
#[global] Instance M_ret : MRet M := λ A a d, (Val a, d).
#[global] Instance M_bind : MBind M := λ A B k m d,
  match m d with
  | (Val a, d) => k a d
  | (Exit s, d) => (Exit s, d)
  | (OutOfFuel, d) => (OutOfFuel, d)
  end.

(** @src modules/m3/build/mkbootdisk.c 36-41 usage *)
Definition usage {A} : M A := λ d, (Exit 1, d).
Definition exit_ {A} (status : Z) : M A := λ d, (Exit status, d).
Definition out_of_fuel {A} : M A := λ d, (OutOfFuel, d).
Definition when (b : bool) (m : M unit) : M unit := if b then m else mret ().

(** Bytes [l] at offset [p], over what is there; a gap reads as zeros. *)
Definition splice (c : bytes) (p : Z) (l : bytes) : bytes :=
  match l with
  | [] => c
  | _ => take (Z.to_nat p) (c ++ replicate (Z.to_nat p - length c) 0) ++ l ++
         drop (Z.to_nat p + length l) c
  end.

(** write(diskfd, data, amt): what was written and what to return.  A partial
    count is between 1 and [amt]. *)
Definition sys_write (data : bytes) : M (option Z) := λ d,
  let all := Z.of_nat (length data) in
  match writes d with
  | WFail :: ws => (Val None, Disk (content d) (pos d) (maxoff d) (curoff d) ws)
  | WIntr :: ws => (Val (Some (-1)), Disk (content d) (pos d) (maxoff d) (curoff d) ws)
  | WPart n :: ws =>
    let w := Z.max 1 (Z.min n all) in
    (Val (Some w), Disk (splice (content d) (pos d) (take (Z.to_nat w) data)) (pos d + w)
                     (maxoff d) (curoff d) ws)
  | [] => (Val (Some all), Disk (splice (content d) (pos d) data) (pos d + all)
                     (maxoff d) (curoff d) [])
  end.

Definition add_curoff (w : Z) : M unit := λ d,
  (Val tt, Disk (content d) (pos d) (maxoff d) (curoff d + w) (writes d)).

(** The loop of lines 58-71; -1 is an interrupted write, [None] a failed one. *)
(** @src modules/m3/build/mkbootdisk.c 58-71 diskwrite *)
Fixpoint diskwrite_loop (fuel : nat) (data : bytes) : M unit :=
  match fuel with
  | O => out_of_fuel
  | S fuel =>
    match data with
    | [] => mret ()
    | _ =>
      r ← sys_write data;
      match r with
      | None => usage
      | Some w =>
        if w =? -1 then diskwrite_loop fuel data
        else add_curoff w ;; diskwrite_loop fuel (drop (Z.to_nat w) data)
      end
    end
  end.

(** @src modules/m3/build/mkbootdisk.c 52-72 diskwrite *)
Definition diskwrite (data : bytes) : M unit := λ d,
  if negb (maxoff d =? 0) && (curoff d + Z.of_nat (length data) >? maxoff d)
  then (Exit 1, d)
  else diskwrite_loop (S (length data + length (writes d))) data d.

(** ** Writing the image *)
Definition SECTORSIZE : Z := 512.
Definition zerobuf : bytes := replicate 512 0.

Definition seek (p : Z) : M unit := λ d, (Val tt, Disk (content d) p (maxoff d) (curoff d) (writes d)).

Fixpoint repeatM (n : nat) (m : M unit) : M unit :=
  match n with O => mret () | S n => m ;; repeatM n m end.

(** strtoul(s, &end, 0) on a string that starts with a digit. *)
Definition digit_of (c : Z) : Z :=
  if (48 <=? c) && (c <=? 57) then c - 48
  else if (97 <=? c) && (c <=? 122) then c - 87
  else if (65 <=? c) && (c <=? 90) then c - 55 else 99.
Fixpoint strtoul_digits (base acc : Z) (s : bytes) : Z * bytes :=
  match s with
  | c :: s' => if digit_of c <? base then strtoul_digits base (base * acc + digit_of c) s' else (acc, s)
  | [] => (acc, [])
  end.
Definition strtoul (s : bytes) : Z * bytes :=
  let '(v, rest) :=
    match s with
    | 48 :: x :: c :: s' =>
      if ((x =? 120) || (x =? 88)) && (digit_of c <? 16) then strtoul_digits 16 0 (c :: s')
      else strtoul_digits 8 0 s
    | 48 :: _ => strtoul_digits 8 0 s
    | _ => strtoul_digits 10 0 s
    end in
  (Z.min v (2 ^ 64 - 1), rest).

(** The sector of an argument "@X". *)
(** @src modules/m3/build/mkbootdisk.c 153-154 main *)
Definition skip_arg (arg : bytes) : option Z :=
  match arg with
  | 64 :: c :: s =>
    if (48 <=? c) && (c <=? 57) then
      let '(v, rest) := strtoul (c :: s) in
      match rest with [] => Some v | _ => None end
    else None
  | _ => None
  end.

(** fread of up to 4096 bytes at a time, each chunk written out. *)
(** @src modules/m3/build/mkbootdisk.c 169-172 main *)
Fixpoint copy_loop (fuel : nat) (file : bytes) : M unit :=
  match fuel with
  | O => out_of_fuel
  | S fuel =>
    match file with
    | [] => mret ()
    | _ => diskwrite (take 4096 file) ;; copy_loop fuel (drop 4096 file)
    end
  end.

Section main.
(** The files fopen finds, by name. *)
Context (files : bytes → option bytes).

(** @src modules/m3/build/mkbootdisk.c 43-50 fopencheck *)
Definition fopencheck (name : bytes) : M bytes :=
  match files name with Some f => mret f | None => usage end.

(** One argument after the boot sector; the new sector count. *)
(** @src modules/m3/build/mkbootdisk.c 147-179 main *)
Definition do_arg (nsectors : Z) (arg : bytes) : M Z :=
  match skip_arg arg with
  | Some skipto_sector =>
    if nsectors >? skipto_sector then usage
    else repeatM (Z.to_nat (skipto_sector - nsectors)) (diskwrite zerobuf) ;; mret skipto_sector
  | None =>
    f ← fopencheck arg;
    copy_loop (S (length f)) f ;;
    let n := Z.of_nat (length f) in
    when (negb (n mod 512 =? 0)) (diskwrite (take (Z.to_nat (512 - n mod 512)) zerobuf)) ;;
    let n := if n mod 512 =? 0 then n else n + (512 - n mod 512) in
    mret (nsectors + n / 512)
  end.

(** @src modules/m3/build/mkbootdisk.c 147-179 main *)
Fixpoint do_args (nsectors : Z) (args : list bytes) : M Z :=
  match args with
  | [] => mret nsectors
  | a :: args => nsectors ← do_arg nsectors a; do_args nsectors args
  end.

(** @src modules/m3/build/mkbootdisk.c 181-187 main *)
Definition finish (nsectors : Z) : M Z :=
  repeatM (Z.to_nat (1024 - nsectors)) (diskwrite zerobuf) ;; mret 0.

(** @src modules/m3/build/mkbootdisk.c 122-143 main *)
Definition boot_sector (name : bytes) : M Z :=
  f ← fopencheck name;
  let buf := take 4096 f in
  if (510 <? Z.of_nat (length buf)) then usage
  else diskwrite (buf ++ replicate (510 - length buf) 0 ++ [0x55; 0xAA]) ;; mret 1.

(** ** Partitions *)
Definition PTABLE_OFFSET : Z := 446.
Definition PTABLE_MAGIC_OFFSET : Z := 510.
Definition PTYPE_JOS_KERN : Z := 0x27.

(** @src modules/m3/build/mkbootdisk.c 193-207 readsect *)
Definition readsect (sectno : Z) : M bytes := λ d,
  let o := wrapU 32 sectno * SECTORSIZE in
  let buf := take 512 (drop (Z.to_nat o) (content d)) in
  let d' := Disk (content d) (o + Z.of_nat (length buf)) (maxoff d) (curoff d) (writes d) in
  if decide (length buf = 512%nat) then (Val buf, d') else (Exit 1, d').

(** A little-endian field of a buffer. *)
Fixpoint le (n : nat) (buf : bytes) (off : Z) : Z :=
  match n with
  | O => 0
  | S n => default 0 (zget buf off) + 256 * le n buf (off + 1)
  end.

(** @src modules/m3/build/mkbootdisk.c 227-234 Partitiondesc *)
Record Partitiondesc := PartDesc { type : Z; lba_start : Z; lba_length : Z }.

(** @src modules/m3/build/mkbootdisk.c 254-254 find_partition *)
Definition ptable (buf : bytes) (i : Z) : Partitiondesc :=
  let o := PTABLE_OFFSET + 16 * i in
  PartDesc (le 1 buf (o + 4)) (le 4 buf (o + 8)) (le 4 buf (o + 12)).

(** @src modules/m3/build/mkbootdisk.c 222-225 PTYPE_DOS_EXTENDED *)
Definition is_extended (t : Z) : bool := (t =? 0x05) || (t =? 0x0F) || (t =? 0x85).

(** open(name, O_RDWR) of a file that holds [c]. *)
Definition open_disk (c : bytes) : M unit := λ d, (Val tt, Disk c 0 (maxoff d) (curoff d) (writes d)).
Definition set_maxoff (m : Z) : M unit := λ d, (Val tt, Disk (content d) (pos d) m (curoff d) (writes d)).

(** The recursion may not end; the loop over the four entries js [entries]. *)
(** @src modules/m3/build/mkbootdisk.c 238-284 find_partition *)
Fixpoint find_partition (fuel : nat) (partition_sect extended_sect : Z) : M Z :=
  match fuel with
  | O => out_of_fuel
  | S fuel =>
    buf ← readsect partition_sect;
    if negb (le 1 buf PTABLE_MAGIC_OFFSET =? 0x55) || negb (le 1 buf (PTABLE_MAGIC_OFFSET + 1) =? 0xAA)
    then mret 0 else
    (fix entries (js : list Z) : M Z :=
       match js with
       | [] => mret 0
       | i :: js =>
         let e := ptable buf i in
         if lba_length e =? 0 then entries js
         else if type e =? PTYPE_JOS_KERN then
           seek ((partition_sect + lba_start e) * SECTORSIZE) ;;
           set_maxoff (lba_length e * SECTORSIZE) ;;
           mret 1
         else if is_extended (type e) then
           let inner_sect := if extended_sect =? 0 then lba_start e else extended_sect in
           r ← find_partition fuel (lba_start e + extended_sect) inner_sect;
           if r >? 0 then mret r else entries js
         else entries js
       end) [0; 1; 2; 3]
  end.

(** ** Multiboot *)
Definition le_bytes (v : Z) : bytes := [v mod 256; v / 256 mod 256; v / 65536 mod 256; v / 16777216 mod 256].

(** @src modules/m3/build/mkbootdisk.c 287-287 multiboot_header *)
Definition multiboot_header : bytes :=
  concat (le_bytes <$> [0x1BADB002; 0; u32 (- 0x1BADB002)]).

(** [kernel]: what open finds under the file's name. *)
(** @src modules/m3/build/mkbootdisk.c 289-317 do_multiboot *)
Definition do_multiboot (name : bytes) : M Z :=
  match files name with
  | None => usage
  | Some kernel =>
    open_disk kernel ;;
    buf ← readsect 0;
    if negb (le 4 buf 0 =? 0x464C457F) then usage else
    let o := u64 (le 8 buf 0x20 + 56 * le 2 buf 0x38) in
    if o >=? 4096 - 12 then usage else
    seek o ;;
    diskwrite multiboot_header ;;
    exit_ 0
  end.

(** The option "-p DISK": the arguments after it, and whether the boot sector
    is still to be written. *)
(** @src modules/m3/build/mkbootdisk.c 91-107 main *)
Definition option_p (fuel : nat) (argv : list bytes) : M (list bytes * bool) :=
  match argv with
  | o :: rest =>
    if bool_decide (o = str "-p") then
      match rest with
      | [] => usage
      | name :: rest =>
        match files name with
        | None => usage
        | Some c =>
          open_disk c ;;
          r ← find_partition fuel 0 0;
          if r <=? 0 then usage else mret (rest, false)
        end
      end
    else mret (argv, true)
  | [] => mret (argv, true)
  end.

(** @src modules/m3/build/mkbootdisk.c 109-115 main *)
Definition option_m (argv : list bytes) : M Z :=
  match argv with
  | o :: rest =>
    if bool_decide (o = str "-m")
    then match rest with [] => usage | name :: _ => do_multiboot name end
    else mret 0
  | [] => mret 0
  end.

(** main(argc, argv) on the arguments after the program's name. *)
(** @src modules/m3/build/mkbootdisk.c 91-187 main *)
Definition main (fuel : nat) (argv : list bytes) : M Z :=
  '(argv, bootsector_special) ← option_p fuel argv;
  _ ← option_m argv;
  match argv with
  | [] => usage
  | name :: args =>
    if (bootsector_special : bool) then
      nsectors ← boot_sector name;
      nsectors ← do_args nsectors args;
      finish nsectors
    else
      nsectors ← do_args 0 argv;
      finish nsectors
  end.
End main.

(** ** The reference image *)
Definition zlen (l : bytes) : Z := Z.of_nat (length l).
Definition zeros (n : Z) : bytes := replicate (Z.to_nat n) 0.

Fixpoint image_args (files : bytes → option bytes) (img : bytes) (args : list bytes) : option bytes :=
  match args with
  | [] => Some img
  | a :: args =>
    match skip_arg a with
    | Some s => if s <? zlen img / 512 then None
                else image_args files (img ++ zeros (512 * s - zlen img)) args
    | None => f ← files a; image_args files (img ++ f ++ zeros ((- zlen f) mod 512)) args
    end
  end.

Definition image (files : bytes → option bytes) (boot : bytes) (args : list bytes) : option bytes :=
  f ← files boot;
  if 510 <? zlen f then None else
  img ← image_args files (f ++ zeros (510 - zlen f) ++ [0x55; 0xAA]) args;
  Some (img ++ zeros (512 * 1024 - zlen img)).

(** ** Programs that append *)

Lemma zlen_app a b : zlen (a ++ b) = zlen a + zlen b.
Proof. unfold zlen. rewrite length_app. lia. Qed.

Lemma zlen_nonneg l : 0 ≤ zlen l.
Proof. unfold zlen. lia. Qed.

Lemma zlen_zeros n : zlen (zeros n) = Z.max 0 n.
Proof. unfold zlen, zeros. rewrite length_replicate. lia. Qed.

Lemma splice_cons c p x l : splice c p (x :: l) =
  take (Z.to_nat p) (c ++ replicate (Z.to_nat p - length c) 0) ++ (x :: l) ++ drop (Z.to_nat p + length (x :: l)) c.
Proof. done. Qed.

(** Writing twice in a row. *)
Lemma splice_app c p a b : 0 ≤ p → splice (splice c p a) (p + zlen a) b = splice c p (a ++ b).
Proof.
  intros Hp. destruct a as [|x a]; [unfold zlen; cbn; by rewrite Z.add_0_r|].
  destruct b as [|y b]; [by rewrite app_nil_r|]. cbn [app]. rewrite !splice_cons. unfold zlen.
  rewrite Z2Nat.inj_add, Nat2Z.id by lia. set (n := Z.to_nat p). set (l := x :: a).
  change (x :: a ++ y :: b) with (l ++ y :: b). set (l' := y :: b).
  set (before := take n (c ++ replicate (n - length c) 0)).
  assert (length before = n) as Hb.
  { unfold before. rewrite length_take, length_app, length_replicate. lia. }
  assert (n + length l - length (before ++ l ++ drop (n + length l) c) = 0)%nat as ->
    by (rewrite !length_app; lia).
  cbn [replicate]. rewrite app_nil_r. rewrite (app_assoc before l). set (head := before ++ l).
  assert (length head = n + length l)%nat as Hh by (unfold head; rewrite length_app; lia).
  rewrite take_app_le, take_ge by lia. unfold head at 1. rewrite <- !app_assoc. do 3 f_equal.
  rewrite drop_app_ge, drop_drop by lia. f_equal. rewrite length_app. lia.
Qed.

Lemma splice_empty l : splice [] 0 l = l.
Proof. destruct l as [|x l]; [done|]. rewrite splice_cons. change (Z.to_nat 0) with 0%nat. cbn [take app]. by rewrite drop_nil, app_nil_r. Qed.

(** What writing changes. *)
Lemma splice_same c p l i :
  0 ≤ p → (i < length c)%nat → Z.of_nat i < p ∨ p + zlen l ≤ Z.of_nat i → splice c p l !! i = c !! i.
Proof.
  intros Hp Hi Hout. destruct l as [|x l]; [done|]. rewrite splice_cons. unfold zlen in Hout.
  assert (length (take (Z.to_nat p) (c ++ replicate (Z.to_nat p - length c) 0)) = Z.to_nat p) as Hb.
  { rewrite length_take, length_app, length_replicate. lia. }
  destruct Hout as [Hout|Hout].
  - rewrite lookup_app_l by lia. rewrite lookup_take_lt by lia. by apply lookup_app_l.
  - rewrite !lookup_app_r by lia. rewrite lookup_drop. f_equal. lia.
Qed.

Lemma splice_zlen c p l : 0 ≤ p → zlen (splice c p l) ≤ Z.max (zlen c) (p + zlen l).
Proof.
  intros Hp. destruct l as [|x l]; [unfold zlen; cbn; lia|]. rewrite splice_cons. unfold zlen.
  rewrite !length_app, length_take, length_app, length_replicate, length_drop. lia.
Qed.

Section appends.
(** Output that starts at [base] of a file that held [c0], and may have [mx] bytes;
    0 stands for any number. *)
Context (c0 : bytes) (base mx : Z) (Hbase : 0 ≤ base).

Definition fits (img : bytes) : Prop := mx = 0 ∨ zlen img ≤ mx.

(** [img] has been written and the next write goes behind it. *)
Record at_end (img : bytes) (d : disk) : Prop := AtEnd {
  ae_content : content d = splice c0 base img;
  ae_pos : pos d = base + zlen img;
  ae_max : maxoff d = mx;
  ae_cur : curoff d = zlen img;
  ae_fits : fits img
}.

(** The program has been stopped by a failing write or because what it should write,
    [ref], does not exist or does not fit; what it has written fits. *)
Definition stopped (ref : option bytes) (ws : list wres) (d : disk) : Prop :=
  (∃ img, content d = splice c0 base img ∧ fits img) ∧
  (WFail ∈ ws ∨ match ref with Some img => ¬ fits img | None => True end).

Lemma fits_app img l : fits (img ++ l) → fits img.
Proof. unfold fits. rewrite zlen_app. pose proof (zlen_nonneg l). lia. Qed.

Lemma stopped_more img l ws d : stopped (Some img) ws d → stopped (Some (img ++ l)) ws d.
Proof. intros [Hd [Hw|Hn]]; (split; [done|]); [by left|right]. intros Hf. by eapply Hn, fits_app. Qed.

Lemma stopped_now ref img ws d : at_end img d → match ref with Some i => ¬ fits i | None => True end → stopped ref ws d.
Proof. intros H Hr. split; [|by right]. exists img. split; apply H. Qed.

(** [m] appends [l] and returns [v]. *)
Definition appends {A} (m : M A) (l : bytes) (v : A) : Prop :=
  ∀ img d, at_end img d →
  match m d with
  | (Val v', d') => v' = v ∧ at_end (img ++ l) d' ∧ (WFail ∈ writes d' → WFail ∈ writes d)
  | (Exit s, d') => s = 1 ∧ stopped (Some (img ++ l)) (writes d) d'
  | (OutOfFuel, _) => False
  end.

Lemma appends_ret {A} (v : A) : appends (mret v) [] v.
Proof. intros img d H. cbn. by rewrite app_nil_r. Qed.

Lemma stopped_writes ref ws ws' d : stopped ref ws' d → (WFail ∈ ws' → WFail ∈ ws) → stopped ref ws d.
Proof. intros [Hd Hr] Hw. split; [done|]. destruct Hr; auto. Qed.

Lemma appends_bind {A B} (m : M A) (k : A → M B) l1 l2 v w :
  appends m l1 v → appends (k v) l2 w → appends (m ≫= k) (l1 ++ l2) w.
Proof.
  intros Hm Hk img d H. specialize (Hm img d H). unfold mbind, M_bind.
  destruct (m d) as [[v'|s|] d1]; [|destruct Hm as [-> Hm]; split; [done|]|done].
  - destruct Hm as (-> & H1 & Hw1). specialize (Hk _ d1 H1). rewrite <- app_assoc in Hk.
    destruct (k v d1) as [[w'|s|] d2]; [|destruct Hk as [-> Hk]; split; [done|by eapply stopped_writes]|done].
    destruct Hk as (-> & H2 & Hw2). split_and!; [done|done|auto].
  - rewrite app_assoc. by apply stopped_more.
Qed.

(** One write. *)
Lemma written img data d ws :
  at_end img d → fits (img ++ data) →
  at_end (img ++ data)
    (Disk (splice (content d) (pos d) data) (pos d + zlen data) (maxoff d) (curoff d + zlen data) ws).
Proof.
  intros [Hc Hp Hm Hcu Hf] Hf'. split; cbn; [|rewrite Hp, zlen_app; lia|done|rewrite Hcu, zlen_app; lia|done].
  by rewrite Hc, Hp, splice_app.
Qed.

(** All of the data is written, however the writes are cut up. *)
Lemma diskwrite_loop_spec fuel data img d :
  at_end img d → fits (img ++ data) → (length data + length (writes d) < fuel)%nat →
  match diskwrite_loop fuel data d with
  | (Val _, d') => at_end (img ++ data) d' ∧ (WFail ∈ writes d' → WFail ∈ writes d)
  | (Exit s, d') => s = 1 ∧ (∃ img', content d' = splice c0 base img' ∧ fits img') ∧ WFail ∈ writes d
  | (OutOfFuel, _) => False
  end.
Proof.
  revert data img d. induction fuel as [|fuel IH]; intros data img d Hd Hfit Hf; [lia|].
  cbn [diskwrite_loop]. destruct data as [|c data]; [cbn; by rewrite app_nil_r|].
  set (all := c :: data) in *. assert (0 < zlen all) as Hpos by (unfold zlen, all; cbn; lia).
  assert (∀ w ws, 1 ≤ w ≤ zlen all → (length ws ≤ length (writes d))%nat → (WFail ∈ ws → WFail ∈ writes d) →
    match diskwrite_loop fuel (drop (Z.to_nat w) all)
      (Disk (splice (content d) (pos d) (take (Z.to_nat w) all)) (pos d + w) (maxoff d) (curoff d + w) ws) with
    | (Val _, d') => at_end (img ++ all) d' ∧ (WFail ∈ writes d' → WFail ∈ writes d)
    | (Exit s, d') => s = 1 ∧ (∃ img', content d' = splice c0 base img' ∧ fits img') ∧ WFail ∈ writes d
    | (OutOfFuel, _) => False
    end) as Hgo.
  { intros w ws Hw Hlw Hws.
    assert (zlen (take (Z.to_nat w) all) = w) as Ht by (unfold zlen in *; rewrite length_take; lia).
    assert (img ++ all = (img ++ take (Z.to_nat w) all) ++ drop (Z.to_nat w) all) as Eall
      by (by rewrite <- app_assoc, take_drop).
    pose proof (written img (take (Z.to_nat w) all) d ws Hd) as Hwr. rewrite Ht in Hwr.
    rewrite Eall in Hfit |- *. specialize (Hwr (fits_app _ _ Hfit)).
    specialize (IH (drop (Z.to_nat w) all) _ _ Hwr Hfit). cbn [writes] in IH.
    assert (length (drop (Z.to_nat w) all) + length ws < fuel)%nat as Hfu.
    { rewrite length_drop. unfold zlen, all in *. cbn [length] in *. lia. }
    specialize (IH Hfu). destruct (diskwrite_loop _ _ _) as [[[]|s|] d']; [|by destruct IH as (? & ? & ?); auto|done].
    destruct IH. auto. }
  unfold mbind, M_bind, sys_write. change (Z.of_nat (length all)) with (zlen all).
  destruct (writes d) as [|[n| |] ws] eqn:Ew; cbn [usage].
  - rewrite (proj2 (Z.eqb_neq _ _)) by lia. specialize (Hgo (zlen all) []). unfold add_curoff; cbn [content pos maxoff curoff writes].
    rewrite take_ge in Hgo by (unfold zlen; lia). apply Hgo; [lia|cbn; lia|done].
  - set (w := Z.max 1 (Z.min n (zlen all))). rewrite (proj2 (Z.eqb_neq w (-1))) by lia.
    unfold add_curoff; cbn [content pos maxoff curoff writes]. apply Hgo; [lia|cbn; lia|]. intros ?. by right.
  - assert (at_end img (Disk (content d) (pos d) (maxoff d) (curoff d) ws)) as Hd' by (destruct Hd; by split).
    specialize (IH all img _ Hd' Hfit). cbn [writes] in IH. change (length (WIntr :: ws)) with (S (length ws)) in Hf. specialize (IH ltac:(lia)).
    cbn [Z.eqb Pos.eqb]. destruct (diskwrite_loop _ _ _) as [[[]|s|] d']; [|destruct IH as (? & ? & ?)|done].
    + destruct IH as [IH1 IH2]. split; [done|]. intros ?. right. auto.
    + split_and!; [done|done|by right].
  - split_and!; [done| |left]. exists img. split; apply Hd.
Qed.

Lemma diskwrite_appends data : appends (diskwrite data) data tt.
Proof.
  intros img d H. unfold diskwrite. rewrite (ae_max _ _ H), (ae_cur _ _ H). change (Z.of_nat (length data)) with (zlen data).
  destruct (negb (mx =? 0) && (zlen img + zlen data >? mx)) eqn:E.
  - split; [done|]. apply stopped_now with img; [done|]. unfold fits. rewrite zlen_app.
    apply andb_true_iff in E as [E1 E2]. zify_bool. lia.
  - assert (fits (img ++ data)) as Hf.
    { unfold fits. rewrite zlen_app. apply andb_false_iff in E as [E|E]; zify_bool; lia. }
    pose proof (diskwrite_loop_spec (S (length data + length (writes d))) data img d H Hf ltac:(lia)) as Hl.
    destruct (diskwrite_loop _ _ _) as [[[]|s|] d']; [by destruct Hl|destruct Hl as (-> & Hl & Hw)|done].
    split; [done|]. split; [done|by left].
Qed.

Lemma repeat_appends n l : appends (repeatM n (diskwrite l)) (concat (replicate n l)) tt.
Proof.
  induction n as [|n IH]; [apply appends_ret|]. cbn.
  eapply appends_bind; [apply diskwrite_appends|exact IH].
Qed.

Lemma zeros_sectors n : concat (replicate (Z.to_nat n) zerobuf) = zeros (512 * n).
Proof.
  unfold zeros. destruct (decide (n < 0)) as [|Hn].
  { replace (Z.to_nat n) with O by lia. by replace (Z.to_nat (512 * n)) with O by lia. }
  rewrite Z2Nat.inj_mul by lia. generalize (Z.to_nat n) as k. intros k. induction k as [|k IH].
  - by rewrite Nat.mul_0_r.
  - cbn [replicate concat]. rewrite IH. unfold zerobuf. rewrite <- replicate_add. f_equal. lia.
Qed.

Lemma copy_appends file fuel : (length file < fuel)%nat → appends (copy_loop fuel file) file tt.
Proof.
  revert file. induction fuel as [|fuel IH]; intros file Hf; [lia|].
  destruct file as [|c file]; [apply appends_ret|]. set (f := c :: file) in *.
  assert (appends (copy_loop (S fuel) f) (take 4096 f ++ drop 4096 f) tt) as H.
  - apply (appends_bind (diskwrite (take 4096 f)) (λ _, copy_loop fuel (drop 4096 f)) _ _ tt).
    + apply diskwrite_appends.
    + apply IH. rewrite length_drop. unfold f in *. cbn [length] in *. lia.
  - by rewrite take_drop in H.
Qed.

(** The length of a file rounded up to whole sectors. *)
Lemma pad_length n : (n + (- n) mod 512) mod 512 = 0.
Proof. rewrite Zplus_mod_idemp_r. by replace (n + - n) with 0 by lia. Qed.

(** A sector skip. *)
Lemma skip_appends s n :
  appends (repeatM (Z.to_nat (s - n)) (diskwrite zerobuf) ;; mret s) (zeros (512 * s - 512 * n)) s.
Proof.
  rewrite <- Z.mul_sub_distr_l, <- zeros_sectors, <- (app_nil_r (concat _)).
  eapply appends_bind; [apply repeat_appends|apply appends_ret].
Qed.

(** A file with its padding. *)
Lemma file_appends f n :
  appends (copy_loop (S (length f)) f ;;
    let l := Z.of_nat (length f) in
    when (negb (l mod 512 =? 0)) (diskwrite (take (Z.to_nat (512 - l mod 512)) zerobuf)) ;;
    let l := if l mod 512 =? 0 then l else l + (512 - l mod 512) in
    mret (n + l / 512))
  (f ++ zeros ((- zlen f) mod 512)) (n + (zlen f + (- zlen f) mod 512) / 512).
Proof.
  eapply appends_bind; [apply copy_appends; lia|]. cbv zeta.
  change (Z.of_nat (length f)) with (zlen f). pose proof (Z.mod_pos_bound (zlen f) 512).
  destruct (Z.eqb_spec (zlen f mod 512) 0) as [E|E]; cbn [negb when].
  - rewrite Z_mod_zero_opp_full by done. rewrite Z.add_0_r. change (zeros 0) with ([] ++ [] : bytes).
    eapply appends_bind; [apply appends_ret|apply appends_ret].
  - rewrite Z_mod_nz_opp_full by done. rewrite <- (app_nil_r (zeros _)).
    eapply appends_bind; [|apply appends_ret].
    assert (take (Z.to_nat (512 - zlen f mod 512)) zerobuf = zeros (512 - zlen f mod 512)) as <-.
    { unfold zerobuf, zeros. rewrite take_replicate. f_equal. lia. }
    apply diskwrite_appends.
Qed.

Section image.
Context (files : bytes → option bytes).

(** [m] appends or exits with status 1 as the reference says; it returns the number
    of sectors, or 0 at the end. *)
Definition refines (m : M Z) (img : bytes) (ref : option bytes) (count : Z → bytes → Prop) : Prop :=
  ∀ d, at_end img d →
  match m d with
  | (Val v, d') => ∃ img', ref = Some img' ∧ at_end img' d' ∧ count v img' ∧ (WFail ∈ writes d' → WFail ∈ writes d)
  | (Exit s, d') => s = 1 ∧ stopped ref (writes d) d'
  | (OutOfFuel, _) => False
  end.

Lemma refines_bind {A} (m : M A) (k : A → M Z) l v img ref count :
  appends m l v → refines (k v) (img ++ l) ref count → (∀ i, ref = Some i → (img ++ l) `prefix_of` i) →
  refines (m ≫= k) img ref count.
Proof.
  intros Hm Hk Hr d Hd. specialize (Hm img d Hd). unfold mbind, M_bind.
  destruct (m d) as [[v'|s|] d1]; [|destruct Hm as [-> Hm]; split; [done|]|done].
  - destruct Hm as (-> & H1 & Hw1). specialize (Hk d1 H1).
    destruct (k v d1) as [[w'|s|] d2]; [|destruct Hk as [-> Hk]; split; [done|by eapply stopped_writes]|done].
    destruct Hk as (i & ? & ? & ? & ?). exists i. split_and!; auto.
  - destruct ref as [i|]; [|destruct Hm; split; [done|by right]].
    destruct (Hr i eq_refl) as [rest ->]. by apply stopped_more.
Qed.

Lemma image_args_prefix args img i : image_args files img args = Some i → img `prefix_of` i.
Proof.
  revert img. induction args as [|a args IH]; intros img; cbn [image_args]; [by intros [= ->]|].
  destruct (skip_arg a).
  - destruct (_ <? _); [done|]. intros H%IH. etrans; [|exact H]. by eexists.
  - destruct (files a); [|done]. intros H%IH. etrans; [|exact H]. by eexists.
Qed.

Definition sectors (v : Z) (img : bytes) : Prop := 512 * v = zlen img.

Lemma do_args_refines args img n :
  sectors n img → refines (do_args files n args) img (image_args files img args) sectors.
Proof.
  revert img n. induction args as [|a args IH]; intros img n Hn; cbn [image_args do_args].
  { intros d Hd. by exists img. }
  assert (zlen img / 512 = n) as Hdiv by (rewrite <- Hn, Z.mul_comm; apply Z.div_mul; lia).
  unfold do_arg. destruct (skip_arg a) as [s|].
  - rewrite Hdiv. destruct (Z.ltb_spec s n), (Z.gtb_spec n s); try lia.
    { intros d Hd. split; [done|]. by apply stopped_now with img. }
    rewrite <- Hn. eapply refines_bind; [apply skip_appends| |intros i; apply image_args_prefix]. apply IH. unfold sectors in *. rewrite zlen_app, zlen_zeros. lia.
  - unfold fopencheck. destruct (files a) as [f|].
    2:{ intros d Hd. split; [done|]. by apply stopped_now with img. }
    eapply refines_bind; [apply (file_appends f n)| |intros i; apply image_args_prefix]. apply IH. unfold sectors in *.
    rewrite !zlen_app, zlen_zeros. pose proof (Z.mod_pos_bound (- zlen f) 512).
    pose proof (pad_length (zlen f)). pose proof (Z.div_mod (zlen f + (- zlen f) mod 512) 512). lia.
Qed.

Lemma finish_appends img n :
  sectors n img → appends (finish n) (zeros (512 * 1024 - zlen img)) 0.
Proof.
  unfold sectors. intros Hn. unfold finish. replace (512 * 1024 - zlen img) with (512 * (1024 - n)) by lia.
  rewrite <- zeros_sectors, <- (app_nil_r (concat _)).
  eapply appends_bind; [apply repeat_appends|apply appends_ret].
Qed.

(** The rest of [main] after the options and the boot sector. *)
Lemma rest_refines args img n :
  sectors n img →
  refines (nsectors ← do_args files n args; finish nsectors) img
    (img' ← image_args files img args; Some (img' ++ zeros (512 * 1024 - zlen img'))) (λ v _, v = 0).
Proof.
  intros Hn d Hd. pose proof (do_args_refines args img n Hn d Hd) as H. unfold mbind at 1, M_bind.
  destruct (do_args files n args d) as [[v|s|] d1]; [| |done].
  - destruct H as (i & -> & H1 & Hv & Hw). cbn [mbind option_bind].
    pose proof (finish_appends i v Hv i d1 H1) as H2.
    destruct (finish v d1) as [[w|s|] d2]; [|destruct H2 as [-> H2]; split; [done|by eapply stopped_writes]|done].
    destruct H2 as (-> & H2 & Hw2). eexists. split_and!; [done|done|done|auto].
  - destruct H as [-> H]. split; [done|]. destruct (image_args files img args) as [i|]; cbn [mbind option_bind].
    + by apply stopped_more.
    + exact H.
Qed.
End image.
End appends.

(** The empty disk image stdout starts as, with the results of the writes. *)
Definition stdout (ws : list wres) : disk := Disk [] 0 0 0 ws.

Lemma main_no_option files fuel boot args :
  boot ≠ str "-p" → boot ≠ str "-m" →
  main files fuel (boot :: args) =
    (nsectors ← boot_sector files boot; nsectors ← do_args files nsectors args; finish nsectors).
Proof.
  intros Hp Hm.
  assert (option_p files fuel (boot :: args) = mret (boot :: args, true)) as E1
    by (unfold option_p; by rewrite bool_decide_eq_false_2).
  assert (option_m files (boot :: args) = mret 0) as E2
    by (unfold option_m; by rewrite bool_decide_eq_false_2).
  unfold main. rewrite E1. change (mret ?x ≫= ?k) with (k x). cbv beta iota. by rewrite E2.
Qed.

Lemma main_writes_image files fuel boot args ws :
  boot ≠ str "-p" → boot ≠ str "-m" → WFail ∉ ws →
  match image files boot args with
  | Some img => ∃ d, main files fuel (boot :: args) (stdout ws) = (Val 0, d) ∧ content d = img
  | None => ∃ d, main files fuel (boot :: args) (stdout ws) = (Exit 1, d)
  end.
Proof.
  intros Hp Hm Hw. rewrite main_no_option by done. unfold image, boot_sector, fopencheck.
  destruct (files boot) as [f|]; [|by eexists].
  change (Some f ≫= ?k) with (k f). change (mret f ≫= ?k) with (k f). cbv beta zeta.
  change (Z.of_nat (length ?x)) with (zlen x).
  assert ((510 <? zlen (take 4096 f)) = (510 <? zlen f)) as ->.
  { unfold zlen. rewrite length_take. apply eq_true_iff_eq. rewrite !Z.ltb_lt. lia. }
  destruct (Z.ltb_spec 510 (zlen f)) as [|Hf]; [by eexists|].
  rewrite take_ge by (unfold zlen in *; lia).
  set (bs := f ++ zeros (510 - zlen f) ++ [0x55; 0xAA]).
  assert (appends [] 0 0 (diskwrite (f ++ replicate (510 - length f) 0 ++ [0x55; 0xAA]) ;; mret 1) bs 1) as Hbs.
  { rewrite <- (app_nil_r bs). eapply appends_bind; [|apply appends_ret]. unfold bs, zeros.
    replace (Z.to_nat (510 - zlen f)) with (510 - length f)%nat by (unfold zlen; lia). by apply diskwrite_appends. }
  assert (sectors 1 bs) as Hlen.
  { unfold sectors, bs. rewrite !zlen_app, zlen_zeros. unfold zlen in *. cbn [length]. lia. }
  assert (at_end [] 0 0 [] (stdout ws)) as Hd by (split; [done..|by left]).
  pose proof (refines_bind [] 0 0 _ (λ n, nsectors ← do_args files n args; finish nsectors) bs 1 [] _ _ Hbs (rest_refines [] 0 0 ltac:(done) files args bs 1 Hlen)) as H.
  cbn [app] in H. specialize (H ltac:(intros i Hi; destruct (image_args files bs args) as [j|] eqn:E; [|done];
    injection Hi as <-; apply image_args_prefix in E; etrans; [exact E|by eexists]) _ Hd).
  match type of H with match ?r with _ => _ end => set (res := r) in H end.
  match goal with |- match _ with Some img => ∃ d, ?r = _ ∧ _ | None => _ end => change r with res end.
  destruct res as [[v|s|] d']; [| |done].
  - destruct H as (i & Hi & H & -> & _). rewrite Hi. exists d'. split; [done|].
    rewrite (ae_content _ _ _ _ _ H). apply splice_empty.
  - destruct H as [-> [_ [?|Hr]]]; [done|]. destruct (_ ≫= _) as [i|]; [destruct Hr; by left|by eexists].
Qed.

(** C27. Without options mkbootdisk writes exactly the reference image, however
    its writes are split or interrupted: the boot sector padded to 510 bytes with
    its signature, each file padded to whole sectors, zeros up to the sectors
    skipped to, and zeros up to 1024 sectors.  It exits with status 1 where the
    reference has no image: a missing file, a boot block over 510 bytes, a skip
    backwards. *)
Theorem mkbootdisk_image files fuel boot args ws :
  boot ≠ str "-p" → boot ≠ str "-m" → WFail ∉ ws →
  match image files boot args with
  | Some img => ∃ d, main files fuel (boot :: args) (stdout ws) = (Val 0, d) ∧ content d = img
  | None => ∃ d, main files fuel (boot :: args) (stdout ws) = (Exit 1, d)
  end.
Proof. apply main_writes_image. Qed.

(** Two files, a skip, and writes cut up by the system. *)
Definition ex_files (name : bytes) : option bytes :=
  if bool_decide (name = str "boot") then Some (replicate 300 7)
  else if bool_decide (name = str "kernel") then Some (replicate 700 9) else None.

Lemma mkbootdisk_image_witness :
  ∃ d, main ex_files 1 [str "boot"; str "@2"; str "kernel"] (stdout [WPart 100; WIntr; WPart 7]) = (Val 0, d).
Proof.
  pose proof (mkbootdisk_image ex_files 1 (str "boot") [str "@2"; str "kernel"]
    [WPart 100; WIntr; WPart 7] ltac:(done) ltac:(done)
    ltac:(repeat (apply not_elem_of_cons; split; [done|]); apply not_elem_of_nil)) as H.
  destruct (image _ _ _) eqn:E; [destruct H as (d & H & _); by exists d|]. exfalso.
  unfold image in E. change (ex_files (str "boot")) with (Some (replicate 300 7)) in E.
  cbn [mbind option_bind] in E. change (510 <? zlen (replicate 300 7)) with false in E. cbv iota in E.
  destruct (image_args _ _ _) as [img|] eqn:Ei; [discriminate E|]. vm_compute in Ei. discriminate Ei.
Defined.

(** ** Writing into a partition *)

(** The partitions of type 0x27 that the partition table of the disk [c] lists, in
    order, as their first byte and their size: the table in sector 0, and
    those it links to, whose links are relative to the first extended partition.
    [None] is a sector that the disk does not have, or a table more than [depth]
    links away. *)
Definition sector (c : bytes) (n : Z) : option bytes :=
  let buf := take 512 (drop (Z.to_nat (512 * u32 n)) c) in
  if decide (length buf = 512%nat) then Some buf else None.

Fixpoint partitions (depth : nat) (c : bytes) (sect ext : Z) : list (option (Z * Z)) :=
  match depth with
  | O => [None]
  | S depth =>
      match sector c sect with
      | None => [None]
      | Some buf =>
          if (le 1 buf 510 =? 0x55) && (le 1 buf 511 =? 0xAA) then
            concat ((λ i,
              let entry := 446 + 16 * i in
              let kind := le 1 buf (entry + 4) in
              let start := le 4 buf (entry + 8) in
              let size := le 4 buf (entry + 12) in
              if size =? 0 then []
              else if kind =? 0x27 then [Some (512 * (sect + start), 512 * size)]
              else if bool_decide (kind ∈ [0x05; 0x0F; 0x85]) then
                partitions depth c (start + ext) (if ext =? 0 then start else ext)
              else []) <$> [0; 1; 2; 3])
          else []
      end
  end.

(** The position of [d] and its limit do not matter. *)
Definition moved (p : Z) (d : disk) : disk := Disk (content d) p (maxoff d) (curoff d) (writes d).

(** What the search does with the first partition of a list. *)
Definition finds (first : option (option (Z * Z))) (d : disk) (r : result Z * disk) : Prop :=
  match first with
  | None => ∃ p, r = (Val 0, moved p d)
  | Some None => ∃ p s, r = (s, moved p d) ∧ (s = Exit 1 ∨ s = OutOfFuel)
  | Some (Some (base, len)) => r = (Val 1, Disk (content d) base len (curoff d) (writes d))
  end.

Lemma finds_moved first p d r : finds first (moved p d) r ↔ finds first d r.
Proof. destruct first as [[[base len]|]|]; done. Qed.

Lemma is_extended_spec t : is_extended t = bool_decide (t ∈ [0x05; 0x0F; 0x85]).
Proof.
  apply eq_true_iff_eq. unfold is_extended. rewrite !orb_true_iff, !Z.eqb_eq, bool_decide_eq_true.
  rewrite !elem_of_cons, elem_of_nil. tauto.
Qed.

Lemma readsect_spec n d :
  ∃ p, readsect n d = (match sector (content d) n with Some buf => Val buf | None => Exit 1 end, moved p d).
Proof.
  unfold readsect, sector, SECTORSIZE. rewrite (Z.mul_comm 512). cbn zeta. case_decide; eexists; done.
Qed.

(** The loop over the entries, named. *)
Fixpoint entries (depth : nat) (buf : bytes) (partition_sect extended_sect : Z) (js : list Z) : M Z :=
  match js with
  | [] => mret 0
  | i :: js =>
      let e := ptable buf i in
      if lba_length e =? 0 then entries depth buf partition_sect extended_sect js
      else if type e =? PTYPE_JOS_KERN then
        seek ((partition_sect + lba_start e) * SECTORSIZE) ;;
        set_maxoff (lba_length e * SECTORSIZE) ;;
        mret 1
      else if is_extended (type e) then
        r ← find_partition depth (lba_start e + extended_sect) (if extended_sect =? 0 then lba_start e else extended_sect);
        if r >? 0 then mret r else entries depth buf partition_sect extended_sect js
      else entries depth buf partition_sect extended_sect js
  end.

Lemma find_partition_entries depth sect ext :
  find_partition (S depth) sect ext =
    (buf ← readsect sect;
     if negb (le 1 buf PTABLE_MAGIC_OFFSET =? 0x55) || negb (le 1 buf (PTABLE_MAGIC_OFFSET + 1) =? 0xAA)
     then mret 0 else entries depth buf sect ext [0; 1; 2; 3]).
Proof. reflexivity. Qed.

Lemma find_partition_spec depth sect ext d :
  finds (head (partitions depth (content d) sect ext)) d (find_partition depth sect ext d).
Proof.
  revert sect ext d. induction depth as [|depth IH]; intros sect ext d.
  { exists (pos d), OutOfFuel. destruct d. split; [done|by right]. }
  rewrite find_partition_entries. cbn [partitions]. unfold mbind at 1, M_bind at 1.
  destruct (readsect_spec sect d) as [p ->]. destruct (sector (content d) sect) as [buf|].
  2:{ exists p, (Exit 1). split; [done|by left]. }
  unfold PTABLE_MAGIC_OFFSET. change (510 + 1) with 511. rewrite <- negb_andb.
  destruct ((le 1 buf 510 =? 0x55) && (le 1 buf 511 =? 0xAA)); cbn [negb]; [|by exists p].
  generalize [0; 1; 2; 3] as js. intros js. rewrite <- (finds_moved _ p).
  change (content d) with (content (moved p d)). generalize (moved p d) as d'. clear d p.
  induction js as [|i js IHjs]; intros d; [exists (pos d); by destruct d|].
  cbn [fmap list_fmap concat entries]. unfold ptable, PTABLE_OFFSET. cbn zeta. cbn [lba_length type lba_start].
  destruct (le 4 buf (446 + 16 * i + 12) =? 0) eqn:Esz; [apply IHjs|]. unfold PTYPE_JOS_KERN.
  destruct (le 1 buf (446 + 16 * i + 4) =? 0x27) eqn:Ety.
  { unfold SECTORSIZE. rewrite !(Z.mul_comm 512). done. }
  rewrite is_extended_spec. case_bool_decide; [|apply IHjs].
  set (start := le 4 buf (446 + 16 * i + 8)).
  specialize (IH (start + ext) (if ext =? 0 then start else ext) d).
  set (ps := partitions depth (content d) (start + ext) _) in *. unfold mbind, M_bind.
  destruct ps as [|first ps]; cbn [head app] in *.
  - destruct IH as [p ->]. cbn [Z.gtb Z.compare]. rewrite <- (finds_moved _ p). apply (IHjs (moved p d)).
  - destruct first as [[base len]|].
    + cbn [finds] in IH |- *. rewrite IH. done.
    + destruct IH as (p & s & -> & [->| ->]); exists p; eexists; (split; [done|auto]).
Qed.

Lemma le_nonneg n buf o : Forall (λ b, 0 ≤ b < 256) buf → 0 ≤ le n buf o.
Proof.
  intros Hb. revert o. induction n as [|n IH]; intros o; cbn [le]; [done|]. specialize (IH (o + 1)).
  destruct (zget buf o) as [b|] eqn:E; cbn [default]; [|lia]. unfold zget in E. case_decide; [|done].
  pose proof (Forall_lookup_1 _ _ _ _ Hb E). cbn in *. lia.
Qed.

Lemma partitions_range depth c sect ext base len :
  Forall (λ b, 0 ≤ b < 256) c → 0 ≤ sect → 0 ≤ ext → Some (base, len) ∈ partitions depth c sect ext →
  0 ≤ base ∧ 0 < len.
Proof.
  intros Hc. revert sect ext. induction depth as [|depth IH]; intros sect ext Hs He; cbn [partitions].
  { by intros Hin%list_elem_of_singleton. }
  destruct (sector c sect) as [buf|] eqn:Eb; [|by intros Hin%list_elem_of_singleton].
  assert (Forall (λ b, 0 ≤ b < 256) buf) as Hbuf.
  { unfold sector in Eb. cbn zeta in Eb. case_decide; [|done]. injection Eb as <-. by apply Forall_take, Forall_drop. }
  destruct (_ && _); [|by intros ?%elem_of_nil].
  intros (l & (i & <- & _)%in_map_iff & Hin%list_elem_of_In)%list_elem_of_In%in_concat. cbn zeta in Hin.
  pose proof (le_nonneg 4 buf (446 + 16 * i + 8) Hbuf). pose proof (le_nonneg 4 buf (446 + 16 * i + 12) Hbuf).
  revert Hin. generalize dependent (le 4 buf (446 + 16 * i + 8)). generalize dependent (le 4 buf (446 + 16 * i + 12)).
  intros size Hsize start Hstart. destruct (Z.eqb_spec size 0); [by intros ?%elem_of_nil|].
  destruct (_ =? 0x27); [intros [= -> ->]%list_elem_of_singleton; lia|].
  case_bool_decide; [|by intros ?%elem_of_nil]. apply IH; [lia|]. by destruct (ext =? 0).
Qed.

(** The reference image of a partition: no boot sector. *)
Definition partition_image (files : bytes → option bytes) (args : list bytes) : option bytes :=
  img ← image_args files [] args; Some (img ++ zeros (512 * 1024 - zlen img)).

Lemma main_option_p files fuel name args c0 ws :
  files name = Some c0 → head args ≠ Some (str "-m") →
  main files fuel (str "-p" :: name :: args) (stdout ws) =
    (r ← find_partition fuel 0 0;
     if r <=? 0 then usage
     else match args with [] => usage | _ => nsectors ← do_args files 0 args; finish nsectors end)
      (Disk c0 0 0 0 ws).
Proof.
  intros Hc Hm. unfold main, option_p. rewrite bool_decide_true, Hc by done. unfold mbind, M_bind, open_disk. cbn [stdout maxoff curoff writes].
  destruct (find_partition fuel 0 0 (Disk c0 0 0 0 ws)) as [[r|s|] d]; [|done..].
  destruct (r <=? 0); [done|]. unfold mret, M_ret. unfold option_m. destruct args as [|a args]; [done|].
  rewrite bool_decide_false; [done|]. intros ->. by apply Hm.
Qed.

(** C28. With "-p" nothing outside the partition is written, and the right things
    inside.  For every disk and every partition table on it: mkbootdisk uses the
    first partition of type 0x27 that the table lists, following the links to
    extended partitions up to the depth of the recursion [fuel].  If there is none, or
    an unreadable sector comes first, the disk does not change and the exit status
    is 1 (or the recursion does not end).  Otherwise, with any results of the
    writes and however the program ends, no byte outside that partition changes.
    With status 0 the partition holds exactly the reference image, the files
    padded to whole sectors, zeros up to the sectors skipped to, and zeros up to
    1024 sectors; with status 1 no file was named, a write failed, or that image
    does not exist or is larger than the partition. *)
Theorem mkbootdisk_partition files fuel name args c0 ws r d :
  files name = Some c0 → Forall (λ b, 0 ≤ b < 256) c0 → head args ≠ Some (str "-m") →
  main files fuel (str "-p" :: name :: args) (stdout ws) = (r, d) →
  match head (partitions fuel c0 0 0) with
  | Some (Some (base, len)) =>
      (∀ i, (i < length c0)%nat → Z.of_nat i < base ∨ base + len ≤ Z.of_nat i → content d !! i = c0 !! i) ∧
      zlen (content d) ≤ Z.max (zlen c0) (base + len) ∧
      (r = Val 0 ∧ (∃ img, partition_image files args = Some img ∧ zlen img ≤ len ∧ content d = splice c0 base img) ∨
       r = Exit 1 ∧ (args = [] ∨ WFail ∈ ws ∨
         match partition_image files args with Some img => len < zlen img | None => True end))
  | _ => content d = c0 ∧ (r = Exit 1 ∨ r = OutOfFuel)
  end.
Proof.
  intros Hc Hb Hm E. rewrite (main_option_p files fuel name args c0 ws Hc Hm) in E. unfold mbind at 1, M_bind at 1 in E.
  pose proof (find_partition_spec fuel 0 0 (Disk c0 0 0 0 ws)) as Hf. cbn [content] in Hf.
  pose proof (λ base len, partitions_range fuel c0 0 0 base len Hb ltac:(lia) ltac:(lia)) as Hr.
  destruct (partitions fuel c0 0 0) as [|[[base len]|] ps]; cbn [head finds] in Hf |- *.
  - destruct Hf as [p Ef]. rewrite Ef in E. injection E as <- <-. split; [done|by left].
  - rewrite Hf in E. cbn [Z.leb Z.compare content curoff writes] in E. destruct (Hr base len) as [Hbase Hlen]; [left|].
    set (d0 := Disk c0 base len 0 ws) in E.
    assert (at_end c0 base len [] d0) as Hd0.
    { split; cbn; [done|unfold zlen; cbn; lia|done|done|right; unfold zlen; cbn; lia]. }
    assert (∀ img, content d = splice c0 base img → fits len img →
      (∀ i, (i < length c0)%nat → Z.of_nat i < base ∨ base + len ≤ Z.of_nat i → content d !! i = c0 !! i) ∧
      zlen (content d) ≤ Z.max (zlen c0) (base + len)) as Hsafe.
    { intros img Ed [?|Hfit]; [lia|]. rewrite Ed. split.
      - intros i Hi Ho. apply splice_same; [done|done|lia].
      - pose proof (splice_zlen c0 base img Hbase). lia. }
    destruct args as [|a args].
    { injection E as <- <-. split_and!; [by intros|cbn; lia|right; split; [done|by left]]. }
    set (av := a :: args) in *. clearbody av.
    pose proof (rest_refines c0 base len Hbase files av [] 0 eq_refl d0 Hd0) as Hrun. rewrite E in Hrun.
    fold (partition_image files av) in Hrun. destruct r as [v|s|]; [| |done].
    + destruct Hrun as (img & Ei & Hd & -> & _). destruct (Hsafe img) as [H1 H2]; [apply Hd|apply Hd|].
      split_and!; [done|done|left]. split; [done|]. exists img. pose proof (ae_fits _ _ _ _ _ Hd) as Hfit. unfold fits in Hfit.
      split_and!; [done|lia|apply Hd].
    + destruct Hrun as [-> [(img & Ed & Hfit) Hstop]]. destruct (Hsafe img Ed Hfit) as [H1 H2].
      split_and!; [done|done|right]. split; [done|]. right. destruct Hstop as [?|Hstop]; [by left|right].
      destruct (partition_image files av) as [i|]; [|done]. unfold fits in Hstop. lia.
  - destruct Hf as (p & s & Ef & Hs). rewrite Ef in E. destruct Hs as [-> | ->]; injection E as <- <-; split; auto.
Qed.

(** ** The search of the partition table *)

(** A sector with a partition table whose first entry is [e]. *)
Definition entry_bytes (type start length : Z) : bytes :=
  [0; 0; 0; 0; type; 0; 0; 0] ++ le_bytes start ++ le_bytes length.
Definition table_sector (entry : bytes) : bytes :=
  replicate 446 0 ++ entry ++ replicate 48 0 ++ [0x55; 0xAA].

(** A disk with an extended partition at sector 2; in its table, a partition of type
    0x27 that starts a sector later and has two. *)
Definition part_disk : bytes :=
  table_sector (entry_bytes 5 2 6) ++ replicate 512 1 ++ table_sector (entry_bytes 0x27 1 2) ++ replicate 2048 2.
Definition part_files (name : bytes) : option bytes :=
  if bool_decide (name = str "disk") then Some part_disk else ex_files name.

Lemma part_disk_found : head (partitions 2 part_disk 0 0) = Some (Some (1536, 1024)).
Proof. by vm_compute. Qed.

Lemma mkbootdisk_partition_witness :
  ∃ r d, main part_files 2 [str "-p"; str "disk"; str "kernel"] (stdout [WPart 100; WIntr]) = (r, d) ∧
    ∀ i, (i < 1536)%nat → content d !! i = part_disk !! i.
Proof.
  destruct (main part_files 2 [str "-p"; str "disk"; str "kernel"] (stdout [WPart 100; WIntr])) as [r d] eqn:E.
  exists r, d. split; [reflexivity|].
  pose proof (mkbootdisk_partition part_files 2 (str "disk") [str "kernel"] part_disk _ r d eq_refl
    ltac:(apply (bool_decide_unpack _); vm_compute; exact I) ltac:(by vm_compute) E) as H.
  rewrite part_disk_found in H. destruct H as [H _]. intros i Hi. apply H; [|lia].
  assert (length part_disk = 4 * 512 + 1536)%nat as -> by (vm_compute; reflexivity). lia.
Defined.

(** A disk with an extended partition at sector 1 whose table leads to itself. *)
Definition looping_disk (ws : list wres) : disk :=
  Disk (table_sector (entry_bytes 5 1 10) ++ table_sector (entry_bytes 5 0 10)) 0 0 0 ws.

(** One level of the recursion on that disk. *)
Lemma looping_step fuel ps ws :
  find_partition (S fuel) 1 1 (Disk (content (looping_disk ws)) ps 0 0 ws) =
    (r ← find_partition fuel 1 1; if r >? 0 then mret r else mret 0)
      (Disk (content (looping_disk ws)) 1024 0 0 ws).
Proof.
  set (c := content (looping_disk ws)). set (buf := table_sector (entry_bytes 5 0 10)).
  assert (readsect 1 (Disk c ps 0 0 ws) = (Val buf, Disk c 1024 0 0 ws)) as Er by (vm_compute; reflexivity).
  cbn [find_partition]. unfold mbind at 1, M_bind at 1. rewrite Er.
  assert (le 1 buf PTABLE_MAGIC_OFFSET = 0x55 ∧ le 1 buf (PTABLE_MAGIC_OFFSET + 1) = 0xAA) as [-> ->]
    by (split; reflexivity).
  assert (ptable buf 0 = PartDesc 5 0 10 ∧ ptable buf 1 = PartDesc 0 0 0 ∧
    ptable buf 2 = PartDesc 0 0 0 ∧ ptable buf 3 = PartDesc 0 0 0) as (E0 & E1 & E2 & E3)
    by (split_and!; reflexivity).
  change (negb (85 =? 85) || negb (170 =? 170)) with false. cbv iota.
  rewrite E0, E1, E2, E3. reflexivity.
Qed.

(** The search of a partition table does not return on an extended partition
    that leads back to itself: whatever the fuel, i.e. the depth of the recursion
    the stack allows, it is used up. *)
Theorem find_partition_loops fuel ws : (find_partition fuel 0 0 (looping_disk ws)).1 = OutOfFuel.
Proof.
  assert (∀ n ps, (find_partition n 1 1 (Disk (content (looping_disk ws)) ps 0 0 ws)).1 = OutOfFuel) as H.
  { induction n as [|n IH]; intros ps; [done|]. rewrite looping_step. unfold mbind, M_bind.
    specialize (IH 1024). destruct (find_partition n 1 1 _) as [[]]; by try discriminate IH. }
  destruct fuel as [|fuel]; [done|].
  set (buf := table_sector (entry_bytes 5 1 10)).
  assert (readsect 0 (looping_disk ws) =
    (Val buf, Disk (content (looping_disk ws)) 512 0 0 ws)) as Er by (vm_compute; reflexivity).
  cbn [find_partition]. unfold mbind at 1, M_bind at 1. rewrite Er.
  assert (le 1 buf PTABLE_MAGIC_OFFSET = 0x55 ∧ le 1 buf (PTABLE_MAGIC_OFFSET + 1) = 0xAA) as [-> ->]
    by (split; reflexivity).
  assert (ptable buf 0 = PartDesc 5 1 10) as E0 by reflexivity.
  change (negb (85 =? 85) || negb (170 =? 170)) with false. cbv iota. rewrite E0.
  cbn [lba_length type lba_start]. change (10 =? 0) with false. change (5 =? PTYPE_JOS_KERN) with false.
  change (is_extended 5) with true. cbv iota beta zeta. unfold mbind, M_bind.
  specialize (H fuel 512). destruct (find_partition fuel _ _ _) as [[]] eqn:E; cbn in *; try done.
Qed.
