(* ===== verification/BootDisk.v ===== *)
(** * From the disk builder to the running kernel

    Composes MkBootDisk.v and Boot.v: the boot loader, started from the disk
    image that mkbootdisk writes, loads the kernel file that mkbootdisk was
    given. *)
From stdpp Require Import base tactics numbers list gmap option.
From Stdlib Require Import ZArith Lia.
From S2P Require Import Prelude Mem LibStr Printf VM Machine Hardware Keyboard Wp Pages Loader Boot.
From S2P Require MkBootDisk.

(** ** Executable files *)

(** A file that the boot loader can load, with its headers and segments inside;
    [mem_of 512 f] is the disk that holds only the file, from sector 1 on. *)
Record bootable_file (f : list Z) : Prop := {
  file_bootable : bootable (mem_of 512 f);
  file_header : 64 ≤ zlen f;
  file_table : let eh := kernel_header (mem_of 512 f) in
    e_phoff eh + sizeof_elf_program * e_phnum eh ≤ zlen f;
  file_segment i : 0 ≤ i < e_phnum (kernel_header (mem_of 512 f)) →
    let p := kernel_program (mem_of 512 f) i in p_offset p + p_filesz p ≤ zlen f
}.

(** Segment [p] of the file is in memory, followed by zeros. *)
Definition in_memory (f : list Z) (p : elf_program) (m : mem) : Prop :=
  (∀ j, 0 ≤ j < p_filesz p → ∃ c, f !! Z.to_nat (p_offset p + j) = Some c ∧ rd m (p_va p + j) = u8 c) ∧
  (∀ j, p_filesz p ≤ j < p_memsz p → rd m (p_va p + j) = 0).

(** ** Where the kernel file is in the image *)

(** The first file starts at sector 1. *)
Lemma image_layout files boot k args f img :
  MkBootDisk.image files boot (k :: args) = Some img → MkBootDisk.skip_arg k = None → files k = Some f →
  ∃ bs rest, length bs = 512%nat ∧ img = bs ++ f ++ rest.
Proof.
  intros H Hk Hf. unfold MkBootDisk.image in H. destruct (files boot) as [b|]; [|done]. cbn [mbind option_bind] in H.
  destruct (Z.ltb_spec 510 (MkBootDisk.zlen b)) as [|Hb]; [done|].
  cbn [MkBootDisk.image_args] in H. rewrite Hk, Hf in H. cbn [mbind option_bind] in H.
  destruct (MkBootDisk.image_args _ _ args) as [img1|] eqn:E; [|done]. cbn in H. injection H as <-.
  apply MkBootDisk.image_args_prefix in E as (rest & ->).
  exists (b ++ MkBootDisk.zeros (510 - MkBootDisk.zlen b) ++ [0x55; 0xAA]). eexists. split.
  - unfold MkBootDisk.zeros, MkBootDisk.zlen in *. rewrite !length_app, length_replicate. cbn [length]. lia.
  - by rewrite <- !app_assoc.
Qed.

Lemma rd_image bs f rest o : length bs = 512%nat → 0 ≤ o < Z.of_nat (length f) →
  rd (mem_of 0 (bs ++ f ++ rest)) (512 + o) = rd (mem_of 512 f) (512 + o).
Proof.
  intros Hbs Ho. unfold mem_of. rewrite !rd_wr_list, !decide_True by (rewrite ?length_app; lia).
  f_equal. f_equal. rewrite lookup_app_r by lia.
  replace (Z.to_nat (512 + o - 0) - length bs)%nat with (Z.to_nat (512 + o - 512)) by lia.
  by rewrite lookup_app_l by lia.
Qed.

(** ** Executables that agree on the kernel file *)
Section agree.
Context (disk file : mem) (size : Z).
Context (Hsame : ∀ o, 0 ≤ o < size → rd disk (512 + o) = rd file (512 + o)).
Context (Hhead : 64 ≤ size).
Context (Htable : e_phoff (kernel_header file) + sizeof_elf_program * e_phnum (kernel_header file) ≤ size).

Lemma agree_header : kernel_header disk = kernel_header file.
Proof.
unfold kernel_header, read_header.
f_equal; apply ldn_shift; intros i Hi; rewrite <- ?Z.add_assoc; apply Hsame; lia.
Qed.

Lemma agree_program i : 0 ≤ i < e_phnum (kernel_header file) → kernel_program disk i = kernel_program file i.
Proof.
intros Hi. pose proof (header_range file 512) as [Ho _]. fold (kernel_header file) in Ho.
unfold kernel_program. rewrite agree_header. unfold read_program. change sizeof_elf_program with 56 in *.
f_equal; apply ldn_shift; intros k Hk; rewrite <- !Z.add_assoc; apply Hsame; lia.
Qed.

Lemma agree_bootable : bootable file → bootable disk.
Proof.
intros [Hm Hp Hs Hd]. split; rewrite ?agree_header; [done|done| |].
- intros i Hi. rewrite agree_program by done. by apply Hs.
- intros i j a Hij Hj. rewrite !agree_program by lia. by apply Hd.
Qed.
End agree.

Lemma bootdisk_ok files mfuel boot_block k args ws d f
    {D : Type} `{HB : PortBus D} `{HA : !AtaDisk D (mem_of 0 (MkBootDisk.content d))} fuel (s : machine D) :
  boot_block ≠ str "-p" → boot_block ≠ str "-m" → MkBootDisk.WFail ∉ ws →
  MkBootDisk.skip_arg k = None → files k = Some f →
  MkBootDisk.main files mfuel (boot_block :: k :: args) (MkBootDisk.stdout ws) = (MkBootDisk.Val 0, d) →
  bootable_file f → (ata_limit < fuel)%nat → idle (mem_of 0 (MkBootDisk.content d)) s →
  let eh := kernel_header (mem_of 512 f) in
  ∃ s', boot fuel s = Ret (e_entry eh) s' ∧
    ∀ i, 0 ≤ i < e_phnum eh → in_memory f (kernel_program (mem_of 512 f) i) (memory s').
Proof.
  intros Hp Hm Hw Hk Hf Hmain [Hb Hhead Htable Hseg] Hfuel Hidle eh. set (file := mem_of 512 f) in *.
  pose proof (MkBootDisk.main_writes_image files mfuel boot_block (k :: args) ws Hp Hm Hw) as Himg.
  destruct (MkBootDisk.image files boot_block (k :: args)) as [img|] eqn:Ei;
    [destruct Himg as (d' & E & Hc); rewrite Hmain in E; injection E as <-
    |destruct Himg as (d' & E); by rewrite Hmain in E].
  destruct (image_layout _ _ _ _ _ _ Ei Hk Hf) as (bs & rest & Hbs & ->).
  set (disk := mem_of 0 (MkBootDisk.content d)) in *.
  assert (∀ o, 0 ≤ o < zlen f → rd disk (512 + o) = rd file (512 + o)) as Hsame
    by (intros o Ho; unfold disk; rewrite Hc; by apply rd_image).
  destruct (boot_ok disk fuel s Hfuel Hidle) as (s' & E & Hl & _); [by eapply agree_bootable|].
  rewrite (agree_header disk file (zlen f)) in E, Hl by done. fold eh in E, Hl.
  exists s'. split; [done|]. intros i Hi. set (p := kernel_program file i). destruct (Hl i Hi) as [Hfile Hzero].
  rewrite (agree_program disk file (zlen f)) in Hfile, Hzero by done. fold p in Hfile, Hzero.
  split; [|done]. intros j Hj. specialize (Hseg i Hi).
  change (p_offset p + p_filesz p ≤ zlen f) in Hseg.
  pose proof (program_range file (512 + e_phoff eh + sizeof_elf_program * i)) as (_ & Ho & _).
  change (0 ≤ p_offset p) in Ho.
  destruct (lookup_lt_is_Some_2 f (Z.to_nat (p_offset p + j))) as [c Hcf]; [unfold zlen in Hseg; lia|].
  exists c. split; [done|]. rewrite Hfile by done. rewrite <- Z.add_assoc, Hsame by lia.
  unfold file, mem_of. rewrite rd_wr_list, decide_True by (unfold zlen in Hseg; lia).
  replace (Z.to_nat (512 + (p_offset p + j) - 512)) with (Z.to_nat (p_offset p + j)) by lia. by rewrite Hcf.
Qed.

(** From mkbootdisk to the kernel.  Take any executable whose headers and
    segments lie in the file and that the boot loader can load.  mkbootdisk, given
    a boot block and this file first, writes a disk from which the boot loader
    jumps to the file's entry point with every segment of the file in memory at
    its virtual address, followed by zeros up to its memory size. *)
Theorem bootdisk_boots files mfuel boot_block k args ws d f
    {D : Type} `{HB : PortBus D} `{HA : !AtaDisk D (mem_of 0 (MkBootDisk.content d))} fuel (s : machine D) :
  boot_block ≠ str "-p" → boot_block ≠ str "-m" → MkBootDisk.WFail ∉ ws →
  MkBootDisk.skip_arg k = None → files k = Some f →
  MkBootDisk.main files mfuel (boot_block :: k :: args) (MkBootDisk.stdout ws) = (MkBootDisk.Val 0, d) →
  bootable_file f → (ata_limit < fuel)%nat → idle (mem_of 0 (MkBootDisk.content d)) s →
  let eh := kernel_header (mem_of 512 f) in
  ∃ s', boot fuel s = Ret (e_entry eh) s' ∧
    ∀ i, 0 ≤ i < e_phnum eh → in_memory f (kernel_program (mem_of 512 f) i) (memory s').
Proof. apply bootdisk_ok. Qed.

(** The executable of Boot.v as a file. *)
Definition ex_file : list Z := (λ o, rd ex_kernel (512 + o)) <$> iota 0 (Z.to_nat 0x1403).
Definition ex_disk_files (name : list Z) : option (list Z) :=
  if bool_decide (name = str "boot") then Some (replicate 300 7)
  else if bool_decide (name = str "kernel") then Some ex_file else None.

Lemma ex_file_bootable : bootable_file ex_file.
Proof.
  assert (kernel_header (mem_of 512 ex_file) = ElfHeader ELF_MAGIC 0x40010 64 2) as Hh by (by vm_compute).
  assert (kernel_program (mem_of 512 ex_file) 0 = ElfProgram 0 0 0x1010 0x40010 0 600 620 0) as H0 by (by vm_compute).
  assert (kernel_program (mem_of 512 ex_file) 1 = ElfProgram 0 0 0x1400 0x41000 0 3 3 0) as H1 by (by vm_compute).
  assert (zlen ex_file = 0x1403) as Hlen by (by vm_compute).
  split; [by apply ex_bootable|by rewrite Hlen|by rewrite Hh, Hlen|].
  intros i Hi. rewrite Hh in Hi. cbn in Hi.
  assert (i = 0 ∨ i = 1) as [-> | ->] by lia; rewrite ?H0, ?H1, Hlen; cbn; lia.
Qed.

Lemma ex_disk_image : ∃ img, MkBootDisk.image ex_disk_files (str "boot") [str "kernel"] = Some img.
Proof.
  unfold MkBootDisk.image. change (ex_disk_files (str "boot")) with (Some (replicate 300 7)).
  cbn [mbind option_bind]. change (510 <? MkBootDisk.zlen (replicate 300 7)) with false. cbv iota.
  cbn [MkBootDisk.image_args]. change (MkBootDisk.skip_arg (str "kernel")) with (@None Z).
  change (ex_disk_files (str "kernel")) with (Some ex_file). cbn [mbind option_bind]. by eexists.
Qed.

Lemma bootdisk_boots_witness :
  ∃ d (s' : machine pio_disk),
    MkBootDisk.main ex_disk_files 1 [str "boot"; str "kernel"] (MkBootDisk.stdout [MkBootDisk.WPart 100]) =
      (MkBootDisk.Val 0, d) ∧
    boot (H := pio_bus (mem_of 0 (MkBootDisk.content d))) 2 ex_boot =
      Ret (e_entry (kernel_header (mem_of 512 ex_file))) s' ∧
    rd (memory s') 0x41002 = 3.
Proof.
  assert (MkBootDisk.WFail ∉ [MkBootDisk.WPart 100]) as Hw
    by (apply not_elem_of_cons; split; [done|apply not_elem_of_nil]).
  pose proof (MkBootDisk.main_writes_image ex_disk_files 1 (str "boot") [str "kernel"] [MkBootDisk.WPart 100]
    ltac:(done) ltac:(done) Hw) as Hd.
  destruct ex_disk_image as [img Ei]. rewrite Ei in Hd. destruct Hd as (d & Hd & _). exists d.
  assert (kernel_header (mem_of 512 ex_file) = ElfHeader ELF_MAGIC 0x40010 64 2) as Hh by (by vm_compute).
  assert (kernel_program (mem_of 512 ex_file) 1 = ElfProgram 0 0 0x1400 0x41000 0 3 3 0) as H1 by (by vm_compute).
  destruct (bootdisk_boots ex_disk_files 1 (str "boot") (str "kernel") [] [MkBootDisk.WPart 100] d ex_file
    (HB := pio_bus (mem_of 0 (MkBootDisk.content d))) (HA := pio_ata (mem_of 0 (MkBootDisk.content d))) 2 ex_boot)
    as (s' & E & Hs); [done|done|exact Hw|done|by vm_compute|exact Hd|apply ex_file_bootable|cbn; lia|done|].
  exists s'. split; [exact Hd|]. split; [exact E|].
  destruct (Hs 1) as [Hfile _]; [rewrite Hh; cbn; lia|]. rewrite H1 in Hfile.
  destruct (Hfile 2) as (c & Hc & Hm); [cbn; lia|].
  assert (ex_file !! Z.to_nat (0x1400 + 2) = Some 3) as Hx by (by vm_compute).
  cbn [p_offset] in Hc. rewrite Hx in Hc. injection Hc as <-. exact Hm.
Defined.
