(* ===== verification/Startup.v ===== *)
(** * From the disk builder to user mode

    Composes BootDisk.v and KernelStart.v: the disk that mkbootdisk writes from a
    kernel file boots, and the kernel that the boot loader has put in memory
    starts its processes from the program images in that file.

    The kernel's static data are fields of the machine in this development, so
    the state in which [kernel] is called is any machine with the memory the boot
    loader left and with static data at their initial values ([power_on]).
    bootstart.S and the entry code of k-exception.S, which lie before and between
    the two, are not modelled. *)
From stdpp Require Import base tactics numbers list gmap relations.
From Stdlib Require Import ZArith Lia.
From S2P Require Import Prelude Mem LibStr Printf VM KTables Machine Hardware Keyboard Wp Pages Loader Boot Kernel KernelInv KernelSafe KernelStart BootDisk.
From S2P Require MkBootDisk.

(** ** Images that agree *)

Lemma headers_agree (P : Z → Prop) m m' n ph :
  agree P m m' → (∀ b, ph ≤ b < ph + sizeof_elf_program * Z.of_nat n → P b) → headers n m' ph = headers n m ph.
Proof.
  change sizeof_elf_program with 56. intros Ha. revert ph.
  induction n as [|n IH]; intros ph HP; cbn [headers]; [done|]. f_equal.
  - apply (read_program_agree P); [done|]. change sizeof_elf_program with 56. intros b Hb. apply HP. lia.
  - change sizeof_elf_program with 56. apply IH. intros b Hb. apply HP. lia.
Qed.

(** An image is its bytes. *)
Definition in_image (img : ramimage) (b : Z) : Prop := img_begin img ≤ b < img_end img.

Lemma image_headers_agree m m' sy img pid :
  image_ok sy m img pid → agree (in_image img) m m' →
  read_header m' (img_begin img) = read_header m (img_begin img) ∧ image_headers m' img = image_headers m img.
Proof.
  intros [H0 Hs _ _ Hh _ _] Ha.
  assert (read_header m' (img_begin img) = read_header m (img_begin img)) as E.
  { apply (read_header_agree (in_image img)); [done|]. unfold in_image. lia. }
  split; [done|]. unfold image_headers. rewrite E. apply (headers_agree (in_image img)); [done|].
  pose proof (ldn_range 8 m (img_begin img + 0x20)). pose proof (ldn_range 2 m (img_begin img + 0x38)).
  change (ldn 8 m (img_begin img + 0x20)) with (e_phoff (read_header m (img_begin img))) in *.
  change (ldn 2 m (img_begin img + 0x38)) with (e_phnum (read_header m (img_begin img))) in *.
  intros b Hb. unfold in_image. rewrite Z2Nat.id in Hb by lia. lia.
Qed.

Lemma image_ok_agree sy m m' img pid :
  agree (in_image img) m m' → image_ok sy m img pid → image_ok sy m' img pid.
Proof.
  intros Ha Hok. destruct (image_headers_agree m m' sy img pid Hok Ha) as [E1 E2].
  destruct Hok. split; rewrite ?E1, ?E2; done.
Qed.

(** The segments of the kernel file [f] contain the program images that [command]
    asks for: whenever they are in memory, [l] lists the processes with their
    images. *)
Definition holds_images (f : list Z) cfg ramimages command l : Prop :=
  ∀ m, (∀ i, 0 ≤ i < e_phnum (kernel_header (mem_of 512 f)) → in_memory f (kernel_program (mem_of 512 f) i) m) →
    images_for cfg ramimages m (setups cfg command) l.

(** ** Properties *)

(** C4. From the disk builder to user mode.  mkbootdisk is given a boot block and a
    kernel file whose segments contain the program images; the boot loader,
    started from the disk it writes, jumps to the kernel's entry point; and
    [kernel], called in the memory it has left, reaches user mode in process 1,
    with every process of the boot command ready at the entry point of its
    program and its segments in memory, and with the kernel invariant, which then
    holds for as long as user code does not store into the kernel's own memory. *)
Theorem disk_to_user_mode files mfuel boot_block k args ws d f
    {D : Type} `{HB : PortBus D} `{HA : !AtaDisk D (mem_of 0 (MkBootDisk.content d))} fuel (s : machine D)
    cfg ramimages command l img :
  boot_block ≠ str "-p" → boot_block ≠ str "-m" → MkBootDisk.WFail ∉ ws →
  MkBootDisk.skip_arg k = None → files k = Some f →
  MkBootDisk.main files mfuel (boot_block :: k :: args) (MkBootDisk.stdout ws) = (MkBootDisk.Val 0, d) →
  bootable_file f → (ata_limit < fuel)%nat → idle (mem_of 0 (MkBootDisk.content d)) s →
  let eh := kernel_header (mem_of 512 f) in
  config_ok cfg → (1, img) ∈ l → holds_images f cfg ramimages command l →
  ∃ s', boot fuel s = Ret (e_entry eh) s' ∧
    ∀ s1, memory s1 = memory s' → power_on s1 →
    ∃ s2, kernel cfg ramimages command s1 =
        Halt (Resume (p_registers (ready_proc (syms cfg) (memory s') img 1))) s2 ∧
      current s2 = 1 ∧ in_user cfg s2 ∧
      (∀ pid img', (pid, img') ∈ l →
        zget (processes s2) pid = Some (ready_proc (syms cfg) (memory s') img' pid) ∧
        image_loaded (memory s') (memory s2) img') ∧
      ∀ spin s3, rtc (tame_step cfg spin) s2 s3 → in_user cfg s3.
Proof.
  intros Hp Hm Hw Hk Hf Hmain Hb Hfuel Hidle eh Hcfg Hin Himg.
  destruct (bootdisk_ok files mfuel boot_block k args ws d f fuel s) as (s' & E & Hl); [done..|].
  exists s'. split; [exact E|]. intros s1 Em Hpo. specialize (Himg (memory s') Hl). rewrite <- Em in Himg |- *.
  destruct (kernel_starts_ok cfg ramimages command l img s1 Hcfg Hpo Himg Hin)
    as (s2 & E2 & Hc & Hu & Hr & _ & Hsteps).
  exists s2. split_and!; [exact E2|done|exact Hu| |].
  - intros pid img' Hi. by destruct (Hr pid img' Hi) as (? & ? & _).
  - intros spin s3 Hs. by apply (Hsteps spin s3).
Qed.

(** ** An example disk

    The kernel file has one segment, which holds the four program images. *)
Definition ex_system : list Z :=
  le_bytes 4 ELF_MAGIC ++ replicate 20 0 ++ le_bytes 8 0x5E200 ++ le_bytes 8 64 ++ replicate 16 0 ++
  le_bytes 2 1 ++ replicate 6 0 ++ ex_elf_program ELF_PTYPE_LOAD 512 0x5E200 0x800 0x800 ++ replicate 392 0 ++
  concat ((λ pid, ex_elf pid ++ replicate 332 0) <$> [1; 2; 3; 4]).

Definition ex_system_files (name : list Z) : option (list Z) :=
  if bool_decide (name = str "boot") then Some (replicate 300 7)
  else if bool_decide (name = str "kernel") then Some ex_system else None.

Definition ex_segment_header : elf_program :=
  ElfProgram ELF_PTYPE_LOAD 5 512 0x5E200 0x5E200 0x800 0x800 4096.

Lemma ex_system_header : kernel_header (mem_of 512 ex_system) = ElfHeader ELF_MAGIC 0x5E200 64 1.
Proof. by vm_compute. Qed.

Lemma ex_system_program : kernel_program (mem_of 512 ex_system) 0 = ex_segment_header.
Proof. by vm_compute. Qed.

Lemma ex_system_bootable : bootable_file ex_system.
Proof.
  assert (zlen ex_system = 0xA00) as Hlen by (by vm_compute).
  assert (∀ a, extent ex_segment_header a ↔ 0x5E200 ≤ a < 0x5EA00) as Hext.
  { intros a. unfold extent, in_extent. cbn [p_va p_filesz p_memsz ex_segment_header].
    change (seg_start 0x5E200) with 0x5E200. change (seg_sectors 0x5E200 0x800) with 4. lia. }
  split; [|by rewrite Hlen|by rewrite ex_system_header, Hlen|].
  - split; rewrite ?ex_system_header; cbn [e_magic e_phoff e_phnum]; [done|done| |intros i j a Hij Hj; lia].
    intros i Hi. assert (i = 0) as -> by lia. rewrite ex_system_program. split; [done..|].
    intros a Ha%Hext. unfold scratch. change ELFHDR with 0x10000. change PAGESIZE with 4096. lia.
  - intros i Hi. rewrite ex_system_header in Hi. cbn in Hi. assert (i = 0) as -> by lia.
    by rewrite ex_system_program, Hlen.
Qed.

(** The images in the file are those of the example machine. *)
Lemma ex_system_images m : in_memory ex_system ex_segment_header m →
  images_for ex_cfg ex_images m (setups ex_cfg None) ((λ i, (i, ex_image i)) <$> [1; 2; 3; 4]).
Proof.
  intros [Hf _]. change (p_filesz ex_segment_header) with 0x800 in Hf.
  change (p_offset ex_segment_header) with 512 in Hf. change (p_va ex_segment_header) with 0x5E200 in Hf.
  assert (Forall (λ j, rd ex_boot_memory (0x5E200 + j) = u8 (default 0 (ex_system !! Z.to_nat (512 + j)))) (iota 0 0x800)) as Hall
    by (apply (bool_decide_unpack _); by vm_compute).
  rewrite list.Forall_forall in Hall.
  assert (∀ pid, pid ∈ [1; 2; 3; 4] → agree (in_image (ex_image pid)) ex_boot_memory m) as Ha.
  { intros pid Hpid b Hb. unfold in_image in Hb. cbn [img_begin img_end ex_image] in Hb.
    assert (1 ≤ pid ≤ 4) by (rewrite !elem_of_cons in Hpid; destruct Hpid as [->|[->|[->|[->|[]%elem_of_nil]]]]; lia).
    specialize (Hall (b - 0x5E200) ltac:(apply elem_of_iota; lia)).
    destruct (Hf (b - 0x5E200)) as (c & Hc & Hm); [lia|]. rewrite Hc in Hall.
    replace (0x5E200 + (b - 0x5E200)) with b in * by lia. by rewrite Hm, Hall. }
  apply ex_images_for_memory. intros pid Hpid. eapply image_ok_agree; [by apply Ha|by apply ex_image_ok].
Qed.

Lemma ex_system_image : ∃ img, MkBootDisk.image ex_system_files (str "boot") [str "kernel"] = Some img.
Proof.
  unfold MkBootDisk.image. change (ex_system_files (str "boot")) with (Some (replicate 300 7)).
  cbn [mbind option_bind]. change (510 <? MkBootDisk.zlen (replicate 300 7)) with false. cbv iota.
  cbn [MkBootDisk.image_args]. change (MkBootDisk.skip_arg (str "kernel")) with (@None Z).
  change (ex_system_files (str "kernel")) with (Some ex_system). cbn [mbind option_bind]. by eexists.
Qed.

(** The machine that enters [kernel] with the memory and the devices of [s]. *)
Definition kernel_entry {D} (s : machine D) : machine D :=
  Machine (dev s) (memory s) (replicate 2000 0) 0
    (Cpu [] [] 0 (PseudoDescriptor 0 0) (PseudoDescriptor 0 0) 0 0 0 0)
    0 0 0 0 [] 0 0 (replicate 512 (PageInfo 0 0)) 0 1.

Lemma kernel_entry_power_on {D} (s : machine D) : power_on (kernel_entry s).
Proof.
  split; [split|by vm_compute|done]; [by vm_compute|].
  change (kbd_ok (0, 0)). split; cbn; [lia|by left].
Qed.

Lemma disk_to_user_mode_witness :
  ∃ d (s' s2 : machine pio_disk),
    MkBootDisk.main ex_system_files 1 [str "boot"; str "kernel"] (MkBootDisk.stdout [MkBootDisk.WPart 100]) =
      (MkBootDisk.Val 0, d) ∧
    boot (H := pio_bus (mem_of 0 (MkBootDisk.content d))) 2 ex_boot =
      Ret (e_entry (kernel_header (mem_of 512 ex_system))) s' ∧
    kernel (H := pio_bus (mem_of 0 (MkBootDisk.content d))) ex_cfg ex_images None (kernel_entry s') =
      Halt (Resume (p_registers (ready_proc ex_symbols (memory s') (ex_image 1) 1))) s2 ∧
    current s2 = 1.
Proof.
  assert (MkBootDisk.WFail ∉ [MkBootDisk.WPart 100]) as Hw
    by (apply not_elem_of_cons; split; [done|apply not_elem_of_nil]).
  pose proof (MkBootDisk.main_writes_image ex_system_files 1 (str "boot") [str "kernel"] [MkBootDisk.WPart 100]
    ltac:(done) ltac:(done) Hw) as Hd.
  destruct ex_system_image as [img Ei]. rewrite Ei in Hd. destruct Hd as (d & Hd & _). exists d.
  destruct (disk_to_user_mode ex_system_files 1 (str "boot") (str "kernel") [] [MkBootDisk.WPart 100] d ex_system
    (HB := pio_bus (mem_of 0 (MkBootDisk.content d))) (HA := pio_ata (mem_of 0 (MkBootDisk.content d))) 2 ex_boot
    ex_cfg ex_images None ((λ i, (i, ex_image i)) <$> [1; 2; 3; 4]) (ex_image 1))
    as (s' & E & Hk); [done|done|exact Hw|done|by vm_compute|exact Hd|apply ex_system_bootable|cbn; lia|done
      |apply ex_cfg_ok|apply elem_of_cons; by left| |].
  { intros m Hm. apply ex_system_images. rewrite <- ex_system_program. apply Hm. rewrite ex_system_header. cbn. lia. }
  destruct (Hk (kernel_entry s') eq_refl (kernel_entry_power_on s')) as (s2 & E2 & Hc & _).
  exists s', s2. split_and!; [exact Hd|exact E|exact E2|exact Hc].
Defined.
