(* ===== verification/Stencil.v ===== *)
(** * The inklings front end (C++ stencil)

    Models assignments/a4/a4_cpp/stencil_old: the ink tanks, start-up and
    shut-down of main.cpp, and the drawing, the keyboard commands and the event
    loop of ascii_art.cpp.

    The global variables are the record [stencil], the text written to
    [std::cout] is its last field, and a function is a state transformer that
    returns, exits the process, throws, or has undefined behaviour (signed
    overflow).  Memory allocation is taken to succeed.  The event loop is a step
    relation on the program counters of the threads it creates. *)
From stdpp Require Import base tactics numbers list option relations.
From Stdlib Require Import ZArith Lia.
From S2P Require Import Prelude CText.

(** ** Data *)

(** @src assignments/a4/a4_cpp/stencil_old/ascii_art.h 20-26 TravelDirection *)
Inductive TravelDirection := NORTH | WEST | SOUTH | EAST | NUM_TRAVEL_DIRECTIONS.

(** @src assignments/a4/a4_cpp/stencil_old/ascii_art.h 30-36 iconDirections
    UTF-8 encoded arrows. *)
Definition iconDirections (d : TravelDirection) : bytes :=
  match d with
  | NORTH => [0xE2; 0x86; 0x91]
  | WEST => [0xE2; 0x86; 0x90]
  | SOUTH => [0xE2; 0x86; 0x93]
  | EAST => [0xE2; 0x86; 0x92]
  | NUM_TRAVEL_DIRECTIONS => str " "
  end.

(** @src assignments/a4/a4_cpp/stencil_old/ascii_art.h 39-49 TextColor *)
Inductive TextColor := DEFAULT | BLACK | RED | GREEN | YELLOW | BLUE | MAGENTA | CYAN | WHITE.
Definition TextColor_code (c : TextColor) : Z :=
  match c with
  | DEFAULT => 39 | BLACK => 30 | RED => 31 | GREEN => 32 | YELLOW => 33
  | BLUE => 34 | MAGENTA => 35 | CYAN => 36 | WHITE => 37
  end.

(** @src assignments/a4/a4_cpp/stencil_old/ascii_art.h 51-56 InklingType *)
Inductive InklingType := RED_TRAV | GREEN_TRAV | BLUE_TRAV | NUM_TRAV_TYPES.

(** @src assignments/a4/a4_cpp/stencil_old/ascii_art.h 59-68 InklingInfo *)
Record InklingInfo := MkInkling {
  type : InklingType;
  row : Z;
  col : Z;
  dir : TravelDirection;
  isLive : bool
}.

(** @src assignments/a4/a4_cpp/stencil_old/main.cpp 63-66 MAX_LEVEL *)
Definition MAX_LEVEL : Z := 50.
Definition MAX_ADD_INK : Z := 10.
(** @src assignments/a4/a4_cpp/stencil_old/main.cpp 78-78 MIN_SLEEP_TIME *)
Definition MIN_SLEEP_TIME : Z := 30000.

(** @src assignments/a4/a4_cpp/stencil_old/main.cpp 50-82 redLevel
    The global variables; [grid] is [None] until it is allocated, a cell of it
    until it is assigned, and [frontend] tells whether the callbacks are set. *)
Record stencil := MkStencil {
  grid : option (list (list (option Z)));
  NUM_ROWS : Z;
  NUM_COLS : Z;
  MAX_NUM_TRAVELER_THREADS : Z;
  numLiveThreads : Z;
  info : list InklingInfo;
  redLevel : Z;
  greenLevel : Z;
  blueLevel : Z;
  producerSleepTime : Z;
  inklingSleepTime : Z;
  frontend : bool;
  numPipesOpen : Z;
  pipe_fd : Z;
  cout : bytes
}.

(** @src assignments/a4/a4_cpp/stencil_old/main.cpp 50-82 redLevel
    Their initial values. *)
Definition initial : stencil := MkStencil None 0 0 0 0 [] 20 10 40 100000 1000000 false 0 0 [].

Definition set_grid v (s : stencil) := MkStencil v (NUM_ROWS s) (NUM_COLS s) (MAX_NUM_TRAVELER_THREADS s) (numLiveThreads s) (info s) (redLevel s) (greenLevel s) (blueLevel s) (producerSleepTime s) (inklingSleepTime s) (frontend s) (numPipesOpen s) (pipe_fd s) (cout s).
Definition set_size r c n l (s : stencil) := MkStencil (grid s) r c n l (info s) (redLevel s) (greenLevel s) (blueLevel s) (producerSleepTime s) (inklingSleepTime s) (frontend s) (numPipesOpen s) (pipe_fd s) (cout s).
Definition set_info v (s : stencil) := MkStencil (grid s) (NUM_ROWS s) (NUM_COLS s) (MAX_NUM_TRAVELER_THREADS s) (numLiveThreads s) v (redLevel s) (greenLevel s) (blueLevel s) (producerSleepTime s) (inklingSleepTime s) (frontend s) (numPipesOpen s) (pipe_fd s) (cout s).
Definition set_levels r g b (s : stencil) := MkStencil (grid s) (NUM_ROWS s) (NUM_COLS s) (MAX_NUM_TRAVELER_THREADS s) (numLiveThreads s) (info s) r g b (producerSleepTime s) (inklingSleepTime s) (frontend s) (numPipesOpen s) (pipe_fd s) (cout s).
Definition set_times p i (s : stencil) := MkStencil (grid s) (NUM_ROWS s) (NUM_COLS s) (MAX_NUM_TRAVELER_THREADS s) (numLiveThreads s) (info s) (redLevel s) (greenLevel s) (blueLevel s) p i (frontend s) (numPipesOpen s) (pipe_fd s) (cout s).
Definition set_pipe n fd (s : stencil) := MkStencil (grid s) (NUM_ROWS s) (NUM_COLS s) (MAX_NUM_TRAVELER_THREADS s) (numLiveThreads s) (info s) (redLevel s) (greenLevel s) (blueLevel s) (producerSleepTime s) (inklingSleepTime s) (frontend s) n fd (cout s).
Definition set_frontend v (s : stencil) := MkStencil (grid s) (NUM_ROWS s) (NUM_COLS s) (MAX_NUM_TRAVELER_THREADS s) (numLiveThreads s) (info s) (redLevel s) (greenLevel s) (blueLevel s) (producerSleepTime s) (inklingSleepTime s) v (numPipesOpen s) (pipe_fd s) (cout s).
Definition put v (s : stencil) := MkStencil (grid s) (NUM_ROWS s) (NUM_COLS s) (MAX_NUM_TRAVELER_THREADS s) (numLiveThreads s) (info s) (redLevel s) (greenLevel s) (blueLevel s) (producerSleepTime s) (inklingSleepTime s) (frontend s) (numPipesOpen s) (pipe_fd s) (cout s ++ v).

(** ** Control *)
Inductive result (A : Type) := Val (a : A) | Exit (code : Z) | Throw | Undefined.
Arguments Val {A} a.
Arguments Exit {A} code.
Arguments Throw {A}.
Arguments Undefined {A}.

Definition M (A : Type) : Type := stencil → result A * stencil.
#[export] Instance M_ret : MRet M := λ A a s, (Val a, s).
#[export] Instance M_bind : MBind M := λ A B k m s,
  match m s with
  | (Val a, s) => k a s
  | (Exit c, s) => (Exit c, s)
  | (Throw, s) => (Throw, s)
  | (Undefined, s) => (Undefined, s)
  end.
Definition get {A} (f : stencil → A) : M A := λ s, (Val (f s), s).
Definition modify (f : stencil → stencil) : M unit := λ s, (Val tt, f s).
Definition fail {A} (r : result A) : M A := λ s, (r, s).
(** An int result: undefined on signed overflow. *)
Definition int_ (z : Z) : M Z := if decide (int_ok z) then mret z else fail Undefined.
Definition of_throw {A} (o : option A) : M A := match o with Some a => mret a | None => fail Throw end.

(** [std::stoi]: throws when there is no number or it is not an int. *)
Definition stoi (l : bytes) : option Z :=
  match skip_space l with
  | [] => None
  | c :: l =>
      let '(sign, d) := if c =? 45 then (-1, l) else if c =? 43 then (1, l) else (1, c :: l) in
      match d with
      | c :: _ => if isdigit c then
                    let v := sign * digits_value 0 d in if decide (int_ok v) then Some v else None
                  else None
      | [] => None
      end
  end.

(** ** Printing *)

(** An argument of the variadic [print] and [printCell]. *)
Inductive item := Color (c : TextColor) | Text (t : bytes) | Int (z : Z).

(** @src assignments/a4/a4_cpp/stencil_old/ascii_art.cpp 80-82 setTextColor *)
Definition setTextColor (c : TextColor) : bytes := 27 :: str "[" ++ show_int (TextColor_code c) ++ str "m".
(** @src assignments/a4/a4_cpp/stencil_old/ascii_art.cpp 85-87 resetTextColor *)
Definition resetTextColor : bytes := setTextColor DEFAULT.
Definition endl : bytes := [10].

(** @src assignments/a4/a4_cpp/stencil_old/ascii_art.cpp 90-104 print *)
Fixpoint print (l : list item) : bytes :=
  match l with
  | [] => resetTextColor ++ endl
  | first :: rest =>
      (match first with Color c => setTextColor c | Text t => t | Int z => show_int z end) ++ print rest
  end.

(** @src assignments/a4/a4_cpp/stencil_old/ascii_art.cpp 107-120 printCell *)
Fixpoint printCell (l : list item) : bytes :=
  match l with
  | [] => resetTextColor
  | first :: rest =>
      (match first with Color c => setTextColor c | Text t => t | Int z => show_int z end) ++ printCell rest
  end.

(** @src assignments/a4/a4_cpp/stencil_old/ascii_art.cpp 122-133 clearTerminal *)
Definition clearTerminal : bytes := 27 :: str "[H" ++ 27 :: str "[J".

(** @src assignments/a4/a4_cpp/stencil_old/ascii_art.cpp 145-164 drawGridAndInklingsASCII
    The loop over the inklings in a cell: what it prints, and [inklingFound]. *)
Fixpoint draw_inklings (r c : Z) (l : list InklingInfo) (inklingFound : bool) : bytes * bool :=
  match l with
  | [] => ([], inklingFound)
  | inkling :: l =>
      let '(out, found) :=
        if isLive inkling then
          if (r =? row inkling) && (c =? col inkling) then
            match type inkling with
            | RED_TRAV => (printCell [Color RED; Text (str "["); Text (iconDirections (dir inkling)); Text (str "]")], true)
            | GREEN_TRAV => (printCell [Color GREEN; Text (str "["); Text (iconDirections (dir inkling)); Text (str "]")], true)
            | BLUE_TRAV => (printCell [Color BLUE; Text (str "["); Text (iconDirections (dir inkling)); Text (str "]")], true)
            | NUM_TRAV_TYPES => ([], inklingFound)
            end
          else ([], inklingFound)
        else ([], inklingFound) in
      let '(out', found) := draw_inklings r c l found in (out ++ out', found)
  end.

(** @src assignments/a4/a4_cpp/stencil_old/ascii_art.cpp 142-168 drawGridAndInklingsASCII
    One cell. *)
Definition draw_cell (inklingList : list InklingInfo) (r c : Z) : bytes :=
  let '(out, found) := draw_inklings r c inklingList false in
  if negb found then out ++ printCell [Color BLACK; Text (str "[ ]")] else out.

(** @src assignments/a4/a4_cpp/stencil_old/ascii_art.cpp 139-174 drawGridAndInklingsASCII *)
Definition drawGridAndInklingsASCII (numRows numCols : Z) (inklingList : list InklingInfo) : bytes :=
  mjoin ((λ r, mjoin ((λ c, draw_cell inklingList r c) <$> iota 0 (Z.to_nat numCols)) ++ endl)
           <$> iota 0 (Z.to_nat numRows)).

(** ** Ink and speed *)

(** @src assignments/a4/a4_cpp/stencil_old/main.cpp 115-123 acquireRedInk *)
Definition acquireRedInk (theRed : Z) : M bool :=
  v ← get redLevel;
  if v >=? theRed then
    v ← int_ (v - theRed);
    modify (λ s, set_levels v (greenLevel s) (blueLevel s) s);; mret true
  else mret false.

(** @src assignments/a4/a4_cpp/stencil_old/main.cpp 125-133 acquireGreenInk *)
Definition acquireGreenInk (theGreen : Z) : M bool :=
  v ← get greenLevel;
  if v >=? theGreen then
    v ← int_ (v - theGreen);
    modify (λ s, set_levels (redLevel s) v (blueLevel s) s);; mret true
  else mret false.

(** @src assignments/a4/a4_cpp/stencil_old/main.cpp 135-143 acquireBlueInk *)
Definition acquireBlueInk (theBlue : Z) : M bool :=
  v ← get blueLevel;
  if v >=? theBlue then
    v ← int_ (v - theBlue);
    modify (λ s, set_levels (redLevel s) (greenLevel s) v s);; mret true
  else mret false.

(** @src assignments/a4/a4_cpp/stencil_old/main.cpp 152-160 refillRedInk *)
Definition refillRedInk (theRed : Z) : M bool :=
  v ← get redLevel;
  v ← int_ (v + theRed);
  if v <=? MAX_LEVEL then modify (λ s, set_levels v (greenLevel s) (blueLevel s) s);; mret true
  else mret false.

(** @src assignments/a4/a4_cpp/stencil_old/main.cpp 162-170 refillGreenInk *)
Definition refillGreenInk (theGreen : Z) : M bool :=
  v ← get greenLevel;
  v ← int_ (v + theGreen);
  if v <=? MAX_LEVEL then modify (λ s, set_levels (redLevel s) v (blueLevel s) s);; mret true
  else mret false.

(** @src assignments/a4/a4_cpp/stencil_old/main.cpp 172-180 refillBlueInk *)
Definition refillBlueInk (theBlue : Z) : M bool :=
  v ← get blueLevel;
  v ← int_ (v + theBlue);
  if v <=? MAX_LEVEL then modify (λ s, set_levels (redLevel s) (greenLevel s) v s);; mret true
  else mret false.

(** @src assignments/a4/a4_cpp/stencil_old/main.cpp 186-193 speedupProducers *)
Definition speedupProducers : M unit :=
  p ← get producerSleepTime;
  p8 ← int_ (8 * p);
  let newSleepTime := p8 ÷ 10 in
  if newSleepTime >? MIN_SLEEP_TIME then modify (λ s, set_times newSleepTime (inklingSleepTime s) s)
  else mret tt.

(** @src assignments/a4/a4_cpp/stencil_old/main.cpp 195-198 slowdownProducers *)
Definition slowdownProducers : M unit :=
  p ← get producerSleepTime;
  p12 ← int_ (12 * p);
  modify (λ s, set_times (p12 ÷ 10) (inklingSleepTime s) s).

(** @src assignments/a4/a4_cpp/stencil_old/main.cpp 257-269 cleanupAndQuit
    Freeing the rows of a grid that was never allocated is undefined. *)
Definition cleanupAndQuit {A} (msg : bytes) : M A :=
  modify (put (str "Somebody called quits, goodbye sweet digital world, this was their message: " ++ [10] ++ msg));;
  g ← get grid;
  n ← get NUM_ROWS;
  match g with
  | None => if 0 <? n then fail Undefined else fail (Exit 0)
  | Some _ => modify (set_grid None);; fail (Exit 0)
  end.

(** ** The panes *)

(** @src assignments/a4/a4_cpp/stencil_old/main.cpp 91-98 displayGridPane *)
Definition displayGridPane : M unit :=
  modify (λ s, put (drawGridAndInklingsASCII (NUM_ROWS s) (NUM_COLS s) (info s)) s).

(** @src assignments/a4/a4_cpp/stencil_old/ascii_art.cpp 181-193 drawState *)
Definition drawState (numLiveThreads redLevel greenLevel blueLevel : Z) : M unit :=
  modify (put (print [Color BLACK; Text (str "Ink Tank Levels, the MAX is: "); Int MAX_LEVEL]));;
  modify (put (print [Color RED; Text (str "Red: "); Int redLevel; Color GREEN; Text (str " Green: ");
                      Int greenLevel; Color BLUE; Text (str " Blue: "); Int blueLevel]));;
  modify (put (print [Text (str "Live Threads: "); Int numLiveThreads]));;
  modify (put (print []));;
  if numLiveThreads =? 0 then cleanupAndQuit (str "drawState callint it quits, no threads left...")
  else mret tt.

(** @src assignments/a4/a4_cpp/stencil_old/main.cpp 100-107 displayStatePane *)
Definition displayStatePane : M unit :=
  n ← get numLiveThreads; r ← get redLevel; g ← get greenLevel; b ← get blueLevel;
  drawState n r g b.

(** @src assignments/a4/a4_cpp/stencil_old/ascii_art.cpp 195-205 updateTerminal
    Nothing in it throws; a callback that is not set is undefined. *)
Definition updateTerminal : M unit :=
  modify (put clearTerminal);;
  f ← get frontend;
  if f : bool then displayGridPane;; displayStatePane else fail Undefined.

(** @src assignments/a4/a4_cpp/stencil_old/ascii_art.cpp 369-374 initializeFrontEnd *)
Definition initializeFrontEnd : M unit := modify (set_frontend true);; updateTerminal.

(** @src assignments/a4/a4_cpp/stencil_old/ascii_art.cpp 239-297 myKeyboard
    [c] is the unsigned char; whether a refill succeeded is not used. *)
Definition myKeyboard (c : Z) : M unit :=
  if c =? 27 then cleanupAndQuit (str "I see you pressed ESC, game over...")
  else if c =? chr "<" then slowdownProducers
  else if c =? chr ">" then speedupProducers
  else if c =? chr "r" then _ ← refillRedInk MAX_ADD_INK; mret tt
  else if c =? chr "+" then
    i ← get inklingSleepTime;
    d ← int_ (i - 100000);
    if d >? 0 then modify (λ s, set_times (producerSleepTime s) d s) else mret tt
  else if c =? chr "-" then
    i ← get inklingSleepTime;
    d ← int_ (i + 100000);
    if d <? 2147483647 then modify (λ s, set_times (producerSleepTime s) d s) else mret tt
  else if c =? chr "g" then _ ← refillGreenInk MAX_ADD_INK; mret tt
  else if c =? chr "b" then _ ← refillBlueInk MAX_ADD_INK; mret tt
  else mret tt.

(** The local flags of the terminal (c_lflag, an unsigned int), as on Linux. *)
Definition ICANON : Z := 2.
Definition ECHO : Z := 8.

(** @src assignments/a4/a4_cpp/stencil_old/ascii_art.cpp 211-216 enableRawMode *)
Definition enableRawMode (c_lflag : Z) : Z := Z.land c_lflag (u32 (Z.lnot (Z.lor ICANON ECHO))).

(** @src assignments/a4/a4_cpp/stencil_old/ascii_art.cpp 218-223 disableRawMode *)
Definition disableRawMode (c_lflag : Z) : Z := Z.lor c_lflag (Z.lor ICANON ECHO).

(** @src assignments/a4/a4_cpp/stencil_old/ascii_art.cpp 226-236 keyListener
    The flags, and what [std::cin.get] returns, -1 at the end of the input. *)
Definition keyListener (c_lflag c : Z) (s : stencil) : result unit * Z * stencil :=
  let raw := enableRawMode c_lflag in
  match myKeyboard (u8 c) s with
  | (Val tt, s) => (Val tt, disableRawMode raw, s)
  | (r, s) => (r, raw, s)
  end.

(** @src assignments/a4/a4_cpp/stencil_old/ascii_art.cpp 345-366 myEventLoop
    The pipe: whether its path exists, what [open] would return, and the byte
    [read] would deliver from it, if any. *)
Definition poll_pipe (exists_ : bool) (open_result : Z) (input : option Z) : M unit :=
  if exists_ then
    n ← get numPipesOpen;
    (if n =? 0 then modify (set_pipe (u32 (n + 1)) open_result) else mret tt);;
    fd ← get pipe_fd;
    if 0 <? fd then
      match input with Some command => myKeyboard (u8 command) | None => mret tt end
    else mret tt
  else mret tt.

(** ** Start *)

(** @src assignments/a4/a4_cpp/stencil_old/main.cpp 286-291 initializeApplication
    The loops that clear the cells of row [i]. *)
Definition fill_row (g : list (list (option Z))) (i cols : Z) : list (list (option Z)) :=
  foldl (λ g j, alter (λ r, <[Z.to_nat j := Some 0]> r) (Z.to_nat i) g) g (iota 0 (Z.to_nat cols)).

(** @src assignments/a4/a4_cpp/stencil_old/main.cpp 271-312 initializeApplication *)
Definition initializeApplication : M unit :=
  r ← get NUM_ROWS;
  c ← get NUM_COLS;
  let g := replicate (Z.to_nat r) (replicate (Z.to_nat c) None) in
  modify (set_grid (Some (foldl (λ g i, fill_row g i c) g (iota 0 (Z.to_nat r)))));;
  modify (λ s, set_info (info s ++ [MkInkling RED_TRAV 1 5 EAST true]) s).

(** @src assignments/a4/a4_cpp/stencil_old/main.cpp 207-213 main
    The arguments after the program's name; && evaluates from the left. *)
Definition use_args (a1 a2 a3 : bytes) : M unit :=
  r ← of_throw (stoi a1);
  if r >=? 20 then
    c ← of_throw (stoi a2);
    if c >=? 20 then
      n ← of_throw (stoi a3);
      if n >=? 8 then modify (set_size r c n n) else mret tt
    else mret tt
  else mret tt.

(** @src assignments/a4/a4_cpp/stencil_old/main.cpp 203-248 main
    Up to the call of the event loop ([Val 1]); [Val 0] is a return because of
    an exception, which the handlers turn into a message on [std::cerr]. *)
Definition main (args : list bytes) : M Z := λ s,
  match
    ((match args with
      | [a1; a2; a3] => use_args a1 a2 a3
      | _ =>
          modify (put (str "No arguments provided, running with 8x8 grid and 4 threads." ++ [10; 9] ++
            str "This message will dissapear in 2 seconds... " ++ [10]));;
          modify (put clearTerminal);;
          modify (set_size 8 8 4 4)
      end);;
     initializeFrontEnd;;
     initializeApplication;;
     mret 1) s
  with
  | (Throw, s) => (Val 0, s)
  | r => r
  end.

(** ** What the grid shows *)

(** The terminal columns of a text with colour sequences ESC [ n m: bytes of a
    sequence and continuation bytes of UTF-8 take none.  [esc] tells whether the
    text starts inside a sequence. *)
Fixpoint visible (esc : bool) (l : bytes) : nat :=
  match l with
  | [] => 0
  | c :: l =>
      if esc then visible (negb (c =? chr "m")) l
      else if c =? 27 then visible true l
      else ((if ((0x80 <=? c) && (c <? 0xC0))%Z then 0 else 1) + visible false l)%nat
  end.
Fixpoint esc_after (esc : bool) (l : bytes) : bool :=
  match l with
  | [] => esc
  | c :: l => esc_after (if esc then negb (c =? chr "m") else c =? 27) l
  end.

(** A text on one line that ends outside a colour sequence. *)
Definition in_line (l : bytes) : Prop := esc_after false l = false ∧ 10 ∉ l.

(** Does the inkling appear in this cell? *)
Definition drawn (r c : Z) (k : InklingInfo) : bool :=
  isLive k && (r =? row k) && (c =? col k) &&
  match type k with NUM_TRAV_TYPES => false | _ => true end.

Definition occupants (l : list InklingInfo) (r c : Z) : nat := length (filter (λ k, drawn r c k = true) l).

Definition type_color (t : InklingType) : TextColor :=
  match t with RED_TRAV => RED | GREEN_TRAV => GREEN | BLUE_TRAV => BLUE | NUM_TRAV_TYPES => BLACK end.
Definition inkling_cell (k : InklingInfo) : bytes :=
  setTextColor (type_color (type k)) ++ str "[" ++ iconDirections (dir k) ++ str "]" ++ resetTextColor.

(** The cell of the reference grid: the inkling in it, if any. *)
Definition cell_text (l : list InklingInfo) (r c : Z) : bytes :=
  match filter (λ k, drawn r c k = true) l with
  | k :: _ => inkling_cell k
  | [] => setTextColor BLACK ++ str "[ ]" ++ resetTextColor
  end.

Lemma visible_app a b : esc_after false a = false → visible false (a ++ b) = (visible false a + visible false b)%nat.
Proof.
  assert (∀ e, visible e (a ++ b) = (visible e a + visible (esc_after e a) b)%nat) as H.
  { induction a as [|x a IH]; intros e; cbn; [done|].
    destruct e; [apply IH|]. destruct (x =? 27); [apply IH|]. rewrite IH. lia. }
  intros E. by rewrite H, E.
Qed.

Lemma in_line_app a b : in_line a → in_line b → in_line (a ++ b).
Proof.
  intros [Ha1 Ha2] [Hb1 Hb2]. split; [|by intros [?|?]%elem_of_app].
  clear -Ha1 Hb1. revert Ha1. generalize false at 1 3. induction a as [|x a IH]; intros e; cbn; [by intros ->|apply IH].
Qed.

Lemma in_line_inkling k : in_line (inkling_cell k) ∧ visible false (inkling_cell k) = 3%nat.
Proof.
  unfold inkling_cell, in_line. destruct k as [t r c d l]. cbn [type dir].
  destruct t, d; (split; [split; [by vm_compute|by apply (bool_decide_unpack _); vm_compute]|by vm_compute]).
Qed.

Lemma draw_inklings_cons r c k l found :
  draw_inklings r c (k :: l) found =
    if drawn r c k then (λ '(out, f), (inkling_cell k ++ out, f)) (draw_inklings r c l true)
    else draw_inklings r c l found.
Proof.
  cbn [draw_inklings]. unfold drawn, inkling_cell. destruct k as [t row col d live]. cbn.
  destruct live, (r =? row), (c =? col), t; cbn [andb type_color]; destruct (draw_inklings r c l _);
    cbn [printCell]; rewrite ?app_nil_l, <- ?app_assoc; done.
Qed.

Lemma draw_inklings_spec r c l found :
  draw_inklings r c l found =
    (mjoin (inkling_cell <$> filter (λ k, drawn r c k = true) l),
     found || negb (Nat.eqb (occupants l r c) 0)).
Proof.
  unfold occupants. revert found. induction l as [|k l IH]; intros found; [by rewrite orb_false_r|].
  rewrite draw_inklings_cons. destruct (drawn r c k) eqn:Hk.
  - rewrite filter_cons_True by done. rewrite IH. cbn. by rewrite orb_true_r.
  - by rewrite filter_cons_False by congruence.
Qed.

(** Cells, then rows. *)
Lemma draw_cell_spec l r c :
  in_line (draw_cell l r c) ∧ visible false (draw_cell l r c) = (3 * Nat.max 1 (occupants l r c))%nat ∧
  ((occupants l r c ≤ 1)%nat → draw_cell l r c = cell_text l r c).
Proof.
  unfold draw_cell, cell_text. rewrite draw_inklings_spec. unfold occupants.
  generalize (filter (λ k, drawn r c k = true) l). intros ks. destruct ks as [|k ks].
  - cbn [length Nat.eqb negb orb mjoin fmap list_fmap list_join app].
    split_and!; [split; [by vm_compute|by apply (bool_decide_unpack _); vm_compute]|by vm_compute|done].
  - cbn [length Nat.eqb negb orb]. split_and!.
    + generalize (k :: ks). clear. intros ks. induction ks as [|k ks IH]; [by split; [|apply not_elem_of_nil]|].
      cbn [fmap list_fmap mjoin list_join]. apply in_line_app; [apply in_line_inkling|done].
    + assert (∀ ks, visible false (mjoin (inkling_cell <$> ks)) = (3 * length ks)%nat) as H.
      { clear. intros ks. induction ks as [|k ks IH]; [done|].
        change (mjoin (inkling_cell <$> k :: ks)) with (inkling_cell k ++ mjoin (inkling_cell <$> ks)).
        rewrite visible_app by apply in_line_inkling. rewrite IH, (proj2 (in_line_inkling k)). cbn [length]. lia. }
      rewrite H. cbn [length]. lia.
    + cbn [length]. intros. destruct ks; [|cbn in *; lia]. cbn. by rewrite app_nil_r.
Qed.

(** The rows of the grid. *)
Definition grid_row (l : list InklingInfo) (numCols r : Z) : bytes :=
  mjoin ((λ c, draw_cell l r c) <$> iota 0 (Z.to_nat numCols)).

Lemma grid_row_spec l r cs :
  in_line (mjoin ((λ c, draw_cell l r c) <$> cs)) ∧
  visible false (mjoin ((λ c, draw_cell l r c) <$> cs)) =
    foldr (λ c n, (3 * Nat.max 1 (occupants l r c) + n)%nat) 0%nat cs ∧
  ((∀ c, c ∈ cs → (occupants l r c ≤ 1)%nat) →
     mjoin ((λ c, draw_cell l r c) <$> cs) = mjoin (cell_text l r <$> cs)).
Proof.
  induction cs as [|c cs (IH1 & IH2 & IH3)]; [by split_and!; [split; [|apply not_elem_of_nil]|..]|].
  change (mjoin (?f <$> c :: cs)) with (f c ++ mjoin (f <$> cs)). cbn [foldr].
  destruct (draw_cell_spec l r c) as (H1 & H2 & H3).
  split_and!.
  - by apply in_line_app.
  - by rewrite visible_app, H2, IH2 by apply H1.
  - intros Hc. rewrite H3 by (apply Hc; left). f_equal. apply IH3. intros c' ?. apply Hc. by right.
Qed.

Lemma width_le l r cs :
  (3 * length cs ≤ foldr (λ c n, (3 * Nat.max 1 (occupants l r c) + n)%nat) 0%nat cs)%nat.
Proof. induction cs as [|c cs IH]; cbn [foldr length]; lia. Qed.

Lemma width_exact l r a n :
  (∀ c, c ∈ iota a n → (occupants l r c ≤ 1)%nat) →
  foldr (λ c n, (3 * Nat.max 1 (occupants l r c) + n)%nat) 0%nat (iota a n) = (3 * n)%nat.
Proof.
  revert a. induction n as [|n IH]; intros a H; cbn [iota foldr]; [done|].
  rewrite IH by (intros c ?; apply H; by right). pose proof (H a ltac:(left)). lia.
Qed.

Lemma width_wider l r c a n : c ∈ iota a n → (2 ≤ occupants l r c)%nat →
  (3 * n < foldr (λ c n, (3 * Nat.max 1 (occupants l r c) + n)%nat) 0%nat (iota a n))%nat.
Proof.
  revert a. induction n as [|n IH]; intros a Hc Ho; cbn [iota] in *; [by apply elem_of_nil in Hc|].
  cbn [foldr]. apply elem_of_cons in Hc as [<-|Hc].
  - pose proof (width_le l r (iota (c + 1) n)). rewrite length_iota in *. lia.
  - specialize (IH _ Hc Ho). lia.
Qed.

(** C26. The grid on the terminal.  [drawGridAndInklingsASCII] prints one line per
    row, each ending outside colour sequences.  A row in which no cell holds two
    live inklings is exactly the reference row: per column the inkling's arrow in
    its colour, or an empty cell, three columns wide.  A row with a shared cell is
    wider than the grid, because every inkling in a cell prints a cell of its own
    (the "extra vertical lines" of the BUG comment). *)
Theorem draw_grid_rows numRows numCols l :
  ∃ rows, drawGridAndInklingsASCII numRows numCols l = mjoin ((λ t, t ++ endl) <$> rows) ∧
    length rows = Z.to_nat numRows ∧
    ∀ r t, rows !! r = Some t →
      in_line t ∧
      ((∀ c, 0 ≤ c < numCols → (occupants l (Z.of_nat r) c ≤ 1)%nat) →
         t = mjoin (cell_text l (Z.of_nat r) <$> iota 0 (Z.to_nat numCols)) ∧
         visible false t = (3 * Z.to_nat numCols)%nat) ∧
      ((∃ c, 0 ≤ c < numCols ∧ (2 ≤ occupants l (Z.of_nat r) c)%nat) →
         (3 * Z.to_nat numCols < visible false t)%nat).
Proof.
  exists (grid_row l numCols <$> iota 0 (Z.to_nat numRows)). split_and!.
  - unfold drawGridAndInklingsASCII, grid_row. by rewrite <- list_fmap_compose.
  - by rewrite length_fmap, length_iota.
  - intros r t Ht. rewrite list_lookup_fmap in Ht.
    destruct (decide (r < Z.to_nat numRows)%nat) as [Hr|]; [|by rewrite lookup_ge_None_2 in Ht by (rewrite length_iota; lia)].
    rewrite lookup_iota in Ht by done. injection Ht as <-. rewrite Z.add_0_l. set (rz := Z.of_nat r).
    destruct (grid_row_spec l rz (iota 0 (Z.to_nat numCols))) as (H1 & H2 & H3).
    split_and!; [done| |]; unfold grid_row; rewrite H2.
    + intros Hc. split; [apply H3; intros c ?%elem_of_iota; apply Hc; lia|].
      by apply width_exact; intros c ?%elem_of_iota; apply Hc; lia.
    + intros (c & Hc & Ho). apply (width_wider _ rz c); [|done]. apply elem_of_iota. lia.
Qed.

(** ** Keyboard *)

(** The tanks hold between 0 and MAX_LEVEL, and the sleep times are positive
    ints, that of the producers above its minimum. *)
Record controls_ok (s : stencil) : Prop := {
  red_ok : 0 ≤ redLevel s ≤ MAX_LEVEL;
  green_ok : 0 ≤ greenLevel s ≤ MAX_LEVEL;
  blue_ok : 0 ≤ blueLevel s ≤ MAX_LEVEL;
  producer_ok : MIN_SLEEP_TIME < producerSleepTime s ≤ 214748364;
  inkling_ok : 0 < inklingSleepTime s < 2147483647
}.

(** Only the tanks and the sleep times differ. *)
Definition same_display (s s' : stencil) : Prop :=
  (grid s', NUM_ROWS s', NUM_COLS s', MAX_NUM_TRAVELER_THREADS s', numLiveThreads s', info s',
   frontend s', cout s', numPipesOpen s', pipe_fd s') =
  (grid s, NUM_ROWS s, NUM_COLS s, MAX_NUM_TRAVELER_THREADS s, numLiveThreads s, info s,
   frontend s, cout s, numPipesOpen s, pipe_fd s).

(** Where a command overflows an int. *)
Definition overflows (c : Z) (s : stencil) : Prop :=
  (c = chr "<" ∧ 178956970 < producerSleepTime s) ∨ (c = chr "-" ∧ 2147383647 < inklingSleepTime s).

(** The outcome of a command other than ESC: it returns with the controls in
    bounds, unless it overflows. *)
Definition controlled {A} (c : Z) (s : stencil) (r : result A * stencil) : Prop :=
  match r with
  | (Val _, s') => controls_ok s' ∧ same_display s s' ∧ ¬ overflows c s
  | (Undefined, _) => overflows c s
  | _ => False
  end.

Lemma controlled_same c s : controls_ok s → ¬ overflows c s → controlled c s (Val tt, s).
Proof. by intros ??. Qed.

Ltac controls := split; [by constructor; cbn; unfold MAX_LEVEL, MIN_SLEEP_TIME in *; lia|split; [done|]].

Lemma refill_controlled c s : controls_ok s → ¬ overflows c s →
  controlled c s (refillRedInk MAX_ADD_INK s) ∧ controlled c s (refillGreenInk MAX_ADD_INK s) ∧
  controlled c s (refillBlueInk MAX_ADD_INK s).
Proof.
  intros [] Ho. unfold MAX_LEVEL in *.
  split_and!; unfold refillRedInk, refillGreenInk, refillBlueInk, int_, mbind, M_bind, get, int_ok, MAX_ADD_INK;
    (rewrite decide_True by lia); cbn; case_match; zify_bool; cbn; unfold MAX_LEVEL in *; controls; done.
Qed.

Lemma controlled_ignore {A} c s (m : M A) :
  controlled c s (m s) → controlled c s ((_ ← m; mret tt) s).
Proof. unfold mbind, M_bind. by destruct (m s) as [[]]. Qed.

Lemma slowdown_controlled s : controls_ok s → controlled (chr "<") s (slowdownProducers s).
Proof.
  intros []. unfold slowdownProducers, int_, mbind, M_bind, get, int_ok.
  unfold MIN_SLEEP_TIME in *. destruct (decide (_ ∧ _)) as [Hd|Hd]; cbn.
  - rewrite Z.quot_div_nonneg by lia.
    pose proof (Z.div_mod (12 * producerSleepTime s) 10). pose proof (Z.mod_pos_bound (12 * producerSleepTime s) 10).
    controls. intros [[_ ?]|[? _]]; [lia|done].
  - left. split; [done|]. change (2 ^ 31) with 2147483648 in Hd. lia.
Qed.

Lemma speedup_controlled s : controls_ok s → controlled (chr ">") s (speedupProducers s).
Proof.
  intros []. unfold speedupProducers, int_, mbind, M_bind, get, int_ok.
  unfold MIN_SLEEP_TIME in *. rewrite decide_True by lia. cbn.
  rewrite Z.quot_div_nonneg by lia.
  pose proof (Z.div_mod (8 * producerSleepTime s) 10). pose proof (Z.mod_pos_bound (8 * producerSleepTime s) 10).
  unfold MIN_SLEEP_TIME. rewrite Z.gtb_ltb.
  destruct (Z.ltb_spec 30000 (8 * producerSleepTime s / 10)); cbn; controls; by intros [[? _]|[? _]].
Qed.

Lemma inkling_controlled c s : controls_ok s →
  (c = chr "+" → controlled c s (myKeyboard c s)) ∧ (c = chr "-" → controlled c s (myKeyboard c s)).
Proof.
  intros []. change (2147483647) with (2 ^ 31 - 1) in *.
  split; intros ->; [change (myKeyboard (chr "+") s) with ((i ← get inklingSleepTime; d ← int_ (i - 100000);
    if d >? 0 then modify (λ s, set_times (producerSleepTime s) d s) else mret tt) s)
    |change (myKeyboard (chr "-") s) with ((i ← get inklingSleepTime; d ← int_ (i + 100000);
    if d <? 2147483647 then modify (λ s, set_times (producerSleepTime s) d s) else mret tt) s)];
    unfold int_, mbind, M_bind, get, int_ok.
  - rewrite decide_True by lia. cbn -[Z.gtb]. rewrite Z.gtb_ltb.
    destruct (Z.ltb_spec 0 (inklingSleepTime s - 100000)); cbn; controls; by intros [[? _]|[? _]].
  - destruct (decide (_ ∧ _)) as [Hd|Hd]; cbn -[Z.ltb].
    + destruct (Z.ltb_spec (inklingSleepTime s + 100000) 2147483647); cbn; controls;
        (intros [[? _]|[_ ?]]; [done|lia]).
    + right. split; [done|]. lia.
Qed.

Lemma keyboard_cases c s :
  controls_ok s → grid s ≠ None →
  (c = 27 → ∃ s', myKeyboard c s = (Exit 0, s') ∧ grid s' = None) ∧
  (c ≠ 27 → match myKeyboard c s with
            | (Val _, s') => controls_ok s' ∧ same_display s s' ∧ ¬ overflows c s
            | (Undefined, _) => overflows c s
            | _ => False
            end).
Proof.
  intros Hs Hg. split.
  { intros ->. cbn. destruct (grid s) as [g|] eqn:E; [|done]. eexists.
    unfold cleanupAndQuit, mbind, M_bind, modify, get. cbn. by rewrite E. }
  intros Hc. fold (controlled c s (myKeyboard c s)). destruct (inkling_controlled c s Hs) as [Hplus Hminus].
  destruct (decide (c = chr "+")); [by apply Hplus|]. destruct (decide (c = chr "-")); [by apply Hminus|].
  assert (c ≠ chr "<" → ¬ overflows c s) as Ho by (by intros ? [[? _]|[? _]]).
  unfold myKeyboard. rewrite (proj2 (Z.eqb_neq c 27)) by done.
  destruct (Z.eqb_spec c (chr "<")) as [->|]; [by apply slowdown_controlled|].
  destruct (refill_controlled c s Hs (Ho ltac:(done))) as (Hr & Hgr & Hb).
  destruct (Z.eqb_spec c (chr ">")) as [->|]; [by apply speedup_controlled|].
  destruct (Z.eqb_spec c (chr "r")); [by apply controlled_ignore|].
  rewrite !(proj2 (Z.eqb_neq c _)) by done.
  destruct (Z.eqb_spec c (chr "g")); [by apply controlled_ignore|].
  destruct (Z.eqb_spec c (chr "b")); [by apply controlled_ignore|].
  by apply controlled_same, Ho.
Qed.

(** C25. The keyboard commands.  From controls in bounds, ESC quits with status 0
    once the grid is allocated; every other byte returns with the controls in
    bounds and nothing else changed, except "<" when slowing the producers down
    overflows, and "-" when the test meant to guard the inklings' sleep time
    overflows itself: both have undefined behaviour. *)
Theorem keyboard_spec c s :
  controls_ok s → grid s ≠ None →
  (c = 27 → ∃ s', myKeyboard c s = (Exit 0, s') ∧ grid s' = None) ∧
  (c ≠ 27 → match myKeyboard c s with
            | (Val _, s') => controls_ok s' ∧ same_display s s' ∧ ¬ overflows c s
            | (Undefined, _) => overflows c s
            | _ => False
            end).
Proof. apply keyboard_cases. Qed.

Lemma flag_bits i : 0 ≤ i → Z.testbit (Z.lor ICANON ECHO) i = (i =? 1) || (i =? 3).
Proof.
  intros Hi. rewrite Z.lor_spec. change ICANON with (2 ^ 1). change ECHO with (2 ^ 3).
  by rewrite !Z.pow2_bits_eqb, (Z.eqb_sym 1), (Z.eqb_sym 3) by lia.
Qed.

Lemma raw_bits f i : 0 ≤ i < 32 → Z.testbit (enableRawMode f) i = Z.testbit f i && negb ((i =? 1) || (i =? 3)).
Proof.
  intros Hi. unfold enableRawMode, wrapU. rewrite Z.land_spec, Z.mod_pow2_bits_low, Z.lnot_spec, flag_bits by lia. done.
Qed.

Lemma raw_restored f : 0 ≤ f < 2 ^ 32 → has ICANON f = true → has ECHO f = true →
  disableRawMode (enableRawMode f) = f.
Proof.
  intros Hf H1 H2. change ICANON with (2 ^ 1) in H1. change ECHO with (2 ^ 3) in H2. rewrite has_pow2 in H1, H2 by lia.
  apply Z.bits_inj'. intros i Hi. unfold disableRawMode. rewrite Z.lor_spec, flag_bits by done.
  destruct (Z.ltb_spec i 32).
  - rewrite raw_bits by lia. destruct (Z.eqb_spec i 1) as [->|]; [by rewrite H1|].
    destruct (Z.eqb_spec i 3) as [->|]; [by rewrite H2|]. cbn. by rewrite andb_true_r, orb_false_r.
  - unfold enableRawMode. rewrite Z.land_spec, (testbit_small f 32 i) by lia. cbn.
    destruct (Z.eqb_spec i 1), (Z.eqb_spec i 3); lia || done.
Qed.

Lemma raw_flags f : has ICANON (enableRawMode f) = false ∧ has ECHO (enableRawMode f) = false.
Proof.
  change ICANON with (2 ^ 1). change ECHO with (2 ^ 3). rewrite !has_pow2, !raw_bits by lia.
  split; by rewrite andb_false_r.
Qed.

(** The listener gives the terminal back as it was, if it echoed lines before and the
    key is not ESC: ESC ends the program inside the listener, and leaves the
    terminal without echo and line editing. *)
Theorem keyListener_spec c_lflag c s :
  0 ≤ c_lflag < 2 ^ 32 → has ICANON c_lflag = true → has ECHO c_lflag = true →
  controls_ok s → grid s ≠ None → ¬ overflows (u8 c) s →
  let '(r, flags, _) := keyListener c_lflag c s in
  if u8 c =? 27 then r = Exit 0 ∧ has ICANON flags = false ∧ has ECHO flags = false
  else r = Val tt ∧ flags = c_lflag.
Proof.
  intros Hf H1 H2 Hs Hg Ho. unfold keyListener. pose proof (keyboard_cases (u8 c) s Hs Hg) as [Hesc Hkey].
  destruct (Z.eqb_spec (u8 c) 27) as [E|E].
  - destruct (Hesc E) as (s' & -> & _). split; [done|]. apply raw_flags.
  - specialize (Hkey E). destruct (myKeyboard (u8 c) s) as [[[]| | |] s']; try done. split; [done|]. by apply raw_restored.
Qed.

(** A sequence of commands. *)
Fixpoint type_keys (l : list Z) : M unit :=
  match l with [] => mret tt | c :: l => myKeyboard c;; type_keys l end.

Lemma keyboard_spec_witness :
  controls_ok initial ∧ ¬ overflows (chr "<") initial ∧
  ∃ s', myKeyboard (chr "<") initial = (Val tt, s') ∧ producerSleepTime s' = 120000.
Proof.
  assert (controls_ok (set_grid (Some []) initial)) as H
    by (constructor; unfold MAX_LEVEL, MIN_SLEEP_TIME; cbn; lia).
  destruct (keyboard_spec (chr "<") (set_grid (Some []) initial) H ltac:(done)) as [_ Hk].
  specialize (Hk ltac:(done)). destruct Hk as (_ & _ & Hn).
  split; [constructor; unfold MAX_LEVEL, MIN_SLEEP_TIME; cbn; lia|]. split; [exact Hn|].
  by eexists.
Defined.

(** Both overflows can be typed: from the initial state the 43rd "<" in a row,
    and the 21,465th "-", have undefined behaviour, the commands before them
    being harmless. *)
Theorem keyboard_overflow :
  (∃ s, type_keys (replicate 42 (chr "<")) initial = (Val tt, s) ∧ overflows (chr "<") s ∧
        (myKeyboard (chr "<") s).1 = Undefined) ∧
  (∃ s, type_keys (replicate (Z.to_nat 21464) (chr "-")) initial = (Val tt, s) ∧ overflows (chr "-") s ∧
        (myKeyboard (chr "-") s).1 = Undefined).
Proof.
  split; (eexists; split; [vm_compute; reflexivity|]; split; [|reflexivity]).
  - by left.
  - by right.
Qed.

(** ** Start-up *)

Lemma lookup_fold_insert {A} (x : A) a n (l : list A) k : 0 ≤ a →
  foldl (λ l j, <[Z.to_nat j := x]> l) l (iota a n) !! k =
    if decide (a ≤ Z.of_nat k < a + Z.of_nat n ∧ (k < length l)%nat) then Some x else l !! k.
Proof.
  revert a l. induction n as [|n IH]; intros a l Ha; cbn [iota foldl].
  - by rewrite decide_False by lia.
  - rewrite IH, length_insert by lia. destruct (decide (k = Z.to_nat a)) as [->|Hne].
    + rewrite decide_False by lia. case_decide.
      * by rewrite list_lookup_insert_eq by lia.
      * rewrite list_insert_ge by lia. done.
    + rewrite list_lookup_insert_ne by lia. solve_decide; done.
Qed.

Lemma fill_row_spec g i cols : 0 ≤ i →
  fill_row g i cols =
    alter (λ r, foldl (λ r j, <[Z.to_nat j := Some 0]> r) r (iota 0 (Z.to_nat cols))) (Z.to_nat i) g.
Proof.
  intros Hi. unfold fill_row. generalize (iota 0 (Z.to_nat cols)). intros js. revert g.
  induction js as [|j js IH]; intros g; cbn [foldl]; [by rewrite list_alter_id|].
  rewrite IH. apply list_eq. intros k. destruct (decide (k = Z.to_nat i)) as [->|].
  - rewrite !list_lookup_alter_eq. destruct (g !! Z.to_nat i); done.
  - by rewrite !list_lookup_alter_ne by done.
Qed.

Lemma clear_row cols : 
  foldl (λ r j, <[Z.to_nat j := Some 0]> r) (replicate (Z.to_nat cols) None) (iota 0 (Z.to_nat cols))
  = replicate (Z.to_nat cols) (Some 0).
Proof.
  apply list_eq. intros k. rewrite lookup_fold_insert, length_replicate by lia.
  case_decide; [by rewrite lookup_replicate_2 by lia|].
  by rewrite !lookup_ge_None_2 by (rewrite length_replicate; lia).
Qed.

(** The rows cleared so far. *)
Lemma clear_rows cols a n (g : list (list (option Z))) k : 0 ≤ a →
  (∀ i, a ≤ Z.of_nat i < a + Z.of_nat n → (i < length g)%nat → g !! i = Some (replicate (Z.to_nat cols) None)) →
  foldl (λ g i, fill_row g i cols) g (iota a n) !! k =
    if decide (a ≤ Z.of_nat k < a + Z.of_nat n ∧ (k < length g)%nat)
    then Some (replicate (Z.to_nat cols) (Some 0)) else g !! k.
Proof.
  revert a g. induction n as [|n IH]; intros a g Ha Hg; cbn [iota foldl].
  - by rewrite decide_False by lia.
  - rewrite fill_row_spec by done. rewrite IH, length_alter; [|lia|].
    + destruct (decide (k = Z.to_nat a)) as [->|Hne].
      * rewrite list_lookup_alter_eq, (decide_False (P := _ ≤ Z.of_nat (Z.to_nat a) < _ ∧ _)) by lia. case_decide.
        -- rewrite Hg by lia. cbn [fmap option_fmap option_map]. by rewrite clear_row.
        -- rewrite (proj2 (lookup_ge_None g (Z.to_nat a))) by lia. done.
      * rewrite list_lookup_alter_ne by done. solve_decide; done.
    + intros i Hi. rewrite length_alter. intros Hl. rewrite list_lookup_alter_ne by lia. apply Hg; lia.
Qed.

Lemma clear_grid rows cols :
  foldl (λ g i, fill_row g i cols) (replicate (Z.to_nat rows) (replicate (Z.to_nat cols) None))
    (iota 0 (Z.to_nat rows)) = replicate (Z.to_nat rows) (replicate (Z.to_nat cols) (Some 0)).
Proof.
  apply list_eq. intros k. rewrite clear_rows, length_replicate; [|lia|].
  - case_decide; [by rewrite lookup_replicate_2 by lia|].
    by rewrite !lookup_ge_None_2 by (rewrite length_replicate; lia).
  - intros i Hi Hl. rewrite length_replicate in Hl. by apply lookup_replicate_2.
Qed.

(** What the arguments ask for. *)
Inductive request := Run (rows cols threads : Z) | TooSmall | NotANumber.

Definition request_of (args : list bytes) : request :=
  match args with
  | [a1; a2; a3] =>
      match stoi a1 with
      | None => NotANumber
      | Some r => if r <? 20 then TooSmall else
        match stoi a2 with
        | None => NotANumber
        | Some c => if c <? 20 then TooSmall else
          match stoi a3 with
          | None => NotANumber
          | Some n => if n <? 8 then TooSmall else Run r c n
          end
        end
      end
  | _ => Run 8 8 4
  end.

(** The state when the event loop starts. *)
Record started (rows cols threads : Z) (s : stencil) : Prop := {
  started_size : NUM_ROWS s = rows ∧ NUM_COLS s = cols;
  started_threads : MAX_NUM_TRAVELER_THREADS s = threads ∧ numLiveThreads s = threads;
  started_grid : grid s = Some (replicate (Z.to_nat rows) (replicate (Z.to_nat cols) (Some 0)));
  started_info : info s = [MkInkling RED_TRAV 1 5 EAST true];
  started_inside : Forall (λ k, 0 ≤ row k < rows ∧ 0 ≤ col k < cols) (info s);
  started_controls : controls_ok s;
  started_frontend : frontend s = true
}.

Lemma put_put a b s : put b (put a s) = put (a ++ b) s.
Proof. unfold put. cbn. by rewrite app_assoc. Qed.

Lemma drawState_spec n r g b s :
  ∃ out, drawState n r g b s =
    if n =? 0 then cleanupAndQuit (str "drawState callint it quits, no threads left...") (put out s)
    else (Val tt, put out s).
Proof.
  unfold drawState. generalize (str "drawState callint it quits, no threads left...").
  generalize (print [Color BLACK; Text (str "Ink Tank Levels, the MAX is: "); Int MAX_LEVEL]),
    (print [Color RED; Text (str "Red: "); Int r; Color GREEN; Text (str " Green: "); Int g; Color BLUE;
       Text (str " Blue: "); Int b]), (print [Text (str "Live Threads: "); Int n]), (print []).
  intros t1 t2 t3 t4 msg. exists (((t1 ++ t2) ++ t3) ++ t4). rewrite <- !put_put.
  unfold mbind, M_bind, modify. by destruct (n =? 0).
Qed.

(** A front end with live threads draws and returns; with none it quits. *)
Lemma front_end_spec s :
  ∃ out, initializeFrontEnd s =
    if numLiveThreads s =? 0
    then cleanupAndQuit (str "drawState callint it quits, no threads left...") (put out (set_frontend true s))
    else (Val tt, put out (set_frontend true s)).
Proof.
  unfold initializeFrontEnd, updateTerminal, displayGridPane, displayStatePane.
  generalize clearTerminal. intros t. unfold mbind, M_bind, modify, get. cbn [put set_frontend frontend].
  set (s1 := put t (set_frontend true s)). set (g := drawGridAndInklingsASCII _ _ _).
  destruct (drawState_spec (numLiveThreads (put g s1)) (redLevel (put g s1)) (greenLevel (put g s1))
    (blueLevel (put g s1)) (put g s1)) as (out & E).
  exists ((t ++ g) ++ out). rewrite <- !put_put. fold s1. change (frontend s1) with true. cbv iota beta.
  exact E.
Qed.

Lemma cleanupAndQuit_none {A} msg s :
  grid s = None → NUM_ROWS s = 0 → ∃ s', cleanupAndQuit (A := A) msg s = (Exit 0, s') ∧
    grid s' = None ∧ info s' = info s.
Proof.
  intros Hg Hn. eexists. unfold cleanupAndQuit, mbind, M_bind, modify, get.
  cbn [put grid NUM_ROWS]. rewrite Hg, Hn. cbn [Z.ltb]. split; [reflexivity|]. by split.
Qed.

(** What follows the choice of the size in [main]. *)
Definition main_body : M Z := initializeFrontEnd;; initializeApplication;; mret 1.

Lemma main_runs out rows cols threads :
  20 ≤ rows ∧ 20 ≤ cols ∧ 8 ≤ threads ∨ rows = 8 ∧ cols = 8 ∧ threads = 4 →
  ∃ s', main_body (put out (set_size rows cols threads threads initial)) = (Val 1, s') ∧
    started rows cols threads s'.
Proof.
  intros Hsize. destruct (front_end_spec (put out (set_size rows cols threads threads initial))) as (out' & E).
  cbn [put set_size numLiveThreads] in E. rewrite (proj2 (Z.eqb_neq threads 0)) in E by lia.
  eexists. split.
  - unfold main_body, mbind, M_bind in *. rewrite E. reflexivity.
  - split; cbn.
    1,2,4,7: by split.
    + by rewrite clear_grid.
    + repeat constructor; cbn; lia.
    + constructor; unfold MAX_LEVEL, MIN_SLEEP_TIME; cbn; lia.
Qed.

Lemma main_quits : ∃ s', main_body initial = (Exit 0, s') ∧ grid s' = None ∧ info s' = [].
Proof.
  destruct (front_end_spec initial) as (out & E). cbn [initial numLiveThreads] in E. rewrite Z.eqb_refl in E.
  destruct (cleanupAndQuit_none (A := unit) (str "drawState callint it quits, no threads left...")
    (put out (set_frontend true initial)) eq_refl eq_refl) as (s' & E' & ? & ?).
  exists s'. split; [|by split]. unfold main_body, mbind, M_bind. by rewrite E, E'.
Qed.

(** The three ways through the arguments. *)
Lemma use_args_spec a1 a2 a3 :
  use_args a1 a2 a3 initial =
    match request_of [a1; a2; a3] with
    | Run r c n => (Val tt, set_size r c n n initial)
    | TooSmall => (Val tt, initial)
    | NotANumber => (Throw, initial)
    end.
Proof.
  unfold use_args, request_of, mbind, M_bind. destruct (stoi a1) as [r|]; [|done]. cbn -[Z.geb Z.ltb].
  rewrite Z.geb_leb, Z.leb_antisym. destruct (r <? 20); [done|]. cbn -[Z.geb Z.ltb].
  destruct (stoi a2) as [c|]; [|done]. cbn -[Z.geb Z.ltb].
  rewrite Z.geb_leb, Z.leb_antisym. destruct (c <? 20); [done|]. cbn -[Z.geb Z.ltb].
  destruct (stoi a3) as [n|]; [|done]. cbn -[Z.geb Z.ltb].
  rewrite Z.geb_leb, Z.leb_antisym. by destruct (n <? 8).
Qed.

Lemma request_large a1 a2 a3 r c n :
  request_of [a1; a2; a3] = Run r c n → 20 ≤ r ∧ 20 ≤ c ∧ 8 ≤ n.
Proof.
  cbn. destruct (stoi a1) as [r'|]; [|done]. destruct (Z.ltb_spec r' 20); [done|].
  destruct (stoi a2) as [c'|]; [|done]. destruct (Z.ltb_spec c' 20); [done|].
  destruct (stoi a3) as [n'|]; [|done]. destruct (Z.ltb_spec n' 8); [done|].
  intros [= -> -> ->]. lia.
Qed.

(** C24. Starting the program.  Three numbers that are large enough (at least 20
    rows, 20 columns and 8 threads) bring it to the event loop with a grid of that
    size, every cell 0, one inkling inside it and the controls in bounds; any
    other number of arguments starts an 8x8 grid with 4 threads.  Numbers that
    are too small are not reported: no threads are live, so the first display
    quits with status 0 before the grid is allocated.  A text that is not a number
    (where the tests before it do not fail first) ends main through its handler. *)
Theorem main_spec args :
  match request_of args with
  | Run rows cols threads => ∃ s, main args initial = (Val 1, s) ∧ started rows cols threads s
  | TooSmall => ∃ s, main args initial = (Exit 0, s) ∧ grid s = None ∧ info s = []
  | NotANumber => main args initial = (Val 0, initial)
  end.
Proof.
  set (dflt := modify (put (str "No arguments provided, running with 8x8 grid and 4 threads." ++ [10; 9] ++
    str "This message will dissapear in 2 seconds... " ++ [10]));;
    modify (put clearTerminal);; modify (set_size 8 8 4 4)).
  assert (∃ out, dflt initial = (Val tt, put out (set_size 8 8 4 4 initial))) as (out & Hd) by (by eexists).
  destruct (main_runs out 8 8 4) as (s8 & E8 & H8); [by right|].
  assert ((dflt;; main_body) initial = (Val 1, s8)) as Hdflt
    by (unfold mbind, M_bind; by rewrite Hd).
  destruct args as [|a1 [|a2 [|a3 [|a4 args]]]].
  1,2,3,5: exists s8; split; [unfold main; fold main_body dflt; by rewrite Hdflt|done].
  pose proof (use_args_spec a1 a2 a3) as Hu. pose proof (request_large a1 a2 a3) as Hl.
  unfold main. fold main_body.
  destruct (request_of [a1; a2; a3]) as [r c n| |]; unfold mbind, M_bind in *; rewrite Hu.
  - destruct (main_runs [] r c n) as (s & E & H); [by left; apply Hl|].
    exists s. split; [|done]. change (put [] ?s) with s in E. by rewrite E.
  - destruct main_quits as (s & E & H). exists s. split; [|done]. by rewrite E.
  - done.
Qed.

(** ** The event loop *)

(** Where a call of [myEventLoop] is: its timer has not fired, it is about to
    update the terminal, to take the lock and test the depth, to start the next
    timer, to leave the depth, to sleep and poll the pipe, or it has returned,
    early ([Returned]) or not. *)
Inductive pc := Timer | Update | Guard | Spawn | Leave | Poll | Returned | Finished.
#[export] Instance pc_eq_dec : EqDecision pc.
Proof. solve_decision. Defined.

(** [recursiveDepth] and the calls, each in a thread of its own (the first in
    the main thread, the others in detached timer threads). *)
Record loop := MkLoop { recursiveDepth : Z; threads : list pc }.

Definition event_loop_start : loop := MkLoop 0 [Update].

(** @src assignments/a4/a4_cpp/stencil_old/ascii_art.cpp 304-343 myEventLoop
    One step of thread [i]; the sections under the mutex are single steps.
    [poll_pipe] is what happens in the step to [Finished].  The end of the
    process, when main has slept after its own call, is not modelled. *)
Inductive loop_step : loop → loop → Prop :=
  | step_timer d ts i : ts !! i = Some Timer → loop_step (MkLoop d ts) (MkLoop d (<[i := Update]> ts))
  | step_update d ts i : ts !! i = Some Update → loop_step (MkLoop d ts) (MkLoop d (<[i := Guard]> ts))
  | step_return d ts i : ts !! i = Some Guard → 5 ≤ d →
      loop_step (MkLoop d ts) (MkLoop d (<[i := Returned]> ts))
  | step_enter d ts i : ts !! i = Some Guard → d < 5 →
      loop_step (MkLoop d ts) (MkLoop (d + 1) (<[i := Spawn]> ts))
  | step_spawn d ts i : ts !! i = Some Spawn →
      loop_step (MkLoop d ts) (MkLoop d (<[i := Leave]> ts ++ [Timer]))
  | step_leave d ts i : ts !! i = Some Leave →
      loop_step (MkLoop d ts) (MkLoop (d - 1) (<[i := Poll]> ts))
  | step_poll d ts i : ts !! i = Some Poll → loop_step (MkLoop d ts) (MkLoop d (<[i := Finished]> ts)).

Definition loop_reachable : loop → Prop := rtc loop_step event_loop_start.

(** Calls that will still render or start the next one. *)
Definition pending (p : pc) : bool := match p with Timer | Update | Guard | Spawn => true | _ => false end.
Definition inside (p : pc) : bool := match p with Spawn | Leave => true | _ => false end.
Definition early (p : pc) : bool := match p with Returned => true | _ => false end.

Definition count (f : pc → bool) (ts : list pc) : Z := foldr (λ p n, c_bool (f p) + n) 0 ts.

Lemma count_insert f ts i p q : ts !! i = Some p →
  count f (<[i := q]> ts) = count f ts - c_bool (f p) + c_bool (f q).
Proof.
  unfold count. revert i. induction ts as [|t ts IH]; intros [|i] H; try done; cbn in *.
  - injection H as ->. lia.
  - rewrite IH by done. lia.
Qed.

Lemma count_app f ts us : count f (ts ++ us) = count f ts + count f us.
Proof. unfold count. induction ts as [|t ts IH]; cbn; [done|]. rewrite IH. lia. Qed.

Lemma count_nonneg f ts : 0 ≤ count f ts.
Proof. unfold count. induction ts as [|t ts IH]; cbn; [done|]. destruct (f t); cbn; lia. Qed.

Lemma count_pos f ts i p : ts !! i = Some p → f p = true → 1 ≤ count f ts.
Proof.
  intros Hi Hp. revert i Hi. unfold count. induction ts as [|t ts IH]; intros [|i] Hi; try done; cbn in *.
  - injection Hi as ->. rewrite Hp. pose proof (count_nonneg f ts) as H. unfold count in H. cbn. lia.
  - specialize (IH i Hi). destruct (f t); cbn; lia.
Qed.

(** Two different threads that satisfy [f] count twice. *)
Lemma count_two f ts i j p q : ts !! i = Some p → ts !! j = Some q → i ≠ j →
  f p = true → f q = true → f Finished = false → 2 ≤ count f ts.
Proof.
  intros Hi Hj Hne Hp Hq Hf.
  assert (<[i := Finished]> ts !! j = Some q) as Hj' by (by rewrite list_lookup_insert_ne).
  pose proof (count_pos f _ _ _ Hj' Hq) as H. rewrite (count_insert f ts i p) in H by done.
  rewrite Hp, Hf in H. cbn in H. lia.
Qed.

(** The invariant: one call is pending, or one returned early. *)
Definition loop_ok (l : loop) : Prop :=
  count pending (threads l) + count early (threads l) = 1 ∧
  recursiveDepth l = count inside (threads l) ∧ recursiveDepth l ≤ 5.

Lemma loop_ok_step l l' : loop_step l l' → loop_ok l → loop_ok l'.
Proof.
  intros Hs (H1 & H2 & H3). unfold loop_ok.
  destruct Hs as [d ts i Hi|d ts i Hi|d ts i Hi Hd|d ts i Hi Hd|d ts i Hi|d ts i Hi|d ts i Hi];
    cbn [threads recursiveDepth] in *;
    rewrite ?count_app, ?(count_insert _ _ _ _ _ Hi); cbn [pending early inside c_bool count foldr]; lia.
Qed.

Lemma loop_reachable_ok l : loop_reachable l → loop_ok l.
Proof.
  intros H. assert (loop_ok event_loop_start) as H0 by done. revert H0.
  unfold loop_reachable in H. induction H as [|l1 l2 l3 H12 _ IH]; [done|].
  intros ?. apply IH. by eapply loop_ok_step.
Qed.

(** C23. The event loop.  In every interleaving of the calls of [myEventLoop], at
    most one is between its timer and the start of the next timer, so no two
    threads update the terminal at once, the depth counts the calls between its
    increment and decrement and stays in [0, 5]; a call is pending in every state
    unless one has returned early at the depth limit, after which no thread ever
    updates the terminal again. *)
Theorem event_loop_spec l :
  loop_reachable l →
  (∀ i j, threads l !! i = Some Update → threads l !! j = Some Update → i = j) ∧
  recursiveDepth l = count inside (threads l) ∧ 0 ≤ recursiveDepth l ≤ 5 ∧
  ((∃ i p, threads l !! i = Some p ∧ pending p = true) ∨ Returned ∈ threads l) ∧
  (Returned ∈ threads l → ∀ l', rtc loop_step l l' → ∀ p, p ∈ threads l' → pending p = false).
Proof.
  intros Hl. destruct (loop_reachable_ok l Hl) as (H1 & H2 & H3). split_and!.
  - intros i j Hi Hj. destruct (decide (i = j)) as [|Hne]; [done|].
    pose proof (count_two pending _ _ _ _ _ Hi Hj Hne eq_refl eq_refl eq_refl).
    pose proof (count_nonneg early (threads l)). lia.
  - done.
  - rewrite H2. apply count_nonneg.
  - done.
  - destruct (decide (Returned ∈ threads l)) as [|Hn]; [by right|left].
    assert (count early (threads l) = 0) as He.
    { clear -Hn. unfold count. induction (threads l) as [|t ts IH]; [done|].
      apply not_elem_of_cons in Hn as [Ht Hts]. cbn. rewrite IH by done. by destruct t. }
    rewrite He in H1. clear -H1. unfold count in H1. induction (threads l) as [|t ts IH]; [done|].
    destruct (pending t) eqn:Et; [by exists 0%nat, t|]. cbn in H1. rewrite Et in H1.
    destruct (IH H1) as (i & p & ? & ?). by exists (S i), p.
  - intros [i Hi]%list_elem_of_lookup l' Hr p [j Hj]%list_elem_of_lookup.
    assert (∃ i, threads l' !! i = Some Returned) as [i' Hi'].
    { clear -Hi Hr. revert i Hi. induction Hr as [|l1 l2 l3 H12 _ IH]; intros i Hi; [by exists i|].
      apply (IH i). destruct H12 as [d ts k Hk|d ts k Hk|d ts k Hk ?|d ts k Hk ?|d ts k Hk|d ts k Hk|d ts k Hk];
        cbn [threads] in *; (destruct (decide (i = k)) as [->|]; [congruence|]);
        rewrite ?lookup_app, list_lookup_insert_ne by done; by rewrite ?Hi. }
    destruct (loop_reachable_ok l') as (H1' & _); [by unfold loop_reachable in *; etrans|].
    pose proof (count_pos early _ _ _ Hi' eq_refl).
    destruct (pending p) eqn:Hp; [|done]. pose proof (count_pos pending _ _ _ Hj Hp). lia.
Qed.

(** The first call starts the second, which updates while the first sleeps. *)
Lemma event_loop_spec_witness :
  ∃ l, loop_reachable l ∧ threads l = [Poll; Update] ∧
    ∀ i j, threads l !! i = Some Update → threads l !! j = Some Update → i = j.
Proof.
  assert (loop_reachable (MkLoop 0 [Poll; Update])) as H.
  { eapply rtc_l; [by apply (step_update 0 [Update] 0)|].
    eapply rtc_l; [by apply (step_enter 0 [Guard] 0)|].
    eapply rtc_l; [by apply (step_spawn 1 [Spawn] 0)|].
    eapply rtc_l; [by apply (step_leave 1 [Leave; Timer] 0)|].
    eapply rtc_l; [by apply (step_timer 0 [Poll; Timer] 1)|]. apply rtc_refl. }
  exists (MkLoop 0 [Poll; Update]). split; [exact H|]. split; [reflexivity|].
  apply (event_loop_spec (MkLoop 0 [Poll; Update])). exact H.
Defined.
