(* ===== verification/Shell.v ===== *)
(** * The 412 shell: reading and parsing command lines

    Models src/modules/m2/shell/412shell.c: [parse_command] on the bytes of the
    input buffer, which it cuts up in place so that the command it returns points
    into the buffer, and the loop of [main].  [do_fork] has an empty body at this
    commit, so what a session does is the sequence of commands it is given.

    The C library's [strtok], [fgets] and comparison with a literal are written
    out over the byte memory of Mem.v, [strlen] and [strchr] are those of
    LibStr.v; the pointer [strtok] keeps between calls is passed explicitly.  A
    NULL pointer is 0, and reading through it is undefined behaviour, as is
    storing past the end of [args].

    The specification splits a line into [words] and sorts them into a [parsed]
    line.  [parse_command_spec] covers every line: the command is the specified
    one when it has between 1 and [MAX_ARGS] arguments, and otherwise the
    behaviour is undefined.  [session_spec] lifts this to sessions. *)
From stdpp Require Import base tactics numbers list gmap option.
From Stdlib Require Import ZArith Lia.
From S2P Require Import Prelude CText Mem LibStr.

(** ** Definitions *)

(** @src modules/m2/shell/412shell.c 18-18 MAX_ARGS *)
Definition MAX_ARGS : nat := 64.
(** @src modules/m2/shell/412shell.c 23-23 MAX_INPUT *)
Definition MAX_INPUT : Z := 1024.

(** @src modules/m2/shell/412shell.c 28-48 ParsedCommand *)
Record ParsedCommand := MkCommand {
  command : Z;
  args : list Z;
  numArgs : Z;
  outputFile : Z
}.

Definition set_command (p : Z) (c : ParsedCommand) : ParsedCommand :=
  MkCommand p (args c) (numArgs c) (outputFile c).
Definition set_outputFile (p : Z) (c : ParsedCommand) : ParsedCommand :=
  MkCommand (command c) (args c) (numArgs c) p.

(** @src modules/m2/shell/412shell.c 76-76 parse_command
    The initial value. *)
Definition no_command : ParsedCommand := MkCommand 0 (replicate MAX_ARGS 0) 0 0.

(** The delimiter of the calls of [strtok], and the characters the shell tests. *)
Definition SPACE : Z := 32.
Definition QUOTE : Z := 34.

(** [strcmp(a, lit) == 0]. *)
Fixpoint streq (m : mem) (a : Z) (lit : bytes) : bool :=
  match lit with
  | [] => rd m a =? 0
  | c :: lit => (rd m a =? c) && streq m (a + 1) lit
  end.

(** The two scans of [strtok]: over delimiters, and up to the next one or the NUL. *)
Fixpoint skip_delim (fuel : nat) (m : mem) (s : Z) : res Z :=
  match fuel with
  | O => Err NoFuel
  | S fuel => if rd m s =? SPACE then skip_delim fuel m (s + 1) else Ok s
  end.

Fixpoint find_delim (fuel : nat) (m : mem) (s : Z) : res Z :=
  match fuel with
  | O => Err NoFuel
  | S fuel => if (rd m s =? 0) || (rd m s =? SPACE) then Ok s else find_delim fuel m (s + 1)
  end.

(** [strtok(s, " ")], where [s] is the argument or, for NULL, the pointer kept
    from the call before.  The result is the memory, the pointer to keep and
    the token. *)
Definition strtok (fuel : nat) (m : mem) (s : Z) : res (mem * Z * Z) :=
  t ← skip_delim fuel m s;
  if rd m t =? 0 then Ok (m, t, 0) else
  e ← find_delim fuel m t;
  if rd m e =? 0 then Ok (m, e, t) else Ok (wr m e 0, e + 1, t).

(** @src modules/m2/shell/412shell.c 87-87 parse_command
    [command.args[command.numArgs++] = token]. *)
Definition push_arg (token : Z) (c : ParsedCommand) : res ParsedCommand :=
  if decide (numArgs c < Z.of_nat MAX_ARGS)
  then Ok (MkCommand (command c) (zset (args c) (numArgs c) token) (u16 (numArgs c + 1)) (outputFile c))
  else Err UB.

(** @src modules/m2/shell/412shell.c 79-90 parse_command
    The loop over the tokens. *)
Fixpoint parse_loop (fuel F : nat) (m : mem) (save token : Z) (c : ParsedCommand)
    : res (mem * ParsedCommand) :=
  match fuel with
  | O => Err NoFuel
  | S fuel =>
      if token =? 0 then Ok (m, c) else
      '(m, save, c) ←
        (if command c =? 0 then Ok (m, save, set_command token c)
         else if streq m token (str ">") then
           '(m, save, token) ← strtok F m save; Ok (m, save, set_outputFile token c)
         else c ← push_arg token c; Ok (m, save, c));
      '(m, save, token) ← strtok F m save;
      parse_loop fuel F m save token c
  end.

(** Reading through a pointer. *)
Definition deref (m : mem) (p : Z) : res Z := if p =? 0 then Err UB else Ok (rd m p).

(** @src modules/m2/shell/412shell.c 92-107 parse_command
    Removing the quotes around the arguments. *)
Definition remove_quotes (F : nat) (m : mem) (c : ParsedCommand) : res (mem * ParsedCommand) :=
  first ← of_option UB (zget (args c) 0);
  firstArgFirstChar ← deref m first;
  let lastArgIndex := u32 (numArgs c - 1) in
  last ← of_option UB (zget (args c) lastArgIndex);
  _ ← deref m last;
  len ← strlen F m last;
  let lastArgLastCharIndex := u32 (len - 1) in
  let lastArgLastChar := rd m (last + lastArgLastCharIndex) in
  if (numArgs c >? 0) && (firstArgFirstChar =? QUOTE) && (lastArgLastChar =? QUOTE) then
    Ok (wr m (last + lastArgLastCharIndex) 0,
        MkCommand (command c) (zset (args c) 0 (first + 1)) (numArgs c) (outputFile c))
  else Ok (m, c).

(** @src modules/m2/shell/412shell.c 75-110 parse_command *)
Definition parse_command (F : nat) (m : mem) (input : Z) : res (mem * ParsedCommand) :=
  '(m, save, token) ← strtok F m input;
  '(m, c) ← parse_loop F F m save token no_command;
  remove_quotes F m c.

(** [fgets(buf, MAX_INPUT, stdin)]. *)
Definition fgets (m : mem) (buf : Z) (stream : bytes) : option (mem * bytes) :=
  match stream with
  | [] => None
  | _ => let '(l, rest) := take_line (Z.to_nat (MAX_INPUT - 1)) stream in
         Some (wr_list m buf (l ++ [0]), rest)
  end.

(** @src modules/m2/shell/412shell.c 61-67 do_fork
    The body is empty.  The call is recorded with the memory it sees. *)
Definition do_fork (c : ParsedCommand) (m : mem) (calls : list (ParsedCommand * mem))
    : list (ParsedCommand * mem) := calls ++ [(c, m)].

(** @src modules/m2/shell/412shell.c 123-132 main
    The main loop.  [flushed i] is the result of the [i]th [fflush]; [printf]
    never returns 0 here, as it writes 10 characters or fails. *)
Fixpoint main_loop (fuel : nat) (flushed : nat → Z) (i : nat) (m : mem) (input : Z)
    (stream : bytes) (calls : list (ParsedCommand * mem)) : res (list (ParsedCommand * mem)) :=
  match fuel with
  | O => Err NoFuel
  | S fuel =>
      if negb (flushed i =? 0) then Ok calls else
      match fgets m input stream with
      | None => Ok calls
      | Some (m, stream) =>
          if streq m input (str "exit" ++ [NEWLINE]) then Ok calls else
          newline ← strchr (Z.to_nat MAX_INPUT) m input NEWLINE;
          let m := if negb (newline =? 0) then wr m newline 0 else m in
          '(m, c) ← parse_command (Z.to_nat MAX_INPUT) m input;
          main_loop fuel flushed (S i) m input stream (do_fork c m calls)
      end
  end.

(** @src modules/m2/shell/412shell.c 119-135 main
    The status and the calls of [do_fork]; [m] is the memory at the start and
    [input] the address of the buffer. *)
Definition main (flushed : nat → Z) (m : mem) (input : Z) (stream : bytes)
    : res (Z * list (ParsedCommand * mem)) :=
  calls ← main_loop (S (length stream)) flushed 0 m input stream [];
  Ok (0, calls).

(** ** Specification *)

(** The words of a line: its longest runs of characters other than spaces. *)
Fixpoint words (l : bytes) : list bytes :=
  match l with
  | [] => []
  | c :: l' =>
      if c =? SPACE then words l' else
      let ws := words l' in
      match l', ws with
      | d :: _, w :: ws' => if d =? SPACE then [c] :: ws else (c :: w) :: ws'
      | _, _ => [c] :: ws
      end
  end.

(** A line sorted into its parts, which are words or pointers to words. *)
Record parsed (A : Type) := Parsed {
  p_command : option A;
  p_args : list A;
  p_output : option A
}.
Arguments Parsed {A} _ _ _.
Arguments p_command {A} _.
Arguments p_args {A} _.
Arguments p_output {A} _.

(** The first word is the command; the word after a [>] is the output file, and
    a [>] at the end takes the output file away; the others are arguments. *)
Fixpoint sort_words {A} (redirects : A → bool) (p : parsed A) (ws : list A) : parsed A :=
  match ws with
  | [] => p
  | w :: ws =>
      match p_command p with
      | None => sort_words redirects (Parsed (Some w) (p_args p) (p_output p)) ws
      | Some _ =>
          if redirects w then
            match ws with
            | [] => Parsed (p_command p) (p_args p) None
            | o :: ws => sort_words redirects (Parsed (p_command p) (p_args p) (Some o)) ws
            end
          else sort_words redirects (Parsed (p_command p) (p_args p ++ [w]) (p_output p)) ws
      end
  end.

Definition nothing_parsed {A} : parsed A := Parsed None [] None.

(** Without the quotes around all arguments. *)
Definition drop_head_char (ws : list bytes) : list bytes :=
  match ws with w :: ws => tail w :: ws | [] => [] end.
Definition drop_last_char (ws : list bytes) : list bytes :=
  match list.last ws with Some w => removelast ws ++ [removelast w] | None => [] end.
Definition unquote (ws : list bytes) : list bytes :=
  if bool_decide (head ws ≫= head = Some QUOTE) && bool_decide (list.last ws ≫= list.last = Some QUOTE)
  then drop_head_char (drop_last_char ws) else ws.

Definition sorted_line (l : bytes) : parsed bytes :=
  sort_words (λ w, bool_decide (w = str ">")) nothing_parsed (words l).

Definition parse_line (l : bytes) : parsed bytes :=
  let p := sorted_line l in Parsed (p_command p) (unquote (p_args p)) (p_output p).

(** The shell can run a line with at least one and at most [MAX_ARGS] arguments. *)
Definition runs (l : bytes) : bool :=
  bool_decide (0 < length (p_args (sorted_line l)) ≤ MAX_ARGS)%nat.

(** A pointer that is NULL or points to a string. *)
Definition opt_cstr (m : mem) (p : Z) (o : option bytes) : Prop :=
  match o with Some l => p ≠ 0 ∧ cstr m p l | None => p = 0 end.

(** The command structure holds a parsed line. *)
Definition holds (m : mem) (c : ParsedCommand) (p : parsed bytes) : Prop :=
  opt_cstr m (command c) (p_command p) ∧
  (∃ ps, args c = ps ++ replicate (MAX_ARGS - length ps) 0 ∧ numArgs c = Z.of_nat (length ps) ∧
     Forall2 (cstr m) ps (p_args p)) ∧
  length (args c) = MAX_ARGS ∧
  opt_cstr m (outputFile c) (p_output p).


(** What a session does: the lines given to [do_fork], or undefined behaviour. *)
Fixpoint session (fuel : nat) (flushed : nat → Z) (i : nat) (stream : bytes) : res (list (parsed bytes)) :=
  match fuel with
  | O => Err NoFuel
  | S fuel =>
      if negb (flushed i =? 0) || bool_decide (stream = []) then Ok [] else
      let '(l, rest) := take_line (Z.to_nat (MAX_INPUT - 1)) stream in
      let line := upto 0 l in
      if bool_decide (line = str "exit" ++ [NEWLINE]) then Ok [] else
      let line := upto NEWLINE line in
      if runs line then ps ← session fuel flushed (S i) rest; Ok (parse_line line :: ps)
      else Err UB
  end.

(** ** Lemmas *)

Section strings.
Implicit Types (m : mem) (a p : Z) (l w : bytes).

Lemma streq_spec m a l lit :
  cstr m a l → 0 ∉ lit → streq m a lit = bool_decide (l = lit).
Proof.
  revert a l. induction lit as [|c lit IH]; intros a [|x l] Hl Hn; cbn [streq].
  - apply cstr_nil in Hl as ->. done.
  - apply cstr_cons in Hl as (-> & ? & _). by destruct (Z.eqb_spec x 0).
  - apply cstr_nil in Hl as ->. apply not_elem_of_cons in Hn as [? _].
    by destruct (Z.eqb_spec 0 c).
  - apply cstr_cons in Hl as (-> & ? & Hl). apply not_elem_of_cons in Hn as [? Hn].
    rewrite (IH _ l) by done. destruct (Z.eqb_spec x c); cbn.
    + subst. apply bool_decide_ext. naive_solver.
    + symmetry. apply bool_decide_eq_false. naive_solver.
Qed.

(** A string starting at [a] that ends below [b] is not changed by a write outside. *)
Lemma cstr_frame m m' a l :
  (∀ b, a ≤ b ≤ a + Z.of_nat (length l) → rd m' b = rd m b) → cstr m a l → cstr m' a l.
Proof.
  intros H [Hc H0]. split.
  - intros i v Hi. pose proof (lookup_lt_Some _ _ _ Hi). rewrite H by lia. by apply Hc.
  - by rewrite H by lia.
Qed.

Lemma cstr_app m a l l' : cstr m a (l ++ l') → cstr m (a + Z.of_nat (length l)) l'.
Proof.
  revert a. induction l as [|x l IH]; intros a; cbn [app length]; [by rewrite Z.add_0_r|].
  intros (_ & _ & H%IH)%cstr_cons. by replace (a + _) with (a + 1 + Z.of_nat (length l)) by lia.
Qed.

(** Cutting a string by a NUL. *)
Lemma cstr_cut m a l x l' :
  cstr m a (l ++ x :: l') → cstr (wr m (a + Z.of_nat (length l)) 0) a l.
Proof.
  intros [Hc _]. split.
  - intros i v Hi. pose proof (lookup_lt_Some _ _ _ Hi). rewrite rd_wr_ne by lia.
    apply Hc. by rewrite lookup_app_l by lia.
  - by rewrite rd_wr_eq.
Qed.

Lemma cstr_nonzero m a l : cstr m a l → 0 ∉ l.
Proof. intros [Hc _] (i & Hi)%list_elem_of_lookup. by destruct (Hc i 0 Hi). Qed.

(** A word and what follows it. *)
Definition no_space w : Prop := SPACE ∉ w.

Lemma words_skip n l : words (replicate n SPACE ++ l) = words l.
Proof. induction n; cbn; [done|]. done. Qed.

Lemma words_word w l : w ≠ [] → no_space w → words (w ++ SPACE :: l) = w :: words l.
Proof.
  unfold no_space. induction w as [|c w IH]; [done|]. intros _ [Hc Hw]%not_elem_of_cons. cbn [app words].
  destruct (Z.eqb_spec c SPACE); [congruence|]. destruct w as [|d w]; [cbn; by destruct (words l)|].
  rewrite IH by done. cbn [app]. apply not_elem_of_cons in Hw as [Hd _].
  by destruct (Z.eqb_spec d SPACE); [congruence|].
Qed.

Lemma words_last w : w ≠ [] → no_space w → words w = [w].
Proof.
  unfold no_space. induction w as [|c w IH]; [done|]. intros _ [Hc Hw]%not_elem_of_cons. cbn [words].
  destruct (Z.eqb_spec c SPACE); [congruence|]. destruct w as [|d w]; [done|].
  rewrite IH by done. apply not_elem_of_cons in Hw as [Hd _].
  by destruct (Z.eqb_spec d SPACE); [congruence|].
Qed.

(** Every line is spaces, then nothing or a word that the line or a space ends. *)
Lemma split_word l :
  ∃ n r, l = replicate n SPACE ++ r ∧
    (r = [] ∨ ∃ w, w ≠ [] ∧ no_space w ∧ (r = w ∨ ∃ r', r = w ++ SPACE :: r')).
Proof.
  unfold no_space. induction l as [|c l (n & r & -> & H)]; [exists O, []; by eauto|].
  destruct (decide (c = SPACE)) as [->|Hc].
  { exists (S n), r. split; [done|]. exact H. }
  exists O. eexists. split; [reflexivity|]. right.
  destruct n as [|n].
  - destruct H as [->|(w & Hw & Hs & Hr)].
    + exists [c]. split_and!; [done| |by left]. by apply not_elem_of_cons; split; [|apply not_elem_of_nil].
    + exists (c :: w). split_and!; [done|by apply not_elem_of_cons|].
      destruct Hr as [->|(r' & ->)]; [by left|right; by exists r'].
  - exists [c]. split_and!; [done|by apply not_elem_of_cons; split; [|apply not_elem_of_nil]|]. right. by exists (replicate n SPACE ++ r).
Qed.

Lemma skip_delim_spec fuel m a n l :
  cstr m a (replicate n SPACE ++ l) → head l ≠ Some SPACE → (n < fuel)%nat →
  skip_delim fuel m a = Ok (a + Z.of_nat n).
Proof.
  revert fuel a. induction n as [|n IH]; intros [|fuel] a Hl Hh Hf; try lia; cbn [skip_delim].
  - rewrite Z.add_0_r. destruct l as [|c l]; cbn in *.
    + by apply cstr_nil in Hl as ->.
    + apply cstr_cons in Hl as (-> & _). by destruct (Z.eqb_spec c SPACE); [congruence|].
  - cbn in Hl. apply cstr_cons in Hl as (-> & _ & Hl). cbn. rewrite IH by (done || lia). f_equal. lia.
Qed.

Lemma find_delim_spec fuel m a w l :
  cstr m a (w ++ l) → no_space w → l = [] ∨ head l = Some SPACE → (length w < fuel)%nat →
  find_delim fuel m a = Ok (a + Z.of_nat (length w)).
Proof.
  unfold no_space. revert fuel a. induction w as [|c w IH]; intros [|fuel] a Hl Hs Hh Hf; cbn [length] in *; try lia;
    cbn [find_delim].
  - rewrite Z.add_0_r. cbn in Hl. destruct Hh as [->|Hh]; [by apply cstr_nil in Hl as ->|].
    destruct l as [|d l]; [done|]. cbn in Hh. injection Hh as ->. by apply cstr_cons in Hl as (-> & _).
  - apply not_elem_of_cons in Hs as [??]. cbn in Hl. apply cstr_cons in Hl as (-> & ? & Hl).
    destruct (Z.eqb_spec c 0), (Z.eqb_spec c SPACE); try congruence. cbn. rewrite IH by (done || lia). f_equal. lia.
Qed.
End strings.

(** *** Tokens *)

Section tokens.
Implicit Types (m : mem) (s t : Z) (l w : bytes) (ts : list (Z * bytes)).
Context (F : nat).

Lemma strtok_spec m s l :
  cstr m s l → (length l < F)%nat →
  ∃ m' s' t, strtok F m s = Ok (m', s', t) ∧
  match words l with
  | [] => t = 0 ∧ m' = m ∧ cstr m s' []
  | w :: ws =>
      s ≤ t ∧ w ≠ [] ∧ cstr m' t w ∧ t + Z.of_nat (length w) ≤ s' ∧
      (∃ l', cstr m' s' l' ∧ words l' = ws ∧ s' + Z.of_nat (length l') = s + Z.of_nat (length l) ∧
         (t + Z.of_nat (length w) < s' ∨ l' = [])) ∧
      ∀ b, ¬ (s < b < s + Z.of_nat (length l)) ∨ b ≠ t + Z.of_nat (length w) → rd m' b = rd m b
  end.
Proof.
  intros Hl Hf. destruct (split_word l) as (n & r & -> & Hr). rewrite length_app, length_replicate in *.
  assert (Hr' : cstr m (s + Z.of_nat n) r).
  { apply cstr_app in Hl. by rewrite length_replicate in Hl. }
  assert (head r ≠ Some SPACE) as Hh.
  { destruct Hr as [->|(w & Hw & Hs & Hr)]; [done|]. unfold no_space in Hs.
    destruct w as [|c w]; [done|]. apply not_elem_of_cons in Hs as [? _].
    destruct Hr as [->|(r' & ->)]; cbn; congruence. }
  unfold strtok. rewrite (skip_delim_spec F m s n r) by (done || lia). cbn [mbind res_bind].
  rewrite words_skip. destruct Hr as [->|(w & Hw & Hs & Hr)].
  { pose proof (proj1 (cstr_nil _ _) Hr') as ->. cbn. by do 3 eexists. }
  assert (rd m (s + Z.of_nat n) ≠ 0) as Hnz.
  { destruct w as [|c w]; [done|].
    destruct Hr as [->|(r' & ->)]; cbn in Hr'; by apply cstr_cons in Hr' as (-> & ? & _). }
  destruct (Z.eqb_spec (rd m (s + Z.of_nat n)) 0) as [?|_]; [done|].
  assert (0 < length w)%nat by (destruct w; [done|cbn; lia]).
  destruct Hr as [->|(r' & ->)].
  - rewrite (find_delim_spec F m _ w []); [|by rewrite app_nil_r|done|by left|lia].
    cbn [mbind res_bind]. rewrite (proj2 Hr'), words_last by done. cbn. do 3 eexists. split; [done|].
    split_and!; [lia|done|done|lia| |done].
    exists []. split_and!; [apply cstr_nil, Hr'|done|cbn; lia|by right].
  - rewrite length_app in *. cbn [length] in *.
    rewrite (find_delim_spec F m _ w (SPACE :: r')); [|done|done|by right|lia].
    pose proof (cstr_app _ _ _ _ Hr') as [Hsp Hr2]%cstr_cons. cbn [mbind res_bind]. rewrite Hsp, words_word by done.
    cbn. do 3 eexists. split; [done|]. destruct Hr2 as [_ Hr2].
    split_and!; [lia|done|by eapply cstr_cut|lia| |].
    + exists r'. split_and!; [|done|lia|left; lia].
      eapply cstr_frame; [|exact Hr2]. intros b Hb. rewrite rd_wr_ne by lia. done.
    + intros b Hb. rewrite rd_wr_ne by lia. done.
Qed.

(** The tokens that successive calls of [strtok] find, and the memory after them. *)
Inductive toks : mem → Z → list (Z * bytes) → mem → Prop :=
| toks_nil m s s' : strtok F m s = Ok (m, s', 0) → strtok F m s' = Ok (m, s', 0) → toks m s [] m
| toks_cons m s m1 s1 t w ts m' :
    strtok F m s = Ok (m1, s1, t) → t ≠ 0 → cstr m1 t w → toks m1 s1 ts m' →
    toks m s ((t, w) :: ts) m'.

(** Tokens in order and apart in memory. *)
Fixpoint placed m (lo : Z) ts : Prop :=
  match ts with
  | [] => True
  | (t, w) :: ts => lo ≤ t ∧ w ≠ [] ∧ cstr m t w ∧ placed m (t + Z.of_nat (length w) + 1) ts
  end.

Lemma placed_weaken m lo lo' ts : placed m lo ts → lo' ≤ lo → placed m lo' ts.
Proof. destruct ts as [|[t w] ts]; cbn; [done|]. intros (? & ?) ?. split; [lia|done]. Qed.

Lemma strtok_end m s : cstr m s [] → (0 < F)%nat → strtok F m s = Ok (m, s, 0).
Proof.
  intros H%cstr_nil Hf. unfold strtok. destruct F as [|n]; [lia|]. cbn [skip_delim].
  rewrite H. change (0 =? SPACE) with false. cbn. by rewrite H.
Qed.

Lemma toks_exist m s l :
  0 < s → cstr m s l → (length l < F)%nat →
  ∃ ts m', toks m s ts m' ∧ ts.*2 = words l ∧ placed m' s ts ∧
    (∀ t w, (t, w) ∈ ts → t + Z.of_nat (length w) ≤ s + Z.of_nat (length l)) ∧
    ∀ b, ¬ (s < b < s + Z.of_nat (length l)) → rd m' b = rd m b.
Proof.
  intros Hs. remember (words l) as ws eqn:Ews. revert m s l Hs Ews.
  induction ws as [|w ws IH]; intros m s l Hs Ews Hl Hf;
    destruct (strtok_spec m s l Hl Hf) as (m1 & s1 & t & E & H); rewrite <- Ews in H.
  - destruct H as (-> & -> & H). exists [], m. split_and!; [|done|done|by intros ?? ?%elem_of_nil|done].
    econstructor; [exact E|]. apply strtok_end; [done|lia].
  - destruct H as (Ht & Hw & Hc & Hs1 & (l' & Hl' & Hws & Hlen & Hor) & Hfr).
    assert (0 < length w)%nat by (destruct w; [done|cbn; lia]).
    destruct (IH m1 s1 l') as (ts & m' & Htk & Hmap & Hp & Hup & Hfr'); [lia|done|done|lia|].
    exists ((t, w) :: ts), m'. split_and!.
    + econstructor; [exact E|lia|exact Hc|exact Htk].
    + cbn. by rewrite Hmap.
    + cbn. split_and!; [done|done| |].
      * eapply cstr_frame; [|exact Hc]. intros b Hb. apply Hfr'. lia.
      * destruct Hor as [| ->]; [eapply placed_weaken; [done|lia]|].
        cbn in Hws. subst ws. by destruct ts.
    + intros t' w' [[= -> ->]|Hin]%elem_of_cons; [lia|]. specialize (Hup _ _ Hin). lia.
    + intros b Hb. rewrite Hfr' by lia. apply Hfr. by left.
Qed.

Lemma placed_elem m lo ts t w :
  placed m lo ts → (t, w) ∈ ts → lo ≤ t ∧ w ≠ [] ∧ cstr m t w.
Proof.
  revert lo. induction ts as [|[t' w'] ts IH]; intros lo Hp Hin; [by apply elem_of_nil in Hin|].
  cbn in Hp. destruct Hp as (? & ? & ? & Hp).
  apply elem_of_cons in Hin as [[= -> ->]|Hin]; [done|]. destruct (IH _ Hp Hin) as (? & ? & ?).
  split_and!; [lia|done|done].
Qed.

Lemma placed_nodup m lo ts : placed m lo ts → NoDup ts.*1.
Proof.
  revert lo. induction ts as [|[t w] ts IH]; intros lo Hp; cbn; [constructor|].
  cbn in Hp. destruct Hp as (? & ? & ? & Hp). constructor; [|by eapply IH].
  intros ([t' w'] & -> & Hin)%list_elem_of_fmap. pose proof (placed_elem _ _ _ _ _ Hp Hin). cbn in *. lia.
Qed.

Lemma placed_apart m lo ts t w t' w' :
  placed m lo ts → (t, w) ∈ ts → (t', w') ∈ ts → t ≠ t' →
  t + Z.of_nat (length w) < t' ∨ t' + Z.of_nat (length w') < t.
Proof.
  revert lo. induction ts as [|[u v] ts IH]; intros lo Hp Hin Hin' Hne; [by apply elem_of_nil in Hin|].
  cbn in Hp. destruct Hp as (? & ? & ? & Hp).
  apply elem_of_cons in Hin as [[= -> ->]|Hin]; apply elem_of_cons in Hin' as [[= -> ->]|Hin']; try done.
  - pose proof (placed_elem _ _ _ _ _ Hp Hin'). lia.
  - pose proof (placed_elem _ _ _ _ _ Hp Hin). lia.
  - by eapply IH.
Qed.
End tokens.

(** *** Sorting *)

Section sorting.
Context {A B : Type}.
Implicit Types (p : parsed A) (ws : list A).

(** The words a parsed line consists of. *)
Definition parts p : list A :=
  option_list (p_command p) ++ p_args p ++ option_list (p_output p).

Definition parsed_map (f : A → B) p : parsed B :=
  Parsed (f <$> p_command p) (f <$> p_args p) (f <$> p_output p).

Lemma sort_words_map (f : A → B) (g : B → bool) p ws :
  sort_words g (parsed_map f p) (f <$> ws) = parsed_map f (sort_words (g ∘ f) p ws).
Proof.
  remember (length ws) as n eqn:En. revert p ws En.
  induction (lt_wf n) as [n _ IH]. intros [[c|] a o] [|w ws] ->; cbn; try done.
  - destruct (g (f w)).
    + destruct ws as [|x ws]; cbn; [done|]. by rewrite <- (IH (length ws)) by (done || cbn; lia).
    + rewrite <- (IH (length ws)) by (done || cbn; lia). unfold parsed_map. cbn. by rewrite fmap_app.
  - by rewrite <- (IH (length ws)) by (done || cbn; lia).
Qed.

Lemma sort_words_parts (g : A → bool) p ws : parts (sort_words g p ws) ⊆+ parts p ++ ws.
Proof.
  unfold parts. remember (length ws) as n eqn:En. revert p ws En.
  induction (lt_wf n) as [n _ IH]. intros [[c|] a o] [|w ws] ->; cbn.
  - by rewrite app_nil_r.
  - destruct (g w).
    + destruct ws as [|x ws]; cbn.
      * apply submseteq_skip. rewrite app_nil_r, <- app_assoc. apply submseteq_inserts_r. done.
      * etrans; [apply (IH (length ws)); [cbn; lia|done]|]. cbn. apply submseteq_skip.
        rewrite <- !app_assoc. apply submseteq_app; [done|]. apply submseteq_inserts_l. cbn.
        by apply submseteq_cons.
    + etrans; [apply (IH (length ws)); [cbn; lia|done]|]. cbn. apply submseteq_skip.
      rewrite <- !app_assoc. apply submseteq_app; [done|]. cbn. rewrite (Permutation_middle (option_list o) ws w). done.
  - by rewrite app_nil_r.
  - etrans; [apply (IH (length ws)); [cbn; lia|done]|]. cbn. by rewrite Permutation_middle.
Qed.

Lemma sort_words_args (g : A → bool) p ws : (length (p_args p) ≤ length (p_args (sort_words g p ws)))%nat.
Proof.
  remember (length ws) as n eqn:En. revert p ws En.
  induction (lt_wf n) as [n _ IH]. intros [[c|] a o] [|w ws] ->; cbn; try lia.
  - destruct (g w).
    + destruct ws as [|x ws]; cbn; [lia|]. apply (IH (length ws) ltac:(cbn; lia) (Parsed _ _ _) ws eq_refl).
    + pose proof (IH (length ws) ltac:(cbn; lia) (Parsed (Some c) (a ++ [w]) o) ws eq_refl) as H.
      cbn in H. rewrite length_app in H. cbn in H. lia.
  - apply (IH (length ws) ltac:(cbn; lia) (Parsed _ _ _) ws eq_refl).
Qed.
End sorting.

(** The structure that holds pointers to the words of a parsed line. *)
Definition to_c (p : parsed (Z * bytes)) : ParsedCommand :=
  MkCommand (default 0 (fst <$> p_command p))
    ((p_args p).*1 ++ replicate (MAX_ARGS - length (p_args p)) 0)
    (Z.of_nat (length (p_args p))) (default 0 (fst <$> p_output p)).

Definition word_is_gt (x : Z * bytes) : bool := bool_decide (x.2 = str ">").

Lemma push_arg_ok t w p :
  push_arg t (to_c p) =
    if decide (length (p_args p) < MAX_ARGS)%nat
    then Ok (to_c (Parsed (p_command p) (p_args p ++ [(t, w)]) (p_output p))) else Err UB.
Proof.
  unfold push_arg, to_c. cbn [numArgs args command outputFile p_command p_args p_output].
  unfold MAX_ARGS. destruct (decide (length (p_args p) < 64)%nat); [|by rewrite decide_False by lia].
  rewrite decide_True by lia. f_equal. f_equal.
  - unfold zset. rewrite decide_True, Nat2Z.id by lia.
    rewrite insert_app_r_alt by (rewrite length_fmap; lia).
    rewrite length_fmap, Nat.sub_diag, fmap_app, <- app_assoc. f_equal.
    rewrite length_app. cbn. destruct (64 - length (p_args p))%nat as [|n] eqn:E; [lia|]. cbn.
    by replace (64 - (length (p_args p) + 1))%nat with n by lia.
  - rewrite length_app, wrapU_small by lia. cbn. lia.
Qed.

(** The command structure for a parsed line, if its arguments fit. *)
Definition stored (m : mem) (p : parsed (Z * bytes)) : res (mem * ParsedCommand) :=
  if decide (length (p_args p) ≤ MAX_ARGS)%nat then Ok (m, to_c p) else Err UB.

(** The loop sorts the tokens, as long as the arguments fit. *)
Lemma parse_loop_toks F fuel m s ts m' p :
  toks F m s ts m' → (length ts < fuel)%nat →
  (length (p_args p) ≤ MAX_ARGS)%nat → (∀ x, p_command p = Some x → x.1 ≠ 0) →
  ('(m, save, token) ← strtok F m s; parse_loop fuel F m save token (to_c p)) =
    stored m' (sort_words word_is_gt p ts).
Proof.
  revert m s ts p. induction fuel as [|fuel IH]; intros m s ts p Ht Hf Hlen Hc; [lia|].
  destruct Ht as [m s s' E E2|m s m1 s1 t w ts m' E Htz Htc Ht]; rewrite E; cbn [mbind res_bind parse_loop].
  { cbn. unfold stored. by rewrite decide_True. }
  destruct (Z.eqb_spec t 0) as [|_]; [done|]. cbn [length] in Hf.
  destruct p as [[[t0 w0]|] a o]; cbn [to_c command p_command fmap option_fmap option_map default fst].
  2:{ change (0 =? 0) with true. cbn [mbind res_bind]. cbn [sort_words p_command p_args p_output].
      apply (IH _ _ _ (Parsed (Some (t, w)) a o)); [done|lia|done|]. by intros ? [= <-]. }
  change (id t0) with t0. destruct (Z.eqb_spec t0 0) as [->|_]; [by specialize (Hc (0, w0) eq_refl)|].
  rewrite (streq_spec m1 t w) by (done || by apply (bool_decide_unpack _)).
  cbn [sort_words p_command p_args p_output]. unfold word_is_gt at 1. cbn [snd].
  destruct (bool_decide (w = str ">")).
  - destruct Ht as [m1 s1 s2 E1 E2|m1 s1 m2 s2 t2 w2 ts m' E1 Ht2 Hc2 Ht]; rewrite E1; cbn [mbind res_bind].
    + rewrite E2. cbn [mbind res_bind]. destruct fuel as [|fuel]; [cbn in Hf; lia|]. cbn. unfold stored. by rewrite decide_True.
    + cbn [length] in Hf. apply (IH _ _ _ (Parsed (Some (t0, w0)) a (Some (t2, w2)))); [done|lia|done|done].
  - change (MkCommand t0 _ _ _) with (to_c (Parsed (Some (t0, w0)) a o)).
    rewrite (push_arg_ok t w). cbn [p_command p_args p_output] in *.
    destruct (decide (length a < MAX_ARGS)%nat).
    + cbn [mbind res_bind]. apply (IH _ _ _ (Parsed (Some (t0, w0)) (a ++ [(t, w)]) o)); [done|lia| |done].
      cbn. rewrite length_app. cbn. lia.
    + cbn [mbind res_bind]. unfold stored. rewrite decide_False; [done|].
      pose proof (sort_words_args word_is_gt (Parsed (Some (t0, w0)) (a ++ [(t, w)]) o) ts) as H.
      cbn in H. rewrite length_app in H. cbn in H. lia.
Qed.

(** *** Quotes *)

Lemma bool_decide_ext_eqb (P : Prop) `{Decision P} a b : (P ↔ a = b) → bool_decide P = (a =? b).
Proof. intros HP. destruct (Z.eqb_spec a b); [apply bool_decide_eq_true|apply bool_decide_eq_false]; tauto. Qed.

Lemma removelast_snoc {A} (l : list A) x : removelast (l ++ [x]) = l.
Proof. by rewrite removelast_app, app_nil_r. Qed.

Lemma list_last_snoc {A} (l : list A) x : list.last (l ++ [x]) = Some x.
Proof. apply last_snoc. Qed.

(** Words and their places: the strings hold, the places are apart. *)
Record apart (m : mem) (ts : list (Z * bytes)) : Prop := MkApart {
  apart_cstr : ∀ t w, (t, w) ∈ ts → 0 < t ∧ w ≠ [] ∧ cstr m t w;
  apart_nodup : NoDup ts.*1;
  apart_ranges : ∀ t w t' w', (t, w) ∈ ts → (t', w') ∈ ts → t ≠ t' →
    t + Z.of_nat (length w) < t' ∨ t' + Z.of_nat (length w') < t
}.

Lemma placed_is_apart m lo ts : 0 < lo → placed m lo ts → apart m ts.
Proof.
  intros ? Hp. split; [|by eapply placed_nodup|intros *; by eapply placed_apart].
  intros t w Hin. destruct (placed_elem _ _ _ _ _ Hp Hin) as (? & ? & ?). split_and!; [lia|done|done].
Qed.

Lemma apart_sub m ts ts' : ts' ⊆+ ts → apart m ts → apart m ts'.
Proof.
  intros Hs H. split.
  - intros t w Hin. apply H. by eapply elem_of_submseteq.
  - apply submseteq_Permutation in Hs as (k & Hk). pose proof (apart_nodup _ _ H) as Hn.
    rewrite Hk, fmap_app in Hn. by apply list.NoDup_app in Hn as (? & _).
  - intros t w t' w' Hin Hin'. apply (apart_ranges _ _ H); by eapply elem_of_submseteq.
Qed.

(** A write into one of the words leaves the others. *)
Lemma apart_frame m ts x t w t' w' :
  apart m ts → (t, w) ∈ ts → t ≤ x ≤ t + Z.of_nat (length w) → (t', w') ∈ ts → t' ≠ t →
  cstr (wr m x 0) t' w'.
Proof.
  intros H Hin Hx Hin' Hne. destruct (apart_cstr _ _ H _ _ Hin') as (_ & _ & Hc).
  eapply cstr_frame; [|exact Hc]. intros b Hb. apply rd_wr_ne.
  destruct (apart_ranges _ _ H _ _ _ _ Hin Hin'); [done|lia|lia].
Qed.

Lemma fst_head_char m t w : w ≠ [] → cstr m t w → head w = Some (rd m t).
Proof. destruct w as [|c w]; [done|]. by intros _ (-> & _)%cstr_cons. Qed.

Lemma fst_last_char m t w :
  w ≠ [] → cstr m t w → list.last w = Some (rd m (t + (Z.of_nat (length w) - 1))).
Proof.
  intros Hw. destruct w as [|c w _] using rev_ind; [done|]. rewrite last_snoc.
  intros H%cstr_app%cstr_cons. destruct H as (H & _). rewrite length_app. cbn.
  replace (Z.of_nat (length w + 1) - 1) with (Z.of_nat (length w)) by lia. by rewrite H.
Qed.

(** The word left after its last character is cut. *)
Lemma cstr_cut_last m t w :
  w ≠ [] → cstr m t w → cstr (wr m (t + (Z.of_nat (length w) - 1)) 0) t (removelast w).
Proof.
  intros Hw. destruct w as [|c w _] using rev_ind; [done|]. rewrite removelast_snoc, length_app. cbn.
  replace (Z.of_nat (length w + 1) - 1) with (Z.of_nat (length w)) by lia. apply cstr_cut.
Qed.

Lemma cstr_tail_last m t w :
  w ≠ [] → cstr m t w → cstr (wr m (t + (Z.of_nat (length w) - 1)) 0) (t + 1) (tail (removelast w)).
Proof.
  intros Hw H. pose proof (cstr_cut_last m t w Hw H) as Hl. destruct w as [|c [|d w]]; [done|..].
  - cbn in *. apply cstr_nil. rewrite rd_wr_ne by lia. by apply cstr_cons in H as (_ & _ & H%cstr_nil).
  - change (removelast (c :: d :: w)) with (c :: removelast (d :: w)) in *. by apply cstr_cons in Hl as (_ & _ & ?).
Qed.

Definition word_at (m : mem) (x : Z * bytes) : Prop := 0 < x.1 ∧ cstr m x.1 x.2.

Lemma apart_word_at m ts : apart m ts → Forall (word_at m) ts.
Proof. intros H. apply list.Forall_forall. intros [t w] Hin. destruct (apart_cstr _ _ H _ _ Hin) as (? & _ & ?). done. Qed.

Lemma apart_others m t w ts x :
  apart m ((t, w) :: ts) → t ≤ x ≤ t + Z.of_nat (length w) → Forall (word_at (wr m x 0)) ts.
Proof.
  intros H Hx. apply list.Forall_forall. intros [t' w'] Hin.
  assert ((t', w') ∈ (t, w) :: ts) as Hin' by by right.
  destruct (apart_cstr _ _ H _ _ Hin') as (Hpos & _ & _). split; [done|]. cbn [fst snd].
  eapply apart_frame; [exact H|by left|done|done|]. intros ->.
  apply apart_nodup in H. cbn in H. apply list.NoDup_cons in H as [Hn _]. apply Hn.
  apply list_elem_of_fmap. by exists (t, w').
Qed.

Lemma holds_intro m cmd ps ws o :
  (length ps ≤ MAX_ARGS)%nat → Forall2 (cstr m) ps ws →
  Forall (word_at m) (option_list cmd) → Forall (word_at m) (option_list o) →
  holds m (MkCommand (default 0 (fst <$> cmd)) (ps ++ replicate (MAX_ARGS - length ps) 0)
             (Z.of_nat (length ps)) (default 0 (fst <$> o)))
    (Parsed (snd <$> cmd) ws (snd <$> o)).
Proof.
  intros Hlen Hps Hc Ho.
  assert (∀ r, Forall (word_at m) (option_list r) → opt_cstr m (default 0 (fst <$> r)) (snd <$> r)) as H.
  { intros [[t w]|]; cbn; [|done]. intros [[??] _]%list.Forall_cons. cbn in *. unfold id. split; [lia|done]. }
  split_and!; [by apply H|by exists ps| |by apply H]. cbn [args]. rewrite length_app, length_replicate. unfold MAX_ARGS in *. lia.
Qed.

(** The conditions of the test for quotes, on the words. *)
Lemma quotes_test m t0 w0 tn wn rest init :
  (t0, w0) :: rest = init ++ [(tn, wn)] → w0 ≠ [] → wn ≠ [] → cstr m t0 w0 → cstr m tn wn →
  bool_decide (head (((t0, w0) :: rest).*2) ≫= head = Some QUOTE) = (rd m t0 =? QUOTE) ∧
  bool_decide (list.last (((t0, w0) :: rest).*2) ≫= list.last = Some QUOTE) =
    (rd m (tn + (Z.of_nat (length wn) - 1)) =? QUOTE).
Proof.
  intros E H0 Hn Hc0 Hcn. split.
  - cbn. rewrite (fst_head_char m t0) by done. apply bool_decide_ext_eqb. split; [by intros [= ?]|by intros ->].
  - rewrite E, fmap_app. cbn [fmap list_fmap snd]. rewrite last_snoc. cbn.
    rewrite (fst_last_char m tn) by done. apply bool_decide_ext_eqb. split; [by intros [= ?]|by intros ->].
Qed.

Lemma zget_last_arg q init tn wn :
  p_args q = init ++ [(tn, wn)] → (length (p_args q) ≤ MAX_ARGS)%nat →
  zget (args (to_c q)) (u32 (numArgs (to_c q) - 1)) = Some tn.
Proof.
  intros E Hlen. unfold to_c. cbn [args numArgs]. rewrite E in *. rewrite length_app in *. cbn [length] in *.
  unfold MAX_ARGS in Hlen. rewrite wrapU_small by lia. unfold zget. rewrite decide_True by lia.
  rewrite fmap_app, <- app_assoc, lookup_app_r by (rewrite length_fmap; lia). rewrite length_fmap.
  by replace (Z.to_nat _ - length init)%nat with O by lia.
Qed.

Lemma args_in_parts {A} (q : parsed A) x : x ∈ p_args q → x ∈ parts q.
Proof. intros. unfold parts. rewrite !elem_of_app. by right; left. Qed.

Lemma elem_of_snoc {A} (l : list A) x : x ∈ l ++ [x].
Proof. apply elem_of_app. right. by left. Qed.

(** What the test of [remove_quotes] finds, and its result, as an equation. *)
Lemma remove_quotes_eq F m q t0 w0 rest init tn wn :
  apart m (parts q) → p_args q = (t0, w0) :: rest → p_args q = init ++ [(tn, wn)] →
  (length (p_args q) ≤ MAX_ARGS)%nat → (length wn < F)%nat → Z.of_nat (length wn) < 2 ^ 32 →
  remove_quotes F m (to_c q) =
    if (rd m t0 =? QUOTE) && (rd m (tn + (Z.of_nat (length wn) - 1)) =? QUOTE)
    then Ok (wr m (tn + (Z.of_nat (length wn) - 1)) 0,
             MkCommand (command (to_c q)) (zset (args (to_c q)) 0 (t0 + 1)) (numArgs (to_c q)) (outputFile (to_c q)))
    else Ok (m, to_c q).
Proof.
  intros Ha E0 En Hlen Hf Hw.
  assert ((t0, w0) ∈ parts q) as H0 by (apply args_in_parts; rewrite E0; left).
  assert ((tn, wn) ∈ parts q) as Hn by (apply args_in_parts; rewrite En; apply elem_of_snoc || left).
  destruct (apart_cstr _ _ Ha _ _ H0) as (? & _ & _), (apart_cstr _ _ Ha _ _ Hn) as (? & ? & Hc).
  unfold remove_quotes. rewrite (zget_last_arg q init tn wn) by done.
  replace (zget (args (to_c q)) 0) with (Some t0) by (unfold to_c; by rewrite E0).
  unfold of_option, strlen. cbn [mbind res_bind]. unfold deref.
  destruct (Z.eqb_spec t0 0), (Z.eqb_spec tn 0); try lia. cbn [mbind res_bind].
  rewrite (strlen_loop_spec F m tn wn 0) by (done || lia). cbn [mbind res_bind].
  assert (0 < length wn)%nat by (destruct wn; [done|cbn; lia]).
  rewrite Z.add_0_l, wrapU_small by lia.
  replace (numArgs (to_c q) >? 0) with true; [done|]. unfold to_c. cbn [numArgs]. rewrite E0. done.
Qed.

(** The words of a command whose arguments are quoted, once the quotes are gone. *)
Lemma unquoted_args m q t0 w0 rest init tn wn :
  apart m (parts q) → p_args q = (t0, w0) :: rest → p_args q = init ++ [(tn, wn)] →
  let m' := wr m (tn + (Z.of_nat (length wn) - 1)) 0 in
  Forall2 (cstr m') ((t0 + 1) :: rest.*1) (drop_head_char (drop_last_char (p_args q).*2)) ∧
  Forall (word_at m') (option_list (p_command q)) ∧ Forall (word_at m') (option_list (p_output q)).
Proof.
  intros Ha E0 En m'. rewrite En.
  assert (apart m ((tn, wn) :: option_list (p_command q) ++ init ++ option_list (p_output q))) as Hp.
  { eapply apart_sub; [|exact Ha]. unfold parts. rewrite En, <- app_assoc. cbn. apply Permutation_submseteq.
    by rewrite !(Permutation_middle _ _ (tn, wn)). }
  destruct (apart_cstr _ _ Hp tn wn) as (_ & Hw & Hc); [by left|].
  pose proof (apart_others _ _ _ _ (tn + (Z.of_nat (length wn) - 1)) Hp) as Ho.
  assert (0 < length wn)%nat by (destruct wn; [done|cbn; lia]).
  specialize (Ho ltac:(lia)). rewrite !list.Forall_app in Ho. destruct Ho as (Ho1 & Hi & Ho2).
  split; [|done]. unfold drop_last_char. rewrite fmap_app. cbn [fmap list_fmap snd].
  rewrite last_snoc, removelast_snoc. rewrite E0 in En. destruct init as [|[ti wi] init]; cbn in En.
  - injection En as -> -> ->. cbn. apply list.Forall2_cons. split; [by apply cstr_tail_last|constructor].
  - injection En as -> -> ->. cbn in Hi |- *. apply list.Forall_cons in Hi as [[_ H0] Hi]. cbn in H0.
    destruct (apart_cstr _ _ Ha ti wi) as (_ & Hwi & _); [apply args_in_parts; rewrite E0; left|].
    apply list.Forall2_cons. split.
    { destruct wi; [done|]. by apply cstr_cons in H0 as (_ & _ & ?). }
    rewrite fmap_app. apply Forall2_app; [|apply list.Forall2_cons; split; [by apply cstr_cut_last|constructor]].
    apply Forall2_fmap, Forall_Forall2_diag. eapply list.Forall_impl; [exact Hi|]. by intros x [_ ?].
Qed.

Lemma remove_quotes_spec F m q :
  apart m (parts q) → p_args q ≠ [] → (length (p_args q) ≤ MAX_ARGS)%nat →
  (∀ t w, (t, w) ∈ p_args q → (length w < F)%nat ∧ Z.of_nat (length w) < 2 ^ 32) →
  ∃ m' c', remove_quotes F m (to_c q) = Ok (m', c') ∧
    holds m' c' (Parsed (snd <$> p_command q) (unquote (p_args q).*2) (snd <$> p_output q)) ∧
    ∀ b, rd m' b = rd m b ∨ ∃ t w, (t, w) ∈ p_args q ∧ t ≤ b < t + Z.of_nat (length w).
Proof.
  intros Ha Hne Hlen Hsz.
  destruct (p_args q) as [|[tn wn] init _] eqn:En using rev_ind; [done|].
  destruct (init ++ [(tn, wn)]) as [|[t0 w0] rest] eqn:E0; [by destruct init|].
  rewrite <- En in Hsz.
  destruct (Hsz tn wn) as [Hf Hw]; [rewrite En, <- E0; apply elem_of_snoc|].
  rewrite (remove_quotes_eq F m q t0 w0 rest init tn wn) by (done || congruence).
  assert ((t0, w0) ∈ parts q) as H0 by (apply args_in_parts; rewrite En; apply elem_of_snoc || left).
  assert ((tn, wn) ∈ parts q) as Hn by (apply args_in_parts; rewrite En, <- E0; apply elem_of_snoc).
  destruct (apart_cstr _ _ Ha _ _ H0) as (_ & Hw0 & Hc0), (apart_cstr _ _ Ha _ _ Hn) as (_ & Hwn & Hcn).
  destruct (quotes_test m t0 w0 tn wn rest init) as [Q1 Q2]; try done.
  assert (0 < length wn)%nat by (destruct wn; [done|cbn; lia]).
  unfold unquote. rewrite Q1, Q2. destruct (_ && _).
  - do 2 eexists. split; [done|]. split.
    + destruct (unquoted_args m q t0 w0 rest init tn wn Ha) as (H1 & H2 & H3); [congruence|congruence|].
      rewrite En in H1. cbn [length] in Hlen.
      assert (length (t0 + 1 :: rest.*1) = S (length rest)) as Hl by (cbn; by rewrite length_fmap).
      pose proof (holds_intro _ (p_command q) (t0 + 1 :: rest.*1) _ (p_output q) ltac:(lia) H1 H2 H3) as H4.
      rewrite Hl in H4. unfold to_c. rewrite En. exact H4.
    + intros b. destruct (decide (b = tn + (Z.of_nat (length wn) - 1))) as [->|].
      * right. exists tn, wn. split; [rewrite <- E0; apply elem_of_snoc|lia].
      * left. by rewrite rd_wr_ne by lia.
  - do 2 eexists. split; [done|]. split; [|by left].
    pose proof (apart_word_at _ _ Ha) as Hall. unfold parts in Hall. rewrite !list.Forall_app in Hall.
    destruct Hall as (? & Hargs & ?). rewrite En in Hargs.
    assert (Forall2 (cstr m) ((t0, w0) :: rest).*1 ((t0, w0) :: rest).*2) as HF.
    { apply Forall2_fmap, Forall_Forall2_diag. eapply list.Forall_impl; [exact Hargs|]. by intros x [_ ?]. }
    assert (length ((t0, w0) :: rest).*1 ≤ MAX_ARGS)%nat as Hlen' by by rewrite length_fmap.
    pose proof (holds_intro m (p_command q) _ _ (p_output q) Hlen' HF) as H4.
    rewrite length_fmap in H4. unfold to_c. rewrite En. by apply H4.
Qed.

Lemma length_words l : (length (words l) ≤ length l)%nat.
Proof.
  induction l as [|c l IH]; cbn [words length]; [lia|]. destruct (c =? SPACE); [lia|].
  destruct l as [|d l]; [cbn; lia|]. destruct (words (d :: l)) as [|w ws]; [cbn; lia|].
  destruct (d =? SPACE); cbn [length] in *; lia.
Qed.

Lemma remove_quotes_none F m q : p_args q = [] → remove_quotes F m (to_c q) = Err UB.
Proof. intros E. unfold remove_quotes, to_c. by rewrite E. Qed.

(** The two cases of [parse_command], and what it may write. *)
Definition parses (F : nat) (m : mem) (s : Z) (l : bytes) : Prop :=
  if runs l then
    ∃ m' c, parse_command F m s = Ok (m', c) ∧ holds m' c (parse_line l) ∧
      ∀ b, ¬ (s ≤ b < s + Z.of_nat (length l)) → rd m' b = rd m b
  else parse_command F m s = Err UB.

Lemma parse_command_ok F m s l :
  0 < s → cstr m s l → (length l < F)%nat → Z.of_nat (length l) < 2 ^ 32 → parses F m s l.
Proof.
  intros Hs Hl Hf Hlen.
  destruct (toks_exist F m s l Hs Hl Hf) as (ts & m1 & Htk & Hmap & Hp & Hup & Hfr).
  pose proof (length_words l) as Hn. rewrite <- Hmap, length_fmap in Hn.
  pose proof (parse_loop_toks F F m s ts m1 nothing_parsed Htk ltac:(lia) ltac:(cbn; lia) ltac:(done)) as Hloop.
  pose proof (sort_words_parts word_is_gt nothing_parsed ts) as Hsub.
  pose proof (sort_words_map snd (λ w, bool_decide (w = str ">")) nothing_parsed ts) as Hq.
  rewrite Hmap in Hq. change (parsed_map snd nothing_parsed) with (@nothing_parsed bytes) in Hq.
  fold (sorted_line l) in Hq. change (_ ∘ snd) with word_is_gt in Hq.
  set (q := sort_words word_is_gt nothing_parsed ts) in *. change (parts nothing_parsed ++ ts) with ts in Hsub.
  unfold parses. assert (parse_command F m s = '(m, c) ← stored m1 q; remove_quotes F m c) as ->.
  { rewrite <- Hloop. unfold parse_command. by destruct (strtok F m s) as [[[??]?]|]. }
  unfold runs, parse_line. rewrite Hq. unfold parsed_map. cbn [p_args p_command p_output].
  rewrite length_fmap. unfold stored. clear Hloop Htk Hmap Hn.
  destruct (decide (length (p_args q) ≤ MAX_ARGS)%nat) as [H64|H64]; cbn [mbind res_bind].
  2:{ by rewrite bool_decide_false by lia. }
  destruct (decide (p_args q = [])) as [E|E].
  { rewrite E. cbn. by apply remove_quotes_none. }
  rewrite bool_decide_true by (destruct (p_args q); [done|cbn in *; lia]).
  pose proof (apart_sub _ _ _ Hsub (placed_is_apart _ _ _ Hs Hp)) as Ha.
  assert (∀ t w, (t, w) ∈ p_args q → s ≤ t ∧ t + Z.of_nat (length w) ≤ s + Z.of_nat (length l)) as Hin.
  { intros t w Hin%args_in_parts. assert ((t, w) ∈ ts) as Hin' by by eapply elem_of_submseteq.
    split; [apply (placed_elem _ _ _ _ _ Hp Hin')|by apply Hup]. }
  destruct (remove_quotes_spec F m1 q Ha E H64) as (m' & c & -> & Hh & Hch).
  { intros t w H%Hin. lia. }
  exists m', c. split_and!; [done|exact Hh|]. intros b Hb.
  destruct (Hch b) as [->|(t & w & H%Hin & ?)]; [|lia]. apply Hfr. lia.
Qed.

(** *** Sessions *)

Lemma cstr_wr_list m a l :
  Forall (λ c, 0 ≤ c < 256) l → cstr (wr_list m a (l ++ [0])) a (upto 0 l).
Proof.
  revert m a. induction l as [|x l IH]; intros m a Hl; cbn [app wr_list upto].
  { apply cstr_nil. by rewrite rd_wr_eq. }
  apply list.Forall_cons in Hl as [Hx Hl].
  assert (rd (wr_list (wr m a x) (a + 1) (l ++ [0])) a = x) as Ha.
  { rewrite rd_wr_list, decide_False, rd_wr_eq by lia. by apply wrapU_small. }
  destruct (Z.eqb_spec x 0) as [->|]; [by apply cstr_nil|].
  apply cstr_cons. split_and!; [done|done|]. by apply IH.
Qed.

(** Removing the newline. *)
Lemma strip_newline F m a l :
  0 < a → cstr m a l → (length l < F)%nat →
  ∃ p, strchr F m a NEWLINE = Ok p ∧
    cstr (if negb (p =? 0) then wr m p 0 else m) a (upto NEWLINE l).
Proof.
  intros Ha Hl Hf. destruct (strchr_scan_spec l F m a NEWLINE Hl Hf) as (i & E & Hi & Hj & Hor).
  change (u8 NEWLINE) with NEWLINE in *. unfold strchr. rewrite E. cbn [mbind res_bind].
  change (u8 NEWLINE) with NEWLINE.
  assert (NEWLINE ∉ take i l) as Hni.
  { intros (j & H)%list_elem_of_lookup. pose proof (lookup_lt_Some _ _ _ H) as Hlt. rewrite length_take in Hlt.
    rewrite lookup_take_lt in H by lia. by apply (Hj j); [lia|]. }
  destruct (decide (i = length l)) as [->|Hne].
  - rewrite (proj2 Hl). change (0 =? NEWLINE) with false. exists 0. split; [done|]. cbn.
    rewrite take_ge in Hni by lia. by rewrite upto_none.
  - destruct Hor as [Hrd|]; [|done]. rewrite Hrd, Z.eqb_refl. eexists. split; [done|].
    destruct (Z.eqb_spec (a + Z.of_nat i) 0); [lia|]. cbn [negb].
    destruct (lookup_lt_is_Some_2 l i) as [x Hx]; [lia|]. destruct (proj1 Hl i x Hx) as [Hxr _].
    rewrite Hrd in Hxr. subst x. pose proof (take_drop_middle _ _ _ Hx) as Hs.
    assert (upto NEWLINE l = take i l) as -> by (rewrite <- Hs at 1; by apply upto_app).
    rewrite <- Hs in Hl. apply cstr_cut in Hl. rewrite length_take in Hl.
    by replace (i `min` length l)%nat with i in Hl by lia.
Qed.

(** The commands of a session hold its lines. *)
Definition ran (ps : list (parsed bytes)) (calls : list (ParsedCommand * mem)) : Prop :=
  Forall2 (λ p '(c, m), holds m c p) ps calls.

Lemma main_loop_spec fuel flushed i m input s calls :
  0 < input → Forall (λ c, 0 ≤ c < 256) s → (length s < fuel)%nat →
  match session fuel flushed i s with
  | Ok ps => ∃ calls', main_loop fuel flushed i m input s calls = Ok (calls ++ calls') ∧ ran ps calls'
  | Err e => e = UB ∧ main_loop fuel flushed i m input s calls = Err UB
  end.
Proof.
  intros Hin. revert i m s calls. induction fuel as [|fuel IH]; intros i m s calls Hs Hf; [lia|].
  cbn [session main_loop]. destruct (flushed i =? 0); cbn [negb orb].
  2:{ exists []. rewrite app_nil_r. split; [done|constructor]. }
  unfold fgets. destruct s as [|c s].
  { exists []. rewrite app_nil_r. split; [done|constructor]. }
  rewrite (bool_decide_false (c :: s = [])) by done.
  pose proof (take_line_spec (Z.to_nat (MAX_INPUT - 1)) (c :: s)) as Ht.
  destruct (take_line _ (c :: s)) as [l rest]. destruct Ht as (Hcs & Hl & Hrest).
  specialize (Hrest ltac:(done) ltac:(unfold MAX_INPUT; lia)).
  rewrite Hcs in Hs. apply list.Forall_app in Hs as [Hsl Hsr].
  pose proof (cstr_wr_list m input l Hsl) as Hc. set (m1 := wr_list m input (l ++ [0])) in *.
  pose proof (length_upto 0 l) as Hu. set (line := upto 0 l) in *.
  rewrite (streq_spec m1 input line) by (done || by apply (bool_decide_unpack _)).
  destruct (bool_decide (line = _)).
  { exists []. rewrite app_nil_r. split; [done|constructor]. }
  unfold MAX_INPUT in *.
  destruct (strip_newline (Z.to_nat 1024) m1 input line) as (p & -> & Hc2); [done|done|lia|].
  cbn [mbind res_bind]. pose proof (length_upto NEWLINE line) as Hu2. revert Hc2 Hu2.
  generalize (if negb (p =? 0) then wr m1 p 0 else m1) as m2. generalize (upto NEWLINE line) as line2.
  intros line2 m2 Hc2 Hu2.
  pose proof (parse_command_ok (Z.to_nat 1024) m2 input line2 Hin Hc2 ltac:(lia) ltac:(lia)) as Hp.
  unfold parses in Hp. destruct (runs line2); [|by rewrite Hp].
  destruct Hp as (m3 & cmd & -> & Hh & _). cbn [mbind res_bind].
  specialize (IH (S i) m3 rest (do_fork cmd m3 calls) Hsr). destruct (session fuel flushed (S i) rest) as [ps|e].
  - destruct IH as (calls' & -> & Hr); [lia|]. unfold do_fork. exists ((cmd, m3) :: calls').
    rewrite <- app_assoc. split; [done|]. by constructor.
  - destruct IH as [-> ->]; [lia|]. done.
Qed.

(** ** Theorems *)

(** C33. [parse_command] on every line.  From a NUL-terminated line in a writable
    buffer it returns, for a line with 1 to 64 arguments, a command whose strings
    lie in that buffer and are the parts of the line: the first word, the
    arguments in order without the quotes around all of them, and the word after
    the last [>] (NULL if that [>] ends the line); it writes nothing outside the
    line.  For a line without arguments it reads through [args[0]], which is
    NULL, and for one with more than 64 it stores past the end of [args]:
    behaviour the C standard leaves undefined. *)
Theorem parse_command_spec F m s l :
  0 < s → cstr m s l → (length l < F)%nat → Z.of_nat (length l) < 2 ^ 32 →
  if runs l then
    ∃ m' c, parse_command F m s = Ok (m', c) ∧ holds m' c (parse_line l) ∧
      ∀ b, ¬ (s ≤ b < s + Z.of_nat (length l)) → rd m' b = rd m b
  else parse_command F m s = Err UB.
Proof. apply parse_command_ok. Qed.

Definition ex_line : bytes := str "echo  " ++ [QUOTE] ++ str "a bc" ++ [QUOTE] ++ str " > out".

Lemma parse_command_spec_witness :
  ∃ m' c, parse_command 40 (wr_list ∅ 100 ex_line) 100 = Ok (m', c) ∧
    holds m' c (Parsed (Some (str "echo")) [str "a"; str "bc"] (Some (str "out"))) ∧
    ∀ b, ¬ (100 ≤ b < 100 + Z.of_nat (length ex_line)) → rd m' b = rd (wr_list ∅ 100 ex_line) b.
Proof.
  apply (parse_command_spec 40 (wr_list ∅ 100 ex_line) 100 ex_line); [lia| |vm_compute; lia|by vm_compute].
  repeat (apply cstr_cons; split; [vm_compute; reflexivity|split; [done|]]). by apply cstr_nil; vm_compute.
Defined.

(** C34. A session of the shell.  Whatever the input, its bytes and the length of
    its lines, and whatever [fflush] answers, [main] gives [do_fork] exactly the
    parsed lines of the input, in order, up to the line [exit], the end of the
    input or the first failure to write the prompt, and returns 0; only a line
    that cannot be parsed (no arguments, or more than 64) makes the session
    undefined.  Lines of more than 1022 characters are parsed in pieces. *)
Theorem session_spec flushed m input s :
  0 < input → Forall (λ c, 0 ≤ c < 256) s →
  match session (S (length s)) flushed 0 s with
  | Ok ps => ∃ calls, main flushed m input s = Ok (0, calls) ∧ ran ps calls
  | Err e => e = UB ∧ main flushed m input s = Err UB
  end.
Proof.
  intros Hin Hs. pose proof (main_loop_spec (S (length s)) flushed 0 m input s [] Hin Hs ltac:(lia)) as H.
  unfold main. destruct (session _ flushed 0 s) as [ps|e].
  - destruct H as (calls & -> & Hr). by exists calls.
  - destruct H as [-> ->]. done.
Qed.

Definition ex_session : bytes :=
  str "ls -l" ++ [NEWLINE] ++ str "cat a > b" ++ [NEWLINE] ++ str "exit" ++ [NEWLINE] ++ str "rm x".

Lemma session_spec_witness :
  ∃ calls, main (λ _, 0) ∅ 4096 ex_session = Ok (0, calls) ∧
    ran [Parsed (Some (str "ls")) [str "-l"] None;
         Parsed (Some (str "cat")) [str "a"] (Some (str "b"))] calls.
Proof.
  apply (session_spec (λ _, 0) ∅ 4096 ex_session); [lia|].
  apply (bool_decide_unpack _). vm_compute. exact I.
Defined.

(** A command without arguments, such as [ls], is undefined behaviour. *)
Theorem bare_command_undefined flushed m input l rest :
  0 < input → Forall (λ c, 0 ≤ c < 256) (l ++ NEWLINE :: rest) → flushed 0%nat = 0 →
  NEWLINE ∉ l → 0 ∉ l → (length l < 1023)%nat → l ≠ str "exit" → (length (words l) ≤ 1)%nat →
  main flushed m input (l ++ NEWLINE :: rest) = Err UB.
Proof.
  intros Hin Hs Hfl Hn H0 Hlen Hexit Hw. unfold main.
  set (s := l ++ NEWLINE :: rest) in *.
  pose proof (main_loop_spec (S (length s)) flushed 0 m input s [] Hin Hs ltac:(lia)) as H.
  assert (session (S (length s)) flushed 0 s = Err UB) as E; [|by rewrite E in H; destruct H as [_ ->]].
  cbn [session]. rewrite Hfl. cbn [negb orb Z.eqb].
  rewrite bool_decide_false by (subst s; by destruct l).
  assert (take_line (Z.to_nat (MAX_INPUT - 1)) s = (l ++ [NEWLINE], rest)) as ->.
  { assert (∀ n, (length l < n)%nat → take_line n s = (l ++ [NEWLINE], rest)) as Ht; [|apply Ht; unfold MAX_INPUT; lia].
    subst s. clear -Hn. induction l as [|c l IH]; intros [|n] ?; cbn [length app take_line] in *; try lia; [done|].
    apply not_elem_of_cons in Hn as [? Hn]. destruct (Z.eqb_spec c NEWLINE); [congruence|].
    by rewrite IH by (done || lia). }
  rewrite (upto_none 0) by (by intros [?|[?|?%elem_of_nil]%elem_of_cons]%elem_of_app).
  rewrite bool_decide_false by (by intros ?%(inj (.++ [NEWLINE]))).
  rewrite (upto_app NEWLINE l []) by done.
  unfold runs, sorted_line. by destruct (words l) as [|w [|w' ws]]; [..|cbn in Hw; lia].
Qed.

Lemma bare_command_undefined_witness : main (λ _, 0) ∅ 4096 (str "ls" ++ [NEWLINE]) = Err UB.
Proof.
  apply (bare_command_undefined (λ _, 0) ∅ 4096 (str "ls") []);
    [lia|apply (bool_decide_unpack _); by vm_compute|done|apply (bool_decide_unpack _); by vm_compute|
     apply (bool_decide_unpack _); by vm_compute|vm_compute; lia|done|vm_compute; lia].
Defined.
