(* ===== verification/Filters.v ===== *)
(** * Text filters and other small programs

    Models the programs of the first assignment that read standard input line by
    line: src/assignments/a1/programs/unique.c, which copies it (lowercase.c,
    mismatch.c, sort.c and fsrecursive.c are the same program), makewords.c and
    src/labs/lab2/programs/linebreaker.c; and the demonstration of fork and of a
    buffer overflow in src/modules/m2/double_link/insecure/main.c.

    A buffer or an allocated block is a list of bytes; a store or a read outside of
    it is undefined.  [malloc] is the C library's: which of its calls succeed is a
    parameter. *)
From stdpp Require Import base tactics numbers list option.
From Stdlib Require Import ZArith Lia.
From S2P Require Import Prelude CText Mem LibStr Printf.

(** [fgets(buffer, size, stdin)]: the line and the rest of the stream. *)
Definition fgets_line (size : Z) (stream : bytes) : option (bytes * bytes) :=
  match stream with [] => None | _ => Some (take_line (Z.to_nat (size - 1)) stream) end.

(** A checked store, and [strcpy] into a block, with the NUL. *)
Definition store (block : bytes) (i v : Z) : res bytes :=
  if (0 <=? i) && (i <? zlen block) then Ok (zset block i v) else Err UB.

Fixpoint strcpy_block (block : bytes) (i : Z) (s : bytes) : res bytes :=
  match s with
  | [] => store block i 0
  | c :: s => block ← store block i c; strcpy_block block (i + 1) s
  end.

(** ** unique.c *)

(** @src assignments/a1/programs/unique.c 10-13 main
    The loop, with the output so far. *)
Fixpoint copy_loop (fuel : nat) (stream out : bytes) : res bytes :=
  match fuel with
  | O => Err NoFuel
  | S fuel =>
      match fgets_line 1024 stream with
      | None => Ok out
      | Some (line, rest) => copy_loop fuel rest (out ++ upto 0 line)
      end
  end.

(** @src assignments/a1/programs/unique.c 5-16 main
    What is written to standard output. *)
Definition copy_main (stdin : bytes) : res bytes := copy_loop (S (length stdin)) stdin [].

(** ** makewords.c and linebreaker.c *)

(** @src assignments/a1/programs/makewords.c 5-28 makewords
    [block] is what [malloc] returns for the size asked. *)
Definition makewords (malloc : Z → option bytes) (input : bytes) : res (option bytes) :=
  let maxLen := zlen input + 1 in
  match malloc maxLen with
  | None => Ok None
  | Some result =>
      result ← strcpy_block result 0 input;
      result ← store result maxLen 0;
      Ok (Some result)
  end.

(** @src labs/lab2/programs/linebreaker.c 5-27 linebreaker
    Returns what it has written and the result. *)
Definition linebreaker (malloc : Z → option bytes) (input : bytes) : res (bytes * option bytes) :=
  let maxLen := zlen input + 1 in
  match malloc maxLen with
  | None => Ok ([], None)
  | Some result =>
      result ← strcpy_block result 0 input;
      result ← store result maxLen 0;
      Ok ([NEWLINE], Some result)
  end.

(** How a program ends: its status, output and error output. *)
Record ended := Ended { status : Z; stdout : bytes; stderr : bytes }.

(** @src assignments/a1/programs/makewords.c 35-40 main
    The loop; [mallocs i] is the allocator at the [i]th line. *)
Fixpoint makewords_loop (fuel : nat) (mallocs : nat → Z → option bytes) (i : nat) (stream out : bytes) : res ended :=
  match fuel with
  | O => Err NoFuel
  | S fuel =>
      match fgets_line 1024 stream with
      | None => Ok (Ended 0 out [])
      | Some (line, rest) =>
          r ← makewords (mallocs i) (upto 0 line);
          match r with
          | None => Ok (Ended 1 out (str "ERROR: memory allocation failed in makewords." ++ [NEWLINE]))
          | Some result => makewords_loop fuel mallocs (S i) rest (out ++ upto 0 result)
          end
      end
  end.

(** @src assignments/a1/programs/makewords.c 30-43 main *)
Definition makewords_main (mallocs : nat → Z → option bytes) (stdin : bytes) : res ended :=
  makewords_loop (S (length stdin)) mallocs 0 stdin [].

(** @src labs/lab2/programs/linebreaker.c 34-39 main *)
Fixpoint linebreaker_loop (fuel : nat) (mallocs : nat → Z → option bytes) (i : nat) (stream out : bytes) : res ended :=
  match fuel with
  | O => Err NoFuel
  | S fuel =>
      match fgets_line 1024 stream with
      | None => Ok (Ended 0 out [])
      | Some (line, rest) =>
          '(w, r) ← linebreaker (mallocs i) (upto 0 line);
          match r with
          | None => Ok (Ended 1 (out ++ w) (str "ERROR: memory allocation failed in linebreaker." ++ [NEWLINE]))
          | Some result => linebreaker_loop fuel mallocs (S i) rest (out ++ w ++ upto 0 result)
          end
      end
  end.

(** @src labs/lab2/programs/linebreaker.c 29-42 main *)
Definition linebreaker_main (mallocs : nat → Z → option bytes) (stdin : bytes) : res ended :=
  linebreaker_loop (S (length stdin)) mallocs 0 stdin [].

(** ** insecure/main.c *)

(** [gets(buffer)]: the line without its newline, and a NUL. *)
Definition gets (buffer : bytes) (line : bytes) : res bytes := strcpy_block buffer 0 line.

(** @src modules/m2/double_link/insecure/main.c 28-41 main
    The child: what it prints, its own [m] and the shared page. *)
Definition insecure_child (shared : bytes) (line : bytes) : res (bytes * Z * bytes) :=
  shared ← store shared 0 5;
  let m := 22 in
  _ ← gets (replicate 16 0) line;
  Ok (str "Enter some text: ", m, shared).

(** @src modules/m2/double_link/insecure/main.c 11-55 main
    [mapped] and [pid] are the results of [mmap] and [fork] in the parent; the
    status and the output of both processes. *)
Definition insecure_main (mapped : bool) (pid : Z) (line : bytes) : res (Z * bytes) :=
  let m := 9 in
  if negb mapped then Ok (1, [])
  else if pid =? -1 then Ok (1, [])
  else
    '(out, _, shared) ← insecure_child (replicate (Z.to_nat 4096) 0) line;
    v ← of_option UB (zget shared 0);
    Ok (0, out ++ str "Mem not shared. " ++ show_int m ++ [NEWLINE] ++ str "Mem shared. " ++ show_int v ++ [NEWLINE]).

(** ** Stores into a block *)

Lemma store_in block i v : 0 ≤ i < zlen block → store block i v = Ok (zset block i v).
Proof.
  intros Hi. unfold store. destruct (Z.leb_spec 0 i); [|lia]. by destruct (Z.ltb_spec i (zlen block)); [|lia].
Qed.

Lemma store_out block i v : zlen block ≤ i → store block i v = Err UB.
Proof. intros Hi. unfold store. destruct (Z.ltb_spec i (zlen block)); [lia|]. by rewrite andb_false_r. Qed.

(** A store in the middle of a block. *)
Lemma zset_mid (pre post : bytes) c v : zset (pre ++ c :: post) (zlen pre) v = pre ++ v :: post.
Proof.
  unfold zset, zlen. rewrite decide_True by lia. rewrite Nat2Z.id.
  by rewrite insert_app_r_alt, Nat.sub_diag by lia.
Qed.

(** [strcpy] succeeds when the string and its NUL fit; otherwise it leaves the
    block. *)
Lemma strcpy_fits pre rest s : (length s < length rest)%nat →
  strcpy_block (pre ++ rest) (zlen pre) s = Ok (pre ++ s ++ 0 :: drop (S (length s)) rest).
Proof.
  revert pre rest. induction s as [|c s IH]; intros pre rest Hl; (destruct rest as [|r rest]; [cbn in Hl; lia|]);
    cbn [strcpy_block]; (rewrite store_in by (unfold zlen; rewrite length_app; cbn; lia)); rewrite zset_mid.
  - done.
  - cbn [mbind res_bind]. replace (zlen pre + 1) with (zlen (pre ++ [c])) by (unfold zlen; rewrite length_app; cbn; lia).
    replace (pre ++ c :: rest) with ((pre ++ [c]) ++ rest) by (by rewrite <- app_assoc).
    rewrite IH by (cbn in Hl; lia). cbn [drop length]. by rewrite <- app_assoc.
Qed.

Lemma strcpy_overflows pre rest s : (length rest ≤ length s)%nat →
  strcpy_block (pre ++ rest) (zlen pre) s = Err UB.
Proof.
  revert pre rest. induction s as [|c s IH]; intros pre rest Hl; (destruct rest as [|r rest]; cbn in Hl); try lia; cbn [strcpy_block].
  - rewrite app_nil_r. by rewrite store_out.
  - rewrite app_nil_r. by rewrite store_out.
  - rewrite store_in by (unfold zlen; rewrite length_app; cbn; lia). rewrite zset_mid. cbn [mbind res_bind].
    replace (zlen pre + 1) with (zlen (pre ++ [c])) by (unfold zlen; rewrite length_app; cbn; lia).
    replace (pre ++ c :: rest) with ((pre ++ [c]) ++ rest) by (by rewrite <- app_assoc). apply IH. lia.
Qed.

(** ** Lines *)

Lemma fgets_line_spec size c stream : 1 < size → ∃ line rest,
  fgets_line size (c :: stream) = Some (line, rest) ∧ c :: stream = line ++ rest ∧
  (length rest < length (c :: stream))%nat.
Proof.
  intros Hs. unfold fgets_line. pose proof (take_line_spec (Z.to_nat (size - 1)) (c :: stream)) as H.
  destruct (take_line _ _) as [line rest]. destruct H as (E & _ & Hl). exists line, rest. split_and!; [done|done|].
  apply Hl; [done|lia].
Qed.

(** The copying loop, for any bytes: what is lost is what follows a NUL in a line. *)
Lemma copy_loop_ok fuel stream out : (length stream < fuel)%nat → ∃ t,
  copy_loop fuel stream out = Ok (out ++ t) ∧ (length t ≤ length stream)%nat ∧ (0 ∉ stream → t = stream).
Proof.
  revert stream out. induction fuel as [|fuel IH]; intros stream out Hf; [lia|]. cbn [copy_loop].
  destruct stream as [|c stream]; [exists []; by rewrite app_nil_r|].
  destruct (fgets_line_spec 1024 c stream) as (line & rest & -> & E & Hl); [lia|].
  destruct (IH rest (out ++ upto 0 line)) as (t & -> & Ht & Ht'); [cbn in *; lia|].
  exists (upto 0 line ++ t). rewrite E, <- app_assoc. split_and!; [done| |].
  - rewrite !length_app. pose proof (length_upto 0 line). lia.
  - intros [Hn1 Hn2]%not_elem_of_app. by rewrite upto_none, Ht'.
Qed.

(** ** Properties *)

(** The copying programs end on every input, and copy inputs without NUL bytes
    unchanged. *)
Theorem copy_main_spec stdin : ∃ out, copy_main stdin = Ok out ∧ (0 ∉ stdin → out = stdin).
Proof.
  unfold copy_main. destruct (copy_loop_ok (S (length stdin)) stdin []) as (t & E & _ & Ht); [lia|].
  exists t. by split.
Qed.

Section overrun.
Context (malloc : Z → option bytes) (Hmalloc : ∀ n b, 0 ≤ n → malloc n = Some b → zlen b = n).

(** The copy fills the block, and the store after it is outside. *)
Lemma overrun input block : malloc (zlen input + 1) = Some block →
strcpy_block block 0 input = Ok (input ++ [0]) ∧ store (input ++ [0]) (zlen input + 1) 0 = Err UB.
Proof.
intros E%Hmalloc; [|unfold zlen; lia]. split.
- pose proof (strcpy_fits [] block input ltac:(unfold zlen in E; lia)) as H.
  change (zlen []) with 0 in H. cbn [app] in H. by rewrite H, drop_ge by (unfold zlen in E; lia).
- apply store_out. unfold zlen. rewrite length_app. cbn. lia.
Qed.

Lemma makewords_ok input :
makewords malloc input = if malloc (zlen input + 1) is Some _ then Err UB else Ok None.
Proof.
unfold makewords. destruct (malloc _) as [block|] eqn:E; [|done].
destruct (overrun input block E) as [-> E2]. cbn [mbind res_bind]. by rewrite E2.
Qed.

Lemma linebreaker_ok input :
linebreaker malloc input = if malloc (zlen input + 1) is Some _ then Err UB else Ok ([], None).
Proof.
unfold linebreaker. destruct (malloc _) as [block|] eqn:E; [|done].
destruct (overrun input block E) as [-> E2]. cbn [mbind res_bind]. by rewrite E2.
Qed.
End overrun.

(** makewords and linebreaker write outside their block.  For every allocator
    that returns blocks of the size asked: on an empty input both programs end
    with status 0 and no output; on any other, either the first allocation fails
    and they end with status 1 and their message, or the first line is copied and
    the store of a second NUL one byte past the block is undefined behaviour.  No
    run gets past its first line. *)
Theorem makewords_overrun mallocs stdin :
  (∀ i n b, 0 ≤ n → mallocs i n = Some b → zlen b = n) →
  let asks line := mallocs 0%nat (zlen (upto 0 line) + 1) in
  makewords_main mallocs stdin =
    match fgets_line 1024 stdin with
    | None => Ok (Ended 0 [] [])
    | Some (line, _) => if asks line is Some _ then Err UB
        else Ok (Ended 1 [] (str "ERROR: memory allocation failed in makewords." ++ [NEWLINE]))
    end ∧
  linebreaker_main mallocs stdin =
    match fgets_line 1024 stdin with
    | None => Ok (Ended 0 [] [])
    | Some (line, _) => if asks line is Some _ then Err UB
        else Ok (Ended 1 [] (str "ERROR: memory allocation failed in linebreaker." ++ [NEWLINE]))
    end.
Proof.
  intros Hm asks. unfold makewords_main, linebreaker_main. cbn [makewords_loop linebreaker_loop].
  destruct (fgets_line 1024 stdin) as [[line rest]|]; [|done].
  rewrite (makewords_ok (mallocs 0%nat) (Hm 0%nat)), (linebreaker_ok (mallocs 0%nat) (Hm 0%nat)). unfold asks.
  by destruct (mallocs _ _).
Qed.

Lemma makewords_overrun_witness :
  let heap (i : nat) (n : Z) := if n <=? 1000 then Some (replicate (Z.to_nat n) 0) else None in
  makewords_main heap (str "a word" ++ [NEWLINE]) = Err UB ∧ linebreaker_main heap (str "a word" ++ [NEWLINE]) = Err UB.
Proof.
  intros heap. destruct (makewords_overrun heap (str "a word" ++ [NEWLINE])) as [E1 E2]; [|by split].
  intros i n b Hn. unfold heap. destruct (Z.leb_spec n 1000); [|done]. intros [= <-].
  unfold zlen. rewrite length_replicate. lia.
Defined.

(** The buffer overflow of insecure/main.c, in the child: the parent prints its own
    [m] and the byte of the shared page exactly when the line fits in the buffer,
    15 characters and the NUL. *)
Theorem insecure_main_spec mapped pid line :
  insecure_main mapped pid line =
    if negb mapped || (pid =? -1) then Ok (1, [])
    else if decide (zlen line ≤ 15) then
      Ok (0, str "Enter some text: " ++ str "Mem not shared. 9" ++ [NEWLINE] ++ str "Mem shared. 5" ++ [NEWLINE])
    else Err UB.
Proof.
  unfold insecure_main, insecure_child, gets. destruct mapped; [|done]. cbn [negb orb]. destruct (pid =? -1); [done|].
  rewrite store_in by (unfold zlen; rewrite length_replicate; lia). cbn [mbind res_bind].
  case_decide as H.
  - pose proof (strcpy_fits [] (replicate 16 0) line) as E. change (zlen []) with 0 in E. cbn [app] in E.
    rewrite E by (rewrite length_replicate; unfold zlen in H; lia). by vm_compute.
  - pose proof (strcpy_overflows [] (replicate 16 0) line) as E. change (zlen []) with 0 in E. cbn [app] in E.
    by rewrite E by (rewrite length_replicate; unfold zlen in H; lia).
Qed.
