(* ===== verification/Alloc.v ===== *)
(** * The debugging allocator and the arena

    Models src/assignments/a3: the wrappers of dmalloc.c over basealloc.c, and
    arenas/arena.c, as they are handed out, that is with the bookkeeping left to
    the student.  malloc and free of the C library are a parameter ([CHeap]);
    NULL is 0; the contents of memory are those of Mem.v. *)
From stdpp Require Import base tactics numbers list gmap.
From Stdlib Require Import ZArith Lia.
From S2P Require Import Prelude CText Mem LibStr Printf.

(** The C library's heap: [c_malloc h sz] is the new heap and the block, or 0. *)
Class CHeap (H : Type) := {
  c_malloc : H → Z → H * Z;
  c_free : H → Z → H
}.

(** ** basealloc.c *)

(** @src assignments/a3/basealloc.c 19-36 disabled
    The static variables, with the heap. *)
Record base_state (H : Type) := Base {
  disabled : Z;
  x : Z;
  base_alloc_atexit_installed : Z;
  heap : H
}.
Arguments Base {H}.
Arguments disabled {H}.
Arguments x {H}.
Arguments base_alloc_atexit_installed {H}.
Arguments heap {H}.

Section base.
Context {H : Type} `{CHeap H}.
Implicit Types (b : base_state H) (m : mem).

(** @src assignments/a3/basealloc.c 21-25 alloc_random *)
Definition alloc_random b : base_state H * Z :=
let x := u64 (u64 (x b * 6364136223846793005) + 1) in
(Base (disabled b) x (base_alloc_atexit_installed b) (heap b), u32 (Z.shiftr x 32)).

(** A call of the C library's malloc. *)
Definition malloc b (sz : Z) : base_state H * Z :=
let '(h, p) := c_malloc (heap b) sz in (Base (disabled b) (x b) (base_alloc_atexit_installed b) h, p).

Definition set_disabled (v : Z) b : base_state H :=
Base (i32 v) (x b) (base_alloc_atexit_installed b) (heap b).

(** @src assignments/a3/basealloc.c 29-69 base_malloc
  The branches that look for a freed block and record the new one are empty. *)
Definition base_malloc b (sz : Z) : base_state H * Z :=
if c_true (disabled b) then malloc b sz
else
  let b := set_disabled (disabled b + 1) b in
  let b := if c_true (base_alloc_atexit_installed b) then b
           else Base (disabled b) (x b) 1 (heap b) in
  let '(b, r) := alloc_random b in
  let '(b, ptr) := malloc b (if c_true sz then sz else 1) in
  (set_disabled (disabled b - 1) b, ptr).

(** @src assignments/a3/basealloc.c 71-85 base_free *)
Definition base_free b (ptr : Z) : base_state H :=
if c_true (disabled b) || (ptr =? 0)
then Base (disabled b) (x b) (base_alloc_atexit_installed b) (c_free (heap b) ptr)
else
  let b := set_disabled (disabled b + 1) b in
  set_disabled (disabled b - 1) b.

(** @src assignments/a3/basealloc.c 87-89 base_allocator_disable *)
Definition base_allocator_disable b (d : bool) : base_state H := set_disabled (c_bool d) b.

(** ** dmalloc.c *)

(** @src assignments/a3/dmalloc.c 15-19 dmalloc
  The file and the line are not used. *)
Definition dmalloc b (sz : Z) : base_state H * Z := base_malloc b sz.

(** @src assignments/a3/dmalloc.c 30-34 dfree *)
Definition dfree b (ptr : Z) : base_state H := base_free b ptr.

(** @src assignments/a3/dmalloc.c 49-56 dcalloc *)
Definition dcalloc b m (nmemb sz : Z) : base_state H * mem * Z :=
let '(b, ptr) := dmalloc b (u64 (nmemb * sz)) in
(b, if c_true ptr then (memset m ptr 0 (u64 (nmemb * sz))).1 else m, ptr).
End base.

(** @src assignments/a3/dmalloc.h 51-60 dmalloc_stats *)
Definition sizeof_dmalloc_stats : Z := 64.
Record dmalloc_stats := Stats {
  nactive : Z; active_size : Z; ntotal : Z; total_size : Z;
  nfail : Z; fail_size : Z; heap_min : Z; heap_max : Z
}.

(** The structure at [a]. *)
Definition read_stats (m : mem) (a : Z) : dmalloc_stats :=
  Stats (ld64 m a) (ld64 m (a + 8)) (ld64 m (a + 16)) (ld64 m (a + 24))
    (ld64 m (a + 32)) (ld64 m (a + 40)) (ld64 m (a + 48)) (ld64 m (a + 56)).

(** @src assignments/a3/dmalloc.c 64-68 get_statistics *)
Definition get_statistics (m : mem) (stats : Z) : mem := (memset m stats 255 sizeof_dmalloc_stats).1.

(** %10llu. *)
Definition show_padded (v : Z) : bytes :=
  let d := show_digits 20 v in replicate (10 - length d) 32 ++ d.

(** @src assignments/a3/dmalloc.c 74-82 print_statistics
    [stats] is the address of the local structure. *)
Definition print_statistics (m : mem) (stats : Z) : bytes :=
  let s := read_stats (get_statistics m stats) stats in
  str "alloc count: active " ++ show_padded (nactive s) ++ str "   total " ++ show_padded (ntotal s) ++
  str "   fail " ++ show_padded (nfail s) ++ [NEWLINE] ++
  str "alloc size:  active " ++ show_padded (active_size s) ++ str "   total " ++ show_padded (total_size s) ++
  str "   fail " ++ show_padded (fail_size s) ++ [NEWLINE].

(** ** arena.c *)

(** @src assignments/a3/arenas/arena.h 5-9 Arena *)
Record Arena := MkArena { buff : Z; size : Z; offset : Z }.

(** A call that may end the program with a message. *)
Inductive outcome (A : Type) := Returns (a : A) | Exits (status : Z) (message : bytes).
Arguments Returns {A}.
Arguments Exits {A}.

(** @src assignments/a3/arenas/arena.c 14-23 arena_init
    [malloc(NULL)] asks for 0 bytes; neither the size nor the offset is set. *)
Definition arena_init {H} `{CHeap H} (h : H) (arena : Arena) (buffer_size : Z) : outcome (H * Arena) :=
  let '(h, p) := c_malloc h 0 in
  if p =? 0 then Exits 1 (str "arena_init: out of memory - oh darn" ++ [NEWLINE])
  else Returns (h, MkArena p (size arena) (offset arena)).

(** @src assignments/a3/arenas/arena.c 29-42 arena_alloc *)
Definition arena_alloc (arena : Arena) (bytes : Z) : outcome (Arena * Z) :=
  let bytes_align := 31 in
  let aligned := Z.land (u64 (bytes + bytes_align)) (u64 (Z.lnot bytes_align)) in
  if u64 (offset arena + aligned) >? size arena then
    Exits 1 (str "arena_alloc: overflow (" ++ show_digits 20 (u64 (offset arena + aligned)) ++ str " > " ++
      show_digits 20 (size arena) ++ str ") - nooooes!" ++ [NEWLINE])
  else Returns (arena, 0).

(** Use of a pointer: NULL is undefined. *)
Definition non_null (p : Z) : res unit := if p =? 0 then Err UB else Ok tt.

(** @src assignments/a3/arenas/main.c 5-19 use_our_arena
    The memory, the arena and what is printed. *)
Definition use_our_arena (m : mem) (arena : Arena) : res (outcome (mem * Arena * bytes)) :=
  match arena_alloc arena (10 * 4) with
  | Exits status message => Ok (Exits status message)
  | Returns (arena, myint) =>
      _ ← non_null myint;
      let m := foldl (λ m i, stn 4 m (myint + 4 * i) i) m (iota 0 10) in
      let text := str "hello world" in
      let len := zlen text in
      match arena_alloc arena (len + 1) with
      | Exits status message => Ok (Exits status message)
      | Returns (arena, msg) =>
          _ ← non_null msg;
          let m := wr (wr_list m msg text) (msg + len) 0 in
          Ok (Returns (m, arena, show_int (i32 (ld32 m (myint + 36))) ++ [32] ++ read_cstr 12 m msg ++ [NEWLINE]))
      end
  end.

(** @src assignments/a3/arenas/main.c 24-39 main
    [arena] is the local variable, with whatever it holds before [arena_init];
    [arena_reset] and [arena_free] are empty. *)
Definition arena_main {H} `{CHeap H} (h : H) (m : mem) (arena : Arena) : res (outcome bytes) :=
  match arena_init h arena 1024 with
  | Exits status message => Ok (Exits status message)
  | Returns (h, arena) =>
      r ← use_our_arena m arena;
      match r with
      | Exits status message => Ok (Exits status message)
      | Returns (m, arena, out) =>
          r ← use_our_arena m arena;
          match r with
          | Exits status message => Ok (Exits status message)
          | Returns (m, arena, out') => Ok (Returns (out ++ out' ++ str "We should see the same result twice ;)"))
          end
      end
  end.

(** ** Properties *)

Section properties.
Context {H : Type} `{HC : CHeap H}.
Implicit Types (b : base_state H) (m : mem).

Lemma base_malloc_ok b sz : 0 ≤ disabled b < 2 ^ 31 - 1 → 0 ≤ sz →
let '(h, p) := c_malloc (heap b) (if disabled b =? 0 then Z.max sz 1 else sz) in
base_malloc b sz =
  (if disabled b =? 0
   then Base 0 (u64 (x b * 6364136223846793005 + 1))
          (if base_alloc_atexit_installed b =? 0 then 1 else base_alloc_atexit_installed b) h
   else Base (disabled b) (x b) (base_alloc_atexit_installed b) h, p).
Proof.
intros Hd Hs. unfold base_malloc, malloc, c_true. destruct (Z.eqb_spec (disabled b) 0) as [E|E]; cbn [negb].
2:{ by destruct (c_malloc _ _). }
assert ((if negb (sz =? 0) then sz else 1) = Z.max sz 1) as -> by (destruct (Z.eqb_spec sz 0); cbn; lia).
assert (u64 (u64 (x b * 6364136223846793005) + 1) = u64 (x b * 6364136223846793005 + 1)) as Ex.
{ unfold wrapU. by rewrite Z.add_mod_idemp_l by lia. }
unfold set_disabled, alloc_random. cbn [disabled x base_alloc_atexit_installed heap].
rewrite E. change (i32 (0 + 1)) with 1. change (i32 (1 - 1)) with 0.
destruct (base_alloc_atexit_installed b =? 0); cbn [negb disabled x base_alloc_atexit_installed heap];
  rewrite Ex; by destruct (c_malloc _ _).
Qed.

(** The base allocator.  Outside of its own calls, an allocation is one call of
  malloc for at least one byte, which steps the random numbers once and leaves
  the allocator enabled; when it is disabled it is malloc itself. *)
Theorem base_malloc_spec b sz : 0 ≤ disabled b < 2 ^ 31 - 1 → 0 ≤ sz →
(base_malloc b sz).2 = (c_malloc (heap b) (if disabled b =? 0 then Z.max sz 1 else sz)).2 ∧
heap (base_malloc b sz).1 = (c_malloc (heap b) (if disabled b =? 0 then Z.max sz 1 else sz)).1 ∧
disabled (base_malloc b sz).1 = disabled b.
Proof.
intros Hd Hs. pose proof (base_malloc_ok b sz Hd Hs) as E. destruct (c_malloc _ _) as [h p].
rewrite E. cbn. destruct (Z.eqb_spec (disabled b) 0) as [->|]; by cbn.
Qed.

(** A freed block is never given back while the allocator is enabled. *)
Theorem dfree_keeps b ptr : 0 ≤ disabled b < 2 ^ 31 - 1 →
dfree b ptr = if (disabled b =? 0) && negb (ptr =? 0) then b
  else Base (disabled b) (x b) (base_alloc_atexit_installed b) (c_free (heap b) ptr).
Proof.
intros Hd. unfold dfree, base_free, c_true. destruct (Z.eqb_spec (disabled b) 0) as [E|E]; cbn; [|done].
destruct (ptr =? 0); cbn; [by rewrite E|].
unfold set_disabled. cbn. rewrite E. change (i32 (i32 (0 + 1) - 1)) with 0. destruct b; cbn in *. by subst.
Qed.

(** C39. dcalloc.  It asks for the product of its arguments modulo 2^64 and zeroes
  what it is given: when the product fits in a size_t the whole array is zeroed,
  otherwise the block that is returned is smaller than the array, with no sign
  of it. *)
Theorem dcalloc_spec b m nmemb sz :
0 ≤ disabled b < 2 ^ 31 - 1 → 0 ≤ nmemb < 2 ^ 64 → 0 ≤ sz < 2 ^ 64 →
let n := (nmemb * sz) mod 2 ^ 64 in
let asked := if disabled b =? 0 then Z.max n 1 else n in
let '(b', m', p) := dcalloc b m nmemb sz in
(heap b', p) = c_malloc (heap b) asked ∧
(p = 0 → m' = m) ∧
(p ≠ 0 → ∀ a, rd m' a = if decide (p ≤ a < p + n) then 0 else rd m a) ∧
(nmemb * sz < 2 ^ 64 → n = nmemb * sz) ∧
(2 ^ 64 ≤ nmemb * sz → asked < nmemb * sz).
Proof.
intros Hd Hn Hs n asked. unfold dcalloc, dmalloc. change (u64 (nmemb * sz)) with n.
assert (0 ≤ n < 2 ^ 64) as Hr by (apply Z.mod_pos_bound; lia).
pose proof (base_malloc_ok b n Hd ltac:(lia)) as E. fold asked in E.
destruct (c_malloc (heap b) asked) as [h p]. rewrite E. split_and!.
- by destruct (disabled b =? 0).
- by intros ->.
- intros Hp a. unfold c_true. rewrite (proj2 (Z.eqb_neq p 0) Hp). cbn [negb]. by rewrite memset_rd by lia.
- intros Hsm. apply Z.mod_small. nia.
- intros Hbig. unfold asked. destruct (disabled b =? 0); lia.
Qed.
End properties.

(** *** Statistics *)

Lemma get_statistics_ones m stats : read_stats (get_statistics m stats) stats =
  Stats (2 ^ 64 - 1) (2 ^ 64 - 1) (2 ^ 64 - 1) (2 ^ 64 - 1) (2 ^ 64 - 1) (2 ^ 64 - 1) (2 ^ 64 - 1) (2 ^ 64 - 1).
Proof.
  assert (∀ i, 0 ≤ i ≤ 56 → ld64 (get_statistics m stats) (stats + i) = 2 ^ 64 - 1) as Hld.
  { intros i Hi. unfold get_statistics. change sizeof_dmalloc_stats with 64. cbn [ldn].
    rewrite !memset_rd, !decide_True by lia. done. }
  unfold read_stats. rewrite <- (Z.add_0_r stats) at 2. by rewrite !Hld by lia.
Qed.

(** Until the student fills them in, all statistics are the largest numbers, and
    they are printed in full. *)
Theorem print_statistics_spec m stats : print_statistics m stats =
  str "alloc count: active 18446744073709551615   total 18446744073709551615   fail 18446744073709551615" ++ [NEWLINE] ++
  str "alloc size:  active 18446744073709551615   total 18446744073709551615   fail 18446744073709551615" ++ [NEWLINE].
Proof. unfold print_statistics. rewrite get_statistics_ones. by vm_compute. Qed.

(** *** The arena *)

(** The smallest multiple of 32 that is at least [n]. *)
Definition round32 (n : Z) : Z := 32 * ((n + 31) / 32).

Lemma round32_bounds n : n ≤ round32 n < n + 32 ∧ round32 n mod 32 = 0.
Proof.
  unfold round32. pose proof (Z.div_mod (n + 31) 32). pose proof (Z.mod_pos_bound (n + 31) 32).
  split; [lia|]. rewrite Z.mul_comm. by apply Z.mod_mul.
Qed.

(** What [arena_alloc] rounds its argument to. *)
Lemma arena_rounding bytes : 0 ≤ bytes < 2 ^ 64 →
  Z.land (u64 (bytes + 31)) (u64 (Z.lnot 31)) = if decide (bytes ≤ 2 ^ 64 - 32) then round32 bytes else 0.
Proof.
  intros Hb. change (u64 (Z.lnot 31)) with (2 ^ 64 - 2 ^ 5).
  rewrite land_clear by (try apply wrapU_range; lia). change (2 ^ 5) with 32. unfold round32.
  case_decide.
  - rewrite wrapU_small by lia. pose proof (Z.div_mod (bytes + 31) 32). lia.
  - unfold wrapU. replace (bytes + 31) with (bytes + 31 - 2 ^ 64 + 1 * 2 ^ 64) by lia.
    rewrite Z.mod_add, (Z.mod_small _ (2 ^ 64)), (Z.mod_small _ 32) by lia. lia.
Qed.

(** The size check of the arena.  On an arena whose offset is within its size,
    [arena_alloc] never changes the arena and never gives out memory.  A request
    whose rounded size still fits in an address exits exactly when it does not
    fit in the arena, with the sizes in its message; but for larger requests the
    arithmetic wraps: the last 31 byte counts are rounded to 0 and are accepted
    by every arena. *)
Theorem arena_alloc_spec arena bytes :
  0 ≤ offset arena ≤ size arena → size arena < 2 ^ 64 → 0 ≤ bytes < 2 ^ 64 →
  (offset arena + round32 bytes < 2 ^ 64 →
     arena_alloc arena bytes =
       if decide (offset arena + round32 bytes ≤ size arena) then Returns (arena, 0)
       else Exits 1 (str "arena_alloc: overflow (" ++ show_digits 20 (offset arena + round32 bytes) ++ str " > " ++
              show_digits 20 (size arena) ++ str ") - nooooes!" ++ [NEWLINE])) ∧
  (2 ^ 64 - 32 < bytes → arena_alloc arena bytes = Returns (arena, 0)).
Proof.
  intros Ho Hs Hb. pose proof (round32_bounds bytes) as [Hr _]. unfold arena_alloc. rewrite arena_rounding by done. split.
  - intros Hfit. rewrite decide_True by (unfold round32 in *; lia). rewrite wrapU_small by lia.
    case_decide; [by destruct (Z.gtb_spec (offset arena + round32 bytes) (size arena)); [lia|]|].
    by destruct (Z.gtb_spec (offset arena + round32 bytes) (size arena)); [|lia].
  - intros Hbig. rewrite decide_False by lia. rewrite Z.add_0_r, wrapU_small by lia.
    by destruct (Z.gtb_spec (offset arena) (size arena)); [lia|].
Qed.

Lemma arena_alloc_spec_witness :
  let a := MkArena 0x5000 1024 960 in
  arena_alloc a 50 = Returns (a, 0) ∧ arena_alloc a (2 ^ 64 - 8) = Returns (a, 0) ∧
  arena_alloc a 65 = Exits 1 (str "arena_alloc: overflow (1056 > 1024) - nooooes!" ++ [NEWLINE]).
Proof.
  intros a. split; [|split].
  - destruct (arena_alloc_spec a 50) as [E _]; [cbn; lia|cbn; lia|lia|]. by rewrite E by (by vm_compute).
  - destruct (arena_alloc_spec a (2 ^ 64 - 8)) as [_ E]; [cbn; lia|cbn; lia|lia|]. by apply E.
  - destruct (arena_alloc_spec a 65) as [E _]; [cbn; lia|cbn; lia|lia|]. by rewrite E by (by vm_compute).
Defined.

(** As handed out, the example never prints: it exits with a message or stores
    through NULL, whatever the arena holds at first. *)
Theorem arena_main_spec {H} `{CHeap H} (h : H) m arena :
  arena_main h m arena = Err UB ∨ ∃ message, arena_main h m arena = Ok (Exits 1 message).
Proof.
  unfold arena_main, arena_init. destruct (c_malloc h 0) as [h' p]. destruct (p =? 0); [right; by eexists|].
  unfold use_our_arena, arena_alloc. destruct (_ >? _); [right; by eexists|by left].
Qed.

(** A heap that gives out memory upwards. *)
#[local] Instance bump_heap : CHeap Z :=
  {| c_malloc h sz := if h + sz <? 0x100000 then (h + sz, h) else (h, 0); c_free h _ := h |}.

(** An array of 2^64 + 16 bytes of which 16 are allocated. *)
Lemma dcalloc_spec_witness :
  ∃ b' m', dcalloc (Base 0 8973443640547502487 0 0x1000) (wr ∅ 0x1008 7) (2 ^ 60 + 1) 16 = (b', m', 0x1000) ∧
    rd m' 0x1008 = 0 ∧ heap b' = 0x1010.
Proof.
  pose proof (dcalloc_spec (Base 0 8973443640547502487 0 0x1000) (wr ∅ 0x1008 7) (2 ^ 60 + 1) 16
    ltac:(cbn; lia) ltac:(lia) ltac:(lia)) as Hd. cbn zeta in Hd.
  destruct (dcalloc _ _ _ _) as [[b' m'] p]. destruct Hd as (E & _ & Hz & _).
  vm_compute in E. injection E as Eh ->. exists b', m'. split; [done|]. split; [|done].
  rewrite Hz, decide_True by done. done.
Defined.
