(* ===== verification/Snake.v ===== *)
(** * The snake game: board, food and drawing

    Models the parts of src/assignments/a2/src that the handout implements: the
    default board (game_setup.c), the random index (common.c) and [place_food]
    (game.c), the check of the terminal and the drawing of a board (render.c), and
    the start of the program (snake.c).  A board is the list of its cells, row by
    row.

    [rand] is the C library's: a stream of results, of which only the range is
    assumed.  Curses is a library too: what the program draws is the sequence of
    its calls that put a character or a text at a row and a column, and the size
    of the terminal is an argument.  [update], [decompress_board_str],
    [teardown] and [mbslen] are left to students and empty, and [initialize_game]
    only returns [INIT_SUCCESS].  Setting up curses and the game-over screen are in
    [GameOver]. *)
From stdpp Require Import base tactics numbers list option.
From Stdlib Require Import ZArith Lia.
From S2P Require Import Prelude CText.

(** ** Definitions *)

(** @src assignments/a2/src/common.h 10-13 FLAG_PLAIN_CELL *)
Definition FLAG_PLAIN_CELL : Z := 1.
Definition FLAG_SNAKE : Z := 2.
Definition FLAG_WALL : Z := 4.
Definition FLAG_FOOD : Z := 8.

(** @src assignments/a2/src/common.h 22-22 input_key *)
Inductive input_key := INPUT_UP | INPUT_DOWN | INPUT_LEFT | INPUT_RIGHT | INPUT_NONE.

(** @src assignments/a2/src/game_setup.h 11-21 board_init_status *)
Inductive board_init_status :=
  INIT_SUCCESS | INIT_ERR_INCORRECT_DIMENSIONS | INIT_ERR_WRONG_SNAKE_NUM | INIT_ERR_BAD_CHAR
| INIT_UNIMPLEMENTED.
#[export] Instance board_init_status_eq_dec : EqDecision board_init_status.
Proof. solve_decision. Defined.

Abbreviation board := (list Z).

(** [cells[i] = v] and [cells[i]]. *)
Definition set_cell (i v : Z) (cells : board) : res board :=
  if decide (0 ≤ i < Z.of_nat (length cells)) then Ok (zset cells i v) else Err UB.
Definition get_cell (i : Z) (cells : board) : res Z := of_option UB (zget cells i).

(** A [for] loop over [0 .. n-1] whose body changes the board. *)
Fixpoint for_cells (js : list Z) (body : Z → board → res board) (cells : board) : res board :=
  match js with [] => Ok cells | j :: js => cells ← body j cells; for_cells js body cells end.

(** @src assignments/a2/src/game_setup.c 37-55 initialize_default_board
    The loops that fill the cells. *)
Definition fill_default (cells : board) : res board :=
  cells ← for_cells (iota 0 (20 * 10)) (λ i, set_cell i FLAG_PLAIN_CELL) cells;
  cells ← for_cells (iota 0 20) (λ i cells,
    cells ← set_cell i FLAG_WALL cells; set_cell (i + 20 * (10 - 1)) FLAG_WALL cells) cells;
  cells ← for_cells (iota 0 10) (λ i cells,
    cells ← set_cell (i * 20) FLAG_WALL cells; set_cell (i * 20 + 20 - 1) FLAG_WALL cells) cells;
  set_cell (20 * 2 + 2) FLAG_SNAKE cells.

(** @src assignments/a2/src/game_setup.c 32-58 initialize_default_board
    The board, width, height and status; [block] is what [malloc] returns, a
    block of 200 ints with any contents or NULL. *)
Definition initialize_default_board (block : option board) : res (board * Z * Z * board_init_status) :=
  cells ← of_option UB block;
  cells ← fill_default cells;
  Ok (cells, 20, 10, INIT_SUCCESS).

(** @src assignments/a2/src/common.c 25-29 generate_index
    [r] is the result of [rand]. *)
Definition generate_index (r size : Z) : res Z :=
  if size =? 0 then Err UB else Ok (u32 r mod size).

(** @src assignments/a2/src/game.c 41-50 place_food
    [rand n] is the result of the [n]th call of [rand]; the result has the
    number of calls made so far. *)
Fixpoint place_food (fuel : nat) (rand : nat → Z) (n : nat) (cells : board) (width height : Z)
    : res (board * nat) :=
  match fuel with
  | O => Err NoFuel
  | S fuel =>
      food_index ← generate_index (rand n) (u32 (u64 (width * height)));
      c ← get_cell food_index cells;
      if c =? FLAG_PLAIN_CELL then
        cells ← set_cell food_index FLAG_FOOD cells; Ok (cells, S n)
      else place_food fuel rand (S n) cells width height
  end.

(** @src assignments/a2/src/render.c 11-15 COLOR_BASE *)
Definition COLOR_BASE : Z := 1.
Definition COLOR_SNAKE : Z := 2.
Definition COLOR_WALL : Z := 3.
Definition COLOR_FOOD : Z := 4.
Definition COLOR_TEXT : Z := 5.

(** @src assignments/a2/src/render.c 17-18 BOARD_OFFSET_X *)
Definition BOARD_OFFSET_X : Z := 0.
Definition BOARD_OFFSET_Y : Z := 1.

(** What is put on the terminal: a character, as a code point with a color pair
    (0 for none), or a text, at a row and a column. *)
Inductive drawing :=
| Put (y x : Z) (c color : Z)
| Text (y x : Z) (t : bytes).

(** @src assignments/a2/src/render.c 20-20 ADD
    Also the macro [ADDW]: the arguments become ints. *)
Definition ADD (y x c color : Z) : drawing :=
  Put (wrapS 32 (y + BOARD_OFFSET_Y)) (wrapS 32 (x + BOARD_OFFSET_X)) c color.

(** @src assignments/a2/src/render.c 22-23 WRITEW *)
Definition WRITEW (y x : Z) (t : bytes) : drawing := Text (y + BOARD_OFFSET_Y) (x + BOARD_OFFSET_X) t.

(** @src assignments/a2/src/render.c 32-46 check_terminal_size
    The message of the failed check, after which the program exits. *)
Definition check_terminal_size (LINES COLS width height : Z) : res (option bytes) :=
  if decide (wrapS 32 height + 2 < 2 ^ 31) then
    let req_h := wrapS 32 height + 2 in
    let req_w := wrapS 32 width in
    if (LINES <? req_h) || (COLS <? req_w) then
      Ok (Some (str "Terminal window must be at least " ++ show_int req_w ++ str " by " ++
                show_int req_h ++ str " characters in size! Yours is " ++ show_int COLS ++
                str " by " ++ show_int LINES ++ str "." ++ [10]))
    else Ok None
  else Err UB.

(** @src assignments/a2/src/render.c 97-110 render_game
    The drawing of one cell, at row [y] and column [x] of the board. *)
Definition draw_cell (c y x : Z) : drawing :=
  if has FLAG_SNAKE c then ADD y x (chr "S") COLOR_SNAKE
  else if has FLAG_FOOD c then ADD y x (chr "O") COLOR_FOOD
  else if has FLAG_WALL c then ADD y x 0x2588 COLOR_WALL
  else ADD y x (chr " ") 0.

(** @src assignments/a2/src/render.c 96-111 render_game
    [unsigned i] counts up to the product of the sizes. *)
Fixpoint render_cells (fuel : nat) (i : Z) (cells : board) (width height : Z) : res (list drawing) :=
  match fuel with
  | O => Err NoFuel
  | S fuel =>
      if i <? u64 (width * height) then
        c ← get_cell i cells;
        ds ← render_cells fuel (u32 (i + 1)) cells width height;
        Ok (draw_cell c (i / width) (i mod width) :: ds)
      else Ok []
  end.

(** @src assignments/a2/src/render.c 94-119 render_game *)
Definition render_game (fuel : nat) (g_score : Z) (cells : board) (width height : Z) : res (list drawing) :=
  ds ← render_cells fuel 0 cells width height;
  Ok (ds ++ [WRITEW (-1) 0 (str "SCORE: " ++ show_int g_score)]).

(** The key codes of curses. *)
Definition KEY_DOWN : Z := 258.
Definition KEY_UP : Z := 259.
Definition KEY_LEFT : Z := 260.
Definition KEY_RIGHT : Z := 261.

(** @src assignments/a2/src/snake.c 18-36 get_input
    [input] is the result of [getch]. *)
Definition get_input (input : Z) : input_key :=
  if input =? KEY_UP then INPUT_UP
  else if input =? KEY_DOWN then INPUT_DOWN
  else if input =? KEY_LEFT then INPUT_LEFT
  else if input =? KEY_RIGHT then INPUT_RIGHT
  else INPUT_NONE.

(** @src assignments/a2/src/game_setup.c 72-79 initialize_game *)
Definition initialize_game (board_rep : option bytes) : board_init_status := INIT_SUCCESS.

(** @src assignments/a2/src/snake.c 122-128 main *)
Definition banner : bytes :=
  str "             ____   " ++ [10] ++
  str "Hello       / . .\ " ++ [10] ++
  str "CSC412      \  ---<" ++ [10] ++
  str "student!     \  /  " ++ [10] ++
  str "   __________/ /    " ++ [10] ++
  str "-=:___________/" ++ [10].

(** @src assignments/a2/src/snake.c 60-133 main
    What the program prints; its status is 0 in every case. *)
Definition main (argv : list bytes) : res bytes :=
  let grows_message := str "snake_grows must be either 1 (grows) or 0 (does not grow)" ++ [10] in
  match argv with
  | [_; a] =>
      snake_grows ← atoi a;
      if negb (snake_grows =? 1) && negb (snake_grows =? 0) then Ok grows_message else
      let status := initialize_game None in Ok banner
  | [_; a; b] =>
      snake_grows ← atoi a;
      if negb (snake_grows =? 1) && negb (snake_grows =? 0) then Ok grows_message else
      let status := initialize_game (if bool_decide (b = []) then None else Some b) in Ok banner
  | _ => Ok (str "usage: snake <GROWS: 0|1> [BOARD STRING]" ++ [10])
  end.

(** ** Specification *)

(** The default board: walls around the edge, the snake at row 2 and column 2. *)
Definition default_cell (y x : Z) : Z :=
  if (y =? 0) || (y =? 9) || (x =? 0) || (x =? 19) then FLAG_WALL
  else if (y =? 2) && (x =? 2) then FLAG_SNAKE else FLAG_PLAIN_CELL.

Definition default_board : board :=
  (λ i, default_cell (i / 20) (i mod 20)) <$> iota 0 200.

(** The picture of a cell. *)
Definition picture (c : Z) : Z * Z :=
  if has FLAG_SNAKE c then (chr "S", COLOR_SNAKE)
  else if has FLAG_FOOD c then (chr "O", COLOR_FOOD)
  else if has FLAG_WALL c then (0x2588, COLOR_WALL) else (chr " ", 0).

(** A board of the given size whose cells can be counted by an int. *)
Definition sized (cells : board) (width height : Z) : Prop :=
  0 ≤ width < 2 ^ 31 ∧ 0 ≤ height < 2 ^ 31 ∧ width * height = Z.of_nat (length cells) ∧ width * height < 2 ^ 31.

(** ** Lemmas *)

Lemma set_cell_ok i v cells :
  0 ≤ i < Z.of_nat (length cells) → set_cell i v cells = Ok (zset cells i v).
Proof. intros. unfold set_cell. by rewrite decide_True. Qed.

(** Setting every cell in turn forgets what was there. *)
Lemma fill_cells v n done_ rest :
  length rest = n →
  for_cells (iota (Z.of_nat (length done_)) n) (λ i, set_cell i v) (done_ ++ rest) =
  Ok (done_ ++ replicate n v).
Proof.
  revert done_ rest. induction n as [|n IH]; intros done_ [|c rest] Hl; cbn [length] in Hl; try lia; [done|].
  cbn [iota for_cells]. rewrite set_cell_ok by (rewrite length_app; cbn; lia). cbn [mbind res_bind].
  replace (zset (done_ ++ c :: rest) (Z.of_nat (length done_)) v) with ((done_ ++ [v]) ++ rest).
  2:{ unfold zset. rewrite decide_True, Nat2Z.id, <- app_assoc by lia.
      by rewrite insert_app_r_alt, Nat.sub_diag by lia. }
  specialize (IH (done_ ++ [v]) rest ltac:(lia)). rewrite length_app in IH. cbn [length] in IH.
  replace (Z.of_nat (length done_) + 1) with (Z.of_nat (length done_ + 1)) by lia.
  rewrite IH, <- app_assoc. done.
Qed.

Lemma fill_default_ok block : length block = 200%nat → fill_default block = Ok default_board.
Proof.
  intros Hl. unfold fill_default. pose proof (fill_cells FLAG_PLAIN_CELL 200 [] block Hl) as H.
  change (20 * 10)%nat with 200%nat. change (iota 0 200) with (iota (Z.of_nat (length (@nil Z))) 200).
  change block with ([] ++ block). rewrite H.
  cbn [app mbind res_bind]. vm_compute. reflexivity.
Qed.

Section food.
Context (rand : nat → Z) (cells : board) (width height : Z).
Context (Hsize : sized cells width height) (Hpos : 0 < width * height).
Context (Hrand : ∀ n, 0 ≤ rand n < 2 ^ 31).

(** The cell that the [n]th result of [rand] picks. *)
Definition picked (n : nat) : Z := rand n mod (width * height).

Lemma picked_range n : 0 ≤ picked n < Z.of_nat (length cells).
Proof. destruct Hsize as (_ & _ & E & _). rewrite <- E. apply Z.mod_pos_bound. lia. Qed.

Lemma generate_picked n : generate_index (rand n) (u32 (u64 (width * height))) = Ok (picked n).
Proof.
  destruct Hsize as (_ & _ & _ & Hlt). specialize (Hrand n).
  unfold generate_index. rewrite (wrapU_small 64), (wrapU_small 32 (width * height)), (wrapU_small 32 (rand n)) by lia.
  by destruct (Z.eqb_spec (width * height) 0); [lia|].
Qed.

Lemma place_food_step fuel n :
  place_food (S fuel) rand n cells width height =
    if bool_decide (zget cells (picked n) = Some FLAG_PLAIN_CELL)
    then Ok (zset cells (picked n) FLAG_FOOD, S n)
    else place_food fuel rand (S n) cells width height.
Proof.
  cbn [place_food]. rewrite generate_picked. cbn [mbind res_bind]. unfold get_cell.
  destruct (zget_is_some cells (picked n)) as [c Hc]; [apply picked_range|]. rewrite Hc. cbn [of_option mbind res_bind].
  destruct (Z.eqb_spec c FLAG_PLAIN_CELL) as [->|].
  - rewrite bool_decide_true by done. by rewrite set_cell_ok by apply picked_range.
  - rewrite bool_decide_false by congruence. done.
Qed.

(** The first plain cell that is picked gets the food. *)
Lemma place_food_first fuel n k :
  (∀ j, (j < k)%nat → zget cells (picked (n + j)) ≠ Some FLAG_PLAIN_CELL) →
  zget cells (picked (n + k)) = Some FLAG_PLAIN_CELL → (k < fuel)%nat →
  place_food fuel rand n cells width height = Ok (zset cells (picked (n + k)) FLAG_FOOD, S (n + k)).
Proof.
  revert fuel n. induction k as [|k IH]; intros [|fuel] n Hj Hk Hf; try lia; rewrite place_food_step.
  - rewrite Nat.add_0_r in *. by rewrite bool_decide_true.
  - rewrite bool_decide_false by (specialize (Hj 0%nat ltac:(lia)); by rewrite Nat.add_0_r in Hj).
    replace (n + S k)%nat with (S n + k)%nat in * by lia. apply IH; [|done|lia].
    intros j ?. specialize (Hj (S j) ltac:(lia)). by replace (n + S j)%nat with (S n + j)%nat in Hj by lia.
Qed.

Lemma place_food_full fuel n : FLAG_PLAIN_CELL ∉ cells → place_food fuel rand n cells width height = Err NoFuel.
Proof.
  intros Hno. revert n. induction fuel as [|fuel IH]; intros n; [done|]. rewrite place_food_step.
  rewrite bool_decide_false; [apply IH|]. unfold zget. case_decide; [|done].
  intros Hin. apply Hno, list_elem_of_lookup. eauto.
Qed.
End food.

(** *** Drawing *)

Lemma draw_cell_picture c y x :
  0 ≤ y < 2 ^ 31 - 1 → 0 ≤ x < 2 ^ 31 → draw_cell c y x = Put (y + 1) x (picture c).1 (picture c).2.
Proof.
  intros Hy Hx. unfold draw_cell, picture, ADD, BOARD_OFFSET_Y, BOARD_OFFSET_X.
  rewrite Z.add_0_r, !wrapS_small by lia. by repeat case_match.
Qed.

(** The cells from [i] on, in order. *)
Lemma render_cells_ok fuel i cells width height :
  sized cells width height → 0 ≤ i ≤ width * height → (Z.to_nat (width * height - i) < fuel)%nat →
  render_cells fuel i cells width height =
  Ok (imap (λ k c, Put ((i + Z.of_nat k) / width + 1) ((i + Z.of_nat k) mod width) (picture c).1 (picture c).2)
        (drop (Z.to_nat i) cells)).
Proof.
  intros (Hw & Hh & E & Hlt). revert i. induction fuel as [|fuel IH]; intros i Hi Hf; [lia|].
  cbn [render_cells]. rewrite wrapU_small by lia. destruct (Z.ltb_spec i (width * height)).
  2:{ by rewrite drop_ge by lia. }
  destruct (lookup_lt_is_Some_2 cells (Z.to_nat i)) as [c Hc]; [lia|].
  unfold get_cell, zget. rewrite decide_True, Hc by lia. cbn [of_option mbind res_bind].
  rewrite wrapU_small, IH by lia. cbn [mbind res_bind]. rewrite (drop_S _ _ _ Hc), imap_cons. f_equal.
  assert (0 < width) by nia. pose proof (Z.mod_pos_bound i width).
  assert (0 ≤ i / width < height).
  { split; [apply Z.div_pos; lia|]. apply Z.div_lt_upper_bound; lia. }
  rewrite draw_cell_picture, Z.add_0_r by lia. f_equal.
  replace (Z.to_nat (i + 1)) with (S (Z.to_nat i)) by lia. apply imap_ext. intros k c' _. cbn.
  by replace (i + 1 + Z.of_nat k) with (i + Z.of_nat (S k)) by lia.
Qed.

(** What is drawn where: each cell at its row and column. *)
Lemma elem_of_picture cells width height y x p :
  sized cells width height →
  Put y x p.1 p.2 ∈ imap (λ k c, Put ((0 + Z.of_nat k) / width + 1) ((0 + Z.of_nat k) mod width)
                              (picture c).1 (picture c).2) cells ↔
  (1 ≤ y ≤ height ∧ 0 ≤ x < width ∧ ∃ c, zget cells ((y - 1) * width + x) = Some c ∧ p = picture c).
Proof.
  intros (Hw & Hh & E & Hlt). rewrite list_elem_of_lookup. split.
  - intros (k & Hk). rewrite list_lookup_imap in Hk. destruct (cells !! k) as [c|] eqn:Hc; [|done].
    cbn in Hk. injection Hk as <- <- H1 H2. rewrite ?Z.add_0_l. pose proof (lookup_lt_Some _ _ _ Hc).
    assert (0 < width) by nia. pose proof (Z.mod_pos_bound (Z.of_nat k) width).
    pose proof (Z.div_mod (Z.of_nat k) width).
    assert (0 ≤ Z.of_nat k / width < height).
    { split; [apply Z.div_pos; lia|]. apply Z.div_lt_upper_bound; lia. }
    split_and!; [lia|lia|lia|lia|]. exists c. split; [|destruct p, (picture c); cbn in *; congruence].
    unfold zget. rewrite decide_True by lia. rewrite <- Hc. f_equal. lia.
  - intros (Hy & Hx & c & Hc & ->). exists (Z.to_nat ((y - 1) * width + x)).
    assert (0 ≤ (y - 1) * width + x) by nia. unfold zget in Hc. rewrite decide_True in Hc by lia.
    rewrite list_lookup_imap, Hc. cbn. f_equal. rewrite Z2Nat.id, Z.add_0_l by lia. f_equal.
    + rewrite Z.div_add_l, Z.div_small by lia. lia.
    + rewrite Z.add_comm, Z.mod_add, Z.mod_small by lia. done.
Qed.

(** ** Theorems *)

(** The default board, whatever [malloc] left in the block: 20 columns and 10
    rows with a wall on every cell of the edge and on no other, the snake at row
    2 and column 2 and nothing else; without memory the loop writes through
    NULL. *)
Theorem default_board_spec block :
  (∀ cells, block = Some cells → length cells = 200%nat) →
  match block with
  | Some _ =>
      initialize_default_board block = Ok (default_board, 20, 10, INIT_SUCCESS) ∧
      sized default_board 20 10 ∧
      ∀ y x, 0 ≤ y < 10 → 0 ≤ x < 20 → zget default_board (y * 20 + x) = Some (default_cell y x)
  | None => initialize_default_board block = Err UB
  end.
Proof.
  intros Hb. destruct block as [cells|]; [|done]. split_and!.
  - unfold initialize_default_board. cbn [of_option mbind res_bind]. by rewrite fill_default_ok by by apply Hb.
  - by vm_compute.
  - intros y x Hy Hx. unfold zget, default_board. rewrite decide_True, list_lookup_fmap, lookup_iota by lia.
    cbn [fmap option_fmap option_map]. rewrite Z.add_0_l, Z2Nat.id by lia.
    by rewrite Z.div_add_l, Z.div_small, Z.add_0_r, Z.add_comm, Z.mod_add, Z.mod_small by lia.
Qed.

Lemma default_board_spec_witness :
  initialize_default_board (Some (replicate 200 7)) = Ok (default_board, 20, 10, INIT_SUCCESS) ∧
  sized default_board 20 10 ∧
  ∀ y x, 0 ≤ y < 10 → 0 ≤ x < 20 → zget default_board (y * 20 + x) = Some (default_cell y x).
Proof. apply (default_board_spec (Some (replicate 200 7))). by intros ? [= <-]. Defined.

(** C35. [place_food] turns a plain cell into food, changes no other cell, and
    returns exactly on the boards that have a plain cell: if [rand] reaches every
    index sooner or later, it returns after finitely many calls when some cell is
    plain; when none is, as on a board the snake has filled, it calls itself for
    ever. *)
Theorem place_food_terminates rand cells width height :
  sized cells width height → 0 < width * height → (∀ n, 0 ≤ rand n < 2 ^ 31) →
  (∀ n i, 0 ≤ i < width * height → ∃ k, rand (n + k)%nat mod (width * height) = i) →
  ∀ n, (∃ fuel i k, place_food fuel rand n cells width height = Ok (zset cells i FLAG_FOOD, k) ∧
          zget cells i = Some FLAG_PLAIN_CELL) ∨
       (FLAG_PLAIN_CELL ∉ cells) ∧ ∀ fuel, place_food fuel rand n cells width height = Err NoFuel.
Proof.
  intros Hs Hpos Hr Hall n. destruct (decide (FLAG_PLAIN_CELL ∈ cells)) as [Hin|Hno].
  2:{ right. split; [done|]. intros fuel. by apply place_food_full. }
  left. apply list_elem_of_lookup in Hin as [i Hi]. pose proof (lookup_lt_Some _ _ _ Hi) as Hlt.
  destruct (Hall n (Z.of_nat i)) as [k Hk].
  { destruct Hs as (_ & _ & E & _). lia. }
  set (P k := zget cells (picked rand width height (n + k)) = Some FLAG_PLAIN_CELL).
  assert (∃ k, P k ∧ ∀ j, (j < k)%nat → ¬ P j) as (k0 & Hk0 & Hmin).
  { assert (P k) as HPk.
    { unfold P, picked. rewrite Hk. unfold zget. by rewrite decide_True, Nat2Z.id by lia. }
    clear Hk. induction (lt_wf k) as [k _ IH].
    destruct (decide (Exists P (seq 0 k))) as [He|Hne].
    - apply list.Exists_exists in He as (j & Hj%elem_of_seq & HPj). apply (IH j); [lia|done].
    - exists k. split; [done|]. intros j Hj HPj. apply Hne, list.Exists_exists.
      exists j. split; [apply elem_of_seq; lia|done]. }
  exists (S k0), (picked rand width height (n + k0)), (S (n + k0)). split; [|done].
  apply place_food_first; [done..|lia].
Qed.

Lemma place_food_terminates_witness :
  (∃ fuel i k, place_food fuel (λ n, (Z.of_nat n * 7) mod 200) 0 default_board 20 10 =
      Ok (zset default_board i FLAG_FOOD, k) ∧ zget default_board i = Some FLAG_PLAIN_CELL) ∨
  (FLAG_PLAIN_CELL ∉ default_board) ∧
  ∀ fuel, place_food fuel (λ n, (Z.of_nat n * 7) mod 200) 0 default_board 20 10 = Err NoFuel.
Proof.
  apply (place_food_terminates (λ n, (Z.of_nat n * 7) mod 200) default_board 20 10); [by vm_compute|done|..].
  - intros n. pose proof (Z.mod_pos_bound (Z.of_nat n * 7) 200). lia.
  - intros n i Hi. exists (Z.to_nat ((i * 143 + 199 * Z.of_nat n) mod 200)).
    pose proof (Z.mod_pos_bound (i * 143 + 199 * Z.of_nat n) 200). rewrite Nat2Z.inj_add, Z2Nat.id by lia.
    change (20 * 10) with 200. rewrite Z.mod_mod by lia.
    rewrite Z.mul_add_distr_r, Z.add_mod, Z.mul_mod_idemp_l, <- Z.add_mod by lia.
    replace (Z.of_nat n * 7 + (i * 143 + 199 * Z.of_nat n) * 7) with (i + (i * 5 + Z.of_nat n * 7) * 200) by lia.
    rewrite Z.mod_add by lia. by apply Z.mod_small.
Defined.

(** Drawing a board.  Once [check_terminal_size] lets the program go on, the
    loop of [render_game] ends and draws every cell of the board exactly at its
    row (below the line of the score) and column, with the character and color
    of its flags, and nothing else; everything lies within the terminal. *)
Theorem render_game_spec LINES COLS g_score cells width height fuel :
  sized cells width height → (Z.to_nat (width * height) < fuel)%nat →
  check_terminal_size LINES COLS width height = Ok None →
  ∃ ds, render_game fuel g_score cells width height = Ok ds ∧
    (∀ y x p, Put y x p.1 p.2 ∈ ds ↔
       1 ≤ y ≤ height ∧ 0 ≤ x < width ∧ (∃ c, zget cells ((y - 1) * width + x) = Some c ∧ p = picture c)) ∧
    (∀ y x t, Text y x t ∈ ds → y = 0 ∧ x = 0 ∧ t = str "SCORE: " ++ show_int g_score) ∧
    ∀ y x c color, Put y x c color ∈ ds → 0 ≤ y < LINES ∧ 0 ≤ x < COLS.
Proof.
  intros Hs Hf Hc. unfold render_game.
  pose proof (render_cells_ok fuel 0 cells width height Hs ltac:(destruct Hs; lia)) as H.
  rewrite H by lia. cbn [mbind res_bind]. clear H. rewrite drop_0.
  set (ps := imap _ cells). eexists. split; [done|].
  assert (∀ y x p, Put y x p.1 p.2 ∈ ps ++ [WRITEW (-1) 0 (str "SCORE: " ++ show_int g_score)] ↔
            1 ≤ y ≤ height ∧ 0 ≤ x < width ∧ ∃ c, zget cells ((y - 1) * width + x) = Some c ∧ p = picture c) as Hp.
  { intros y x p. rewrite elem_of_app, list_elem_of_singleton, <- elem_of_picture by done.
    split; [by intros [?|?]|by left]. }
  split_and!; [done| |].
  - intros y x t [Hin|Ht%list_elem_of_singleton]%elem_of_app.
    + exfalso. apply list_elem_of_lookup in Hin as [k Hk]. unfold ps in Hk. rewrite list_lookup_imap in Hk.
      by destruct (cells !! k).
    + by injection Ht as -> -> ->.
  - intros y x c color Hin. apply (Hp y x (c, color)) in Hin as (Hy & Hx & _).
    destruct Hs as (Hw & Hh & _). revert Hc. unfold check_terminal_size. rewrite !wrapS_small by lia.
    case_decide; [|done]. destruct (Z.ltb_spec LINES (height + 2)), (Z.ltb_spec COLS width); try done. lia.
Qed.

Lemma render_game_spec_witness :
  ∃ ds, render_game 201 3 default_board 20 10 = Ok ds ∧
    (∀ y x p, Put y x p.1 p.2 ∈ ds ↔
       1 ≤ y ≤ 10 ∧ 0 ≤ x < 20 ∧ (∃ c, zget default_board ((y - 1) * 20 + x) = Some c ∧ p = picture c)) ∧
    (∀ y x t, Text y x t ∈ ds → y = 0 ∧ x = 0 ∧ t = str "SCORE: " ++ show_int 3) ∧
    ∀ y x c color, Put y x c color ∈ ds → 0 ≤ y < 24 ∧ 0 ≤ x < 80.
Proof. apply (render_game_spec 24 80 3 default_board 20 10 201); [by vm_compute|vm_compute; lia|by vm_compute]. Defined.
