(* ===== verification/GameOver.v ===== *)
(** * The snake game: setting up curses and the game-over screen

    Models [initialize_window] (src/assignments/a2/src/render.c) as the sequence
    of its curses calls, and [render_game_over] (game_over.c) as the texts it puts
    on the terminal; drawing is as in [Snake].

    [g_name] and [g_name_len] are variables that the handout leaves to students to
    declare: they are arguments here, and the text drawn for the name is the one
    given.  The logarithm of the score is the real one, rounded up. *)
From stdpp Require Import base tactics numbers list option.
From Stdlib Require Import ZArith Lia.
From S2P Require Import Prelude CText Snake.

(** ** Definitions *)

(** What the program asks of curses before it draws. *)
Inductive curses :=
| Setlocale | Initscr | Halfdelay (tenths : Z) | Keypad (on : bool) | Endwin | Exit (status : Z)
| Printf (t : bytes) | Curs_set (visibility : Z) | Newwin (h w y x : Z) | Refresh | Start_color
| Use_default_colors | Init_pair (pair fg bg : Z).

(** The colors of curses. *)
Definition COLOR_BLACK : Z := 0.
Definition COLOR_RED : Z := 1.
Definition COLOR_YELLOW : Z := 3.
Definition COLOR_BLUE : Z := 4.
Definition COLOR_WHITE : Z := 7.

(** @src assignments/a2/src/render.c 52-84 initialize_window
    The calls that are made, up to [exit] when the terminal is too small. *)
Definition initialize_window (LINES COLS width height : Z) : res (list curses) :=
  let setup := [Setlocale; Initscr; Halfdelay 1; Keypad true] in
  small ← check_terminal_size LINES COLS width height;
  match small with
  | Some message => Ok (setup ++ [Endwin; Printf message; Exit 1])
  | None =>
      Ok (setup ++
          [Curs_set 0; Newwin (wrapS 32 height) (wrapS 32 width) 0 0; Refresh; Start_color;
           Use_default_colors; Init_pair 1 COLOR_BLACK (-1); Init_pair 2 COLOR_YELLOW (-1);
           Init_pair 3 COLOR_BLUE (-1); Init_pair 4 COLOR_RED (-1); Init_pair 5 COLOR_WHITE (-1)])
  end.

(** @src assignments/a2/src/game_over.c 13-14 BOARD_OFFSET_X
    Not those of render.c. *)
Definition BOARD_OFFSET_X : Z := 0.
Definition BOARD_OFFSET_Y : Z := 2.

(** @src assignments/a2/src/game_over.c 18-19 WRITEW *)
Definition WRITEW (y x : Z) (t : bytes) : drawing :=
  Text (wrapS 32 (y + BOARD_OFFSET_Y)) (wrapS 32 (x + BOARD_OFFSET_X)) t.

(** [(int)(ceil(log10((double)s)))]: the first exponent whose power of ten is at
    least [s]; the logarithm of a negative number is not one that an int can hold. *)
Definition ceil_log10 (s : Z) : res Z :=
  if s <=? 0 then Err UB else of_option UB (snd <$> list_find (λ c, s ≤ 10 ^ c) (iota 0 11)).

(** @src assignments/a2/src/game_over.c 34-36 render_game_over *)
Definition number_of_digits_in_score (g_score : Z) : res Z :=
  if g_score =? 0 then Ok 1 else ceil_log10 g_score.

(** @src assignments/a2/src/game_over.c 26-44 render_game_over *)
Definition render_game_over (g_name : bytes) (g_name_len g_score width height : Z) : res (list drawing) :=
  let y_center := Z.quot (wrapS 32 height) 2 in
  let x_center := Z.quot (wrapS 32 width) 2 in
  digits ← number_of_digits_in_score g_score;
  Ok [WRITEW (y_center - 4) (x_center - 4) (str "GAME OVER");
      WRITEW (y_center - 2) (x_center - Z.quot g_name_len 2) g_name;
      WRITEW (y_center - 1) (x_center - Z.quot (7 + digits) 2) (str "SCORE: " ++ show_int g_score);
      WRITEW (y_center + 2) (x_center - 10) (str "PRESS ANY KEY TO EXIT")].

(** @src assignments/a2/src/game.c 57-61 read_name
    [buffer] is the block that [write_into] points to. *)
Definition read_name (buffer : bytes) : res bytes :=
  let name := str "placeholder" ++ [0] in
  if decide (length name ≤ length buffer)%nat then Ok (name ++ drop (length name) buffer) else Err UB.

(** ** Lemmas *)

Lemma ceil_log10_ok s :
  0 < s < 2 ^ 31 → ∃ c, ceil_log10 s = Ok c ∧ 0 ≤ c ≤ 10 ∧ 10 ^ (c - 1) < s ≤ 10 ^ c.
Proof.
  intros Hs. unfold ceil_log10. destruct (Z.leb_spec s 0); [lia|].
  destruct (list_find_elem_of (λ c, s ≤ 10 ^ c) (iota 0 11) 10) as [[i c] E]; [by apply elem_of_iota|lia|].
  rewrite E. apply list_find_Some in E as (Hi & Hc & Hmin).
  assert (i < 11)%nat as Hlt by (apply lookup_lt_Some in Hi; by rewrite length_iota in Hi).
  rewrite lookup_iota in Hi by done. injection Hi as <-. exists (Z.of_nat i).
  split_and!; [done|lia|lia| |done]. destruct i as [|i]; [done|].
  specialize (Hmin i (Z.of_nat i)). rewrite lookup_iota in Hmin by lia.
  replace (Z.of_nat (S i) - 1) with (Z.of_nat i) by lia.
  apply Z.nle_gt, Hmin; [done|lia].
Qed.

(** The number of characters that a number has. *)
Lemma length_show_digits fuel n d :
  10 ^ Z.of_nat d ≤ n < 10 ^ Z.of_nat (S d) → (d < fuel)%nat → length (show_digits fuel n) = S d.
Proof.
  revert n d. induction fuel as [|fuel IH]; intros n d Hn Hf; [lia|]. cbn [show_digits].
  destruct d as [|d].
  - rewrite Z.pow_1_r in Hn. by destruct (Z.ltb_spec n 10); [|lia].
  - rewrite !Nat2Z.inj_succ, !Z.pow_succ_r in Hn by lia. pose proof (Z.pow_pos_nonneg 10 (Z.of_nat d)).
    destruct (Z.ltb_spec n 10); [lia|]. rewrite length_app, (IH _ d); [cbn; lia| |lia].
    rewrite Nat2Z.inj_succ, Z.pow_succ_r by lia. pose proof (Z.div_mod n 10). pose proof (Z.mod_pos_bound n 10). lia.
Qed.

Lemma length_show_int s c :
  0 < s < 2 ^ 31 → 0 ≤ c → 10 ^ (c - 1) < s ≤ 10 ^ c →
  Z.of_nat (length (show_int s)) = if bool_decide (s = 10 ^ c) then c + 1 else c.
Proof.
  intros Hs Hc Hle. unfold show_int. destruct (Z.ltb_spec s 0); [lia|].
  assert (∀ d, 0 ≤ d → 10 ^ d ≤ s → d < 10) as Hten.
  { intros d ? ?. destruct (Z.ltb_spec d 10); [done|]. pose proof (Z.pow_le_mono_r 10 10 d). lia. }
  case_bool_decide as E.
  - specialize (Hten c).
    rewrite (length_show_digits _ _ (Z.to_nat c)); rewrite ?Nat2Z.inj_succ, ?Z2Nat.id, ?Z.pow_succ_r; lia.
  - assert (c ≠ 0) by (intros ->; cbn in *; lia). specialize (Hten (c - 1)).
    rewrite (length_show_digits _ _ (Z.to_nat (c - 1))); rewrite ?Nat2Z.inj_succ, ?Z2Nat.id; try lia.
    replace (Z.succ (c - 1)) with c by lia. lia.
Qed.

(** The value the code uses for the digits of the score: one too few on the
    powers of ten. *)
Lemma number_of_digits_ok s :
  0 ≤ s < 2 ^ 31 → ∃ d, number_of_digits_in_score s = Ok d ∧ 0 ≤ d ≤ 10 ∧
    Z.of_nat (length (show_int s)) = if bool_decide (s = 10 ^ d) then d + 1 else d.
Proof.
  intros Hs. unfold number_of_digits_in_score. destruct (Z.eqb_spec s 0) as [->|]; [by exists 1|].
  destruct (ceil_log10_ok s) as (d & E & Hd & Hp); [lia|]. exists d. split_and!; [done|lia|lia|].
  apply length_show_int; lia.
Qed.

(** The texts and where they are, without the conversions to int. *)
Lemma render_game_over_ok g_name g_name_len g_score width height :
  0 ≤ width < 2 ^ 31 → 0 ≤ height < 2 ^ 31 → 0 ≤ g_name_len < 2 ^ 31 → 0 ≤ g_score < 2 ^ 31 →
  ∃ d, number_of_digits_in_score g_score = Ok d ∧
  render_game_over g_name g_name_len g_score width height =
  Ok [Text (height / 2 - 2) (width / 2 - 4) (str "GAME OVER");
      Text (height / 2) (width / 2 - g_name_len / 2) g_name;
      Text (height / 2 + 1) (width / 2 - (7 + d) / 2) (str "SCORE: " ++ show_int g_score);
      Text (height / 2 + 4) (width / 2 - 10) (str "PRESS ANY KEY TO EXIT")].
Proof.
  intros Hw Hh Hn Hs. destruct (number_of_digits_ok g_score Hs) as (d & E & Hd & _). exists d. split; [done|].
  unfold render_game_over. rewrite E. cbn [mbind res_bind]. unfold WRITEW, BOARD_OFFSET_X, BOARD_OFFSET_Y.
  rewrite !(wrapS_small 32 width), !(wrapS_small 32 height), !Z.quot_div_nonneg by lia.
  assert (∀ n, 0 ≤ n < 2 ^ 31 → 0 ≤ n / 2 < 2 ^ 30) as Hhalf by (intros; Z.to_euclidean_division_equations; lia).
  pose proof (Hhalf width Hw). pose proof (Hhalf height Hh). pose proof (Hhalf g_name_len Hn). pose proof (Hhalf (7 + d) ltac:(lia)).
  rewrite !wrapS_small by lia. f_equal. do 3 (f_equal; [f_equal; lia|]). f_equal. f_equal; lia.
Qed.

(** ** Theorems *)

(** [initialize_window] either sets everything up, and then every color that
    [draw_cell] can use has been given to [init_pair] before, or it leaves curses,
    prints the message and exits with status 1, without having drawn or hidden the
    cursor. *)
Theorem initialize_window_spec LINES COLS width height calls :
  initialize_window LINES COLS width height = Ok calls →
  (check_terminal_size LINES COLS width height = Ok None ∧
   ∀ c y x y' x' ch color, draw_cell c y x = Put y' x' ch color → color ≠ 0 → ∃ fg, Init_pair color fg (-1) ∈ calls) ∨
  (∃ t, check_terminal_size LINES COLS width height = Ok (Some t) ∧
     (∀ pre, calls = pre ++ [Endwin; Printf t; Exit 1] → (Refresh ∉ pre) ∧ (Curs_set 0 ∉ pre)) ∧
     ∃ pre, calls = pre ++ [Endwin; Printf t; Exit 1]).
Proof.
  unfold initialize_window. destruct (check_terminal_size _ _ _ _) as [[t|]|]; [..|done]; intros [= <-].
  - right. exists t. split; [done|]. split; [|by eexists [_; _; _; _]].
    intros pre E. apply (app_inj_2 [_; _; _; _]) in E as [<- _]; [|done].
    rewrite !not_elem_of_cons. by split_and!; try apply not_elem_of_nil.
  - left. split; [done|]. intros c y x y' x' ch color. unfold draw_cell, ADD.
    repeat case_match; intros [= <- <- <- <-] Hne; try done;
      eexists; cbn [app]; rewrite !elem_of_cons; repeat first [left; reflexivity|right].
Qed.

(** The game-over screen fits.  On a board of at least 21 columns and 5 rows, with
    a name that is not wider than the board, in a terminal that
    [check_terminal_size] lets through, every text of [render_game_over] lies
    within the terminal; the score's text starts where it is centered for its
    digits, or on a power of ten for one digit less. *)
Theorem render_game_over_fits LINES COLS g_name g_score width height :
  21 ≤ width < 2 ^ 31 → 5 ≤ height < 2 ^ 31 → 0 ≤ g_score < 2 ^ 31 → Z.of_nat (length g_name) ≤ width →
  check_terminal_size LINES COLS width height = Ok None →
  ∃ ds d, render_game_over g_name (Z.of_nat (length g_name)) g_score width height = Ok ds ∧
    (∀ y x t, Text y x t ∈ ds → 0 ≤ y < LINES ∧ 0 ≤ x ∧ x + Z.of_nat (length t) ≤ COLS) ∧
    Text (height / 2 + 1) (width / 2 - (7 + d) / 2) (str "SCORE: " ++ show_int g_score) ∈ ds ∧
    Z.of_nat (length (show_int g_score)) = if bool_decide (g_score = 10 ^ d) then d + 1 else d.
Proof.
  intros Hw Hh Hs Hn Hc.
  destruct (render_game_over_ok g_name (Z.of_nat (length g_name)) g_score width height) as (d & E & ->); [lia..|].
  destruct (number_of_digits_ok g_score Hs) as (d' & E' & Hd & Hlen). rewrite E in E'. injection E' as <-.
  eexists _, d. split; [done|]. split; [|split; [do 2 right; left|done]].
  assert (height + 2 ≤ LINES ∧ width ≤ COLS) as [HL HC].
  { revert Hc. unfold check_terminal_size. rewrite !wrapS_small by lia. destruct (decide (height + 2 < 2 ^ 31)); [|discriminate].
    by destruct (Z.ltb_spec LINES (height + 2)), (Z.ltb_spec COLS width). }
  assert (Z.of_nat (length (show_int g_score)) ≤ d + 1) by (case_bool_decide; lia).
  intros y x t. rewrite !elem_of_cons, elem_of_nil.
  intros [E1|[E1|[E1|[E1|[]]]]]; injection E1 as -> -> ->; cbn [length];
    change (length (str "GAME OVER")) with 9%nat;
    change (length (str "PRESS ANY KEY TO EXIT")) with 21%nat; Z.to_euclidean_division_equations; lia.
Qed.

Lemma render_game_over_fits_witness :
  ∃ ds d, render_game_over (str "ann") (Z.of_nat (length (str "ann"))) 7 30 10 = Ok ds ∧
    (∀ y x t, Text y x t ∈ ds → 0 ≤ y < 24 ∧ 0 ≤ x ∧ x + Z.of_nat (length t) ≤ 80) ∧
    Text (10 / 2 + 1) (30 / 2 - (7 + d) / 2) (str "SCORE: " ++ show_int 7) ∈ ds ∧
    Z.of_nat (length (show_int 7)) = if bool_decide (7 = 10 ^ d) then d + 1 else d.
Proof. apply (render_game_over_fits 24 80 (str "ann") 7 30 10); [lia..|by vm_compute|by vm_compute]. Defined.

(** It does not fit the default board: a terminal of 20 columns passes the check,
    and the last line of the screen has 21 characters from column 0. *)
Theorem default_game_over_too_wide g_name g_name_len g_score :
  0 ≤ g_name_len < 2 ^ 31 → 0 ≤ g_score < 2 ^ 31 →
  check_terminal_size 12 20 20 10 = Ok None ∧
  ∃ ds y t, render_game_over g_name g_name_len g_score 20 10 = Ok ds ∧
    Text y 0 t ∈ ds ∧ Z.of_nat (length t) = 21.
Proof.
  intros Hn Hs. split; [by vm_compute|].
  destruct (render_game_over_ok g_name g_name_len g_score 20 10) as (d & _ & ->); [lia..|].
  eexists _, 9, (str "PRESS ANY KEY TO EXIT"). split; [done|]. split; [do 3 right; left|by vm_compute].
Qed.

Lemma default_game_over_too_wide_witness :
  check_terminal_size 12 20 20 10 = Ok None ∧
  ∃ ds y t, render_game_over (str "ann") 3 1 20 10 = Ok ds ∧ Text y 0 t ∈ ds ∧ Z.of_nat (length t) = 21.
Proof. apply (default_game_over_too_wide (str "ann") 3 1); lia. Defined.

(** The score of 1 is drawn one column to the right of a score of 2, which has as
    many digits. *)
Example score_of_one :
  number_of_digits_in_score 1 = Ok 0 ∧ number_of_digits_in_score 2 = Ok 1 ∧
  (7 + 0) / 2 ≠ (7 + 1) / 2.
Proof. by vm_compute. Qed.

(** The name that is read takes twelve bytes. *)
Theorem read_name_spec buffer :
  match read_name buffer with
  | Ok b => length b = length buffer ∧ upto 0 b = str "placeholder" ∧ drop 12 b = drop 12 buffer
  | Err e => e = UB ∧ (length buffer < 12)%nat
  end.
Proof.
  unfold read_name. change (length (str "placeholder" ++ [0])) with 12%nat.
  case_decide; [|split; [done|lia]]. split_and!.
  - rewrite length_app, length_drop. change (length (str "placeholder" ++ [0])) with 12%nat. lia.
  - rewrite <- app_assoc. apply (upto_app 0 (str "placeholder")). apply (bool_decide_unpack _). by vm_compute.
  - by rewrite drop_app_length'.
Qed.
