(* ===== verification/Logs.v ===== *)
(** * The log files of the round-robin scheduler

    Models create_log_folder and log_worker of assignments/a2/scheduling_rr/main.c
    and the part of main that runs them: the folder is made before the scheduler
    starts, four threads write one file each while it runs, and main joins them
    before it prints the report.  [RoundRobin] is the scheduler; the two share
    nothing but the process.

    The calls of POSIX act on a map from path names to files and directories.  Each
    may also fail with any error and then changes nothing; a write may store fewer
    bytes than asked.  The replies of the system are arguments of the functions, and
    the relation [wstep] allows all of them. *)
From stdpp Require Import base tactics numbers list gmap option.
From Stdlib Require Import ZArith Lia.
From S2P Require Import Prelude CText RoundRobin.

(** ** Files *)

Record inode := Inode { is_dir : bool; perm : Z; content : bytes }.
#[export] Instance inode_eq_dec : EqDecision inode.
Proof. solve_decision. Defined.
Abbreviation files := (gmap bytes inode).

Definition ENOENT : Z := 2.
Definition EEXIST : Z := 17.
Definition ENOTDIR : Z := 20.
Definition EISDIR : Z := 21.
Definition SLASH : Z := 47.

(** A path without its final slash, the directory it is in ([[]] is the working
    directory), and what it names: with a final slash only a directory. *)
Definition ends_in_slash (path : bytes) : bool := bool_decide (list.last path = Some SLASH).
Definition name (path : bytes) : bytes := if ends_in_slash path then removelast path else path.
Definition parent (path : bytes) : bytes :=
  match list_find (λ c, c = SLASH) (reverse path) with
  | Some (i, _) => take (length path - S i) path
  | None => []
  end.
Definition dir_exists (d : bytes) (fs : files) : bool :=
  match d with [] => true | _ => match fs !! d with Some nd => is_dir nd | None => false end end.
Definition do_stat (path : bytes) (fs : files) : option inode :=
  nd ← fs !! name path; if ends_in_slash path && negb (is_dir nd) then None else Some nd.

(** What the system does with a call: [err] makes it fail, [count] is the number of
    bytes a write stores. *)
Record reply := Reply { err : option Z; count : Z }.
Definition fine : reply := Reply None 0.

(** mkdir, chmod, open with [O_WRONLY | O_CREAT | O_TRUNC]: the error and the files. *)
Definition do_mkdir (umask : Z) (r : reply) (path : bytes) (mode : Z) (fs : files) : option Z * files :=
  match err r with
  | Some e => (Some e, fs)
  | None =>
      if bool_decide (is_Some (fs !! name path)) then (Some EEXIST, fs)
      else if dir_exists (parent (name path)) fs then
        (None, <[name path := Inode true (Z.land mode (Z.lnot umask)) []]> fs)
      else (Some ENOENT, fs)
  end.

Definition do_chmod (r : reply) (path : bytes) (mode : Z) (fs : files) : option Z * files :=
  match err r with
  | Some e => (Some e, fs)
  | None =>
      match do_stat path fs with
      | Some nd => (None, <[name path := Inode (is_dir nd) mode (content nd)]> fs)
      | None => (Some (if bool_decide (is_Some (fs !! name path)) then ENOTDIR else ENOENT), fs)
      end
  end.

Definition do_open (umask : Z) (r : reply) (path : bytes) (mode : Z) (fs : files) : option Z * files :=
  match err r with
  | Some e => (Some e, fs)
  | None =>
      match fs !! path with
      | Some nd => if is_dir nd then (Some EISDIR, fs)
                   else (None, <[path := Inode false (perm nd) []]> fs)
      | None =>
          if dir_exists (parent path) fs
          then (None, <[path := Inode false (Z.land mode (Z.lnot umask)) []]> fs)
          else (Some ENOENT, fs)
      end
  end.

(** The first write to a file that has just been opened, at its start. *)
Definition do_write (r : reply) (path data : bytes) (fs : files) : files :=
  match err r with
  | Some _ => fs
  | None =>
      let n := Z.to_nat (count r) in
      alter (λ nd, Inode (is_dir nd) (perm nd) (take n data ++ drop n (content nd))) path fs
  end.

(** [snprintf] of a text into a buffer of [size] bytes: the string that is there
    after it; its result is the length of the text. *)
Definition snprintf_text (size : nat) (t : bytes) : bytes := take (size - 1) t.

(** ** Definitions *)

(** @src assignments/a2/scheduling_rr/main.c 12-15 LOG_FOLDER *)
Definition LOG_FOLDER : bytes := str "logFolder/".
Definition MAX_THREADS_LOG : Z := 4.
Definition LOG_FOLDER_PERMISSIONS : Z := 7 * 64 + 5 * 8 + 5.
Definition LOG_FILE_PERMISSIONS : Z := 7 * 64 + 5 * 8 + 5.

(** @src assignments/a2/scheduling_rr/main.c 45-56 create_log_folder
    The message with which the program exits, or nothing; [r1] and [r2] are the
    replies to mkdir and chmod. *)
Definition create_log_folder (umask : Z) (r1 r2 : reply) (fs : files) : option bytes * files :=
  let '(e, fs) := do_mkdir umask r1 LOG_FOLDER LOG_FOLDER_PERMISSIONS fs in
  if bool_decide (e ≠ None) && bool_decide (e ≠ Some EEXIST) then (Some (str "mkdir logFolder"), fs) else
  let '(e, fs) := do_chmod r2 LOG_FOLDER LOG_FOLDER_PERMISSIONS fs in
  if bool_decide (e ≠ None) then (Some (str "chmod logFolder"), fs) else (None, fs).

(** @src assignments/a2/scheduling_rr/main.c 61-62 log_worker *)
Definition log_path (idx : Z) : bytes :=
  snprintf_text 64 (LOG_FOLDER ++ str "thread" ++ show_int idx ++ str ".txt").

(** @src assignments/a2/scheduling_rr/main.c 67-69 log_worker *)
Definition log_text (idx pid : Z) : bytes :=
  snprintf_text 128 (str "Thread " ++ show_int idx ++ str " (pid " ++ show_int pid ++ str ") wrote this log." ++ [10]).

(** Where a log thread is: not created, at a system call, or done, perhaps with a
    message of perror. *)
(** @src assignments/a2/scheduling_rr/main.c 59-77 log_worker *)
Inductive log_pc := LNew | LOpen | LWrite | LClose | LChmod | LReturn (message : option bytes).
#[export] Instance log_pc_eq_dec : EqDecision log_pc.
Proof. solve_decision. Defined.

(** One system call of [log_worker(idx)] and what follows it. *)
(** @src assignments/a2/scheduling_rr/main.c 59-77 log_worker *)
Definition log_worker (umask pid idx : Z) (r : reply) (pc : log_pc) (fs : files) : option (log_pc * files) :=
  match pc with
  | LNew | LReturn _ => None
  | LOpen =>
      let '(e, fs) := do_open umask r (log_path idx) LOG_FILE_PERMISSIONS fs in
      Some (if bool_decide (e ≠ None) then LReturn (Some (str "open log file")) else LWrite, fs)
  | LWrite =>
      if decide (0 ≤ count r ≤ Z.of_nat (length (log_text idx pid)))
      then Some (LClose, do_write r (log_path idx) (log_text idx pid) fs) else None
  | LClose => Some (LChmod, fs)
  | LChmod =>
      let '(e, fs) := do_chmod r (log_path idx) LOG_FILE_PERMISSIONS fs in
      Some (LReturn (if bool_decide (e ≠ None) then Some (str "chmod log file") else None), fs)
  end.

(** The main thread: before the folder, about to create log thread [t], in the part
    that [RoundRobin] models, or gone with status 1 and a message. *)
(** @src assignments/a2/scheduling_rr/main.c 148-270 main *)
Inductive phase := PFolder | PCreate (t : Z) | PSched (s : sys) | PExit (message : bytes).

Record whole := Whole { main_at : phase; disk : files; logs : list log_pc }.

Definition ended (p : phase) : bool :=
  match p with PSched s => negb (running s) | PExit _ => true | _ => false end.

Definition returned (pc : log_pc) : bool := match pc with LReturn _ => true | _ => false end.

(** The steps of the program; the flag marks the spurious wakeups.  The report is
    printed when the log threads have been joined too (line 254). *)
(** @src assignments/a2/scheduling_rr/main.c 148-254 main *)
Inductive wstep (umask pid : Z) (inp : Input) : bool → whole → whole → Prop :=
| ws_folder r1 r2 fs fs' ls :
    create_log_folder umask r1 r2 fs = (None, fs') →
    wstep umask pid inp false (Whole PFolder fs ls) (Whole (PCreate 1) fs' ls)
| ws_folder_exit r1 r2 fs fs' ls message :
    create_log_folder umask r1 r2 fs = (Some message, fs') →
    wstep umask pid inp false (Whole PFolder fs ls) (Whole (PExit message) fs' ls)
| ws_create t fs ls :
    t ≤ MAX_THREADS_LOG →
    wstep umask pid inp false (Whole (PCreate t) fs ls) (Whole (PCreate (t + 1)) fs (zset ls (t - 1) LOpen))
| ws_create_error t fs ls :
    t ≤ MAX_THREADS_LOG →
    wstep umask pid inp false (Whole (PCreate t) fs ls)
      (Whole (PExit (str "pthread_create log_worker")) fs ls)
| ws_created t fs ls :
    MAX_THREADS_LOG < t →
    wstep umask pid inp false (Whole (PCreate t) fs ls) (Whole (PSched (init_sys inp)) fs ls)
| ws_sched b s s' fs ls :
    running s = true → step inp b s s' → (mpc s' = MReport → forallb returned ls = true) →
    wstep umask pid inp b (Whole (PSched s) fs ls) (Whole (PSched s') fs ls)
| ws_log p k r pc pc' fs fs' ls :
    ended p = false → zget ls k = Some pc → log_worker umask pid (k + 1) r pc fs = Some (pc', fs') →
    wstep umask pid inp false (Whole p fs ls) (Whole p fs' (zset ls k pc')).

Definition init_whole (fs : files) : whole :=
  Whole PFolder fs (replicate (Z.to_nat MAX_THREADS_LOG) LNew).

(** [wrun umask pid inp fs n k w]: some [n] steps from the files [fs] lead to [w],
    [k] of them spurious wakeups. *)
Inductive wrun (umask pid : Z) (inp : Input) (fs : files) : nat → nat → whole → Prop :=
| wrun_init : wrun umask pid inp fs 0 0 (init_whole fs)
| wrun_step n k b w w' : wrun umask pid inp fs n k w → wstep umask pid inp b w w' →
    wrun umask pid inp fs (S n) (if b then S k else k) w'.

(** ** Specification *)

Definition folder : bytes := str "logFolder".

(** The number of a log thread. *)
Definition log_idx (idx : Z) : Prop := 1 ≤ idx ≤ 4.

(** The file at [path] with permissions [p] holds the first bytes of [t]. *)
Definition holds_prefix (fs : files) (path : bytes) (p : Z) (t : bytes) : Prop :=
  ∃ m, fs !! path = Some (Inode false p (take m t)).

(** What a log thread has done. *)
Definition log_ok (pid idx : Z) (pc : log_pc) (fs : files) : Prop :=
  match pc with
  | LNew | LOpen => True
  | LWrite => ∃ p, fs !! log_path idx = Some (Inode false p [])
  | LClose | LChmod => ∃ p, holds_prefix fs (log_path idx) p (log_text idx pid)
  | LReturn None => holds_prefix fs (log_path idx) LOG_FILE_PERMISSIONS (log_text idx pid)
  | LReturn (Some message) =>
      message = str "open log file" ∨
      message = str "chmod log file" ∧ ∃ p, holds_prefix fs (log_path idx) p (log_text idx pid)
  end.

Definition folder_ok (fs : files) : Prop := ∃ c, fs !! folder = Some (Inode true LOG_FOLDER_PERMISSIONS c).

(** ** Lemmas *)

Lemma log_idx_cases idx : log_idx idx → idx = 1 ∨ idx = 2 ∨ idx = 3 ∨ idx = 4.
Proof. unfold log_idx. lia. Qed.

Ltac case_idx H := apply log_idx_cases in H as [->|[->|[->| ->]]].

Lemma log_path_slash idx : log_idx idx → ends_in_slash (log_path idx) = false.
Proof. intros Hi. by case_idx Hi. Qed.

Lemma log_path_name idx : log_idx idx → name (log_path idx) = log_path idx.
Proof. intros Hi. unfold name. by rewrite log_path_slash. Qed.

Lemma log_path_folder idx : log_idx idx → log_path idx ≠ folder.
Proof. intros Hi. by case_idx Hi. Qed.

Lemma log_path_inj i j : log_idx i → log_idx j → log_path i = log_path j → i = j.
Proof. intros Hi Hj. case_idx Hi; case_idx Hj; by vm_compute. Qed.

(** Nothing is cut off: the name and the text fit their buffers. *)
Lemma length_show_digits_le fuel n : (length (show_digits fuel n) ≤ fuel)%nat.
Proof.
  revert n. induction fuel as [|fuel IH]; intros n; [done|]. cbn. case_match; cbn; [lia|].
  rewrite length_app. specialize (IH (n / 10)). cbn. lia.
Qed.

Lemma length_show_int_le z : (length (show_int z) ≤ 11)%nat.
Proof.
  unfold show_int. case_match; cbn [length]; [pose proof (length_show_digits_le 10 (- z))|pose proof (length_show_digits_le 10 z)]; lia.
Qed.

Lemma log_text_whole idx pid :
  log_text idx pid = str "Thread " ++ show_int idx ++ str " (pid " ++ show_int pid ++ str ") wrote this log." ++ [10].
Proof.
  unfold log_text, snprintf_text. apply firstn_all2. rewrite !length_app.
  pose proof (length_show_int_le idx). pose proof (length_show_int_le pid).
  change (length (str "Thread ")) with 7%nat. change (length (str " (pid ")) with 6%nat.
  change (length (str ") wrote this log.")) with 17%nat. cbn [length]. lia.
Qed.

#[local] Opaque log_path log_text.

(** A thread changes its own file only. *)
Lemma do_chmod_frame r path mode fs p :
  p ≠ name path → (do_chmod r path mode fs).2 !! p = fs !! p.
Proof.
  intros Hp. unfold do_chmod. destruct (err r); [done|]. destruct (do_stat path fs); [|done].
  cbn. by rewrite lookup_insert_ne by congruence.
Qed.

Lemma do_open_frame umask r path mode fs p :
  p ≠ path → (do_open umask r path mode fs).2 !! p = fs !! p.
Proof.
  intros Hp. unfold do_open. destruct (err r); [done|].
  repeat case_match; cbn; try done; by rewrite lookup_insert_ne by congruence.
Qed.

Lemma log_worker_frame umask pid idx r pc fs pc' fs' p :
  log_idx idx → log_worker umask pid idx r pc fs = Some (pc', fs') → p ≠ log_path idx → fs' !! p = fs !! p.
Proof.
  intros Hi E Hp. destruct pc; cbn [log_worker] in E; try done.
  - pose proof (do_open_frame umask r _ LOG_FILE_PERMISSIONS fs p Hp) as H.
    destruct (do_open _ _ _ _ _) as [e fs1]. by injection E as _ <-.
  - case_decide; [|done]. injection E as _ <-. unfold do_write. destruct (err r); [done|].
    by rewrite lookup_alter_ne by congruence.
  - by injection E as _ <-.
  - pose proof (do_chmod_frame r (log_path idx) LOG_FILE_PERMISSIONS fs p) as H.
    rewrite log_path_name in H by done. destruct (do_chmod _ _ _ _) as [e fs1]. injection E as _ <-. by apply H.
Qed.

(** The calls that succeed. *)
Lemma do_open_done umask r path mode fs fs' :
  do_open umask r path mode fs = (None, fs') → ∃ p, fs' !! path = Some (Inode false p []).
Proof.
  unfold do_open. repeat case_match; intros [= <-]; eexists; by rewrite lookup_insert_eq.
Qed.

Lemma do_chmod_done r path mode fs fs' :
  do_chmod r path mode fs = (None, fs') →
  ∃ nd, do_stat path fs = Some nd ∧ fs' = <[name path := Inode (is_dir nd) mode (content nd)]> fs.
Proof. unfold do_chmod. repeat case_match; intros [= <-]. by eexists. Qed.

Lemma do_chmod_failed r path mode fs e fs' : do_chmod r path mode fs = (Some e, fs') → fs' = fs.
Proof. unfold do_chmod. by repeat case_match; intros [= _ <-]. Qed.

Lemma log_worker_ok umask pid idx r pc fs pc' fs' :
  log_idx idx → log_ok pid idx pc fs → log_worker umask pid idx r pc fs = Some (pc', fs') →
  log_ok pid idx pc' fs'.
Proof.
  intros Hi Hok E. destruct pc; cbn [log_worker log_ok] in E, Hok; try done.
  - destruct (do_open _ _ _ _ _) as [[e|] fs1] eqn:Ho; injection E as <- <-; [by left|]. by eapply do_open_done.
  - case_decide; [|done]. injection E as <- <-. cbn. destruct Hok as [p Hp]. exists p. unfold do_write, holds_prefix.
    destruct (err r); [by exists 0%nat|]. exists (Z.to_nat (count r)).
    rewrite lookup_alter_eq, Hp. cbn. by rewrite drop_nil, app_nil_r.
  - by injection E as <- <-.
  - destruct (do_chmod _ _ _ _) as [[e|] fs1] eqn:Hc; injection E as <- <-.
    + apply do_chmod_failed in Hc as ->. by right.
    + apply do_chmod_done in Hc as (nd & Hs & ->). destruct Hok as (p & m & Hp).
      unfold do_stat in Hs. rewrite log_path_name, Hp in Hs by done. cbn in Hs.
      rewrite log_path_slash in Hs by done. injection Hs as <-. exists m.
      by rewrite log_path_name, lookup_insert_eq by done.
Qed.

Lemma log_ok_frame pid idx pc fs fs' :
  fs' !! log_path idx = fs !! log_path idx → log_ok pid idx pc fs → log_ok pid idx pc fs'.
Proof. intros E. destruct pc as [| | | | |[]]; unfold log_ok, holds_prefix; by rewrite ?E. Qed.

(** After [create_log_folder] the folder is there, and nothing else has changed. *)
Lemma do_mkdir_frame umask r path mode fs p :
  p ≠ name path → (do_mkdir umask r path mode fs).2 !! p = fs !! p.
Proof.
  intros Hp. unfold do_mkdir. repeat case_match; cbn; try done. by rewrite lookup_insert_ne by congruence.
Qed.

Lemma create_log_folder_ok umask r1 r2 fs m fs' :
  create_log_folder umask r1 r2 fs = (m, fs') →
  (∀ p, p ≠ folder → fs' !! p = fs !! p) ∧ (m = None → folder_ok fs').
Proof.
  unfold create_log_folder. pose proof (λ p, do_mkdir_frame umask r1 LOG_FOLDER LOG_FOLDER_PERMISSIONS fs p) as H1.
  change (name LOG_FOLDER) with folder in H1. destruct (do_mkdir _ _ _ _ _) as [e fs1]. cbn in H1.
  destruct (_ && _); [by intros [= <- <-]|].
  pose proof (λ p, do_chmod_frame r2 LOG_FOLDER LOG_FOLDER_PERMISSIONS fs1 p) as H2.
  change (name LOG_FOLDER) with folder in H2.
  destruct (do_chmod _ _ _ _) as [[e'|] fs2] eqn:Hc; cbn in H2; intros [= <- <-].
  - split; [|done]. intros p Hp. rewrite H2, H1; done.
  - split; [intros p Hp; rewrite H2, H1; done|]. intros _. apply do_chmod_done in Hc as (nd & Hs & ->).
    exists (content nd). change (name LOG_FOLDER) with folder. rewrite lookup_insert_eq.
    unfold do_stat in Hs. apply bind_Some in Hs as (nd' & _ & Hs).
    change (ends_in_slash LOG_FOLDER) with true in Hs. destruct (is_dir nd') eqn:Ed; [|done].
    injection Hs as ->. by rewrite Ed.
Qed.

(** ** The whole program *)

Section whole.
Context (umask pid : Z) (inp : Input) (fs0 : files).
Implicit Types (w : whole) (fs : files) (ls : list log_pc).

(** The log threads that have been created. *)
Definition created_ok (p : phase) ls : Prop :=
  match p with
  | PFolder => ∀ k pc, zget ls k = Some pc → pc = LNew
  | PCreate t => 1 ≤ t ≤ MAX_THREADS_LOG + 1 ∧ ∀ k pc, zget ls k = Some pc → (pc = LNew ↔ t - 1 ≤ k)
  | PSched s => (∀ k pc, zget ls k = Some pc → pc ≠ LNew) ∧
      (mpc s = MReport ∨ (∃ out, mpc s = MReturn 0 out) → forallb returned ls = true)
  | PExit _ => True
  end.

Record whole_ok w : Prop := {
  ok_length : length (logs w) = Z.to_nat MAX_THREADS_LOG;
  ok_folder : match main_at w with PFolder => disk w = fs0 | PExit _ => True | _ => folder_ok (disk w) end;
  ok_logs k pc : zget (logs w) k = Some pc → log_ok pid (k + 1) pc (disk w);
  ok_created : created_ok (main_at w) (logs w);
  ok_others p : p ≠ folder → (∀ idx, log_idx idx → p ≠ log_path idx) → disk w !! p = fs0 !! p
}.

Lemma log_idx_of ls k pc : length ls = Z.to_nat MAX_THREADS_LOG → zget ls k = Some pc → log_idx (k + 1).
Proof. intros Hl Hk%zget_some. rewrite Hl in Hk. unfold log_idx. change MAX_THREADS_LOG with 4 in Hk. lia. Qed.

Lemma init_whole_ok : whole_ok (init_whole fs0).
Proof.
  assert (∀ k pc, zget (replicate 4 LNew) k = Some pc → pc = LNew) as Hnew.
  { intros k pc Hk%zget_elem. by apply elem_of_replicate in Hk as [-> _]. }
  split; try done. intros k pc Hk. by rewrite (Hnew _ _ Hk).
Qed.

(** The steps of main that only change where it is, or the folder. *)
Lemma created_ok_logs p ls k pc pc' fs r fs' :
  ended p = false → zget ls k = Some pc → log_worker umask pid (k + 1) r pc fs = Some (pc', fs') →
  created_ok p ls → created_ok p (zset ls k pc').
Proof.
  intros He Hk E. assert (pc ≠ LNew ∧ pc' ≠ LNew ∧ returned pc = false) as (Hpc & Hpc' & Hret).
  { destruct pc; cbn [log_worker] in E; try done; [| |by injection E as <- _|].
    - destruct (do_open _ _ _ _ _). injection E as <- _. by case_bool_decide.
    - case_decide; [|done]. by injection E as <- _.
    - destruct (do_chmod _ _ _ _). by injection E as <- _. }
  pose proof (zget_some _ _ _ Hk) as Hr.
  destruct p as [|t|s|]; cbn [created_ok]; [| | |done].
  - intros H. by destruct Hpc; eapply H.
  - intros [Ht H]. split; [done|]. intros j pj. rewrite zget_zset by done. case_decide as Ej.
    + intros [= <-]. subst j. rewrite <- (H k pc Hk). tauto.
    + apply H.
  - intros [H1 H2]. split.
    + intros j pj. rewrite zget_zset by done. case_decide; [by intros [= <-]|apply H1].
    + intros Hs. specialize (H2 Hs). rewrite forallb_forall in H2.
      assert (returned pc = true) by (apply H2, list_elem_of_In; by eapply zget_elem). congruence.
Qed.

Lemma report_from b s s' out : running s = true → step inp b s s' → mpc s' = MReturn 0 out → mpc s = MReport.
Proof.
  unfold running. intros Hr Hs E. destruct Hs; cbn [mpc] in *; try congruence; try (by rewrite E in Hr); revert E.
  - unfold main_loop. repeat case_match; cbn; congruence.
  - unfold main_test. repeat case_match; cbn; congruence.
  - revert Hr. unfold worker_test, signal_done. destruct (mpc s); repeat case_match; cbn; congruence.
  - revert Hr. unfold worker_finish, signal_done. destruct (mpc s); repeat case_match; cbn; congruence.
Qed.

Lemma wstep_ok b w w' : whole_ok w → wstep umask pid inp b w w' → whole_ok w'.
Proof.
  intros [Hl Hf Hlogs Hc Ho] Hs. destruct Hs; cbn [main_at disk logs] in *; subst.
  - apply create_log_folder_ok in H as [H1 H2]. split; cbn [main_at disk logs]; [done|by apply H2| | |].
    + intros k pc Hk. by rewrite (Hc _ _ Hk).
    + split; [by vm_compute|]. intros k pc Hk. apply zget_some in Hk as Hr. rewrite (Hc _ _ Hk). split; [lia|done].
    + intros p Hp _. by apply H1.
  - apply create_log_folder_ok in H as [H1 _]. split; cbn [main_at disk logs]; [done..| | |].
    + intros k pc Hk. by rewrite (Hc _ _ Hk).
    + done.
    + intros p Hp _. by apply H1.
  - destruct Hc as [Ht Hc]. change MAX_THREADS_LOG with 4 in *.
    split; cbn [main_at disk logs]; [by rewrite length_zset|done| | |done].
    + intros k pc. rewrite zget_zset by lia. case_decide; [by intros [= <-]|apply Hlogs].
    + split; [change MAX_THREADS_LOG with 4; lia|]. intros k pc. rewrite zget_zset by lia. case_decide as E.
      * intros [= <-]. split; [done|lia].
      * intros Hk. rewrite (Hc _ _ Hk). lia.
  - by split.
  - destruct Hc as [_ Hc]. split; cbn [main_at disk logs]; [done..| |done].
    split; [|by intros [|[? ?]]]. intros k pc Hk ->. apply (Hc k LNew) in Hk as Hk'.
    apply zget_some in Hk. change MAX_THREADS_LOG with 4 in *. destruct Hk' as [Hk' _]. specialize (Hk' eq_refl). lia.
  - split; cbn [main_at disk logs]; [done..| |done]. destruct Hc as [Hc1 Hc2]. split; [done|].
    intros [E|[out E]]; [auto|]. apply Hc2. left. by eapply report_from.
  - pose proof (log_idx_of _ _ _ Hl H0) as Hi. pose proof (zget_some _ _ _ H0) as Hr.
    pose proof (log_worker_frame _ _ _ _ _ _ _ _ folder Hi H1 (not_eq_sym (log_path_folder _ Hi))) as Hfold.
    split; cbn [main_at disk logs]; [by rewrite length_zset| | |by eapply created_ok_logs|].
    + destruct p; try done; try (unfold folder_ok; by rewrite Hfold).
      by rewrite (Hc _ _ H0) in H1.
    + intros j pj. rewrite zget_zset by done. case_decide as E.
      * intros [= <-]. subst j. eapply log_worker_ok; [done| |done]. by apply Hlogs.
      * intros Hj. eapply log_ok_frame, Hlogs, Hj. eapply log_worker_frame; [exact Hi|done|].
        intros Ep. apply E. apply log_path_inj in Ep; [lia| |done]. by eapply log_idx_of.
    + intros p' Hp Hidx. rewrite (log_worker_frame _ _ _ _ _ _ _ _ p' Hi H1); [by apply Ho|by apply Hidx].
Qed.

Lemma wrun_ok n k w : wrun umask pid inp fs0 n k w → whole_ok w.
Proof. induction 1; [apply init_whole_ok|by eapply wstep_ok]. Qed.

(** *** Counting the steps *)

Definition log_weight (pc : log_pc) : Z :=
  match pc with LNew | LOpen => 4 | LWrite => 3 | LClose => 2 | LChmod => 1 | LReturn _ => 0 end.

Definition phase_weight (p : phase) : Z :=
  match p with PFolder => 6 | PCreate t => MAX_THREADS_LOG + 2 - t | _ => 0 end.

(** The steps before [PSched] and those of the log threads are bounded; the others
    are a run of the scheduler. *)
Definition counted (n k : nat) w : Prop :=
  match main_at w with
  | PSched s => ∃ m, run inp m k s ∧
      Z.of_nat n + zsum (log_weight <$> logs w) ≤ 22 + Z.of_nat m
  | p => k = 0%nat ∧ Z.of_nat n + zsum (log_weight <$> logs w) + phase_weight p ≤ 22
  end.

Lemma zsum_log_weight ls k pc pc' :
  zget ls k = Some pc →
  zsum (log_weight <$> zset ls k pc') = zsum (log_weight <$> ls) - log_weight pc + log_weight pc'.
Proof.
  intros Hk. replace (log_weight <$> zset ls k pc') with (zset (log_weight <$> ls) k (log_weight pc')).
  - apply zsum_zset. unfold zget in *. case_decide; [|done]. by rewrite list_lookup_fmap, Hk.
  - unfold zset. case_decide; [|done]. by rewrite list_fmap_insert.
Qed.

Lemma log_worker_weight idx r pc fs pc' fs' :
  log_worker umask pid idx r pc fs = Some (pc', fs') → log_weight pc' + 1 ≤ log_weight pc.
Proof.
  destruct pc; cbn [log_worker]; try done.
  - destruct (do_open _ _ _ _ _). intros [= <- _]. by case_bool_decide.
  - case_decide; [|done]. by intros [= <- _].
  - by intros [= <- _].
  - destruct (do_chmod _ _ _ _). by intros [= <- _].
Qed.

Lemma wstep_counted n k b w w' :
  whole_ok w → counted n k w → wstep umask pid inp b w w' → counted (S n) (if b then S k else k) w'.
Proof.
  intros Hw Hc Hs. unfold counted in *. destruct Hs; cbn [main_at logs phase_weight] in *.
  - change MAX_THREADS_LOG with 4. destruct Hc. split; [done|lia].
  - destruct Hc. split; [done|lia].
  - pose proof (ok_created _ Hw) as [Ht Hnew]. pose proof (ok_length _ Hw) as Hl. cbn [main_at logs] in *.
    change MAX_THREADS_LOG with 4 in *. destruct (zget_is_some ls (t - 1)) as [pc Hpc]; [lia|].
    rewrite (zsum_log_weight _ _ _ _ Hpc). assert (pc = LNew) as -> by (apply (Hnew _ _ Hpc); lia).
    destruct Hc. split; [done|cbn [log_weight]; lia].
  - pose proof (ok_created _ Hw) as [Ht _]. cbn [main_at] in *. destruct Hc. split; [done|lia].
  - pose proof (ok_created _ Hw) as [Ht _]. cbn [main_at] in *. change MAX_THREADS_LOG with 4 in *.
    destruct Hc as [-> Hc]. exists 0%nat. split; [constructor|lia].
  - destruct Hc as (m & Hrun & Hc). exists (S m). split; [|lia].
    destruct b; [by eapply run_spurious|by eapply run_step].
  - pose proof (log_worker_weight _ _ _ _ _ _ H1). rewrite (zsum_log_weight _ _ _ _ H0).
    destruct p; cbn [phase_weight] in *;
      [| |destruct Hc as (m & Hrun & Hc); exists m; split; [done|lia]|];
      destruct Hc; (split; [done|lia]).
Qed.

Lemma wrun_counted n k w : wrun umask pid inp fs0 n k w → counted n k w.
Proof.
  induction 1 as [|n k b w w' Hr IH Hs]; [by vm_compute|]. eapply wstep_counted; [by eapply wrun_ok|done..].
Qed.

(** *** Progress *)

Lemma log_worker_enabled idx pc fs :
  pc ≠ LNew → returned pc = false → ∃ pc' fs', log_worker umask pid idx fine pc fs = Some (pc', fs').
Proof.
  destruct pc; try done; intros _ _; cbn [log_worker].
  - destruct (do_open _ _ _ _ _). by eexists _, _.
  - rewrite decide_True by (cbn; lia). by eexists _, _.
  - by eexists _, _.
  - destruct (do_chmod _ _ _ _). by eexists _, _.
Qed.

Lemma not_returned ls : forallb returned ls = false → ∃ k pc, zget ls k = Some pc ∧ returned pc = false.
Proof.
  intros Hall. assert (∃ pc, pc ∈ ls ∧ returned pc = false) as (pc & Hin & Hret).
  { induction ls as [|pc ls IH]; [done|]. cbn in Hall. destruct (returned pc) eqn:E.
    - destruct (IH Hall) as (pc' & ? & ?). exists pc'. split; [by right|done].
    - exists pc. split; [left|done]. }
  apply list_elem_of_lookup in Hin as [k Hk]. exists (Z.of_nat k), pc. split; [|done].
  unfold zget. by rewrite decide_True, Nat2Z.id by lia.
Qed.

Lemma wprogress w : wf inp → fits inp → whole_ok w →
  (∀ s, main_at w = PSched s → sys_ok inp s) → ended (main_at w) = false →
  ∃ w', wstep umask pid inp false w w'.
Proof.
  intros Hwf Hfits Hw Hs He. pose proof (ok_created _ Hw) as Hc. destruct w as [p fs ls]. cbn [main_at logs] in *.
  destruct p as [|t|s|]; [| | |done].
  - destruct (create_log_folder umask fine fine fs) as [[m|] fs'] eqn:E; eexists; [by eapply ws_folder_exit|by eapply ws_folder].
  - destruct (Z.leb_spec t MAX_THREADS_LOG); eexists; [by apply ws_create|by apply ws_created].
  - cbn [ended] in He. apply negb_false_iff in He as Hr. destruct Hc as [Hnew _].
    destruct (forallb returned ls) eqn:Hall.
    + destruct (progress inp Hwf Hfits s (Hs _ eq_refl) Hr) as [s' Hs']. eexists. by apply ws_sched.
    + destruct (not_returned ls Hall) as (k & pc & Hk & Hret).
      destruct (log_worker_enabled (k + 1) pc fs (Hnew _ _ Hk) Hret) as (pc' & fs' & E).
      eexists. eapply ws_log; [|done..]. cbn [ended]. by rewrite Hr.
Qed.
End whole.

(** ** Theorems *)

(** C14. The scheduler with its log threads.  In every interleaving of all its
    threads, with any replies of the system: when main returns 0 it has printed
    the report of the sequential schedule, and by then every log thread is done.
    Each has left its file with permissions 0755 and the first bytes of its text,
    or reported that it could not be opened or changed; the log folder is a
    directory with permissions 0755, and no other file has changed. *)
Theorem logs_written umask pid inp fs0 n k s fs ls out fuel :
  wf inp → fits inp → wrun umask pid inp fs0 n k (Whole (PSched s) fs ls) →
  mpc s = MReturn 0 out → 2 * zsum (bt inp) + 1 < Z.of_nat fuel →
  rr_run fuel inp = Ok out ∧ folder_ok fs ∧
  (∀ i, log_idx i → ∃ message, zget ls (i - 1) = Some (LReturn message) ∧ log_ok pid i (LReturn message) fs) ∧
  (∀ p, p ≠ folder → (∀ i, log_idx i → p ≠ log_path i) → fs !! p = fs0 !! p).
Proof.
  intros Hwf Hfits Hrun E Hfuel. pose proof (wrun_ok _ _ _ _ _ _ _ Hrun) as [Hl Hf Hlogs [_ Hret] Ho].
  pose proof (wrun_counted _ _ _ _ _ _ _ Hrun) as (m & Hm & _). cbn [main_at logs disk] in *.
  split_and!; [|done| |done].
  - eapply return_runs; [done|done| |done|lia]. by eapply run_ok.
  - intros i Hi. unfold log_idx in Hi. change MAX_THREADS_LOG with 4 in Hl. destruct (zget_is_some ls (i - 1)) as [pc Hpc]; [lia|].
    pose proof (Hlogs _ _ Hpc) as Hok. replace (i - 1 + 1) with i in Hok by lia.
    assert (returned pc = true) as Hr.
    { specialize (Hret (or_intror (ex_intro _ out E))). rewrite forallb_forall in Hret.
      apply Hret, list_elem_of_In. by eapply zget_elem. }
    destruct pc as [| | | | |message]; try done. by exists message.
Qed.

(** With its log threads done the program goes on as the scheduler. *)
Lemma sched_finish umask pid inp fs0 n k fs ls m j s :
  wrun umask pid inp fs0 n k (Whole (PSched (init_sys inp)) fs ls) → forallb returned ls = true →
  run inp m j s → ∃ n' k', wrun umask pid inp fs0 n' k' (Whole (PSched s) fs ls).
Proof.
  intros Hw Hall. induction 1 as [|m j s s' _ (n' & k' & IH) Hr Hs|m j s s' _ (n' & k' & IH) Hr Hs];
    [by exists n, k|exists (S n'), k'|exists (S n'), (S k')].
  - by apply (wrun_step _ _ _ _ _ _ false _ _ IH), ws_sched.
  - by apply (wrun_step _ _ _ _ _ _ true _ _ IH), ws_sched.
Qed.

(** The calls of the log threads in a given order, with given replies. *)
Fixpoint run_logs (umask pid : Z) (calls : list (Z * reply)) (fs : files) (ls : list log_pc) :
    option (files * list log_pc) :=
  match calls with
  | [] => Some (fs, ls)
  | (k, r) :: calls =>
      pc ← zget ls k;
      '(pc, fs) ← log_worker umask pid (k + 1) r pc fs;
      run_logs umask pid calls fs (zset ls k pc)
  end.

Lemma run_logs_sound umask pid inp fs0 calls n k s fs ls fs' ls' :
  wrun umask pid inp fs0 n k (Whole (PSched s) fs ls) → running s = true →
  run_logs umask pid calls fs ls = Some (fs', ls') →
  ∃ n', wrun umask pid inp fs0 n' k (Whole (PSched s) fs' ls').
Proof.
  intros Hrun Hr. revert n fs ls Hrun. induction calls as [|[j r] calls IH]; intros n fs ls Hrun; cbn [run_logs].
  - intros [= <- <-]. by exists n.
  - intros (pc & Hpc & ([pc' fs1] & E & Hcalls)%bind_Some)%bind_Some. eapply IH, Hcalls.
    eapply (wrun_step _ _ _ _ _ _ false); [exact Hrun|]. eapply ws_log; [|done|done]. cbn. by rewrite Hr.
Qed.

Definition ex_calls : list (Z * reply) :=
  [(0, fine); (1, fine); (0, Reply None 34); (3, fine); (2, fine); (3, Reply None 34); (2, Reply None 10); (1, fine);
   (0, fine); (1, fine); (2, fine); (3, fine); (3, fine); (2, fine); (1, fine); (0, fine)].

Definition ex_files : files := (create_log_folder 18 fine fine ∅).2.

(** All four threads write their files, the last one all of its text. *)
Definition ex_good (o : option (files * list log_pc)) : bool :=
  match o with
  | Some (fs, ls) =>
      bool_decide (ls = replicate 4 (LReturn None)) &&
      bool_decide (fs !! log_path 4 = Some (Inode false LOG_FILE_PERMISSIONS (log_text 4 42)))
  | None => false
  end.

Lemma ex_calls_good : ex_good (run_logs 18 42 ex_calls ex_files (replicate 4 LOpen)) = true.
Proof. by vm_compute. Qed.

Lemma ex_created : wrun 18 42 ex_one ∅ 6 0 (Whole (PSched (init_sys ex_one)) ex_files (replicate 4 LOpen)).
Proof.
  assert (wrun 18 42 ex_one ∅ 1 0 (Whole (PCreate 1) ex_files (replicate 4 LNew))) as R.
  { eapply (wrun_step _ _ _ _ _ _ false); [apply wrun_init|]. by apply (ws_folder _ _ _ fine fine). }
  assert (∀ n t ls, t ≤ 4 → wrun 18 42 ex_one ∅ n 0 (Whole (PCreate t) ex_files ls) →
    wrun 18 42 ex_one ∅ (S n) 0 (Whole (PCreate (t + 1)) ex_files (zset ls (t - 1) LOpen))) as Hnext.
  { intros n t ls Ht R'. by apply (wrun_step _ _ _ _ _ _ false _ _ R'), ws_create. }
  do 4 (apply Hnext in R; [|done]).
  by apply (wrun_step _ _ _ _ _ _ false _ _ R), ws_created.
Qed.

Lemma ex_logs_run :
  ∃ n k s fs ls, wrun 18 42 ex_one ∅ n k (Whole (PSched s) fs ls) ∧
    mpc s = MReturn 0 [Row 1 1 1 0; AvgTurnaround 1 1; AvgWaiting 0 1] ∧
    ls = replicate 4 (LReturn None) ∧ fs !! log_path 4 = Some (Inode false LOG_FILE_PERMISSIONS (log_text 4 42)).
Proof.
  pose proof ex_calls_good as Hgood. destruct (run_logs _ _ _ _ _) as [[fs ls]|] eqn:E; [|done].
  cbn [ex_good] in Hgood. apply andb_true_iff in Hgood as [Hls%bool_decide_eq_true Hfs%bool_decide_eq_true].
  apply (run_logs_sound _ _ _ _ ex_calls _ _ _ _ _ _ _ ex_created eq_refl) in E as [n R].
  destruct ex_one_run as (m & s & Hrun & Hs).
  destruct (sched_finish _ _ _ _ _ _ _ _ _ _ _ R ltac:(by rewrite Hls) Hrun) as (n' & k' & R').
  by exists n', k', s, fs, ls.
Qed.

Lemma logs_written_witness :
  ∃ fs ls, rr_run 4 ex_one = Ok [Row 1 1 1 0; AvgTurnaround 1 1; AvgWaiting 0 1] ∧ folder_ok fs ∧
    (∀ i, log_idx i → ∃ message, zget ls (i - 1) = Some (LReturn message) ∧ log_ok 42 i (LReturn message) fs) ∧
    (∀ p, p ≠ folder → (∀ i, log_idx i → p ≠ log_path i) → fs !! p = (∅ : files) !! p).
Proof.
  destruct ex_logs_run as (n & k & s & fs & ls & R & Hs & _). exists fs, ls.
  apply (logs_written 18 42 ex_one ∅ n k s fs ls _ 4 ex_one_wf ex_one_fits R Hs). by vm_compute.
Defined.

(** The log threads change nothing about how the program ends: some thread can
    always take a step that is not a spurious wakeup until main has gone, and the
    steps beyond those of the spurious wakeups are bounded. *)
Theorem logs_terminate umask pid inp fs0 n k w :
  wf inp → fits inp → wrun umask pid inp fs0 n k w →
  Z.of_nat n ≤ (4 * zsum (bt inp) + 2) * (12 * threads inp + 8) + 23 * threads inp + 24 + 12 * Z.of_nat k ∧
  (ended (main_at w) = false → ∃ w', wstep umask pid inp false w w').
Proof.
  intros Hwf Hfits Hrun. pose proof (wrun_counted _ _ _ _ _ _ _ Hrun) as Hc. split.
  - assert (0 ≤ zsum (log_weight <$> logs w)).
    { generalize (logs w) as l. induction l as [|[] l IHl]; [done|..]; unfold zsum in *; cbn in *; lia. }
    pose proof (wf_threads _ Hwf). pose proof (work_nonneg inp Hwf).
    unfold counted in Hc. destruct (main_at w) as [|t|s|] eqn:E.
    3:{ destruct Hc as (m & Hm & Hc). pose proof (run_bound inp m k s Hwf Hfits Hm). lia. }
    all: destruct Hc as [-> Hc].
    2:{ pose proof (ok_created _ _ _ (wrun_ok _ _ _ _ _ _ _ Hrun)) as Hcr. rewrite E in Hcr. destruct Hcr.
        cbn [phase_weight] in Hc. nia. }
    all: cbn [phase_weight] in Hc; nia.
  - eapply wprogress; [done|done|by eapply wrun_ok|].
    intros s E. unfold counted in Hc. rewrite E in Hc. destruct Hc as (m & Hm & _). by eapply run_ok.
Qed.
