(* ===== verification/LogTest.v ===== *)
(** * The test of the log files

    Models assignments/a2/scheduling_rr/tests/test_log_files.c, with the parts of
    tests/minunit.h it uses, on the file system of [Logs].  The output is a list
    of events; the times that minunit measures are left out of it.  The name that
    the compiler gives the file is a parameter. *)
From stdpp Require Import base tactics numbers list gmap option.
From Stdlib Require Import ZArith Lia.
From S2P Require Import Prelude CText RoundRobin Logs.

(** What is written to standard output and standard error. *)
Inductive event := Out (t : bytes) | Err (t : bytes) | Perror (t : bytes).

(** @src assignments/a2/scheduling_rr/tests/minunit.h 68-82 minunit_run
    The counters, and what has been written. *)
Record minunit := Minunit {
  minunit_run : Z;
  minunit_assert : Z;
  minunit_fail : Z;
  minunit_status : bool;
  minunit_last_message : bytes;
  written : list event
}.

Definition init_minunit : minunit := Minunit 0 0 0 false [] [].
Definition write (e : event) (mu : minunit) : minunit :=
  Minunit (minunit_run mu) (minunit_assert mu) (minunit_fail mu) (minunit_status mu)
    (minunit_last_message mu) (written mu ++ [e]).

Section test.
Context (FILE : bytes).

(** @src assignments/a2/scheduling_rr/tests/minunit.h 155-160 mu_fail
    After it the test returns. *)
Definition mu_fail (func : bytes) (line : Z) (message : bytes) (mu : minunit) : minunit :=
  Minunit (minunit_run mu) (minunit_assert mu + 1) (minunit_fail mu) true
    (snprintf_text 1024 (func ++ str " failed:" ++ [10; 9] ++ FILE ++ str ":" ++ show_int line ++ str ": " ++ message))
    (written mu).

(** @src assignments/a2/scheduling_rr/tests/minunit.h 162-171 mu_assert
    [k] is the rest of the test. *)
Definition mu_assert (func : bytes) (line : Z) (test : bool) (message : bytes) (mu : minunit)
    (k : minunit → minunit) : minunit :=
  if test then
    k (write (Out (str ".")) (Minunit (minunit_run mu) (minunit_assert mu + 1) (minunit_fail mu)
         (minunit_status mu) (minunit_last_message mu) (written mu)))
  else mu_fail func line message mu.

(** @src assignments/a2/scheduling_rr/tests/minunit.h 112-128 MU_RUN_TEST *)
Definition MU_RUN_TEST (test : minunit → minunit) (mu : minunit) : minunit :=
  let mu := test (Minunit (minunit_run mu) (minunit_assert mu) (minunit_fail mu) false
                    (minunit_last_message mu) (written mu)) in
  let mu := Minunit (minunit_run mu + 1) (minunit_assert mu)
              (if minunit_status mu then minunit_fail mu + 1 else minunit_fail mu)
              (minunit_status mu) (minunit_last_message mu) (written mu) in
  if minunit_status mu
  then write (Out ([10] ++ minunit_last_message mu ++ [10])) (write (Out (str "F")) mu) else mu.

(** @src assignments/a2/scheduling_rr/tests/minunit.h 131-140 MU_REPORT *)
Definition MU_REPORT (mu : minunit) : minunit :=
  write (Out ([10; 10] ++ show_int (minunit_run mu) ++ str " tests, " ++ show_int (minunit_assert mu) ++
    str " assertions, " ++ show_int (minunit_fail mu) ++ str " failures" ++ [10])) mu.

(** @src assignments/a2/scheduling_rr/tests/test_log_files.c 8-13 LOG_FOLDER *)
Definition LOG_FOLDER : bytes := str "logFolder/".
Definition MAX_THREADS : Z := 3.
Definition MAX_PATH_LEN : nat := 40.
Definition LOG_FOLDER_PERMISSIONS : Z := 7 * 64 + 5 * 8 + 5.
Definition LOG_FILE_PERMISSIONS : Z := 7 * 64 + 5 * 8 + 5.

(** @src assignments/a2/scheduling_rr/tests/test_log_files.c 16-19 COLOR_RESET *)
Definition COLOR_RESET : bytes := 27 :: str "[0m".
Definition COLOR_GREEN : bytes := 27 :: str "[1;32m".
Definition COLOR_RED : bytes := 27 :: str "[1;31m".
Definition COLOR_BLUE : bytes := 27 :: str "[1;34m".

(** @src assignments/a2/scheduling_rr/tests/test_log_files.c 21-23 log_message *)
Definition log_message (message : bytes) : minunit → minunit :=
  write (Out (COLOR_GREEN ++ [226; 156; 148] ++ str " " ++ message ++ COLOR_RESET ++ [10])).

(** @src assignments/a2/scheduling_rr/tests/test_log_files.c 25-27 log_error *)
Definition log_error (message : bytes) : minunit → minunit :=
  write (Err (COLOR_RED ++ [226; 156; 152] ++ str " Error: " ++ message ++ COLOR_RESET ++ [10])).

Definition thread_path (i : Z) : bytes := LOG_FOLDER ++ str "thread" ++ show_int i ++ str ".txt".

(** @src assignments/a2/scheduling_rr/tests/test_log_files.c 29-33 file_exists *)
Definition file_exists (fs : files) (thread_number : Z) : bool :=
  bool_decide (is_Some (do_stat (snprintf_text MAX_PATH_LEN (thread_path thread_number)) fs)).

(** @src assignments/a2/scheduling_rr/tests/test_log_files.c 35-39 directory_exists *)
Definition directory_exists (fs : files) (path : bytes) : bool :=
  match do_stat path fs with Some info => is_dir info | None => false end.

(** @src assignments/a2/scheduling_rr/tests/test_log_files.c 41-49 check_permissions *)
Definition check_permissions (fs : files) (path : bytes) (expected_perms : Z) (mu : minunit) : Z * minunit :=
  match do_stat path fs with
  | None => (-1, write (Perror (str "stat")) (log_error (str "Could not access file permissions") mu))
  | Some st => (c_bool (Z.land (perm st) (7 * 64 + 7 * 8 + 7) =? expected_perms), mu)
  end.

(** @src assignments/a2/scheduling_rr/tests/test_log_files.c 51-57 test_log_folder_exists *)
Definition test_log_folder_exists (fs : files) (mu : minunit) : minunit :=
  if directory_exists fs LOG_FOLDER then log_message (str "logFolder exists!") mu
  else mu_fail (str "test_log_folder_exists") 55 (str "logFolder directory does not exist!") mu.

(** @src assignments/a2/scheduling_rr/tests/test_log_files.c 59-68 test_thread_log_files_exists *)
Fixpoint files_exist_loop (fs : files) (idxs : list Z) (mu : minunit) : minunit :=
  match idxs with
  | [] => log_message (str "All expected log files exist!") mu
  | i :: idxs =>
      if negb (file_exists fs i) then
        mu_fail (str "test_thread_log_files_exists") 64
          (snprintf_text (MAX_PATH_LEN + 32) (str "Missing log file: " ++ thread_path i)) mu
      else files_exist_loop fs idxs mu
  end.
Definition test_thread_log_files_exists (fs : files) : minunit → minunit :=
  files_exist_loop fs (iota 1 (Z.to_nat MAX_THREADS)).

(** @src assignments/a2/scheduling_rr/tests/test_log_files.c 70-78 test_log_folder_permissions *)
Definition test_log_folder_permissions (fs : files) (mu : minunit) : minunit :=
  let '(result, mu) := check_permissions fs LOG_FOLDER LOG_FOLDER_PERMISSIONS mu in
  mu_assert (str "test_log_folder_permissions") 72 (negb (result =? -1))
    (str "Could not check logFolder permissions!") mu (λ mu,
  if c_true result then log_message (str "logFolder has correct permissions!") mu
  else mu_fail (str "test_log_folder_permissions") 76 (str "Incorrect permissions for logFolder!") mu).

(** @src assignments/a2/scheduling_rr/tests/test_log_files.c 80-103 test_log_file_permissions
    [all_correct] is only set to 0 after a return. *)
Fixpoint file_permissions_loop (fs : files) (idxs : list Z) (all_correct : Z) (mu : minunit) : minunit :=
  match idxs with
  | [] => if c_true all_correct then log_message (str "All log files have correct permissions!") mu else mu
  | i :: idxs =>
      let file_path := snprintf_text MAX_PATH_LEN (thread_path i) in
      let '(result, mu) := check_permissions fs file_path LOG_FILE_PERMISSIONS mu in
      if result =? -1 then
        mu_fail (str "test_log_file_permissions") 91
          (snprintf_text (MAX_PATH_LEN + 64) (str "Could not check permissions for " ++ file_path)) mu
      else if negb (c_true result) then
        mu_fail (str "test_log_file_permissions") 95
          (snprintf_text (MAX_PATH_LEN + 64) (str "Incorrect permissions for " ++ file_path)) mu
      else file_permissions_loop fs idxs all_correct mu
  end.
Definition test_log_file_permissions (fs : files) : minunit → minunit :=
  file_permissions_loop fs (iota 1 (Z.to_nat MAX_THREADS)) 1.

(** @src assignments/a2/scheduling_rr/tests/test_log_files.c 105-110 test_suite *)
Definition test_suite (fs : files) (mu : minunit) : minunit :=
  let mu := MU_RUN_TEST (test_log_folder_permissions fs) mu in
  let mu := MU_RUN_TEST (test_log_folder_exists fs) mu in
  let mu := MU_RUN_TEST (test_log_file_permissions fs) mu in
  MU_RUN_TEST (test_thread_log_files_exists fs) mu.

(** @src assignments/a2/scheduling_rr/tests/test_log_files.c 112-118 main *)
Definition main (fs : files) : minunit :=
  let mu := write (Out ([10; 27] ++ str "[1;34m::: Running Tests... :::" ++ [10] ++ COLOR_RESET)) init_minunit in
  let mu := test_suite fs mu in
  let mu := MU_REPORT mu in
  write (Out ([10; 27] ++ str "[1;34m::: Tests Completed :::" ++ [10] ++ COLOR_RESET)) mu.
End test.

(** ** Specification *)

(** What the test looks for. *)
Definition perm_ok (nd : inode) : Prop := Z.land (perm nd) (7 * 64 + 7 * 8 + 7) = 7 * 64 + 5 * 8 + 5.
Definition folder_good (fs : files) : Prop := ∃ nd, fs !! folder = Some nd ∧ is_dir nd = true ∧ perm_ok nd.
Definition file_good (fs : files) (i : Z) : Prop := ∃ nd, fs !! log_path i = Some nd ∧ perm_ok nd.

(** ** Lemmas *)

Lemma thread_path_log i : 1 ≤ i ≤ 3 → snprintf_text MAX_PATH_LEN (thread_path i) = log_path i.
Proof. intros Hi. assert (log_idx i) as Hl by (unfold log_idx; lia). by case_idx Hl. Qed.

Lemma stat_file fs i : 1 ≤ i ≤ 3 → do_stat (snprintf_text MAX_PATH_LEN (thread_path i)) fs = fs !! log_path i.
Proof.
  intros Hi. assert (log_idx i) as Hl by (unfold log_idx; lia).
  rewrite thread_path_log by done. unfold do_stat. rewrite log_path_name, log_path_slash by done.
  by destruct (fs !! log_path i).
Qed.

Lemma stat_folder fs :
  do_stat LOG_FOLDER fs = match fs !! folder with Some nd => if is_dir nd then Some nd else None | None => None end.
Proof. unfold do_stat. change (name LOG_FOLDER) with folder. by destruct (fs !! folder) as [[[] ? ?]|]. Qed.

(** A test that passes exactly when [P] holds, and keeps the counts of the others. *)
Definition judges (test : minunit → minunit) (P : Prop) : Prop :=
  ∀ mu, minunit_run (test mu) = minunit_run mu ∧ minunit_fail (test mu) = minunit_fail mu ∧
    (minunit_status mu = false → (minunit_status (test mu) = false ↔ P)).

(** Two counters after a test. *)
Lemma run_test_judged test P mu :
  judges test P → ∃ d, minunit_run (MU_RUN_TEST test mu) = minunit_run mu + 1 ∧
    minunit_fail (MU_RUN_TEST test mu) = minunit_fail mu + d ∧ 0 ≤ d ∧ (d = 0 ↔ P).
Proof.
  intros Hj. unfold MU_RUN_TEST.
  set (mu0 := Minunit _ _ _ false _ _). destruct (Hj mu0) as (H1 & H2 & H3). specialize (H3 eq_refl).
  cbn [minunit_status]. destruct (minunit_status (test mu0)) eqn:E; cbn.
  - exists 1. rewrite H1, H2. split_and!; [done|done|lia|]. split; [lia|]. intros HP. by apply H3 in HP.
  - exists 0. rewrite H1, H2, Z.add_0_r. split_and!; [done|done|lia|]. split; [intros _; by apply H3|done].
Qed.

Section judged.
Context (FILE : bytes) (fs : files).

Lemma judges_folder_exists :
  judges (test_log_folder_exists FILE fs) (∃ nd, fs !! folder = Some nd ∧ is_dir nd = true).
Proof.
  intros mu. unfold test_log_folder_exists, directory_exists. rewrite stat_folder.
  destruct (fs !! folder) as [nd|] eqn:E; [destruct (is_dir nd) eqn:Ed|]; cbn; rewrite ?Ed; cbn.
  - split_and!; [done|done|]. intros ->. split; [by exists nd|done].
  - split_and!; [done|done|]. intros _. split; [done|]. intros (nd' & [= <-] & ?). congruence.
  - split_and!; [done|done|]. intros _. split; [done|]. by intros (nd' & ? & _).
Qed.

Lemma check_permissions_file p e mu :
  check_permissions fs p e mu =
  match do_stat p fs with
  | None => (-1, write (Perror (str "stat")) (log_error (str "Could not access file permissions") mu))
  | Some st => (if bool_decide (Z.land (perm st) (7 * 64 + 7 * 8 + 7) = e) then 1 else 0, mu)
  end.
Proof.
  unfold check_permissions. destruct (do_stat p fs) as [st|]; [|done].
  case_bool_decide as E; [by rewrite (proj2 (Z.eqb_eq _ _) E)|by rewrite (proj2 (Z.eqb_neq _ _) E)].
Qed.

Lemma judges_folder_permissions : judges (test_log_folder_permissions FILE fs) (folder_good fs).
Proof.
  intros mu. unfold test_log_folder_permissions. rewrite check_permissions_file, stat_folder. unfold folder_good.
  destruct (fs !! folder) as [nd|] eqn:E; [destruct (is_dir nd) eqn:Ed|]; cbn.
  - case_bool_decide as Hp; cbn.
    + split_and!; [done|done|]. intros ->. split; [by exists nd|done].
    + split_and!; [done|done|]. intros _. split; [done|]. by intros (nd' & [= <-] & _ & ?).
  - split_and!; [done|done|]. intros _. split; [done|]. intros (nd' & [= <-] & ? & _). congruence.
  - split_and!; [done|done|]. intros _. split; [done|]. by intros (nd' & ? & _).
Qed.

Lemma judges_files_exist idxs : (∀ i, i ∈ idxs → 1 ≤ i ≤ 3) →
  judges (files_exist_loop FILE fs idxs) (∀ i, i ∈ idxs → is_Some (fs !! log_path i)).
Proof.
  intros Hi mu. induction idxs as [|i idxs IH]; cbn [files_exist_loop].
  - split_and!; [done|done|]. cbn. intros ->. split; [|done]. intros _ i Hin. by apply elem_of_nil in Hin.
  - unfold file_exists. rewrite stat_file by (apply Hi; left). case_bool_decide as E; cbn.
    + destruct IH as (H1 & H2 & H3); [intros j ?; apply Hi; by right|]. split_and!; [done|done|].
      intros Hs. rewrite (H3 Hs). split; [|intros H j ?; apply H; by right].
      intros H j [-> |?]%elem_of_cons; [done|by apply H].
    + split_and!; [done|done|]. intros _. split; [done|]. intros H. exfalso. apply E, H. left.
Qed.

Lemma judges_file_permissions idxs : (∀ i, i ∈ idxs → 1 ≤ i ≤ 3) →
  judges (file_permissions_loop FILE fs idxs 1) (∀ i, i ∈ idxs → file_good fs i).
Proof.
  intros Hi mu. induction idxs as [|i idxs IH]; cbn [file_permissions_loop].
  - split_and!; [done|done|]. cbn. intros ->. split; [|done]. intros _ i Hin. by apply elem_of_nil in Hin.
  - rewrite check_permissions_file, stat_file by (apply Hi; left).
    destruct (fs !! log_path i) as [nd|] eqn:E; [case_bool_decide as Hp|].
    + cbn [Z.eqb c_true negb]. destruct IH as (H1 & H2 & H3); [intros j ?; apply Hi; by right|].
      split_and!; [done|done|]. intros Hs. rewrite (H3 Hs). split; [|intros H j ?; apply H; by right].
      intros H j [-> |?]%elem_of_cons; [by exists nd|by apply H].
    + split_and!; [done|done|]. intros _. split; [done|]. intros H.
      destruct (H i) as (nd' & E' & Hp'); [left|]. rewrite E in E'. injection E' as <-. exfalso. by apply Hp.
    + split_and!; [done|done|]. intros _. split; [done|]. intros H.
      destruct (H i) as (nd' & E' & ?); [left|]. congruence.
Qed.
End judged.

Lemma main_judges FILE fs :
  minunit_run (main FILE fs) = 4 ∧
  (minunit_fail (main FILE fs) = 0 ↔ folder_good fs ∧ ∀ i, 1 ≤ i ≤ 3 → file_good fs i).
Proof.
  assert (∀ i, i ∈ iota 1 (Z.to_nat MAX_THREADS) ↔ 1 ≤ i ≤ 3) as Hin.
  { intros i. rewrite elem_of_iota. change (Z.of_nat (Z.to_nat MAX_THREADS)) with 3. lia. }
  unfold main, test_suite. set (mu0 := write _ init_minunit).
  destruct (run_test_judged _ _ mu0 (judges_folder_permissions FILE fs)) as (d1 & Hr1 & Hf1 & Hd1 & E1).
  set (mu1 := MU_RUN_TEST _ mu0) in *.
  destruct (run_test_judged _ _ mu1 (judges_folder_exists FILE fs)) as (d2 & Hr2 & Hf2 & Hd2 & E2).
  set (mu2 := MU_RUN_TEST _ mu1) in *.
  destruct (run_test_judged _ _ mu2 (judges_file_permissions FILE fs _ (λ i, proj1 (Hin i))))
    as (d3 & Hr3 & Hf3 & Hd3 & E3).
  change (file_permissions_loop FILE fs (iota 1 (Z.to_nat MAX_THREADS)) 1) with (test_log_file_permissions FILE fs) in *.
  set (mu3 := MU_RUN_TEST _ mu2) in *.
  destruct (run_test_judged _ _ mu3 (judges_files_exist FILE fs _ (λ i, proj1 (Hin i))))
    as (d4 & Hr4 & Hf4 & Hd4 & E4).
  change (files_exist_loop FILE fs (iota 1 (Z.to_nat MAX_THREADS))) with (test_thread_log_files_exists FILE fs) in *.
  set (mu4 := MU_RUN_TEST _ mu3) in *.
  change (minunit_run (write _ (MU_REPORT mu4))) with (minunit_run mu4).
  change (minunit_fail (write _ (MU_REPORT mu4))) with (minunit_fail mu4).
  change (minunit_run mu0) with 0 in *. change (minunit_fail mu0) with 0 in *.
  split; [lia|]. rewrite Hf4, Hf3, Hf2, Hf1. split.
  - intros E. assert (d1 = 0 ∧ d3 = 0) as [H1 H3] by lia. split; [by apply E1|].
    intros i Hi. apply E3; [done|by apply Hin].
  - intros [Hfold Hfiles]. assert (d1 = 0) by by apply E1.
    assert (d2 = 0). { apply E2. destruct Hfold as (nd & ? & ? & _). by exists nd. }
    assert (d3 = 0) by (apply E3; intros i Hi; by apply Hfiles, Hin).
    assert (d4 = 0). { apply E4. intros i Hi. destruct (Hfiles i) as (nd & ? & _); [by apply Hin|by eexists]. }
    lia.
Qed.

(** ** Theorems *)

(** The test accepts exactly what it means to: whatever the files, it runs four
    tests, and none fails if and only if the log folder is a directory with
    permissions 0755 and the files of threads 1 to 3 are there with permissions
    0755. *)
Theorem test_accepts FILE fs :
  minunit_run (main FILE fs) = 4 ∧
  (minunit_fail (main FILE fs) = 0 ↔ folder_good fs ∧ ∀ i, 1 ≤ i ≤ 3 → file_good fs i).
Proof. apply main_judges. Qed.


(** The output of a test that finds what it looks for. *)
Definition all_passed : minunit :=
  Minunit 4 1 0 false []
    [Out ([10; 27] ++ str "[1;34m::: Running Tests... :::" ++ [10] ++ COLOR_RESET);
     Out (str ".");
     Out (COLOR_GREEN ++ [226; 156; 148] ++ str " logFolder has correct permissions!" ++ COLOR_RESET ++ [10]);
     Out (COLOR_GREEN ++ [226; 156; 148] ++ str " logFolder exists!" ++ COLOR_RESET ++ [10]);
     Out (COLOR_GREEN ++ [226; 156; 148] ++ str " All log files have correct permissions!" ++ COLOR_RESET ++ [10]);
     Out (COLOR_GREEN ++ [226; 156; 148] ++ str " All expected log files exist!" ++ COLOR_RESET ++ [10]);
     Out ([10; 10] ++ str "4 tests, 1 assertions, 0 failures" ++ [10]);
     Out ([10; 27] ++ str "[1;34m::: Tests Completed :::" ++ [10] ++ COLOR_RESET)].

(** A test that makes [a] assertions, passes and writes [es]. *)
Definition passes (test : minunit → minunit) (a : Z) (es : list event) : Prop :=
  ∀ mu, test mu = Minunit (minunit_run mu) (minunit_assert mu + a) (minunit_fail mu) (minunit_status mu)
    (minunit_last_message mu) (written mu ++ es).

Lemma run_test_passes test a es r n f s l w :
  passes test a es → MU_RUN_TEST test (Minunit r n f s l w) = Minunit (r + 1) (n + a) f false l (w ++ es).
Proof. intros E. unfold MU_RUN_TEST. by rewrite (E _). Qed.

Lemma log_message_passes m :
  passes (log_message m) 0 [Out (COLOR_GREEN ++ [226; 156; 148] ++ str " " ++ m ++ COLOR_RESET ++ [10])].
Proof. intros mu. by rewrite Z.add_0_r. Qed.

Section passing.
Context (FILE : bytes) (fs : files).

Lemma folder_permissions_passes : folder_good fs →
  passes (test_log_folder_permissions FILE fs) 1
    [Out (str ".");
     Out (COLOR_GREEN ++ [226; 156; 148] ++ str " " ++ str "logFolder has correct permissions!" ++ COLOR_RESET ++ [10])].
Proof.
  intros (nd & Hnd & Hdir & Hp) mu. unfold test_log_folder_permissions.
  rewrite check_permissions_file, stat_folder, Hnd, Hdir, bool_decide_true by exact Hp.
  cbn [Z.eqb negb mu_assert c_true]. rewrite log_message_passes. unfold write.
  cbn [minunit_run minunit_assert minunit_fail minunit_status minunit_last_message written].
  by rewrite Z.add_0_r, <- app_assoc.
Qed.

Lemma folder_exists_passes : folder_good fs →
  passes (test_log_folder_exists FILE fs) 0
    [Out (COLOR_GREEN ++ [226; 156; 148] ++ str " " ++ str "logFolder exists!" ++ COLOR_RESET ++ [10])].
Proof.
  intros (nd & Hnd & Hdir & Hp) mu. unfold test_log_folder_exists, directory_exists.
  rewrite stat_folder, Hnd, Hdir, Hdir. apply log_message_passes.
Qed.

Lemma file_permissions_passes idxs : (∀ i, i ∈ idxs → 1 ≤ i ≤ 3 ∧ file_good fs i) →
  passes (file_permissions_loop FILE fs idxs 1) 0
    [Out (COLOR_GREEN ++ [226; 156; 148] ++ str " " ++ str "All log files have correct permissions!" ++ COLOR_RESET ++ [10])].
Proof.
  intros Hi mu. induction idxs as [|i idxs IH]; [apply log_message_passes|]. cbn [file_permissions_loop].
  destruct (Hi i) as (Hr & nd & E & Hp); [left|].
  rewrite check_permissions_file, stat_file, E, bool_decide_true by (exact Hr || exact Hp).
  cbn [Z.eqb c_true negb]. apply IH. intros j ?. apply Hi. by right.
Qed.

Lemma files_exist_passes idxs : (∀ i, i ∈ idxs → 1 ≤ i ≤ 3 ∧ file_good fs i) →
  passes (files_exist_loop FILE fs idxs) 0
    [Out (COLOR_GREEN ++ [226; 156; 148] ++ str " " ++ str "All expected log files exist!" ++ COLOR_RESET ++ [10])].
Proof.
  intros Hi mu. induction idxs as [|i idxs IH]; [apply log_message_passes|]. cbn [files_exist_loop]. unfold file_exists.
  destruct (Hi i) as (Hr & nd & E & Hp); [left|].
  rewrite stat_file, E, bool_decide_true by (done || exact Hr). apply IH. intros j ?. apply Hi. by right.
Qed.
End passing.

Lemma main_passes FILE fs :
  folder_good fs → (∀ i, 1 ≤ i ≤ 3 → file_good fs i) → main FILE fs = all_passed.
Proof.
  intros Hfold Hfiles.
  assert (∀ i, i ∈ iota 1 (Z.to_nat MAX_THREADS) → 1 ≤ i ≤ 3 ∧ file_good fs i) as Hin.
  { intros i. rewrite elem_of_iota. change (Z.of_nat (Z.to_nat MAX_THREADS)) with 3. intros Hi.
    split; [lia|apply Hfiles; lia]. }
  unfold main, test_suite, test_log_file_permissions, test_thread_log_files_exists. unfold write at 2, init_minunit.
  rewrite (run_test_passes _ _ _ _ _ _ _ _ _ (folder_permissions_passes FILE fs Hfold)).
  rewrite (run_test_passes _ _ _ _ _ _ _ _ _ (folder_exists_passes FILE fs Hfold)).
  rewrite (run_test_passes _ _ _ _ _ _ _ _ _ (file_permissions_passes FILE fs _ Hin)).
  rewrite (run_test_passes _ _ _ _ _ _ _ _ _ (files_exist_passes FILE fs _ Hin)).
  by vm_compute.
Qed.

(** C15. The program passes its test: whatever the interleaving, the umask and the
    files that were there before, when main has returned 0 and the log threads 1 to
    3 have reported no error, the test writes that all its checks have passed. *)
Theorem logs_pass_test FILE umask pid inp fs0 n k s fs ls out :
  wrun umask pid inp fs0 n k (Whole (PSched s) fs ls) → mpc s = MReturn 0 out →
  (∀ i, 1 ≤ i ≤ 3 → zget ls (i - 1) = Some (LReturn None)) →
  main FILE fs = all_passed.
Proof.
  intros Hrun E Hls. pose proof (wrun_ok _ _ _ _ _ _ _ Hrun) as [_ [c Hc] Hlogs _ _].
  cbn [main_at logs disk] in *. apply main_passes.
  - eexists. split; [exact Hc|]. done.
  - intros i Hi. pose proof (Hlogs _ _ (Hls i Hi)) as Hok. cbn [log_ok] in Hok.
    replace (i - 1 + 1) with i in Hok by lia. destruct Hok as [m Hm]. eexists. split; [exact Hm|]. done.
Qed.

Lemma logs_pass_test_witness : ∃ fs, main (str "test_log_files.c") fs = all_passed.
Proof.
  destruct ex_logs_run as (n & k & s & fs & ls & R & Hs & Hls & _). exists fs.
  apply (logs_pass_test _ 18 42 ex_one ∅ n k s fs ls _ R Hs). rewrite Hls. intros i Hi.
  assert (i = 1 ∨ i = 2 ∨ i = 3) as [->|[->| ->]] by lia; done.
Defined.

(** The file of the fourth thread is not looked at: the program writes four files,
    and the test accepts a run that has left only three. *)
Example fourth_not_checked :
  ∃ fs, minunit_fail (main [] fs) = 0 ∧ fs !! log_path MAX_THREADS_LOG = None.
Proof.
  exists (list_to_map ((folder, Inode true (7 * 64 + 5 * 8 + 5) []) ::
    ((λ i, (log_path i, Inode false (7 * 64 + 5 * 8 + 5) [])) <$> [1; 2; 3]))).
  split; [apply main_judges|by vm_compute].
  split; [eexists; by vm_compute|]. intros i Hi. eexists.
  assert (i = 1 ∨ i = 2 ∨ i = 3) as [->|[->| ->]] by lia; by vm_compute.
Qed.
