(* ===== verification/NoGrab.v ===== *)
(** * The library that keeps the emulator from grabbing the mouse

    Models src/modules/m3/build/qemu-nograb.c: a preloaded library whose malloc and
    calloc pass the call on and watch for the allocations of the emulator's PS/2
    mouse, whose event handler it then marks as absolute.

    The emulator is a sequence of allocations, frees and changes of memory.  What
    the C library's allocator returns is part of the sequence, and it is at most
    assumed to be lawful; dlsym finds the next malloc and calloc.  The library reads
    and writes memory of the emulator: an access outside a live block is
    undefined. *)
From stdpp Require Import base tactics numbers list gmap option.
From Stdlib Require Import ZArith Lia.
From S2P Require Import Prelude CText Mem Blocks.

(** ** Definitions *)

(** @src modules/m3/build/qemu-nograb.c 13-15 SDL_GetAppState *)
Definition SDL_GetAppState : Z := 0.

(** @src modules/m3/build/qemu-nograb.c 17-19 SDL_GetWindowFlags *)
Definition SDL_GetWindowFlags : Z := 0.

(** @src modules/m3/build/qemu-nograb.c 28-36 fake_qemu_put_mouse_event
    The offsets of the fields that are used, and the size. *)
Definition qemu_put_mouse_event_absolute : Z := 16.
Definition qemu_put_mouse_event_name : Z := 24.
Definition sizeof_fake_qemu_put_mouse_event : Z := 56.

(** @src modules/m3/build/qemu-nograb.c 38-38 mouse_string *)
Definition mouse_string : bytes := str "QEMU PS/2 Mouse" ++ [0].

(** @src modules/m3/build/qemu-nograb.c 25-41 next_malloc
    The static variables; of the two function pointers, whether they are set. *)
Record lib := Lib {
  next_malloc : bool;
  next_calloc : bool;
  test_mode : Z;
  test_event : Z;
  test_name : Z
}.
Definition init_lib : lib := Lib false false 0 0 0.

(** @src modules/m3/build/qemu-nograb.c 43-52 check *)
Definition check (l : lib) (h : heap) : res (lib * heap) :=
  if negb (test_mode l =? 2) then Ok (l, h) else
  if test_event l =? 0 then Ok (l, h) else
  name ← load 8 h (test_event l) qemu_put_mouse_event_name;
  if negb (name =? test_name l) then Ok (l, h) else
  same ← memcmp_eq h (test_name l) mouse_string;
  if negb same then Ok (l, h) else
  absolute ← load 4 h (test_event l) qemu_put_mouse_event_absolute;
  if negb (absolute =? 0) then Ok (l, h) else
  h ← store 4 h (test_event l) qemu_put_mouse_event_absolute 1;
  Ok (Lib (next_malloc l) (next_calloc l) (-1) (test_event l) (test_name l), h).

(** @src modules/m3/build/qemu-nograb.c 54-64 track *)
Definition track (nmemb sz ptr : Z) (l : lib) : lib :=
  if (test_mode l =? 1) && (sz =? Z.of_nat (length mouse_string)) && (nmemb =? 1) then
    Lib (next_malloc l) (next_calloc l) 2 (test_event l) ptr
  else if (sz =? sizeof_fake_qemu_put_mouse_event) && (nmemb =? 1) then
    Lib (next_malloc l) (next_calloc l) 1 ptr (test_name l)
  else Lib (next_malloc l) (next_calloc l) 0 (test_event l) (test_name l).

(** What both functions do around the call of the next one; the zeros that it stores
    for calloc are a [Change] that follows. *)
Definition watched (sz ptr : Z) (size : Z) (l : lib) (h : heap) : res (lib * heap) :=
  '(l, h) ← (if test_mode l =? 2 then check l h else Ok (l, h));
  let h := allocate ptr size h in
  Ok (if test_mode l >=? 0 then track 1 sz ptr l else l, h).

(** @src modules/m3/build/qemu-nograb.c 66-82 malloc *)
Definition malloc (sz ptr : Z) (l : lib) (h : heap) : res (lib * heap) :=
  let l := if next_malloc l then l else Lib true true (test_mode l) (test_event l) (test_name l) in
  watched sz ptr sz l h.

(** @src modules/m3/build/qemu-nograb.c 85-101 calloc *)
Definition calloc (nmemb sz ptr : Z) (l : lib) (h : heap) : res (lib * heap) :=
  if negb (next_calloc l) then Ok (l, allocate ptr (nmemb * sz) h)
  else watched sz ptr (nmemb * sz) l h.

(** What the emulator does: it calls the allocator, or changes memory. *)
Inductive action :=
| Malloc (sz ptr : Z)
| Calloc (nmemb sz ptr : Z)
| Free (ptr : Z)
| Change (m : mem).

Definition act (a : action) (l : lib) (h : heap) : res (lib * heap) :=
  match a with
  | Malloc sz ptr => malloc sz ptr l h
  | Calloc nmemb sz ptr => calloc nmemb sz ptr l h
  | Free ptr => Ok (l, Heap (cells h) (delete ptr (live h)))
  | Change m => Ok (l, Heap m (live h))
  end.

Fixpoint run (acts : list action) (l : lib) (h : heap) : res (lib * heap) :=
  match acts with
  | [] => Ok (l, h)
  | a :: acts => '(l, h) ← act a l h; run acts l h
  end.

(** ** Specification

    The tracked allocations, latest first, as their size and result, and whether a
    handler has been marked.  It is an allocation of the handler's size followed by
    one of the name's size that the library looks for; at the next allocation it
    marks the handler if its name is the second block, with the mouse's name in it. *)
Record watch := Watch { hist : list (Z * Z); marked : bool; watching : bool }.
Definition init_watch : watch := Watch [] false false.

Definition mouse (h : heap) (hs : list (Z * Z)) : option Z :=
  match hs with
  | (sz, s) :: (sz', e) :: _ =>
      if (sz =? 16) && (sz' =? 56) && negb (e =? 0) && (ldn 8 (cells h) (e + 24) =? s) &&
         bool_decide (block_bytes (cells h) s 16 = mouse_string) && (ldn 4 (cells h) (e + 16) =? 0)
      then Some e else None
  | _ => None
  end.

Definition mark (e : Z) (h : heap) : heap := Heap (stn 4 (cells h) (e + 16) 1) (live h).

Definition spec_alloc (sz size ptr : Z) (w : watch) (h : heap) : watch * heap :=
  match (if marked w then None else mouse h (hist w)) with
  | Some e => (Watch ((sz, ptr) :: hist w) true (watching w), allocate ptr size (mark e h))
  | None => (Watch ((sz, ptr) :: hist w) (marked w) (watching w), allocate ptr size h)
  end.

Definition spec_act (a : action) (w : watch) (h : heap) : watch * heap :=
  match a with
  | Malloc sz ptr => spec_alloc sz sz ptr (Watch (hist w) (marked w) true) h
  | Calloc nmemb sz ptr =>
      if watching w then spec_alloc sz (nmemb * sz) ptr w h else (w, allocate ptr (nmemb * sz) h)
  | Free ptr => (w, Heap (cells h) (delete ptr (live h)))
  | Change m => (w, Heap m (live h))
  end.

Fixpoint spec_run (acts : list action) (w : watch) (h : heap) : watch * heap :=
  match acts with
  | [] => (w, h)
  | a :: acts => let '(w, h) := spec_act a w h in spec_run acts w h
  end.

(** The state that the tracked allocations leave the library in. *)
Definition mode_of (hs : list (Z * Z)) : Z :=
  match hs with
  | [] => 0
  | (sz, _) :: hs =>
      if sz =? 56 then 1
      else if (sz =? 16) && (match hs with (sz', _) :: _ => sz' =? 56 | [] => false end) then 2 else 0
  end.
Definition result (hs : list (Z * Z)) (i : nat) : Z := match hs !! i with Some (_, p) => p | None => 0 end.

Definition tracks (l : lib) (w : watch) : Prop :=
  next_malloc l = watching w ∧ next_calloc l = watching w ∧
  if marked w then test_mode l = -1
  else test_mode l = mode_of (hist w) ∧
    (test_mode l = 1 → test_event l = result (hist w) 0) ∧
    (test_mode l = 2 → test_event l = result (hist w) 1 ∧ test_name l = result (hist w) 0).

(** ** Lemmas *)

(** The library's state after a tracked allocation. *)
Lemma track_tracks l w sz ptr :
  tracks l w → marked w = false → tracks (track 1 sz ptr l) (Watch ((sz, ptr) :: hist w) false (watching w)).
Proof.
  intros (Hm & Hc & Hw) Hmk. rewrite Hmk in Hw. destruct Hw as (Hmode & H1 & H2).
  unfold tracks, track. change (Z.of_nat (length mouse_string)) with 16.
  change sizeof_fake_qemu_put_mouse_event with 56. change (1 =? 1) with true. rewrite !andb_true_r.
  cbn [hist marked watching mode_of].
  assert (match hist w with (sz', _) :: _ => sz' =? 56 | [] => false end = (test_mode l =? 1)) as ->.
  { rewrite Hmode. unfold mode_of. destruct (hist w) as [|[sz' p] hs]; [done|]. destruct (sz' =? 56); [done|]. by case_match. }
  destruct (Z.eqb_spec sz 56) as [->|]; [|destruct (Z.eqb_spec sz 16)]; destruct (Z.eqb_spec (test_mode l) 1) as [E|E];
    cbn [andb next_malloc next_calloc test_mode test_event test_name]; split_and!; try done; intros _; unfold result; cbn; try done.
  split; [|done]. rewrite (H1 E). unfold result. by destruct (hist w).
Qed.

(** [check] in the mode it is called in. *)
Lemma check_ok l h l' h' :
  test_mode l = 2 → check l h = Ok (l', h') →
  (if negb (test_event l =? 0) && (ldn 8 (cells h) (test_event l + 24) =? test_name l) &&
      bool_decide (block_bytes (cells h) (test_name l) 16 = mouse_string) && (ldn 4 (cells h) (test_event l + 16) =? 0)
   then l' = Lib (next_malloc l) (next_calloc l) (-1) (test_event l) (test_name l) ∧ h' = mark (test_event l) h
   else l' = l ∧ h' = h).
Proof.
  intros Hm. unfold check, load, memcmp_eq, store. rewrite Hm. cbn [negb Z.eqb Pos.eqb].
  change (length mouse_string) with 16%nat. unfold qemu_put_mouse_event_name, qemu_put_mouse_event_absolute, mark.
  destruct (Z.eqb_spec (test_event l) 0); cbn [negb andb]; [by intros [= <- <-]|].
  destruct (in_block _ _ 24 _); cbn [mbind res_bind]; [|done].
  destruct (Z.eqb_spec (ldn 8 (cells h) (test_event l + 24)) (test_name l)); cbn [negb andb]; [|by intros [= <- <-]].
  destruct (in_block _ _ 0 _); cbn [mbind res_bind]; [|done].
  case_bool_decide; cbn [negb andb]; [|by intros [= <- <-]].
  destruct (in_block _ _ 16 _); cbn [mbind res_bind]; [|done].
  destruct (Z.eqb_spec (ldn 4 (cells h) (test_event l + 16)) 0); cbn [negb]; by intros [= <- <-].
Qed.

Lemma watched_ok l h w sz ptr size l' h' :
  tracks l w → watched sz ptr size l h = Ok (l', h') →
  let '(w', hs) := spec_alloc sz size ptr w h in tracks l' w' ∧ h' = hs.
Proof.
  intros Ht. pose proof Ht as (Hm & Hc & Hw). unfold watched, spec_alloc. destruct (marked w) eqn:Hmk.
  - rewrite Hw. cbn [Z.eqb Z.geb Z.compare mbind res_bind]. intros [= <- <-]. rewrite Hw. split; [|done]. by split_and!.
  - destruct Hw as (Hmode & H1 & H2). assert (0 ≤ mode_of (hist w)) as Hpos.
    { unfold mode_of. by repeat case_match. }
    destruct (Z.eqb_spec (test_mode l) 2) as [E|E].
    + destruct (check l h) as [[l1 h1]|] eqn:Hck; cbn [mbind res_bind]; [|done]. intros [= <- <-].
      apply check_ok in Hck; [|done]. destruct (H2 E) as [He Hn]. rewrite He, Hn in Hck.
      rewrite E in Hmode. symmetry in Hmode. destruct (hist w) as [|[sz1 s] [|[sz2 e] hs]] eqn:Eh; [done|..].
      { unfold mode_of in Hmode. rewrite andb_false_r in Hmode. by destruct (sz1 =? 56). }
      unfold mode_of in Hmode. destruct (Z.eqb_spec sz1 56); [done|].
      destruct (Z.eqb_spec sz1 16) as [->|]; [|done]. destruct (Z.eqb_spec sz2 56) as [->|]; [|done].
      unfold result in Hck, He, Hn. cbn [lookup list_lookup] in Hck, He, Hn. cbn [mouse]. cbn [Z.eqb Pos.eqb andb].
      match goal with |- context [if ?b then Some _ else None] => destruct b end; destruct Hck as [-> ->].
      * split; [|done]. by split_and!.
      * rewrite E. cbn [Z.geb Z.compare]. split; [|done]. rewrite <- Eh. by apply track_tracks.
    + cbn [mbind res_bind]. intros [= <- <-].
      assert (mouse h (hist w) = None) as ->.
      { unfold mouse. destruct (hist w) as [|[sz1 s] [|[sz2 e] hs]]; [done..|].
        destruct (Z.eqb_spec sz1 16) as [->|]; [|done]. destruct (Z.eqb_spec sz2 56) as [->|]; [|done].
        by rewrite Hmode in E. }
      replace (test_mode l >=? 0) with true by lia. split; [|done]. by apply track_tracks.
Qed.

Lemma act_ok a l h w l' h' :
  tracks l w → act a l h = Ok (l', h') → let '(w', hs) := spec_act a w h in tracks l' w' ∧ h' = hs.
Proof.
  intros Ht. pose proof Ht as (Hm & Hc & Hw). destruct a; cbn [act spec_act].
  - unfold malloc. apply watched_ok. rewrite Hm. destruct (watching w) eqn:E; [|done]. by split_and!.
  - unfold calloc. rewrite Hc. destruct (watching w) eqn:E; cbn [negb]; [by apply watched_ok|]. by intros [= <- <-].
  - by intros [= <- <-].
  - by intros [= <- <-].
Qed.

Lemma lib_run_ok acts l h w l' h' :
  tracks l w → run acts l h = Ok (l', h') → let '(w', hs) := spec_run acts w h in tracks l' w' ∧ h' = hs.
Proof.
  revert l h w. induction acts as [|a acts IH]; intros l h w Ht; cbn [run spec_run]; [by intros [= <- <-]|].
  destruct (act a l h) as [[l1 h1]|] eqn:E; cbn [mbind res_bind]; [|done].
  apply (act_ok _ _ _ _ _ _ Ht) in E. destruct (spec_act a w h) as [w1 h2]. destruct E as [Ht1 ->]. by apply IH.
Qed.

Lemma init_tracks : tracks init_lib init_watch.
Proof. by split_and!. Qed.

(** What the emulator does to its memory without the library. *)
Definition plain_act (a : action) (h : heap) : heap :=
  match a with
  | Malloc sz ptr => allocate ptr sz h
  | Calloc nmemb sz ptr => allocate ptr (nmemb * sz) h
  | Free ptr => Heap (cells h) (delete ptr (live h))
  | Change m => Heap m (live h)
  end.
Definition plain_run (acts : list action) (h : heap) : heap := foldl (flip plain_act) h acts.

Lemma spec_run_marked acts w h : marked w = true → spec_run acts w h = ((spec_run acts w h).1, plain_run acts h) ∧
  marked (spec_run acts w h).1 = true.
Proof.
  revert w h. induction acts as [|a acts IH]; intros w h Hm; [done|]. cbn [spec_run].
  assert (∃ w', spec_act a w h = (w', plain_act a h) ∧ marked w' = true) as (w' & -> & Hm').
  { destruct a; cbn [spec_act]; unfold spec_alloc; cbn [marked]; rewrite ?Hm; try by eexists.
    destruct (watching w); by eexists. }
  by apply IH.
Qed.

(** Before the mark the library changes nothing. *)
Lemma spec_run_split acts w h : marked w = false →
  let '(w', h') := spec_run acts w h in
  if marked w' then
    ∃ pre a post e, acts = pre ++ a :: post ∧
      marked (spec_run pre w h).1 = false ∧ (spec_run pre w h).2 = plain_run pre h ∧
      mouse (plain_run pre h) (hist (spec_run pre w h).1) = Some e ∧
      h' = plain_run (a :: post) (mark e (plain_run pre h))
  else h' = plain_run acts h.
Proof.
  revert w h. induction acts as [|a acts IH]; intros w h Hm; cbn [spec_run]; [by rewrite Hm|].
  destruct (spec_act a w h) as [w1 h1] eqn:Ea.
  destruct (marked w1) eqn:Hm1.
  - destruct (spec_run_marked acts w1 h1 Hm1) as [E Hm2]. rewrite E, Hm2.
    assert (∃ e, mouse h (hist w) = Some e ∧ h1 = plain_act a (mark e h)) as (e & He & ->).
    { revert Ea Hm1. destruct a; cbn [spec_act plain_act]; unfold spec_alloc; cbn [marked hist]; rewrite ?Hm.
      - destruct (mouse h (hist w)) as [e|]; intros [= <- <-]; [by exists e|done].
      - destruct (watching w); [|intros [= <- <-]; congruence].
        destruct (mouse h (hist w)) as [e|]; intros [= <- <-]; [by exists e|done].
      - intros [= <- <-]. congruence.
      - intros [= <- <-]. congruence. }
    by exists [], a, acts, e.
  - assert (h1 = plain_act a h) as ->.
    { revert Ea Hm1. destruct a; cbn [spec_act plain_act]; unfold spec_alloc; cbn [marked hist]; rewrite ?Hm.
      - by destruct (mouse h (hist w)) as [e|]; intros [= <- <-].
      - destruct (watching w); [|by intros [= <- <-]]. by destruct (mouse h (hist w)) as [e|]; intros [= <- <-].
      - by intros [= <- <-].
      - by intros [= <- <-]. }
    specialize (IH w1 (plain_act a h) Hm1). destruct (spec_run acts w1 (plain_act a h)) as [w' h'].
    destruct (marked w'); [|done]. destruct IH as (pre & b & post & e & -> & H1 & H2 & H3 & H4).
    exists (a :: pre), b, post, e. cbn [spec_run]. by rewrite Ea.
Qed.

(** *** When an access goes wrong *)

(** The bytes that the library looks at, after a handler and a name, are still in
    live blocks: the handler's name field, and the name if the field points to it. *)
Definition blocks_kept (hs : list (Z * Z)) (h : heap) : Prop :=
  match hs with
  | (sz, s) :: (sz', e) :: _ =>
      sz = 16 → sz' = 56 → e ≠ 0 →
      (∃ n, live h !! e = Some n ∧ 32 ≤ n) ∧ (ldn 8 (cells h) (e + 24) = s → ∃ n, live h !! s = Some n ∧ 16 ≤ n)
  | _ => True
  end.

(** The library is in the way of this action. *)
Definition watches (a : action) (w : watch) : bool :=
  match a with Malloc _ _ => true | Calloc _ _ _ => watching w | _ => false end.

(** They are at every allocation before the mark. *)
Fixpoint kept (acts : list action) (w : watch) (h : heap) : Prop :=
  match acts with
  | [] => True
  | a :: acts =>
      (watches a w = true → marked w = false → blocks_kept (hist w) h) ∧
      let '(w, h) := spec_act a w h in kept acts w h
  end.

(** A computation succeeds if and only if [P], and is undefined otherwise. *)
Definition defined_iff {A} (P : Prop) (r : res A) : Prop :=
  match r with Ok _ => P | Err e => e = UB ∧ ¬ P end.

Lemma in_block_eq h p o n : in_block h p o n = true ↔ ∃ sz, live h !! p = Some sz ∧ 0 ≤ o ∧ o + n ≤ sz.
Proof.
  unfold in_block. destruct (live h !! p) as [sz|]; [|split; [done|by intros (? & ? & _)]].
  rewrite andb_true_iff, !Z.leb_le. split; [by exists sz|]. by intros (? & [= <-] & ?).
Qed.

Lemma check_defined l h w :
  tracks l w → marked w = false → test_mode l = 2 → defined_iff (blocks_kept (hist w) h) (check l h).
Proof.
  intros (_ & _ & Hw) Hmk E. rewrite Hmk in Hw. destruct Hw as (Hmode & _ & H2). destruct (H2 E) as [He Hn].
  rewrite E in Hmode. symmetry in Hmode. destruct (hist w) as [|[sz1 s] [|[sz2 e] hs]]; [done|..].
  { unfold mode_of in Hmode. rewrite andb_false_r in Hmode. by destruct (sz1 =? 56). }
  unfold mode_of in Hmode. destruct (Z.eqb_spec sz1 56); [done|].
  destruct (Z.eqb_spec sz1 16) as [->|]; [|done]. destruct (Z.eqb_spec sz2 56) as [->|]; [|done].
  unfold result in He, Hn. cbn [lookup list_lookup] in He, Hn. cbn [blocks_kept].
  unfold check. rewrite E, He, Hn. cbn [negb Z.eqb Pos.eqb]. destruct (Z.eqb_spec e 0) as [|Hne]; [by intros _ _ []|].
  unfold load, store, memcmp_eq, qemu_put_mouse_event_name, qemu_put_mouse_event_absolute.
  change (Z.of_nat (length mouse_string)) with 16. change (Z.of_nat 8) with 8. change (Z.of_nat 4) with 4.
  pose proof (in_block_eq h e 24 8) as H24. pose proof (in_block_eq h e 16 4) as H16. pose proof (in_block_eq h s 0 16) as H0.
  destruct (in_block h e 24 8); cbn [mbind res_bind].
  2:{ split; [done|]. intros Hk. destruct (Hk eq_refl eq_refl Hne) as [(n0 & Hl & Hs) _].
      discriminate (proj2 H24 ltac:(exists n0; split_and!; [done|lia..])). }
  destruct (proj1 H24 eq_refl) as (n0 & Hl & Hs).
  assert (in_block h e 16 4 = true) as -> by (apply H16; exists n0; split_and!; [done|lia..]).
  assert (∃ n, live h !! e = Some n ∧ 32 ≤ n) as Hev by (exists n0; split; [done|lia]).
  destruct (Z.eqb_spec (ldn 8 (cells h) (e + 24)) s) as [Es|Es]; cbn [negb]; [|by intros _ _ _].
  destruct (in_block h s 0 16); cbn [mbind res_bind].
  2:{ split; [done|]. intros Hk. destruct (Hk eq_refl eq_refl Hne) as [_ Hsv]. destruct (Hsv Es) as (n1 & Hl1 & Hs1).
      discriminate (proj2 H0 ltac:(exists n1; split_and!; [done|lia..])). }
  destruct (proj1 H0 eq_refl) as (n1 & Hl1 & Hs1).
  assert (16 = 16 → 56 = 56 → e ≠ 0 → (∃ n, live h !! e = Some n ∧ 32 ≤ n) ∧
    (ldn 8 (cells h) (e + 24) = s → ∃ n, live h !! s = Some n ∧ 16 ≤ n)) as Hk.
  { intros _ _ _. split; [done|]. intros _. exists n1. split; [done|lia]. }
  case_bool_decide; cbn [negb]; [|done]. by destruct (_ =? 0); cbn [negb].
Qed.

Lemma not_watching l w h : tracks l w → marked w = false → test_mode l ≠ 2 → blocks_kept (hist w) h.
Proof.
  intros (_ & _ & Hw) Hmk E. rewrite Hmk in Hw. destruct Hw as (Hmode & _). unfold blocks_kept.
  destruct (hist w) as [|[sz1 s] [|[sz2 e] hs]]; [done..|]. intros -> -> _. by rewrite Hmode in E.
Qed.

Lemma watched_defined sz ptr size l h w :
  tracks l w → defined_iff (marked w = false → blocks_kept (hist w) h) (watched sz ptr size l h).
Proof.
  intros Ht. unfold watched. destruct (Z.eqb_spec (test_mode l) 2) as [E|E].
  - destruct (marked w) eqn:Hm.
    + destruct Ht as (_ & _ & Hw). rewrite Hm in Hw. congruence.
    + pose proof (check_defined l h w Ht Hm E) as Hc. destruct (check l h) as [[l1 h1]|e]; cbn in *; [auto|].
      destruct Hc as [-> Hc]. split; [done|]. intros Hk. by apply Hc, Hk.
  - intros Hm. by apply not_watching with l.
Qed.

Lemma act_defined a l h w : tracks l w →
  defined_iff (watches a w = true → marked w = false → blocks_kept (hist w) h) (act a l h).
Proof.
  intros Ht. pose proof Ht as (Hm & Hc & Hw). destruct a; cbn [act watches]; try done.
  - unfold malloc. rewrite Hm. set (l1 := if watching w then l else _).
    assert (tracks l1 (Watch (hist w) (marked w) true)) as Ht1.
    { unfold l1. destruct (watching w) eqn:Ew; by split_and!. }
    pose proof (watched_defined sz ptr sz l1 h _ Ht1) as Hd. cbn [marked hist] in Hd.
    destruct (watched sz ptr sz l1 h) as [|e]; cbn in *; [by intros _|]. destruct Hd as [-> Hd]. split; [done|]. auto.
  - unfold calloc. rewrite Hc. destruct (watching w) eqn:Ew; cbn [negb]; [|done].
    pose proof (watched_defined sz ptr (nmemb * sz) l h w Ht) as Hd.
    destruct (watched sz ptr (nmemb * sz) l h) as [|e]; cbn in *; [by intros _|]. destruct Hd as [-> Hd]. split; [done|]. auto.
Qed.

Lemma run_defined acts l h w : tracks l w → defined_iff (kept acts w h) (run acts l h).
Proof.
  revert l h w. induction acts as [|a acts IH]; intros l h w Ht; cbn [run kept]; [done|].
  pose proof (act_defined a l h w Ht) as Ha. destruct (act a l h) as [[l1 h1]|e] eqn:E; cbn [mbind res_bind].
  - apply (act_ok _ _ _ _ _ _ Ht) in E. destruct (spec_act a w h) as [w1 h2]. destruct E as [Ht1 ->].
    specialize (IH l1 h2 w1 Ht1). destruct (run acts l1 h2); cbn in *; [done|]. destruct IH as [-> IH]. split; [done|]. tauto.
  - cbn in *. destruct Ha as [-> Ha]. split; [done|]. tauto.
Qed.

(** ** Theorems *)

(** C40. What the library does in every run of the emulator.  Two cases.  If at some
    allocation after those of a handler and of a name, with no tracked one in
    between and before any mark, the handler's name field is no longer in a live
    block, or points to the name's block and that block is no longer live, then
    the library's access to it is undefined behaviour ([nograb_unsafe] has such
    runs).  In every other run it passes all allocations on, and either never changes
    memory or does so once: at an allocation that follows those of a handler and of
    its name, where the handler's name field is the second block, that block has
    the mouse's name and the handler is not absolute; it becomes absolute, and the
    library changes nothing ever after. *)
Theorem nograb_marks acts h :
  ¬ kept acts init_watch h ∧ run acts init_lib h = Err UB ∨
  kept acts init_watch h ∧ ∃ l' h', run acts init_lib h = Ok (l', h') ∧
    ((test_mode l' ≠ -1 ∧ h' = plain_run acts h ∧
      test_mode l' = mode_of (hist (spec_run acts init_watch h).1)) ∨
     (test_mode l' = -1 ∧ ∃ pre a post e, acts = pre ++ a :: post ∧
        mouse (plain_run pre h) (hist (spec_run pre init_watch h).1) = Some e ∧
        h' = plain_run (a :: post) (mark e (plain_run pre h)))).
Proof.
  pose proof (run_defined acts init_lib h init_watch init_tracks) as Hd.
  destruct (run acts init_lib h) as [[l' h']|e] eqn:E; [right|left; by destruct Hd as [-> Hd]].
  split; [exact Hd|]. exists l', h'. split; [done|].
  apply (lib_run_ok _ _ _ _ _ _ init_tracks) in E. pose proof (spec_run_split acts init_watch h eq_refl) as Hs.
  destruct (spec_run acts init_watch h) as [w' hs]. destruct E as [(_ & _ & Hw) ->]. cbn [fst].
  destruct (marked w').
  - right. split; [done|]. destruct Hs as (pre & a & post & e & H1 & _ & _ & H4 & H5). by exists pre, a, post, e.
  - left. destruct Hw as [Hmode _]. split_and!; [|done|done]. rewrite Hmode. unfold mode_of. by repeat case_match.
Qed.

(** The emulator's handler, whose name is stored when both blocks are there. *)
Definition ex_memory : mem := st64 (wr_list ∅ 0x2000 mouse_string) (0x1000 + 24) 0x2000.
Definition ex_acts : list action :=
  [Malloc 8 0x500; Calloc 1 56 0x1000; Malloc 16 0x2000; Change ex_memory; Malloc 8 0x3000; Free 0x1000].

Lemma nograb_marks_witness :
  ∃ l' h', run ex_acts init_lib (Heap ∅ ∅) = Ok (l', h') ∧ test_mode l' = -1 ∧
    ∃ pre a post e, ex_acts = pre ++ a :: post ∧
     mouse (plain_run pre (Heap ∅ ∅)) (hist (spec_run pre init_watch (Heap ∅ ∅)).1) = Some e ∧
     h' = plain_run (a :: post) (mark e (plain_run pre (Heap ∅ ∅))).
Proof.
  assert (match run ex_acts init_lib (Heap ∅ ∅) with Ok (l', _) => test_mode l' | _ => 0 end = -1) as Hm by by vm_compute.
  destruct (run ex_acts init_lib (Heap ∅ ∅)) as [[l' h']|] eqn:E; [|done]. exists l', h'. split; [done|]. split; [done|].
  destruct (nograb_marks ex_acts (Heap ∅ ∅)) as [[_ H]|(_ & l1 & h1 & E1 & H)]; [congruence|].
  rewrite E in E1. injection E1 as <- <-. destruct H as [[H _]|[_ H]]; [by destruct H|exact H].
Defined.

(** Runs with undefined behaviour: the handler may have been freed, and when the
    allocation of the name fails, a handler whose name is NULL makes [check] read
    from NULL. *)
Theorem nograb_unsafe :
  run [Malloc 56 0x1000; Malloc 16 0x2000; Free 0x1000; Malloc 8 0x3000] init_lib (Heap ∅ ∅) = Err UB ∧
  run [Malloc 56 0x1000; Malloc 16 0; Malloc 8 0x3000] init_lib (Heap ∅ ∅) = Err UB.
Proof. by vm_compute. Qed.

(** calloc tracks its calls as if [nmemb] were 1: two handlers allocated together
    are taken for one, and of an array of none the library reads past the end. *)
Theorem nograb_ignores_nmemb :
  (∃ l' h', run [Malloc 8 0x500; Calloc 2 56 0x1000; Malloc 16 0x2000; Change ex_memory; Malloc 8 0x3000]
              init_lib (Heap ∅ ∅) = Ok (l', h') ∧ test_mode l' = -1) ∧
  run [Malloc 8 0x500; Calloc 0 56 0x1000; Malloc 16 0x2000; Malloc 8 0x3000] init_lib (Heap ∅ ∅) = Err UB.
Proof. split; [eexists _, _; split; vm_compute; reflexivity|by vm_compute]. Qed.
