(* ===== verification/AutoGrader.v ===== *)
(** * The autograder of the snake game

    Models src/assignments/a2/test/autograder.c: it sets a game up, plays the keys it
    is given and writes the game's state to a pipe as JSON.  The functions that
    students write are an interface ([Game]); the theorems hold for every
    implementation that comes back with a well-formed board, and say what happens
    when one leaves a name without its NUL; [handout] is the one handed out.

    The program's environment is in the arguments: what [malloc] and [fdopen] give.
    Reading a buffer where nothing was stored is undefined. *)
From stdpp Require Import base tactics numbers list option.
From Stdlib Require Import ZArith Lia.
From S2P Require Import Prelude CText Snake GameOver.

(** ** The functions of the students *)

(** The board, its size, the globals of common.c and the student's own data, with
    which we count the state of [rand]. *)
Record world (S : Type) := World {
  cells : list Z; width : Z; height : Z; g_game_over : Z; g_score : Z; snake : S
}.
Arguments World {S}.
Arguments cells {S}.
Arguments width {S}.
Arguments height {S}.
Arguments g_game_over {S}.
Arguments g_score {S}.
Arguments snake {S}.

(** Each function returns with a changed world or has undefined behaviour; that it
    prints or ends the program is left out. *)
Class Game (S : Type) := {
  initialize_game : option bytes → world S → res (board_init_status * world S);
  update : input_key → Z → world S → res (world S);
  teardown : world S → res (world S);
  read_name : bytes → res bytes;
  mbslen : bytes → Z;
  srand : Z → world S → world S
}.

(** ** Definitions *)

(** What the program has written, and with what status it has ended. *)
Record ended := Ended { status : Z; stdout : bytes; stderr : bytes; pipe : bytes }.

Definition NL : bytes := [10].

(** @src assignments/a2/test/autograder.c 22-37 get_input
    [None] ends the program. *)
Definition get_input (c : Z) : option input_key :=
  if c =? chr "U" then Some INPUT_UP
  else if c =? chr "D" then Some INPUT_DOWN
  else if c =? chr "L" then Some INPUT_LEFT
  else if c =? chr "R" then Some INPUT_RIGHT
  else if c =? chr "N" then Some INPUT_NONE
  else None.

Definition cell_at (cs : list Z) (width i j : Z) : res Z :=
  c ← get_cell (u64 (i * width + j)) cs; Ok (wrapS 8 c).

(** @src assignments/a2/test/autograder.c 43-54 print_game
    One cell; the wall is U+2588 in UTF-8. *)
Definition print_cell (cell : Z) : bytes :=
  if cell =? FLAG_PLAIN_CELL then str "."
  else if cell =? FLAG_SNAKE then str "S"
  else if cell =? FLAG_WALL then [226; 150; 136]
  else if cell =? FLAG_FOOD then str "O"
  else str "?".

(** A loop over [n] indices from [i] on that collects what its body gives. *)
Fixpoint collect {A} (n : nat) (i : Z) (body : Z → res (list A)) : res (list A) :=
  match n with
  | O => Ok []
  | S n => l ← body i; l' ← collect n (i + 1) body; Ok (l ++ l')
  end.

(** @src assignments/a2/test/autograder.c 39-59 print_game *)
Definition print_game (cs : list Z) (height width : Z) : res bytes :=
  out ← collect (Z.to_nat height) 0 (λ i,
    row ← collect (Z.to_nat width) 0 (λ j, cell ← cell_at cs width i j; Ok (print_cell cell));
    Ok (row ++ NL));
  Ok (out ++ NL).

(** ** Buffers

    [None] is a byte that has not been stored. *)
Abbreviation buffer := (list (option Z)).
Definition bstore (b : buffer) (i v : Z) : res buffer :=
  if decide (0 ≤ i < Z.of_nat (length b)) then Ok (zset b i (Some v)) else Err UB.

(** The string in a buffer, read up to its NUL. *)
Fixpoint bstring (b : buffer) : res bytes :=
  match b with
  | [] | None :: _ => Err UB
  | Some c :: b => if c =? 0 then Ok [] else s ← bstring b; Ok (c :: s)
  end.

(** A loop that changes a buffer. *)
Fixpoint fill (n : nat) (i : Z) (body : Z → buffer → res buffer) (b : buffer) : res buffer :=
  match n with O => Ok b | S n => b ← body i b; fill n (i + 1) body b end.

Section main.
Context {S : Type} `{Game S}.
Implicit Types (w : world S).

(** How [run_test] comes back: with a status, or the program has ended. *)
Inductive tested := Tested (st : board_init_status) (w : world S) (out : bytes) | BadKey (c : Z) (out : bytes).

(** @src assignments/a2/test/autograder.c 72-92 run_test
    The loop; [i] counts the steps. *)
Fixpoint play (VERBOSE : bool) (snake_grows : Z) (input_string : bytes) (i : Z) (out : bytes) w : res tested :=
  board ← (if VERBOSE then
             b ← print_game (cells w) (height w) (width w);
             Ok (str "Board at time step " ++ show_int i ++ str ":" ++ NL ++ b)
           else Ok []);
  let out := out ++ board in
  match input_string with
  | [] => Ok (Tested INIT_SUCCESS w out)
  | c :: input_string =>
      match get_input c with
      | None => Ok (BadKey c out)
      | Some input =>
          w ← update input (i32 snake_grows) w;
          play VERBOSE snake_grows input_string (i + 1) out w
      end
  end.

(** @src assignments/a2/test/autograder.c 62-95 run_test *)
Definition run_test (VERBOSE : bool) (board_rep : option bytes) (snake_grows : Z) (input_string : bytes) w : res tested :=
  '(st, w) ← initialize_game board_rep w;
  if bool_decide (st = INIT_SUCCESS) then play VERBOSE snake_grows input_string 0 [] w
  else Ok (Tested st w []).

(** @src assignments/a2/test/autograder.c 137-140 main *)
Definition error_name (st : board_init_status) : bytes :=
  match st with
  | INIT_ERR_BAD_CHAR => str "BAD_CHAR"
  | INIT_ERR_INCORRECT_DIMENSIONS => str "INCORRECT_DIMENSIONS"
  | INIT_ERR_WRONG_SNAKE_NUM => str "WRONG_SNAKE_NUM"
  | _ => []
  end.

(** A double quote. *)
Definition Q : bytes := [34].
Definition field (name : bytes) : bytes := str "    " ++ Q ++ name ++ Q ++ str ": ".

(** @src assignments/a2/test/autograder.c 134-149 main *)
Definition board_error (st : board_init_status) : bytes :=
  str "{" ++ NL ++ field (str "board_error") ++ Q ++ error_name st ++ Q ++ NL ++ str "}" ++ NL.

(** @src assignments/a2/test/autograder.c 161-173 main *)
Definition cell_as_char (cell : Z) : Z :=
  if cell =? FLAG_PLAIN_CELL then chr "."
  else if cell =? FLAG_SNAKE then chr "S"
  else if cell =? FLAG_WALL then chr "X"
  else if cell =? FLAG_FOOD then chr "O"
  else chr "?".

(** @src assignments/a2/test/autograder.c 151-177 main
    The block is the one [malloc] gives for the size. *)
Definition cell_string w : res buffer :=
  let b := replicate (Z.to_nat (u64 (u64 (width w * height w) + 1))) None in
  b ← fill (Z.to_nat (height w)) 0 (λ i b,
    fill (Z.to_nat (width w)) 0 (λ j b,
      cell ← cell_at (cells w) (width w) i j;
      bstore b (u64 (i * width w + j)) (cell_as_char cell)) b) b;
  bstore b (u64 (width w * height w)) 0.

(** @src assignments/a2/test/autograder.c 195-196 main
    [%02x] of an unsigned char. *)
Definition hex_digit (d : Z) : Z := if d <? 10 then 48 + d else 87 + d.
Definition hex2 (c : Z) : bytes := [hex_digit (u8 c / 16); hex_digit (u8 c mod 16)].

(** @src assignments/a2/test/autograder.c 186-197 main
    [n] is the number of iterations left; [name_buf] holds the string [s]. *)
Fixpoint name_bytes (s : bytes) (i : Z) (b : buffer) : res buffer :=
  match s with
  | [] => Ok b
  | c :: s =>
      b ← bstore b (i * 2) (hex_digit (u8 c / 16));
      b ← bstore b (i * 2 + 1) (hex_digit (u8 c mod 16));
      b ← bstore b (i * 2 + 2) 0;
      name_bytes s (i + 1) b
  end.

(** The string in the first bytes of [name_buf]; without a NUL [strlen] reads on. *)
Definition strlen_ok (name_buf : bytes) : res bytes :=
  if bool_decide (0 ∈ name_buf) then Ok (upto 0 name_buf) else Err UB.

(** @src assignments/a2/test/autograder.c 179-223 main
    The JSON of a finished game; [name_buf] is the uninitialised array. *)
Definition report (consider_name : bool) (name_buf : bytes) w (cell_string : buffer) : res bytes :=
  let tail := field (str "width") ++ show_digits 20 (width w) ++ str "," ++ NL ++
              field (str "height") ++ show_digits 20 (height w) ++ str "," ++ NL in
  let head := str "{" ++ NL ++ field (str "game_over") ++ show_int (g_game_over w) ++ str "," ++ NL ++
              field (str "score") ++ show_int (g_score w) ++ str "," ++ NL in
  if consider_name then
    name_buf ← read_name name_buf;
    let name_len := mbslen name_buf in
    s ← strlen_ok name_buf;
    if decide (Z.of_nat (length s) < 1000) then
      name_byte_str_buf ← name_bytes s 0 (replicate (Z.to_nat 2000) None);
      name ← bstring name_byte_str_buf;
      cs ← bstring cell_string;
      Ok (head ++ field (str "name") ++ Q ++ name ++ Q ++ str "," ++ NL ++
          field (str "name_len") ++ show_digits 20 name_len ++ str "," ++ NL ++
          tail ++ field (str "cells") ++ Q ++ cs ++ Q ++ NL ++ str "}" ++ NL)
    else Err AssertFail
  else
    cs ← bstring cell_string;
    Ok (head ++ tail ++ field (str "cells") ++ Q ++ cs ++ Q ++ NL ++ str "}" ++ NL).

(** The environment: whether the allocation succeeds, which descriptors [fdopen]
    opens, and what the uninitialised variables hold. *)
Record env := Env { VERBOSE : bool; malloc_ok : bool; fdopen : Z → bool; garbage : bytes; snake0 : S }.

(** Writing to the stream of a failed [fdopen] is undefined. *)
Definition fprintf (pipe : bool) (t : bytes) : res bytes := if pipe then Ok t else Err UB.

(** @src assignments/a2/test/autograder.c 97-229 main *)
Definition main (e : env) (argv : list bytes) : res ended :=
  match argv with
  | _ :: board_string :: seed :: grows :: key_input :: name :: rest =>
      seed ← atoi seed;
      snake_grows ← atoi grows;
      consider_name ← atoi name;
      fd ← match rest with [] => Err UB | p :: _ => atoi p end;
      let pipe := fdopen e fd in
      let board := match board_string with c :: _ => if c =? chr "0" then None else Some board_string
                                         | [] => Some board_string end in
      let w := srand (u32 seed) (World [] 0 0 0 0 (snake0 e)) in
      t ← run_test (VERBOSE e) board (u32 snake_grows) key_input w;
      match t with
      | BadKey c out => Ok (Ended 1 out (str "Invalid input character " ++ [c] ++ NL) [])
      | Tested st w out =>
          if negb (bool_decide (st = INIT_SUCCESS)) then
            t ← fprintf pipe (board_error st);
            _ ← teardown w;
            Ok (Ended 0 out [] t)
          else if negb (malloc_ok e) then
            _ ← teardown w;
            Ok (Ended 1 out (str "Failed to allocate memory for cell string" ++ NL) [])
          else
            cs ← cell_string w;
            t ← report (c_true (u32 consider_name)) (garbage e) w cs;
            t ← fprintf pipe t;
            _ ← teardown w;
            Ok (Ended 0 out [] t)
      end
  | _ => Ok (Ended 1 (str "Usage: autograder <board_string> <seed> <snake_grows> <key_input>" ++
               str " <consider_name> <pipe>" ++ NL) [] [])
  end.
End main.

(** @src assignments/a2/src/game_setup.c 72-79 initialize_game
    The handout: none of its functions does anything but [read_name] (game.c 57-61). *)
#[export] Instance handout : Game unit := {|
  initialize_game _ w := Ok (INIT_SUCCESS, w);
  update _ _ w := Ok w;
  teardown w := Ok w;
  read_name := GameOver.read_name;
  mbslen _ := 0;
  srand _ w := w
|}.

(** ** Specification *)

(** A board whose cells are all there; ints are the cells' type. *)
Definition board_ok {S} (w : world S) : Prop := sized (cells w) (width w) (height w).

(** The text of a board: a character per cell. *)
Definition glyphs (cs : list Z) : bytes := (λ c, cell_as_char (wrapS 8 c)) <$> cs.

(** Reading a name back from its hexadecimal text: two digits per byte, 0 to 9 or a to
    f, and nothing else. *)
Definition unhex_digit (c : Z) : option Z :=
  if (48 <=? c) && (c <=? 57) then Some (c - 48)
  else if (97 <=? c) && (c <=? 102) then Some (c - 87) else None.
Fixpoint unhex (l : bytes) : option bytes :=
  match l with
  | [] => Some []
  | a :: b :: l =>
      match unhex_digit a, unhex_digit b, unhex l with
      | Some x, Some y, Some r => Some (x * 16 + y :: r)
      | _, _, _ => None
      end
  | _ => None
  end.

(** The JSON of a finished game; [name] is the name's text and its length. *)
Definition json {S} (name : option (bytes * Z)) (w : world S) : bytes :=
  str "{" ++ NL ++ field (str "game_over") ++ show_int (g_game_over w) ++ str "," ++ NL ++
  field (str "score") ++ show_int (g_score w) ++ str "," ++ NL ++
  match name with
  | Some (s, n) => field (str "name") ++ Q ++ s ++ Q ++ str "," ++ NL ++
                   field (str "name_len") ++ show_digits 20 n ++ str "," ++ NL
  | None => []
  end ++
  field (str "width") ++ show_digits 20 (width w) ++ str "," ++ NL ++
  field (str "height") ++ show_digits 20 (height w) ++ str "," ++ NL ++
  field (str "cells") ++ Q ++ glyphs (cells w) ++ Q ++ NL ++ str "}" ++ NL.

(** ** Lemmas *)

(** A buffer of [n] bytes that starts with [s]. *)
Definition stored (n : nat) (s : bytes) : buffer := (Some <$> s) ++ replicate (n - length s) None.

Lemma length_stored n s : (length s ≤ n)%nat → length (stored n s) = n.
Proof. intros. unfold stored. rewrite length_app, length_fmap, length_replicate. lia. Qed.

Lemma bstore_stored n s v : (length s < n)%nat → bstore (stored n s) (Z.of_nat (length s)) v = Ok (stored n (s ++ [v])).
Proof.
  intros Hn. unfold bstore. rewrite decide_True by (rewrite length_stored by lia; lia). f_equal.
  unfold zset. rewrite decide_True, Nat2Z.id by lia. unfold stored.
  rewrite insert_app_r_alt by (rewrite length_fmap; lia). rewrite length_fmap, Nat.sub_diag.
  replace (n - length s)%nat with (S (n - S (length s))) by lia. cbn [replicate]. rewrite fmap_app. cbn.
  rewrite <- app_assoc, length_app. cbn. by replace (n - (length s + 1))%nat with (n - S (length s))%nat by lia.
Qed.

Lemma bstring_stored n s : 0 ∉ s → bstring (stored n (s ++ [0])) = Ok s.
Proof.
  unfold stored. generalize (replicate (n - length (s ++ [0])) (@None Z)) as r. intros r Hs.
  induction s as [|c s IH]; [done|]. apply not_elem_of_cons in Hs as [Hc Hs]. cbn.
  destruct (Z.eqb_spec c 0); [congruence|]. cbn in IH. by rewrite (IH Hs).
Qed.

Section cells.
Context {S : Type} (w : world S) (Hw : board_ok w).

(** The size of the block. *)
Definition block : nat := Datatypes.S (length (cells w)).

Lemma board_size : 0 ≤ width w < 2 ^ 31 ∧ 0 ≤ height w < 2 ^ 31 ∧ width w * height w = Z.of_nat (length (cells w)) ∧
  width w * height w < 2 ^ 31.
Proof. exact Hw. Qed.

Lemma cell_at_ok i j c :
  0 ≤ j < width w → 0 ≤ i < height w → cells w !! Z.to_nat (i * width w + j) = Some c →
  cell_at (cells w) (width w) i j = Ok (wrapS 8 c) ∧ 0 ≤ i * width w + j < width w * height w.
Proof.
  intros Hj Hi Hc. pose proof board_size as (H1 & H2 & H3 & H4).
  assert (0 ≤ i * width w + j < width w * height w) as Hr by nia.
  split; [|done]. unfold cell_at, get_cell, zget. rewrite wrapU_small, decide_True, Hc by lia. done.
Qed.

Lemma fill_row i m j s :
  0 ≤ i < height w → 0 ≤ j → j + Z.of_nat m = width w → Z.of_nat (length s) = i * width w + j →
  fill m j (λ j b,
    cell ← cell_at (cells w) (width w) i j;
    bstore b (u64 (i * width w + j)) (cell_as_char cell)) (stored block s) =
  Ok (stored block (s ++ glyphs (take m (drop (length s) (cells w))))).
Proof.
  intros Hi. pose proof board_size as (H1 & H2 & H3 & H4). revert j s.
  induction m as [|m IH]; intros j s Hj Hm Hs; cbn [fill]; [by rewrite app_nil_r|].
  assert (0 ≤ i * width w + j < width w * height w) as Hr by nia.
  destruct (lookup_lt_is_Some_2 (cells w) (length s)) as [c Hc]; [lia|].
  destruct (cell_at_ok i j c) as [-> _]; [lia|lia|by rewrite <- Hs, Nat2Z.id|]. cbn [mbind res_bind].
  rewrite wrapU_small, <- Hs, bstore_stored by (unfold block; lia). cbn [mbind res_bind].
  rewrite IH by (rewrite ?length_app; cbn; lia). f_equal. rewrite length_app, <- app_assoc. cbn [length app].
  rewrite (drop_S _ _ _ Hc). cbn [take]. unfold glyphs. cbn. by rewrite Nat.add_1_r.
Qed.

Lemma cell_string_ok : cell_string w = Ok (stored block (glyphs (cells w) ++ [0])).
Proof.
  pose proof board_size as (H1 & H2 & H3 & H4). unfold cell_string.
  rewrite (wrapU_small 64 (width w * height w)), wrapU_small by lia.
  replace (replicate (Z.to_nat (width w * height w + 1)) None) with (stored block []).
  2:{ unfold stored, block. cbn [fmap list_fmap app length]. f_equal. lia. }
  assert (∀ m i s, 0 ≤ i → i + Z.of_nat m = height w → Z.of_nat (length s) = i * width w →
    fill m i (λ i b, fill (Z.to_nat (width w)) 0 (λ j b,
      cell ← cell_at (cells w) (width w) i j;
      bstore b (u64 (i * width w + j)) (cell_as_char cell)) b) (stored block s) =
    Ok (stored block (s ++ glyphs (drop (length s) (cells w))))) as Hfill.
  { induction m as [|m IH]; intros i s Hi Hm Hs; cbn [fill].
    - rewrite drop_ge by nia. by rewrite app_nil_r.
    - rewrite fill_row by lia. cbn [mbind res_bind].
      set (row := take (Z.to_nat (width w)) (drop (length s) (cells w))).
      assert (length row = Z.to_nat (width w)) as Hrow.
      { unfold row. rewrite length_take, length_drop. nia. }
      assert (length (glyphs row) = Z.to_nat (width w)) as Hg by (unfold glyphs; by rewrite length_fmap).
      rewrite IH by (rewrite ?length_app, ?Hg; lia). f_equal. rewrite length_app, Hg, <- app_assoc. f_equal. f_equal.
      unfold glyphs. rewrite <- fmap_app. f_equal. unfold row. rewrite <- drop_drop, take_drop. done. }
  rewrite Hfill by (cbn; lia). cbn [app length mbind res_bind drop]. unfold glyphs at 1.
  assert (length (glyphs (cells w)) = length (cells w)) as Hg by (unfold glyphs; by rewrite length_fmap).
  rewrite drop_0, H3, <- Hg. by rewrite bstore_stored by (unfold block; lia).
Qed.

Lemma glyphs_nonzero : 0 ∉ glyphs (cells w).
Proof.
  unfold glyphs. rewrite list_elem_of_fmap. intros (c & E & _). revert E. unfold cell_as_char. by repeat case_match.
Qed.
End cells.

(** *** Names *)

Definition hexs (s : bytes) : bytes := concat (hex2 <$> s).

Lemma bstore_next pre (x : option Z) rest v :
  bstore ((Some <$> pre) ++ x :: rest) (Z.of_nat (length pre)) v = Ok ((Some <$> (pre ++ [v])) ++ rest).
Proof.
  unfold bstore. rewrite decide_True by (rewrite length_app, length_fmap; cbn; lia). f_equal.
  unfold zset. rewrite decide_True, Nat2Z.id by lia.
  rewrite insert_app_r_alt by (rewrite length_fmap; lia). rewrite length_fmap, Nat.sub_diag, fmap_app, <- app_assoc. done.
Qed.

Lemma bstring_fmap s r : 0 ∉ s → bstring ((Some <$> s) ++ Some 0 :: r) = Ok s.
Proof.
  induction s as [|c s IH]; [done|]. intros [Hc Hs]%not_elem_of_cons. cbn.
  destruct (Z.eqb_spec c 0); [congruence|]. cbn in IH. by rewrite (IH Hs).
Qed.

Lemma name_bytes_ok s i pre rest :
  Z.of_nat (length pre) = 2 * i → (2 * length s < length rest)%nat →
  ∃ rest', name_bytes s i ((Some <$> pre) ++ rest) =
    Ok ((Some <$> (pre ++ hexs s)) ++ (if bool_decide (s = []) then rest else Some 0 :: rest')).
Proof.
  revert i pre rest. induction s as [|c s IH]; intros i pre rest Hp Hr; cbn [name_bytes].
  - exists []. by rewrite app_nil_r.
  - destruct rest as [|x [|y [|z rest]]]; cbn [length] in Hr; try lia.
    replace (i * 2) with (Z.of_nat (length pre)) by lia. rewrite bstore_next. cbn [mbind res_bind].
    replace (Z.of_nat (length pre) + 1) with (Z.of_nat (length (pre ++ [hex_digit (u8 c / 16)]))) by (rewrite length_app; cbn; lia).
    rewrite bstore_next. cbn [mbind res_bind]. set (pre2 := (pre ++ _) ++ _).
    assert (length pre2 = (length pre + 2)%nat) as Hl by (unfold pre2; rewrite !length_app; cbn; lia).
    replace (Z.of_nat (length pre) + 2) with (Z.of_nat (length pre2)) by lia.
    rewrite bstore_next. cbn [mbind res_bind]. rewrite fmap_app, <- app_assoc.
    destruct (IH (i + 1) pre2 (Some 0 :: rest)) as (rest' & E); [lia|cbn [length]; lia|].
    cbn [fmap list_fmap app]. cbn [fmap list_fmap app] in E. rewrite E.
    rewrite (bool_decide_false (c :: s = [])) by done. unfold pre2, hexs. cbn [fmap list_fmap concat].
    destruct s as [|d s]; [exists rest|exists rest']; cbn [bool_decide]; rewrite <- !app_assoc; done.
Qed.

Lemma hexs_nonzero s : 0 ∉ hexs s.
Proof.
  unfold hexs. induction s as [|c s IH]; cbn; [apply not_elem_of_nil|]. rewrite !not_elem_of_cons.
  assert (∀ d, 0 ≤ d → 0 ≠ hex_digit d) as Hd by (intros d Hd; unfold hex_digit; case_match; lia).
  pose proof (wrapU_range 8 c). split_and!; [apply Hd, Z.div_pos; lia|apply Hd, Z.mod_pos_bound; lia|done].
Qed.

Lemma unhex_hexs s : (∀ c, c ∈ s → 0 ≤ c < 256) → unhex (hexs s) = Some s.
Proof.
  intros Hs. induction s as [|c s IH]; [done|]. unfold hexs in *. cbn [fmap list_fmap concat hex2 app].
  assert (0 ≤ c < 256) as Hc by (apply Hs; left). rewrite !wrapU_small by lia.
  assert (∀ d, 0 ≤ d < 16 → unhex_digit (hex_digit d) = Some d) as Hd.
  { intros d Hd. unfold unhex_digit, hex_digit. destruct (Z.ltb_spec d 10).
    - replace ((48 <=? 48 + d) && (48 + d <=? 57)) with true by lia. f_equal. lia.
    - replace ((48 <=? 87 + d) && (87 + d <=? 57)) with false by lia.
      replace ((97 <=? 87 + d) && (87 + d <=? 102)) with true by lia. f_equal. lia. }
  pose proof (Z.div_mod c 16). pose proof (Z.mod_pos_bound c 16).
  assert (0 ≤ c / 16 < 16) by (split; [apply Z.div_pos; lia|apply Z.div_lt_upper_bound; lia]).
  cbn [unhex]. rewrite !Hd by lia. rewrite IH by (intros d ?; apply Hs; by right). do 2 f_equal. lia.
Qed.

(** The flags of a cell, from its character. *)
Definition flag_of (c : Z) : Z :=
  if c =? chr "." then FLAG_PLAIN_CELL
  else if c =? chr "S" then FLAG_SNAKE
  else if c =? chr "X" then FLAG_WALL else FLAG_FOOD.

Lemma flags_glyphs cs :
  (∀ c, c ∈ cs → c ∈ [FLAG_PLAIN_CELL; FLAG_SNAKE; FLAG_WALL; FLAG_FOOD]) → flag_of <$> glyphs cs = cs.
Proof.
  intros Hcs. induction cs as [|c cs IH]; [done|]. cbn. unfold glyphs in IH. rewrite IH by (intros d ?; apply Hcs; by right).
  f_equal. specialize (Hcs c ltac:(left)). rewrite !elem_of_cons, elem_of_nil in Hcs.
  by destruct Hcs as [->|[->|[->|[->|[]]]]].
Qed.

(** ** Theorems *)

Section theorems.
Context {S : Type} `{Game S}.

Lemma report_plain (nb : bytes) (w : world S) :
  board_ok w → report false nb w (stored (block w) (glyphs (cells w) ++ [0])) = Ok (json None w).
Proof.
  intros Hw. unfold report. rewrite bstring_stored by apply glyphs_nonzero. cbn [mbind res_bind].
  unfold json. by rewrite <- !app_assoc.
Qed.

Lemma report_name (nb nb' : bytes) (w : world S) :
  board_ok w → read_name nb = Ok nb' → Z.of_nat (length nb') = 1000 →
  report true nb w (stored (block w) (glyphs (cells w) ++ [0])) =
    if bool_decide (0 ∉ nb' ∨ upto 0 nb' = []) then Err UB
    else Ok (json (Some (hexs (upto 0 nb'), mbslen nb')) w).
Proof.
  intros Hw E Hl. unfold report. rewrite E. cbn [mbind res_bind]. unfold strlen_ok.
  case_bool_decide as Hz; [|by rewrite bool_decide_true by auto].
  assert (length (upto 0 nb') < length nb')%nat as Hlt.
  { clear E Hl. induction nb' as [|c nb' IH]; [by apply elem_of_nil in Hz|]. cbn. destruct (Z.eqb_spec c 0); cbn; [lia|].
    apply elem_of_cons in Hz as [?|Hz]; [congruence|]. specialize (IH Hz). lia. }
  cbn [mbind res_bind]. rewrite decide_True by lia.
  destruct (name_bytes_ok (upto 0 nb') 0 [] (replicate (Z.to_nat 2000) None)) as (rest & E');
    [done|rewrite length_replicate; lia|]. cbn [fmap list_fmap app] in E'. rewrite E'. cbn [mbind res_bind].
  destruct (decide (upto 0 nb' = [])) as [En|En].
  { by rewrite (bool_decide_true (_ ∨ _)), En by auto. }
  rewrite (bool_decide_false (upto 0 nb' = [])), (bool_decide_false (_ ∨ _)) by tauto.
  rewrite bstring_fmap by apply hexs_nonzero. cbn [mbind res_bind].
  rewrite bstring_stored by apply glyphs_nonzero. cbn [mbind res_bind]. unfold json. by rewrite <- !app_assoc.
Qed.

Lemma main_plays (e : env) prog board sd gr keys nm pp seed grows name fd :
  atoi sd = Ok seed → atoi gr = Ok grows → atoi nm = Ok name → atoi pp = Ok fd →
  main e [prog; board; sd; gr; keys; nm; pp] =
  (t ← run_test (VERBOSE e) (match board with c :: _ => if c =? chr "0" then None else Some board | [] => Some board end)
         (u32 grows) keys (srand (u32 seed) (World [] 0 0 0 0 (snake0 e)));
   match t with
   | BadKey c out => Ok (Ended 1 out (str "Invalid input character " ++ [c] ++ NL) [])
   | Tested st w out =>
       if negb (bool_decide (st = INIT_SUCCESS)) then
         t ← fprintf (fdopen e fd) (board_error st); _ ← teardown w; Ok (Ended 0 out [] t)
       else if negb (malloc_ok e) then
         _ ← teardown w; Ok (Ended 1 out (str "Failed to allocate memory for cell string" ++ NL) [])
       else
         cs ← cell_string w;
         t ← report (c_true (u32 name)) (garbage e) w cs;
         t ← fprintf (fdopen e fd) t;
         _ ← teardown w;
         Ok (Ended 0 out [] t)
   end).
Proof. intros E1 E2 E3 E4. unfold main. by rewrite E1, E2, E3, E4. Qed.
End theorems.

(** C36. A graded game, for every implementation of the students' functions, on a run
    with these conditions: the four numbers on the command line are numbers, the
    stream opens, setting the game up and playing the keys ([run_test]) comes back
    with INIT_SUCCESS and a well-formed board, and [read_name] returns.  If malloc
    fails, the program says so and ends with status 1.  Otherwise it writes exactly
    the JSON of that game, then calls the student's [teardown], and if that returns
    ends with status 0; with the name's bytes in hexadecimal when it is asked for,
    and then with undefined behaviour if the student's [read_name] left no NUL in
    the 1000 bytes or an empty name, for which nothing has been stored in the buffer
    that is printed.  The hexadecimal text determines the name, and the text of the
    cells the board if every cell holds one of the four flags. *)
Theorem grades {S} `{Game S} (e : env) prog board sd gr keys nm pp seed grows name fd w out nb :
  atoi sd = Ok seed → atoi gr = Ok grows → atoi nm = Ok name → atoi pp = Ok fd →
  fdopen e fd = true →
  run_test (VERBOSE e) (match board with c :: _ => if c =? chr "0" then None else Some board | [] => Some board end)
    (u32 grows) keys (srand (u32 seed) (World [] 0 0 0 0 (snake0 e))) = Ok (Tested INIT_SUCCESS w out) →
  board_ok w → read_name (garbage e) = Ok nb → Z.of_nat (length nb) = 1000 →
  main e [prog; board; sd; gr; keys; nm; pp] =
    (if negb (malloc_ok e) then
       _ ← teardown w; Ok (Ended 1 out (str "Failed to allocate memory for cell string" ++ NL) [])
     else if u32 name =? 0 then _ ← teardown w; Ok (Ended 0 out [] (json None w))
     else if bool_decide (0 ∉ nb ∨ upto 0 nb = []) then Err UB
     else _ ← teardown w; Ok (Ended 0 out [] (json (Some (hexs (upto 0 nb), mbslen nb)) w))) ∧
  ((∀ c, c ∈ nb → 0 ≤ c < 256) → unhex (hexs (upto 0 nb)) = Some (upto 0 nb)) ∧
  ((∀ c, c ∈ cells w → c ∈ [FLAG_PLAIN_CELL; FLAG_SNAKE; FLAG_WALL; FLAG_FOOD]) → flag_of <$> glyphs (cells w) = cells w).
Proof.
  intros E1 E2 E3 E4 Hp Ht Hw Hn Hl. split; [|split; [|apply flags_glyphs]].
  - rewrite (main_plays _ _ _ _ _ _ _ _ _ _ _ _ E1 E2 E3 E4), Ht. cbn [mbind res_bind].
    rewrite Hp, cell_string_ok, (bool_decide_true (INIT_SUCCESS = INIT_SUCCESS)) by done. cbn [negb mbind res_bind].
    destruct (malloc_ok e); cbn [negb]; [|done]. unfold c_true.
    destruct (u32 name =? 0); cbn [negb].
    + by rewrite report_plain.
    + rewrite (report_name _ nb) by done. by destruct (bool_decide _).
  - intros Hb. apply unhex_hexs. intros c Hc. apply Hb. revert Hc. clear.
    induction nb as [|x nb IH]; cbn; [done|]. case_match; [by intros ?%elem_of_nil|].
    intros [-> |?]%elem_of_cons; [left|right; auto].
Qed.

Definition ex_env : env := Env false true (λ fd, fd =? 3) (replicate (Z.to_nat 1000) 7) tt.
Definition ex_args : list bytes := [str "autograder"; str "0"; str "1"; str "1"; str "RRN"; str "1"; str "3"].

Lemma grades_witness :
  main ex_env ex_args =
    Ok (Ended 0 [] [] (json (Some (hexs (str "placeholder"), 0)) (World [] 0 0 0 0 ()))).
Proof.
  pose proof (grades ex_env (str "autograder") (str "0") (str "1") (str "1") (str "RRN") (str "1") (str "3")
    1 1 1 3 (World [] 0 0 0 0 ()) [] (str "placeholder" ++ [0] ++ replicate (Z.to_nat 988) 7)
    eq_refl eq_refl eq_refl eq_refl eq_refl eq_refl) as H.
  destruct H as [H _]; [by vm_compute|by vm_compute|by vm_compute|].
  etransitivity; [exact H|]. by vm_compute.
Defined.

(** The arguments.  Fewer than six, the program's name included, print the usage;
    the check lets six through, but the seventh is read: a missing descriptor is
    passed to atoi as NULL. *)
Theorem main_arguments {S} `{Game S} (e : env) argv :
  ((length argv < 6)%nat → ∃ out, main e argv = Ok (Ended 1 out [] [])) ∧
  (length argv = 6%nat → main e argv = Err UB).
Proof.
  destruct argv as [|a0 [|a1 [|a2 [|a3 [|a4 [|a5 rest]]]]]]; cbn [length];
    try (split; [by eexists|lia]).
  split; [lia|]. intros Hl. destruct rest; [|cbn in Hl; lia]. unfold main, atoi.
  by repeat (case_decide; cbn [mbind res_bind]; try done).
Qed.

(** A board that the game rejects is reported by name, and nothing is played. *)
Theorem rejects {S} `{Game S} (e : env) prog board sd gr keys nm pp seed grows name fd st w :
  atoi sd = Ok seed → atoi gr = Ok grows → atoi nm = Ok name → atoi pp = Ok fd → fdopen e fd = true →
  initialize_game (match board with c :: _ => if c =? chr "0" then None else Some board | [] => Some board end)
    (srand (u32 seed) (World [] 0 0 0 0 (snake0 e))) = Ok (st, w) → st ≠ INIT_SUCCESS →
  main e [prog; board; sd; gr; keys; nm; pp] = (_ ← teardown w; Ok (Ended 0 [] [] (board_error st))).
Proof.
  intros E1 E2 E3 E4 Hp Hi Hst. rewrite (main_plays _ _ _ _ _ _ _ _ _ _ _ _ E1 E2 E3 E4). unfold run_test.
  rewrite Hi. cbn [mbind res_bind]. rewrite bool_decide_false by done. cbn [mbind res_bind].
  rewrite bool_decide_false by done. cbn [negb]. by rewrite Hp.
Qed.
