(* ===== verification/RevTest.v ===== *)
(** * The tests of the reversal exercise

    Models src/modules/m1/revtest.c, the program that counts how many tests a
    student's functions pass, with the handout's reverse.c.  A function under test
    works on an array of strings or on the bytes of a string, with its NUL; it is
    an argument of the tests, and the theorems say what they count for every
    function that reverses, and for every function at all. *)
From stdpp Require Import base tactics numbers list option.
From Stdlib Require Import ZArith Lia.
From S2P Require Import Prelude CText.

Abbreviation strings := (list bytes).

(** ** Definitions *)

(** @src modules/m1/revtest.c 7-9 tests_run
    The counters, and the output. *)
Record stats := Stats { tests_run : Z; tests_correct : Z; tests_incorrect : Z; out : bytes }.
Definition init_stats : stats := Stats 0 0 0 [].

Definition printf (t : bytes) (s : stats) : stats :=
  Stats (tests_run s) (tests_correct s) (tests_incorrect s) (out s ++ t).

Definition RED : bytes := 27 :: str "[0;31m".
Definition GREEN : bytes := 27 :: str "[0;32m".
Definition RESET : bytes := 27 :: str "[0m".

(** An element of an array. *)
Definition elem (l : strings) (i : Z) : res bytes := of_option UB (zget l i).

(** @src modules/m1/revtest.c 24-38 assert_equal
    The loop, from [i] on. *)
Fixpoint assert_equal_loop (n : nat) (i : Z) (expected actual : strings) (message : bytes) (len : Z)
    (element_correct element_incorrect : Z) (s : stats) : res (Z * Z * stats) :=
  match n with
  | O => Ok (element_correct, element_incorrect, s)
  | S n =>
      e ← elem expected i;
      a ← elem actual i;
      if bool_decide (e = a) then
        let element_correct := element_correct + 1 in
        let s := if element_correct =? len
                 then Stats (tests_run s) (tests_correct s + 1) (tests_incorrect s) (out s) else s in
        assert_equal_loop n (i + 1) expected actual message len element_correct element_incorrect s
      else
        let element_incorrect := element_incorrect + 1 in
        let s := if element_correct =? len
                 then Stats (tests_run s) (tests_correct s + 1) (tests_incorrect s) (out s) else s in
        let s := printf RED s in
        let s := printf (str "[FAILED Test " ++ show_int (tests_run s) ++ str ": " ++ message ++ str "]: At index: " ++
                   show_int i ++ str ", expected string: " ++ e ++ str ", actual string: " ++ a ++ [10]) s in
        let s := printf RESET s in
        assert_equal_loop n (i + 1) expected actual message len element_correct element_incorrect s
  end.

Definition passed (message : bytes) (s : stats) : stats :=
  let s := printf GREEN s in
  let s := printf (str "[PASSED Test " ++ show_int (tests_run s) ++ str ": " ++ message ++ str "]" ++ [10]) s in
  printf RESET s.

(** @src modules/m1/revtest.c 19-47 assert_equal *)
Definition assert_equal (expected actual : strings) (message : bytes) (len : Z) (s : stats) : res stats :=
  let s := Stats (tests_run s + 1) (tests_correct s) (tests_incorrect s) (out s) in
  '(element_correct, element_incorrect, s) ←
    assert_equal_loop (Z.to_nat len) 0 expected actual message len 0 0 s;
  Ok (if element_incorrect =? 0 then passed message s else s).

(** @src modules/m1/revtest.c 52-70 assert_string_equal *)
Definition assert_string_equal (expected actual message : bytes) (s : stats) : stats :=
  let s := Stats (tests_run s + 1) (tests_correct s) (tests_incorrect s) (out s) in
  if bool_decide (expected = actual) then
    passed message (Stats (tests_run s) (tests_correct s + 1) (tests_incorrect s) (out s))
  else
    let s := Stats (tests_run s) (tests_correct s) (tests_incorrect s + 1) (out s) in
    let s := printf RED s in
    let s := printf (str "[FAILED Test " ++ show_int (tests_run s) ++ str ": " ++ message ++ str "]: Expected string: '" ++
               expected ++ str "', Actual string: '" ++ actual ++ str "'" ++ [10]) s in
    printf RESET s.

(** @src modules/m1/revtest.c 72-76 safe_strncpy
    [dest] is the block; [snprintf] stores at most [size] bytes, the NUL included. *)
Definition safe_strncpy (dest src : bytes) (size : Z) : res bytes :=
  if 0 <? size then
    let t := take (Z.to_nat (size - 1)) src ++ [0] in
    if decide (length t ≤ length dest)%nat then Ok (t ++ drop (length t) dest) else Err UB
  else Ok dest.

(** One test of [test_array_reverse]: the array, how it should end up, and what
    it is called. *)
Record array_test := ArrayTest { a_input : strings; a_reversed : strings; a_name : bytes }.

Definition escaped : bytes := str "abc\ndef\tghi".

(** @src modules/m1/revtest.c 83-110 test_array_reverse
    The tests after the first, which compares the array with itself. *)
Definition array_tests : list array_test :=
  [ArrayTest [str "hello"; str "my"; str "name"; str "is"] [str "is"; str "name"; str "my"; str "hello"]
     (str "four element test");
   ArrayTest [str "i"; str "love"; str "systems"; str "csc"; str "412"]
     [str "412"; str "csc"; str "systems"; str "love"; str "i"] (str "five element test");
   ArrayTest [escaped; str " abc "] [str " abc "; escaped]
     (str "test two elements with escaped chars and with leading/trailing whitespace");
   ArrayTest [str "hello NULL"; []] [[]; str "hello NULL"] (str "test empty input")].

Fixpoint run_array_tests (func : strings → Z → strings) (ts : list array_test) (s : stats) : res stats :=
  match ts with
  | [] => Ok s
  | t :: ts =>
      let n := Z.of_nat (length (a_input t)) in
      s ← assert_equal (func (a_input t) n) (a_reversed t) (a_name t) n s;
      run_array_tests func ts s
  end.

(** @src modules/m1/revtest.c 80-111 test_array_reverse *)
Definition test_array_reverse (func : strings → Z → strings) (testnum : Z) (s : stats) : res stats :=
  let s := printf ([10] ++ str "   Starting tests for reverse_arr" ++ show_int testnum ++ [10]) s in
  let str1 := func [str "hello"] 1 in
  s ← assert_equal str1 str1 (str "one element test") 1 s;
  run_array_tests func array_tests s.

(** One test of [test_char_reverse]: the string, the size that is passed, and the
    string it should become. *)
Record char_test := CharTest { c_input : bytes; c_size : Z; c_reversed : bytes; c_name : bytes }.

(** @src modules/m1/revtest.c 119-165 test_char_reverse
    The last two strings are UTF-8. *)
Definition char_tests : list char_test :=
  [CharTest (str "madam") 5 (str "madam") (str "palindrome test");
   CharTest (str "hello") 5 (str "olleh") (str "test simple string");
   CharTest (str "hello, world!") 13 (str "!dlrow ,olleh") (str "simple special characters test");
   CharTest (str "  leading space") 15 (str "ecaps gnidael  ") (str "leading space characters test");
   CharTest (str "trailing space  ") 16 (str "  ecapS gniliart") (str "trailing space characters test");
   CharTest (str " trailing space   ") 17 (str "   ecapS gniliart ")
     (str "leading + trailing space characters test! (hard)");
   CharTest [227; 129; 147; 227; 130; 147; 227; 129; 171; 227; 129; 161; 227; 129; 175] 6
     [227; 129; 175; 227; 129; 161; 227; 129; 171; 227; 130; 147; 227; 129; 147]
     (str "Unicode Characters special test! (extra credit)");
   CharTest [104; 195; 169; 108; 108; 111] 6 [111; 108; 108; 195; 169; 104]
     (str "string with Non-ASCII characters test! (extra credit)")].

Fixpoint run_char_tests (func : bytes → Z → bytes) (ts : list char_test) (s : stats) : stats :=
  match ts with
  | [] => s
  | t :: ts =>
      run_char_tests func ts
        (assert_string_equal (upto 0 (func (c_input t ++ [0]) (c_size t))) (c_reversed t) (c_name t) s)
  end.

(** @src modules/m1/revtest.c 116-166 test_char_reverse *)
Definition test_char_reverse (func : bytes → Z → bytes) (testnum : Z) (s : stats) : stats :=
  run_char_tests func char_tests
    (printf ([10] ++ str "   Starting tests for test_char_reverse" ++ show_int testnum ++ [10]) s).

(** @src modules/m1/revtest.c 171-173 print_summary_stats *)
Definition print_summary_stats (s : stats) : stats :=
  printf ([10] ++ str " Your code ran " ++ show_int (tests_run s) ++ str " tests. " ++ [10] ++
    str " Your reverse functions passed " ++ show_int (tests_correct s) ++
    str " of the 55 tests needed to get full credit." ++ [10]) s.

(** @src modules/m1/reverse.c 39-41 reverse_arr1
    As it is handed out. *)
Definition reverse_arr1 (arr : strings) (size : Z) : strings := arr.

(** @src modules/m1/revtest.c 180-203 main
    As it is handed out, with the first test only. *)
Definition main : res stats :=
  s ← test_array_reverse reverse_arr1 1 init_stats;
  Ok (print_summary_stats s).

(** [main] with its ten calls, on the functions of a student (lines 186-203 with
    their comment signs removed). *)
Fixpoint run_arrays (fs : list (strings → Z → strings)) (i : Z) (s : stats) : res stats :=
  match fs with [] => Ok s | f :: fs => s ← test_array_reverse f i s; run_arrays fs (i + 1) s end.
Fixpoint run_chars (fs : list (bytes → Z → bytes)) (i : Z) (s : stats) : stats :=
  match fs with [] => s | f :: fs => run_chars fs (i + 1) (test_char_reverse f i s) end.
Definition main_all (arrays : list (strings → Z → strings)) (chars : list (bytes → Z → bytes)) : res stats :=
  s ← run_arrays arrays 1 init_stats;
  Ok (print_summary_stats (run_chars chars 1 s)).

(** ** Specification *)

(** A function that reverses the first [n] strings of an array, and one that
    reverses the first [n] bytes of an ASCII string. *)
Definition reverses_array (f : strings → Z → strings) : Prop :=
  ∀ l n, 0 ≤ n ≤ Z.of_nat (length l) → f l n = reverse (take (Z.to_nat n) l) ++ drop (Z.to_nat n) l.
Definition ascii (s : bytes) : Prop := ∀ c, c ∈ s → 0 < c < 128.
Definition reverses_string (f : bytes → Z → bytes) : Prop :=
  ∀ s n, ascii s → 0 ≤ n ≤ Z.of_nat (length s) →
    upto 0 (f (s ++ [0]) n) = reverse (take (Z.to_nat n) s) ++ drop (Z.to_nat n) s.

(** Whether a function passes a test. *)
Definition passes (f : bytes → Z → bytes) (t : char_test) : Prop :=
  upto 0 (f (c_input t ++ [0]) (c_size t)) = c_reversed t.
#[export] Instance passes_dec f t : Decision (passes f t).
Proof. unfold passes. apply _. Defined.
Definition score (f : bytes → Z → bytes) (ts : list char_test) : Z :=
  Z.of_nat (length (filter (passes f) ts)).

Definition unicode_tests : list char_test := drop 6 char_tests.

(** ** Lemmas *)

Lemma zget_drop_cons {A} (l : list A) (k : nat) x r :
  drop k l = x :: r → zget l (Z.of_nat k) = Some x ∧ drop (S k) l = r ∧ (k < length l)%nat.
Proof.
  intros E. assert (l !! k = Some x) as Hx by (rewrite <- (Nat.add_0_r k), <- lookup_drop, E; done).
  split_and!; [unfold zget; by rewrite decide_True, Nat2Z.id by lia| |by eapply lookup_lt_Some].
  rewrite (drop_S _ _ _ Hx) in E. by injection E.
Qed.

(** The loop: what it adds to the counters depends on the rest of the arrays. *)
Lemma assert_equal_loop_ok n k expected actual message len c d s :
  length expected = Z.to_nat len → length actual = Z.to_nat len → (n + k = Z.to_nat len)%nat →
  0 ≤ c → 0 ≤ d → c + d = Z.of_nat k →
  ∃ c' d' o, assert_equal_loop n (Z.of_nat k) expected actual message len c d s =
    Ok (c', d', Stats (tests_run s)
          (tests_correct s + (if bool_decide (d = 0 ∧ drop k expected = drop k actual ∧ (0 < n)%nat) then 1 else 0))
          (tests_incorrect s) (out s ++ o)) ∧
    (d' = 0 ↔ d = 0 ∧ drop k expected = drop k actual) ∧ (d' = 0 → o = []).
Proof.
  intros He Ha. revert k c d s. induction n as [|n IH]; intros k c d s Hn Hc Hd Hk; cbn [assert_equal_loop].
  - exists c, d, []. rewrite bool_decide_false by lia. rewrite Z.add_0_r, app_nil_r.
    split; [by destruct s|]. rewrite !drop_ge by lia. split; [|done]. by split; [|intros []].
  - destruct (drop k expected) as [|e re] eqn:Ee.
    { apply (f_equal length) in Ee. rewrite length_drop in Ee. cbn in Ee. lia. }
    destruct (drop k actual) as [|a ra] eqn:Ea.
    { apply (f_equal length) in Ea. rewrite length_drop in Ea. cbn in Ea. lia. }
    apply zget_drop_cons in Ee as (Ge & Ee & _), Ea as (Ga & Ea & _).
    unfold elem. rewrite Ge, Ga. cbn [of_option mbind res_bind].
    replace (Z.of_nat k + 1) with (Z.of_nat (S k)) by lia. case_bool_decide as Heq.
    + subst a. set (s1 := if c + 1 =? len then _ else s).
      destruct (IH (S k) (c + 1) d s1) as (c' & d' & o & E & H1 & H2); [lia..|].
      exists c', d', o. rewrite E. rewrite Ee, Ea in *.
      assert (tests_run s1 = tests_run s ∧ tests_incorrect s1 = tests_incorrect s ∧ out s1 = out s ∧
        tests_correct s1 = tests_correct s + (if c + 1 =? len then 1 else 0)) as (-> & -> & -> & ->).
      { unfold s1. destruct (c + 1 =? len); cbn; split_and!; done || lia. }
      split; [|split; [rewrite H1; split; intros [? Hr]; (split; [done|congruence])|done]]. do 3 f_equal. rewrite <- Z.add_assoc. f_equal.
      destruct (Z.eqb_spec (c + 1) len) as [Hl|Hl].
      * assert (d = 0 ∧ n = 0%nat) as [-> ->] by lia. rewrite (bool_decide_false (0 = 0 ∧ re = ra ∧ _)) by lia.
        assert (re = ra) as ->. { apply (f_equal length) in Ee, Ea. rewrite length_drop in Ee, Ea. destruct re, ra; cbn in *; try lia. done. }
        by rewrite bool_decide_true by (split_and!; [done|done|lia]).
      * rewrite Z.add_0_l. apply (f_equal (λ b : bool, if b then 1 else 0)), bool_decide_ext.
        split; [intros (? & ? & ?); split_and!; [done|congruence|lia]|].
        intros (-> & Hr & _). split_and!; [done|congruence|lia].
    + assert ((c =? len) = false) as -> by lia.
      set (s1 := printf RESET _).
      destruct (IH (S k) c (d + 1) s1) as (c' & d' & o & E & H1 & H2); [lia..|].
      exists c', d'. eexists. rewrite E. rewrite bool_decide_false by lia.
      rewrite (bool_decide_false (d = 0 ∧ _)) by (intros (_ & Hr & _); by injection Hr).
      unfold s1. cbn [tests_run tests_correct tests_incorrect out printf]. split; [by rewrite <- !app_assoc|].
      split; [|intros Hd'; apply H1 in Hd'; lia]. rewrite H1. split; [lia|]. intros [_ Hr]. by injection Hr.
Qed.

(** What [assert_equal] counts and prints. *)
Lemma assert_equal_ok expected actual message len s :
  length expected = Z.to_nat len → length actual = Z.to_nat len →
  ∃ s', assert_equal expected actual message len s = Ok s' ∧ tests_run s' = tests_run s + 1 ∧
    tests_correct s' = tests_correct s + (if bool_decide (expected = actual ∧ 0 < len) then 1 else 0) ∧
    tests_incorrect s' = tests_incorrect s ∧
    (expected = actual → out s' = out s ++ GREEN ++ str "[PASSED Test " ++ show_int (tests_run s + 1) ++ str ": " ++
       message ++ str "]" ++ [10] ++ RESET).
Proof.
  intros He Ha. unfold assert_equal. set (s1 := Stats _ _ _ _).
  destruct (assert_equal_loop_ok (Z.to_nat len) 0 expected actual message len 0 0 s1) as (c & d & o & E & H1 & H2);
    [done|done|lia..|]. change (Z.of_nat 0) with 0 in E. rewrite E. cbn [mbind res_bind]. rewrite !drop_0 in *.
  eexists. split; [done|].
  assert (bool_decide (0 = 0 ∧ expected = actual ∧ (0 < Z.to_nat len)%nat) = bool_decide (expected = actual ∧ 0 < len)) as ->.
  { apply bool_decide_ext. split; [intros (_ & ? & ?); split; [done|lia]|]. intros []. split_and!; [done|done|lia]. }
  unfold passed, printf.
  destruct (Z.eqb_spec d 0) as [Hd|Hd]; cbn [tests_run tests_correct tests_incorrect out s1]; split_and!; try done.
  - intros _. by rewrite (H2 Hd), app_nil_r, <- !app_assoc.
  - intros Heq. exfalso. apply Hd, H1. done.
Qed.

(** A function that reverses passes every array test. *)
Lemma run_array_tests_ok f ts s :
  (∀ t, t ∈ ts → f (a_input t) (Z.of_nat (length (a_input t))) = a_reversed t ∧
     length (a_reversed t) = length (a_input t) ∧ (0 < length (a_input t))%nat) →
  ∃ s', run_array_tests f ts s = Ok s' ∧ tests_run s' = tests_run s + Z.of_nat (length ts) ∧
    tests_correct s' = tests_correct s + Z.of_nat (length ts) ∧ tests_incorrect s' = tests_incorrect s.
Proof.
  revert s. induction ts as [|t ts IH]; intros s Ht; cbn [run_array_tests length].
  - exists s. split_and!; [done|lia..].
  - destruct (Ht t) as (E & Hl & Hpos); [left|]. rewrite E.
    destruct (assert_equal_ok (a_reversed t) (a_reversed t) (a_name t) (Z.of_nat (length (a_input t))) s)
      as (s1 & -> & H1 & H2 & H3 & _); [lia..|]. rewrite bool_decide_true in H2 by (split; [done|lia]).
    cbn [mbind res_bind]. destruct (IH s1) as (s2 & -> & H4 & H5 & H6); [intros u ?; apply Ht; by right|].
    exists s2. split_and!; [done|lia..].
Qed.

Lemma test_array_reverse_ok f k s :
  reverses_array f →
  ∃ s', test_array_reverse f k s = Ok s' ∧ tests_run s' = tests_run s + 5 ∧
    tests_correct s' = tests_correct s + 5 ∧ tests_incorrect s' = tests_incorrect s.
Proof.
  intros Hf. unfold test_array_reverse. set (s0 := printf _ s).
  rewrite (Hf [str "hello"] 1) by (cbn; lia).
  destruct (assert_equal_ok [str "hello"] [str "hello"] (str "one element test") 1 s0)
    as (s1 & E & H1 & H2 & H3 & _); [done|done|].
  change (reverse (take (Z.to_nat 1) [str "hello"]) ++ drop (Z.to_nat 1) [str "hello"]) with [str "hello"].
  rewrite E. cbn [mbind res_bind]. rewrite bool_decide_true in H2 by (split; [done|lia]).
  destruct (run_array_tests_ok f array_tests s1) as (s2 & -> & H4 & H5 & H6).
  { intros t Ht. rewrite Hf by lia. rewrite Nat2Z.id, firstn_all, drop_all, app_nil_r. revert Ht. unfold array_tests.
    rewrite !elem_of_cons, elem_of_nil. intros [->|[->|[->|[->|[]]]]]; cbn; (split_and!; [done|done|lia]). }
  exists s2. change (Z.of_nat (length array_tests)) with 4 in *. cbn in H1, H2, H3. split_and!; [done|lia..].
Qed.

Lemma score_cons f t ts : score f (t :: ts) = (if bool_decide (passes f t) then 1 else 0) + score f ts.
Proof.
  unfold score. rewrite filter_cons. case_decide as E;
    [rewrite bool_decide_true by exact E|rewrite bool_decide_false by exact E]; cbn [length]; lia.
Qed.

Lemma assert_string_equal_ok e a m s :
  let s' := assert_string_equal e a m s in
  tests_run s' = tests_run s + 1 ∧ tests_correct s' = tests_correct s + (if bool_decide (e = a) then 1 else 0) ∧
  tests_incorrect s' = tests_incorrect s + 1 - (if bool_decide (e = a) then 1 else 0).
Proof.
  unfold assert_string_equal, passed, printf. case_bool_decide; cbn [tests_run tests_correct tests_incorrect]; lia.
Qed.

(** The string tests count what is passed. *)
Lemma run_char_tests_ok f ts s :
  let s' := run_char_tests f ts s in
  tests_run s' = tests_run s + Z.of_nat (length ts) ∧ tests_correct s' = tests_correct s + score f ts ∧
  tests_incorrect s' = tests_incorrect s + Z.of_nat (length ts) - score f ts.
Proof.
  revert s. induction ts as [|t ts IH]; intros s; cbv zeta; cbn [run_char_tests length]; [change (score f []) with 0; lia|].
  match goal with |- context [run_char_tests f ts ?s0] => destruct (IH s0) as (-> & -> & ->) end.
  destruct (assert_string_equal_ok (upto 0 (f (c_input t ++ [0]) (c_size t))) (c_reversed t) (c_name t) s) as (-> & -> & ->).
  rewrite score_cons. unfold passes. repeat case_bool_decide; try done; lia.
Qed.

(** Of the first six tests a function that reverses passes four: two expect a
    capital letter. *)
Lemma reverses_passes f t :
  reverses_string f → (∀ c, c ∈ c_input t → 0 < c < 128) → 0 ≤ c_size t ≤ Z.of_nat (length (c_input t)) →
  passes f t ↔ reverse (take (Z.to_nat (c_size t)) (c_input t)) ++ drop (Z.to_nat (c_size t)) (c_input t) = c_reversed t.
Proof. intros Hf Ha Hs. unfold passes. by rewrite Hf. Qed.

Definition reversal (t : char_test) : bool :=
  bool_decide (reverse (take (Z.to_nat (c_size t)) (c_input t)) ++ drop (Z.to_nat (c_size t)) (c_input t) = c_reversed t).

Lemma score_count f ts (g : char_test → bool) :
  (∀ t, t ∈ ts → passes f t ↔ g t = true) → score f ts = Z.of_nat (length (List.filter g ts)).
Proof.
  unfold score. induction ts as [|t ts IH]; intros Hg; [done|]. rewrite filter_cons. cbn [List.filter].
  specialize (IH (λ u Hu, Hg u (list_elem_of_further _ _ _ Hu))). destruct (Hg t ltac:(left)) as [H1 H2].
  case_decide as E; destruct (g t); cbn [length]; [lia|by specialize (H1 E)|by destruct E; apply H2|lia].
Qed.

Lemma ascii_tests_score f : reverses_string f → score f (take 6 char_tests) = 4.
Proof.
  intros Hf. rewrite (score_count _ _ reversal); [by vm_compute|]. intros t Ht.
  assert (Forall (λ t, Forall (λ c, 0 < c < 128) (c_input t) ∧ 0 ≤ c_size t ≤ Z.of_nat (length (c_input t)))
    (take 6 char_tests)) as Hall by (apply (bool_decide_unpack _); by vm_compute).
  rewrite list.Forall_forall in Hall. destruct (Hall t Ht) as [Ha Hs].
  rewrite reverses_passes; [|done|by apply list.Forall_forall|done]. unfold reversal. by rewrite bool_decide_eq_true.
Qed.

Lemma score_all f ts : (∀ t, t ∈ ts → passes f t) → score f ts = Z.of_nat (length ts).
Proof.
  induction ts as [|t ts IH]; intros Hp; [done|].
  rewrite score_cons, bool_decide_true by (apply Hp; left). rewrite IH by (intros u ?; apply Hp; by right).
  cbn [length]. lia.
Qed.

Lemma char_score f : score f char_tests = score f (take 6 char_tests) + score f unicode_tests.
Proof.
  rewrite <- (take_drop 6 char_tests) at 1. unfold score, unicode_tests. rewrite list.filter_app, length_app. lia.
Qed.

Lemma unicode_score f : 0 ≤ score f unicode_tests ≤ 2.
Proof. unfold score. pose proof (length_filter (passes f) unicode_tests) as H. change (length unicode_tests) with 2%nat in H. lia. Qed.

(** All five functions of each kind. *)
Lemma run_arrays_ok fs i s :
  (∀ f, f ∈ fs → reverses_array f) →
  ∃ s', run_arrays fs i s = Ok s' ∧ tests_run s' = tests_run s + 5 * Z.of_nat (length fs) ∧
    tests_correct s' = tests_correct s + 5 * Z.of_nat (length fs) ∧ tests_incorrect s' = tests_incorrect s.
Proof.
  revert i s. induction fs as [|f fs IH]; intros i s Hf; cbn [run_arrays length].
  - exists s. split_and!; [done|lia..].
  - destruct (test_array_reverse_ok f i s) as (s1 & -> & H1 & H2 & H3); [apply Hf; left|].
    cbn [mbind res_bind]. destruct (IH (i + 1) s1) as (s2 & -> & H4 & H5 & H6); [intros g ?; apply Hf; by right|].
    exists s2. split_and!; [done|lia..].
Qed.

Definition total (fs : list (bytes → Z → bytes)) (ts : list char_test) : Z :=
  foldr (λ f n, score f ts + n) 0 fs.

Lemma run_chars_ok fs i s :
  let s' := run_chars fs i s in
  tests_run s' = tests_run s + 8 * Z.of_nat (length fs) ∧ tests_correct s' = tests_correct s + total fs char_tests ∧
  tests_incorrect s' = tests_incorrect s + 8 * Z.of_nat (length fs) - total fs char_tests.
Proof.
  revert i s. induction fs as [|f fs IH]; intros i s; cbv zeta; cbn [run_chars length]; [change (total [] char_tests) with 0; lia|].
  destruct (IH (i + 1) (test_char_reverse f i s)) as (-> & -> & ->). unfold test_char_reverse.
  match goal with |- context [run_char_tests f char_tests ?s0] =>
    destruct (run_char_tests_ok f char_tests s0) as (-> & -> & ->); set (s1 := s0) end.
  change (Z.of_nat (length char_tests)) with 8. change (total (f :: fs) char_tests) with (score f char_tests + total fs char_tests).
  unfold s1, printf. cbn [tests_run tests_correct tests_incorrect]. lia.
Qed.

Lemma total_split fs :
  (∀ f, f ∈ fs → reverses_string f) →
  total fs char_tests = 4 * Z.of_nat (length fs) + total fs unicode_tests ∧
  0 ≤ total fs unicode_tests ≤ 2 * Z.of_nat (length fs).
Proof.
  induction fs as [|f fs IH]; intros Hf; [by split|]. cbn [length].
  assert (∀ ts, total (f :: fs) ts = score f ts + total fs ts) as Htot by done. rewrite !Htot.
  rewrite char_score, ascii_tests_score by (apply Hf; left). pose proof (unicode_score f).
  destruct IH as [-> ?]; [intros g ?; apply Hf; by right|]. lia.
Qed.

(** ** Theorems *)

(** [assert_equal] passes a test exactly when the arrays are equal, whatever it
    finds on the way; but it counts no failure, and an empty test is printed as
    passed and not counted. *)
Theorem assert_equal_spec expected actual message len s :
  length expected = Z.to_nat len → length actual = Z.to_nat len →
  ∃ s', assert_equal expected actual message len s = Ok s' ∧ tests_run s' = tests_run s + 1 ∧
    tests_correct s' = tests_correct s + (if bool_decide (expected = actual ∧ 0 < len) then 1 else 0) ∧
    tests_incorrect s' = tests_incorrect s.
Proof.
  intros He Ha. destruct (assert_equal_ok expected actual message len s He Ha) as (s' & H1 & H2 & H3 & H4 & _).
  by exists s'.
Qed.

(** What the test program counts for a right solution.  With five functions that
    reverse arrays and five that reverse ASCII strings it runs 65 tests and finds
    45 correct, and one more for each of the ten UTF-8 tests that is passed: two
    tests per string function ask for a letter that is not in their input.  So the
    55 tests for full credit are reached only by passing every UTF-8 test, which
    the program calls extra credit. *)
Theorem full_credit arrays chars :
  length arrays = 5%nat → length chars = 5%nat →
  (∀ f, f ∈ arrays → reverses_array f) → (∀ f, f ∈ chars → reverses_string f) →
  ∃ s, main_all arrays chars = Ok s ∧ tests_run s = 65 ∧
    tests_correct s = 45 + total chars unicode_tests ∧ tests_incorrect s = 20 - total chars unicode_tests ∧
    (55 ≤ tests_correct s ↔ ∀ f t, f ∈ chars → t ∈ unicode_tests → passes f t).
Proof.
  intros La Lc Ha Hc. unfold main_all. destruct (run_arrays_ok arrays 1 init_stats Ha) as (s1 & -> & H1 & H2 & H3).
  cbn [mbind res_bind]. destruct (run_chars_ok chars 1 s1) as (H4 & H5 & H6). destruct (total_split chars Hc) as [Ht Hb].
  rewrite La, Lc, Ht in *. eexists. split; [done|]. unfold print_summary_stats, printf. cbn [tests_run tests_correct tests_incorrect].
  cbn in H1, H2, H3. split_and!; [lia..|]. rewrite H5.
  assert (∀ fs, (2 * Z.of_nat (length fs) ≤ total fs unicode_tests) ↔ ∀ f t, f ∈ fs → t ∈ unicode_tests → passes f t) as Hall.
  { induction fs as [|f fs IH]; [split; [intros _ f t ?%elem_of_nil; done|done]|]. cbn [length].
    assert (total (f :: fs) unicode_tests = score f unicode_tests + total fs unicode_tests) as -> by done.
    pose proof (unicode_score f) as Hf. assert (total fs unicode_tests ≤ 2 * Z.of_nat (length fs)) as Hfs.
    { clear. induction fs as [|g fs IH]; [done|]. cbn [length]. pose proof (unicode_score g).
      assert (total (g :: fs) unicode_tests = score g unicode_tests + total fs unicode_tests) as -> by done. lia. }
    assert (2 ≤ score f unicode_tests ↔ ∀ t, t ∈ unicode_tests → passes f t) as Hsc.
    { split.
      - unfold score. intros Hlen t Ht'. destruct (decide (passes f t)); [done|exfalso].
        assert (length (filter (passes f) unicode_tests) < 2)%nat by (by apply (length_filter_lt (passes f) unicode_tests t)).
        lia.
      - intros Hp. rewrite (score_all f unicode_tests Hp). done. }
    split.
    - intros Hlt g t [-> |Hg]%elem_of_cons Ht'; [apply Hsc; [lia|done]|]. apply IH; [lia|done|done].
    - intros Hp. assert (2 ≤ score f unicode_tests) by (apply Hsc; intros t ?; apply Hp; [left|done]).
      assert (2 * Z.of_nat (length fs) ≤ total fs unicode_tests); [|lia]. apply IH. intros g t ? ?. apply Hp; [by right|done]. }
  rewrite <- Hall, Lc. lia.
Qed.

(** Functions that reverse bytes pass none of the UTF-8 tests. *)
Definition reverse_strings (l : strings) (n : Z) : strings := reverse (take (Z.to_nat n) l) ++ drop (Z.to_nat n) l.
Definition reverse_bytes (l : bytes) (n : Z) : bytes := reverse (take (Z.to_nat n) l) ++ drop (Z.to_nat n) l.

Lemma reverse_bytes_ok : reverses_string reverse_bytes.
Proof.
  intros s n Ha Hn. unfold reverse_bytes. rewrite take_app_le, drop_app_le by lia. rewrite app_assoc.
  apply upto_app. rewrite elem_of_app, elem_of_reverse. intros [H|H].
  - assert (0 ∈ s) as H0 by (rewrite <- (take_drop (Z.to_nat n) s); apply elem_of_app; by left). specialize (Ha 0 H0). lia.
  - assert (0 ∈ s) as H0 by (rewrite <- (take_drop (Z.to_nat n) s); apply elem_of_app; by right). specialize (Ha 0 H0). lia.
Qed.

Lemma full_credit_witness :
  ∃ s, main_all (replicate 5 reverse_strings) (replicate 5 reverse_bytes) = Ok s ∧ tests_run s = 65 ∧
    tests_correct s = 45 ∧ tests_incorrect s = 20.
Proof.
  destruct (full_credit (replicate 5 reverse_strings) (replicate 5 reverse_bytes)) as (s & E & H1 & H2 & H3 & _);
    [done|done|intros f Hf; apply elem_of_replicate in Hf as [-> _]; by intros l n Hn|
     intros f Hf; apply elem_of_replicate in Hf as [-> _]; apply reverse_bytes_ok|].
  exists s. split_and!; [exact E|exact H1| |].
  - rewrite H2. by vm_compute.
  - rewrite H3. by vm_compute.
Defined.

(** The handout, whose function does nothing, passes the test that compares an array
    with itself, and no other. *)
Theorem handout_score : ∃ s, main = Ok s ∧ tests_run s = 5 ∧ tests_correct s = 1.
Proof. eexists. split; [vm_compute; reflexivity|done]. Qed.

(** [safe_strncpy] always terminates what it copies, and never stores more than
    [size] bytes. *)
Theorem safe_strncpy_spec dest src size :
  0 ∉ src → 0 < size ≤ Z.of_nat (length dest) →
  ∃ d, safe_strncpy dest src size = Ok d ∧ length d = length dest ∧ upto 0 d = take (Z.to_nat (size - 1)) src ∧
    drop (Z.to_nat size) d = drop (Z.to_nat size) dest.
Proof.
  intros Hsrc Hs. unfold safe_strncpy. destruct (Z.ltb_spec 0 size); [|lia].
  set (t := take (Z.to_nat (size - 1)) src ++ [0]).
  assert (length t ≤ Z.to_nat size)%nat as Hl by (unfold t; rewrite length_app, length_take; cbn; lia).
  rewrite decide_True by lia. eexists. split; [done|]. split_and!.
  - rewrite length_app, length_drop. lia.
  - unfold t. rewrite <- app_assoc. apply upto_app. intros H0. apply Hsrc.
    rewrite <- (take_drop (Z.to_nat (size - 1)) src). apply elem_of_app. by left.
  - rewrite drop_app_ge by lia. rewrite drop_drop. f_equal. lia.
Qed.
