(* ===== verification/ArenaTest.v ===== *)
(** * The tests of the arena

    Models src/assignments/a3/arenas/arena_tests.c, which a student runs on an arena
    of their own.  The functions under test are an interface ([ArenaLib]), with the
    handout, a solution and solutions with one mistake as instances; the theorems say
    which of them the tests accept.

    Standard output is a buffer that the test shares with the process it forks: a
    full buffer (a file or a pipe) holds everything until the program ends, a line
    buffer (a terminal) the characters after the last newline.  The program's
    output is shorter than a full buffer. *)
From stdpp Require Import base tactics numbers list gmap.
From Stdlib Require Import ZArith Lia.
From S2P Require Import Prelude CText Mem Alloc Blocks.

(** ** The functions under test *)

(** They act on the heap and on a state of their own, such as that of malloc. *)
Class ArenaLib (X : Type) := {
  init : heap * X → Arena → Z → res (outcome (heap * X * Arena));
  alloc : heap * X → Arena → Z → res (outcome (heap * X * (Arena * Z)));
  reset : heap * X → Arena → res (outcome (heap * X * Arena));
  free : heap * X → Arena → res (outcome (heap * X * Arena))
}.

(** What is outside of the program: whether fork succeeds, how standard output is
    buffered, how %p prints a pointer, and what the uninitialised structure of each
    test holds. *)
Record env := Env { fork_ok : bool; full_buffer : bool; show_ptr : Z → bytes; garbage : Z → Arena }.

Section definitions.
Context {X : Type} `{ArenaLib X} (e : env).

(** @src assignments/a3/arenas/arena_tests.c 17-20 tests_run
    The counters, with the heap, standard output (what has been sent and what is
    buffered) and standard error. *)
Record tester := Tester {
  hp : heap * X;
  tests_run : Z; tests_correct : Z; tests_incorrect : Z;
  sent : bytes; buffered : bytes; stderr : bytes
}.

(** A call returns or ends the process with a status. *)
Definition M (A : Type) : Type := tester → res (tester * (A + Z)).
#[local] Instance M_ret : MRet M := λ A a s, Ok (s, inl a).
#[local] Instance M_bind : MBind M := λ A B k m s,
  '(s, r) ← m s; match r with inl a => k a s | inr status => Ok (s, inr status) end.

(** Up to the last newline, and what follows it. *)
Fixpoint line_split (b : bytes) : bytes * bytes :=
  match b with
  | [] => ([], [])
  | c :: b => let '(x, y) := line_split b in
              if bool_decide (x = []) then (if c =? NEWLINE then ([c], y) else ([], c :: y)) else (c :: x, y)
  end.

Definition printf (t : bytes) : M unit := λ s,
  let '(now, later) := if full_buffer e then ([], buffered s ++ t) else line_split (buffered s ++ t) in
  Ok (Tester (hp s) (tests_run s) (tests_correct s) (tests_incorrect s) (sent s ++ now) later (stderr s), inl tt).

(** [exit] writes out the buffer, [_exit] does not. *)
Definition exit_ {A} (status : Z) (message : bytes) : M A := λ s,
  Ok (Tester (hp s) (tests_run s) (tests_correct s) (tests_incorrect s) (sent s ++ buffered s) [] (stderr s ++ message),
      inr status).
Definition _exit {A} (status : Z) : M A := λ s, Ok (s, inr status).

(** A call of a function under test. *)
Definition call {A} (f : heap * X → res (outcome (heap * X * A))) : M A := λ s,
  o ← f (hp s);
  match o with
  | Exits status message => exit_ status message s
  | Returns (h, a) =>
      Ok (Tester h (tests_run s) (tests_correct s) (tests_incorrect s) (sent s) (buffered s) (stderr s), inl a)
  end.

Definition count (correct incorrect : Z) : M unit := λ s,
  Ok (Tester (hp s) (tests_run s + 1) (tests_correct s + correct) (tests_incorrect s + incorrect) (sent s) (buffered s)
        (stderr s), inl tt).
Definition run : M Z := λ s, Ok (s, inl (tests_run s)).
Definition incorrect : M Z := λ s, Ok (s, inl (tests_incorrect s)).
Definition correct : M Z := λ s, Ok (s, inl (tests_correct s)).

(** @src assignments/a3/arenas/arena_tests.c 22-25 GREEN *)
Definition GREEN : bytes := 27 :: str "[0;32m".
Definition RED : bytes := 27 :: str "[0;31m".
Definition RESET : bytes := 27 :: str "[0m".

(** @src assignments/a3/arenas/arena_tests.c 30-33 pass *)
Definition pass (name : bytes) : M unit :=
  count 1 0 ;; n ← run;
  printf (GREEN ++ str "[PASSED " ++ show_int n ++ str "] " ++ name ++ [NEWLINE] ++ RESET).

(** @src assignments/a3/arenas/arena_tests.c 35-40 fail
    [text] is the formatted message. *)
Definition fail (name text : bytes) : M unit :=
  count 0 1 ;; n ← run;
  printf (RED ++ str "[FAILED " ++ show_int n ++ str "] " ++ name ++ str ": ") ;;
  printf text ;; printf ([NEWLINE] ++ RESET).

(** @src assignments/a3/arenas/arena_tests.c 46-47 ASSERT_TRUE *)
Definition ASSERT_TRUE (name : bytes) (cond : bool) (text : bytes) : M unit :=
  if cond then pass name else fail name text.

(** @src assignments/a3/arenas/arena_tests.c 49-50 ASSERT_EQ_SIZE *)
Definition ASSERT_EQ_SIZE (name : bytes) (a b : Z) : M unit :=
  ASSERT_TRUE name (a =? b) (str "expected " ++ show_digits 20 a ++ str " == " ++ show_digits 20 b).

(** @src assignments/a3/arenas/arena_tests.c 52-53 ASSERT_NONNULL *)
Definition ASSERT_NONNULL (name : bytes) (p : Z) : M unit :=
  ASSERT_TRUE name (negb (p =? 0)) (str "expected non-NULL pointer").

(** @src assignments/a3/arenas/arena_tests.c 55-58 ASSERT_ALIGNED *)
Definition ASSERT_ALIGNED (name : bytes) (p align : Z) : M unit :=
  ASSERT_TRUE name (p mod align =? 0)
    (str "pointer " ++ show_ptr e p ++ str " not aligned to " ++ show_digits 20 align ++ str " (mod=" ++
     show_digits 20 (p mod align) ++ str ")").

(** @src assignments/a3/arenas/arena_tests.c 60-61 ASSERT_MEM_EQ
    [gold] is the contents of the second block. *)
Definition ASSERT_MEM_EQ (name : bytes) (a : Z) (gold : bytes) : M unit := λ s,
  same ← memcmp_at (hp s).1 a gold;
  ASSERT_TRUE name same (str "memory mismatch over " ++ show_digits 20 (Z.of_nat (length gold)) ++ str " bytes") s.

(** @src assignments/a3/arenas/arena_tests.c 66-77 test_init_and_free *)
Definition test_init_and_free : M unit :=
  a ← call (λ h, init h (garbage e 1) 1024);
  ASSERT_NONNULL (str "arena_init: buff non-null") (buff a) ;;
  ASSERT_EQ_SIZE (str "arena_init: size set") (size a) 1024 ;;
  ASSERT_EQ_SIZE (str "arena_init: offset zero") (offset a) 0 ;;
  a ← call (λ h, free h a);
  ASSERT_TRUE (str "arena_free: buff NULL") (buff a =? 0) (str "buff should be NULL") ;;
  ASSERT_EQ_SIZE (str "arena_free: size zero") (size a) 0 ;;
  ASSERT_EQ_SIZE (str "arena_free: offset zero") (offset a) 0.

(** The stores of a loop into an array of ints. *)
Fixpoint store_ints (a : Z) (v : Z → Z) (idxs : list Z) (h : heap) : res heap :=
  match idxs with
  | [] => Ok h
  | i :: idxs => h ← store_at 4 h (a + 4 * i) (v i); store_ints a v idxs h
  end.

(** @src assignments/a3/arenas/arena_tests.c 86-87 test_basic_alloc_and_write
    The bytes of the local array. *)
Definition gold : bytes :=
  block_bytes (foldl (λ m i, stn 4 m (4 * i) (i * 7)) ∅ (iota 0 10)) 0 40.

(** @src assignments/a3/arenas/arena_tests.c 79-91 test_basic_alloc_and_write *)
Definition test_basic_alloc_and_write : M unit :=
  a ← call (λ h, init h (garbage e 2) 1024);
  '(a, ints) ← call (λ h, alloc h a (10 * 4));
  ASSERT_NONNULL (str "arena_init: non-null") ints ;;
  call (λ '(h, x), h ← store_ints ints (λ i, i * 7) (iota 0 10) h; Ok (Returns (h, x, tt))) ;;
  ASSERT_MEM_EQ (str "write/read ints") ints gold ;;
  _ ← call (λ h, free h a); mret tt.

(** @src assignments/a3/arenas/arena_tests.c 93-111 test_alignment
    [A] is alignof(max_align_t). *)
Definition test_alignment : M unit :=
  a ← call (λ h, init h (garbage e 3) 256);
  let A := 16 in
  '(a, p1) ← call (λ h, alloc h a 1);
  ASSERT_NONNULL (str "arena alignment: p1") p1 ;;
  ASSERT_ALIGNED (str "arena alignment: p1 aligned") p1 A ;;
  '(a, p2) ← call (λ h, alloc h a 3);
  ASSERT_NONNULL (str "arena alignment: p2") p2 ;;
  ASSERT_ALIGNED (str "arena alignment: p2 aligned") p2 A ;;
  ASSERT_TRUE (str "arena alignment: monotonic bump") (p2 >? p1) (str "expected p2 > p1") ;;
  _ ← call (λ h, free h a); mret tt.

(** @src assignments/a3/arenas/arena_tests.c 113-131 test_reset_reuse *)
Definition test_reset_reuse : M unit :=
  a ← call (λ h, init h (garbage e 4) 128);
  '(a, p1) ← call (λ h, alloc h a 24);
  ASSERT_NONNULL (str "reset: pointer 1 (p1) non-null") p1 ;;
  let first_off := offset a in
  a ← call (λ h, reset h a);
  ASSERT_EQ_SIZE (str "reset: offset zero") (offset a) 0 ;;
  '(a, p2) ← call (λ h, alloc h a 24);
  ASSERT_NONNULL (str "reset: pointer 1 (p2) non-null") p2 ;;
  ASSERT_TRUE (str "reset: buffer start reused") (p2 =? p1)
    (str "expected p2 (" ++ show_ptr e p2 ++ str ") == p1 (" ++ show_ptr e p1 ++ str ")") ;;
  ASSERT_EQ_SIZE (str "reset: same bump") (offset a) first_off ;;
  _ ← call (λ h, free h a); mret tt.

(** @src assignments/a3/arenas/arena_tests.c 144-149 test_exact_fit_and_overflow
    fork and waitpid, and the status word: what the child writes it writes to the
    same files, everything else it does is its own.  When fork fails, so does
    waitpid, and the word stays 0. *)
Definition child_status (child : M unit) : M Z := λ s,
  if fork_ok e then
    '(s', r) ← child s;
    Ok (Tester (hp s) (tests_run s) (tests_correct s) (tests_incorrect s) (sent s') (buffered s) (stderr s'),
        inl (match r with inr status => u8 status * 256 | inl _ => 0 end))
  else Ok (s, inl 0).
Definition WIFEXITED (st : Z) : bool := Z.land st 0x7f =? 0.
Definition WEXITSTATUS (st : Z) : Z := Z.shiftr (Z.land st 0xff00) 8.
Definition WIFSIGNALED (st : Z) : bool := Z.shiftr (i8 (Z.land st 0x7f + 1)) 1 >? 0.

(** @src assignments/a3/arenas/arena_tests.c 133-156 test_exact_fit_and_overflow *)
Definition test_exact_fit_and_overflow : M unit :=
  a ← call (λ h, init h (garbage e 5) 64);
  '(a, p1) ← call (λ h, alloc h a 32);
  ASSERT_NONNULL (str "arena_alloc: exact-fit p1 32 bytes, arena is 64 bytes") p1 ;;
  '(a, p2) ← call (λ h, alloc h a 32);
  ASSERT_NONNULL (str "arena_alloc: exact-fit p2 32 bytes, arena is 64 bytes") p2 ;;
  ASSERT_EQ_SIZE (str "arena: does offset==size") (offset a) (size a) ;;
  st ← child_status (_ ← call (λ h, alloc h a 1); _exit 0);
  ASSERT_TRUE (str "overflow: fork did child process exit non-zero")
    (WIFEXITED st && negb (WEXITSTATUS st =? 0) || WIFSIGNALED st)
    (str "expected non-zero or signal; status=" ++ show_int st) ;;
  _ ← call (λ h, free h a); mret tt.

(** @src assignments/a3/arenas/arena_tests.c 161-169 print_summary *)
Definition print_summary : M unit :=
  r ← run; c ← correct; i ← incorrect;
  printf ([NEWLINE] ++ str "Ran " ++ show_int r ++ str " tests: " ++ show_int c ++ str " passed, " ++ show_int i ++
    str " failed" ++ [NEWLINE]) ;;
  if i =? 0 then printf (GREEN ++ str "All tests passed." ++ [NEWLINE] ++ RESET)
  else printf (RED ++ str "Some tests failed." ++ [NEWLINE] ++ RESET).

(** @src assignments/a3/arenas/arena_tests.c 171-180 main
    Returning from main is a call of [exit]. *)
Definition main : M unit :=
  printf (str "Running arena tests (Linux)..." ++ [NEWLINE]) ;;
  test_init_and_free ;;
  test_basic_alloc_and_write ;;
  test_alignment ;;
  test_reset_reuse ;;
  test_exact_fit_and_overflow ;;
  print_summary ;;
  i ← incorrect;
  exit_ (if i =? 0 then 0 else 1) [].

Definition start (h : heap * X) : tester := Tester h 0 0 0 [] [] [].
End definitions.
Arguments Tester {X}.
Arguments hp {X}.
Arguments tests_run {X}.
Arguments tests_correct {X}.
Arguments tests_incorrect {X}.
Arguments sent {X}.
Arguments buffered {X}.
Arguments stderr {X}.

(** ** Reasoning about the tests *)

Section wp.
Context {X : Type} `{ArenaLib X} (e : env).
Abbreviation tester := (tester (X:=X)).
Abbreviation M := (M (X:=X)).
Implicit Types (s : tester) (L : gmap Z Z).

Definition wp {A} (m : M A) (Q : A → tester → Prop) (E : Z → tester → Prop) s : Prop :=
  match m s with Ok (s', inl a) => Q a s' | Ok (s', inr status) => E status s' | Err _ => False end.

(** The live blocks, how many tests have been run and how many have failed. *)
Definition at_count L (r i : Z) s : Prop :=
  live (hp s).1 = L ∧ tests_run s = r ∧ tests_correct s = r - i ∧ tests_incorrect s = i.

Lemma wpt_bind {A B} (m : M A) (k : A → M B) Q E s :
  wp m (λ a s', wp (k a) Q E s') E s → wp (M_bind A B k m) Q E s.
Proof. unfold wp, M_bind. destruct (m s) as [[s' [a|z]]|]; done. Qed.

Lemma wpt_mono {A} (m : M A) (Q Q' : A → tester → Prop) (E E' : Z → tester → Prop) s :
  wp m Q E s → (∀ a s', Q a s' → Q' a s') → (∀ z s', E z s' → E' z s') → wp m Q' E' s.
Proof. unfold wp. destruct (m s) as [[s' [a|z]]|]; auto. Qed.

Lemma wp_printf t Q E s L r i :
  at_count L r i s → (∀ s', at_count L r i s' → hp s' = hp s → Q tt s') → wp (printf e t) Q E s.
Proof. intros Hs HQ. unfold wp, printf. destruct (if full_buffer e then ([], _) else _). by apply HQ. Qed.

Lemma wp_assert name (cond : bool) text Q E s L r i :
  at_count L r i s →
  (∀ s', at_count L (r + 1) (i + if cond then 0 else 1) s' → hp s' = hp s → Q tt s') →
  wp (ASSERT_TRUE e name cond text) Q E s.
Proof.
  intros (H1 & H2 & H3 & H4) HQ. unfold ASSERT_TRUE. destruct cond.
  - unfold pass. apply wpt_bind. unfold wp at 1. cbn. apply wpt_bind. unfold wp at 1. cbn.
    eapply (wp_printf _ _ _ _ L (r + 1) (i + 0)); [by split_and!; cbn; [done|lia..]|]. exact HQ.
  - unfold fail. apply wpt_bind. unfold wp at 1. cbn. apply wpt_bind. unfold wp at 1. cbn.
    apply wpt_bind. eapply (wp_printf _ _ _ _ L (r + 1) (i + 1)); [by split_and!; cbn; [done|lia..]|]. intros s1 Hs1 E1.
    apply wpt_bind. eapply wp_printf; [done|]. intros s2 Hs2 E2.
    eapply wp_printf; [done|]. intros s3 Hs3 E3. apply HQ; [done|]. by rewrite E3, E2, E1.
Qed.

End wp.

(** ** Implementations *)

(** A block that malloc may give: aligned, and not in use. *)
Definition next_block (h : heap) : Z :=
  16 * Z.succ (foldr (λ '(p, _) m, Z.max p m) 0 (map_to_list (live h))).

Lemma next_block_fresh h : 0 < next_block h ∧ next_block h mod 16 = 0 ∧ live h !! next_block h = None.
Proof.
  assert (∀ l : list (Z * Z), 0 ≤ foldr (λ '(p, _) m, Z.max p m) 0 l ∧
    ∀ p sz, (p, sz) ∈ l → p ≤ foldr (λ '(p, _) m, Z.max p m) 0 l) as Hmax.
  { induction l as [|[q n] l [IH1 IH2]]; cbn; [split; [lia|by intros ?? ?%elem_of_nil]|]. split; [lia|].
    intros p sz [[= -> ->]|Hp]%elem_of_cons; [lia|]. specialize (IH2 _ _ Hp). lia. }
  destruct (Hmax (map_to_list (live h))) as [H1 H2]. unfold next_block. split_and!; [lia| |].
  - rewrite Z.mul_comm. by apply Z.mod_mul.
  - apply eq_None_not_Some. intros [sz Hsz]. apply elem_of_map_to_list, H2 in Hsz. lia.
Qed.

(** What a student may get wrong.  [FreeLeaks] empties the structure but does not
    return the buffer. *)
Inductive mistake :=
| InitNoBuffer | InitNoSize | InitNoOffset
| AllocNull | AllocUnaligned | AllocNoBump | AllocNoCheck | ResetNothing
| FreeNothing | FreeKeepsSize | FreeKeepsOffset | FreeLeaks.
#[export] Instance mistake_eq_dec : EqDecision mistake.
Proof. solve_decision. Defined.

(** The handout with its gaps filled, but for one mistake at most: the size check and
    the rounding are those of [Alloc], the rest is what the comments of arena.c ask
    for. *)
#[local] Instance arena_with (m : option mistake) : ArenaLib unit :=
  let has x := bool_decide (m = Some x) in {|
  init '(h, x) a sz :=
    let b := next_block h in
    Ok (Returns (allocate b sz h, x,
      MkArena (if has InitNoBuffer then 0 else b) (if has InitNoSize then size a else sz)
              (if has InitNoOffset then offset a else 0)));
  alloc '(h, x) a n := Ok
    match arena_alloc a n with
    | Exits status message =>
        if has AllocNoCheck then Returns (h, x, (a, buff a + offset a)) else Exits status message
    | Returns (a, _) =>
        let aligned := if has AllocUnaligned then n else Z.land (u64 (n + 31)) (u64 (Z.lnot 31)) in
        Returns (h, x, (if has AllocNoBump then a else MkArena (buff a) (size a) (u64 (offset a + aligned)),
                        if has AllocNull then 0 else buff a + offset a))
    end;
  reset '(h, x) a := Ok (Returns (h, x, if has ResetNothing then a else MkArena (buff a) (size a) 0));
  free '(h, x) a := Ok (Returns
    (if has FreeNothing || has FreeLeaks then h else Heap (cells h) (delete (buff a) (live h)), x,
     if has FreeNothing then a
     else MkArena 0 (if has FreeKeepsSize then size a else 0) (if has FreeKeepsOffset then offset a else 0)))
|}.

(** The handout; the flag says whether malloc(0) returns NULL. *)
#[export] Instance heap_malloc : CHeap (heap * bool) := {|
  c_malloc '(h, null) sz := if null : bool then ((h, null), 0) else ((allocate (next_block h) sz h, null), next_block h);
  c_free '(h, null) p := (Heap (cells h) (delete p (live h)), null)
|}.
#[export] Instance handout : ArenaLib bool := {|
  init h a sz := Ok (arena_init h a sz);
  alloc h a n := Ok
    match arena_alloc a n with
    | Exits status message => Exits status message
    | Returns (a, p) => Returns (h, (a, p))
    end;
  reset h a := Ok (Returns (h, a));
  free h a := Ok (Returns (h, a))
|}.

Section handout.
Context (e : env).

(** No block is at NULL. *)
Definition blocks_positive (h : heap) : Prop := ∀ p sz, live h !! p = Some sz → 0 < p.

Definition sane (s : tester (X:=bool)) : Prop :=
  blocks_positive (hp s).1 ∧ tests_correct s = tests_run s - tests_incorrect s.

(** Code that goes on, or ends the program with status 1. *)
Definition goes_on {A} (m : M (X:=bool) A) : Prop :=
  ∀ s, sane s → wp m (λ _, sane) (λ z _, z = 1) s.

Lemma goes_on_bind {A B} (m : M A) (k : A → M B) :
  goes_on m → (∀ a, goes_on (k a)) → goes_on (M_bind A B k m).
Proof. intros Hm Hk s Hs. apply wpt_bind. eapply wpt_mono; [by apply Hm| |done]. intros a s'. apply Hk. Qed.

Lemma sane_count s : sane s → at_count (live (hp s).1) (tests_run s) (tests_incorrect s) s.
Proof. intros [_ H]. by split_and!. Qed.

Lemma at_count_sane s L r i s' : sane s → at_count L r i s' → hp s' = hp s → sane s'.
Proof. intros [Hs _] (_ & H2 & H3 & H4) E. split; [by rewrite E|lia]. Qed.

Lemma goes_on_assert name (cond : bool) text : goes_on (ASSERT_TRUE e name cond text).
Proof. intros s Hs. eapply wp_assert; [by apply sane_count|]. intros s' Hs' E. by eapply at_count_sane. Qed.

Lemma goes_on_printf t : goes_on (printf e t).
Proof. intros s Hs. eapply wp_printf; [by apply sane_count|]. intros s' Hs' E. by eapply at_count_sane. Qed.

Lemma goes_on_init a sz : goes_on (call (λ h, init h a sz)).
Proof.
  intros s [Hs Hc]. unfold wp, call. cbn [init handout]. unfold arena_init.
  destruct (c_malloc (hp s) 0) as [h p] eqn:E. cbn [mbind res_bind].
  destruct (p =? 0); [by cbn|]. split; [|done]. cbn [hp]. destruct (hp s) as [h0 [|]] eqn:Eh; cbn in E;
    injection E as <- <-; [done|].
  intros q n. unfold allocate. destruct (next_block_fresh h0) as [Hn _].
  destruct (Z.eqb_spec (next_block h0) 0); [lia|]. cbn [fst live].
  destruct (decide (next_block h0 = q)) as [<-|]; [lia|]. rewrite lookup_insert_ne by done. apply Hs.
Qed.

Lemma goes_on_free a : goes_on (call (λ h, free h a)).
Proof. intros s Hs. exact Hs. Qed.

(** Code that ends the program with status 1 or is undefined. *)
Definition fails {A} (m : M (X:=bool) A) : Prop :=
  ∀ s, sane s → m s = Err UB ∨ ∃ s', m s = Ok (s', inr 1).

Lemma goes_on_fails {A B} (m : M A) (k : A → M B) :
  goes_on m → (∀ a, fails (k a)) → fails (M_bind A B k m).
Proof.
  intros Hm Hk s Hs. specialize (Hm s Hs). unfold wp, M_bind in *.
  destruct (m s) as [[s' [a|z]]|]; [by apply Hk|subst z; right; by eexists|done].
Qed.

Lemma fails_bind {A B} (m : M A) (k : A → M B) : fails m → fails (M_bind A B k m).
Proof.
  intros Hm s Hs. unfold M_bind. destruct (Hm s Hs) as [->|[s' ->]]; [by left|right; by eexists].
Qed.

Lemma fails_alloc {B} a n (k : Arena * Z → M B) :
  fails (k (a, 0)) → fails (M_bind _ _ k (call (λ h, alloc h a n))).
Proof.
  intros Hk s Hs. unfold M_bind, call. cbn [alloc handout]. unfold arena_alloc.
  destruct (_ >? _); [right; by eexists|]. destruct s. by apply Hk.
Qed.

(** The second test stores through the NULL that [arena_alloc] returns. *)
Lemma handout_basic : fails (test_basic_alloc_and_write e).
Proof.
  unfold test_basic_alloc_and_write. apply goes_on_fails; [apply goes_on_init|]. intros a.
  apply fails_alloc, goes_on_fails; [apply goes_on_assert|]. intros _. apply fails_bind.
  intros s [Hs _]. left. unfold call. destruct (hp s) as [h x]. cbn [fst] in Hs.
  change (iota 0 10) with (0 :: iota 1 9). cbn [store_ints]. unfold store_at.
  change (accessible h (0 + 4 * 0) (Z.of_nat 4)) with (accessible h 0 4). by rewrite (accessible_null h 4 Hs).
Qed.

Lemma handout_init_and_free : goes_on (test_init_and_free e).
Proof.
  unfold test_init_and_free. apply goes_on_bind; [apply goes_on_init|]. intros a.
  do 3 (apply goes_on_bind; [apply goes_on_assert|intros _]). apply goes_on_bind; [apply goes_on_free|]. intros b.
  do 2 (apply goes_on_bind; [apply goes_on_assert|intros _]). apply goes_on_assert.
Qed.
End handout.

(** ** Theorems *)

Definition ex_env (full : bool) : env := Env true full show_int (λ i, MkArena i i i).

Definition accepted {X} (r : res (tester (X:=X) * (unit + Z))) : bool :=
  match r with Ok (_, inr 0) => true | _ => false end.

(** Which mistakes the tests catch: the arena without a mistake passes, and so do two
    with one, because the only arena whose offset is looked at after arena_free has
    offset 0 before it, and nothing looks at the heap. *)
Theorem tests_catch_mistakes m full :
  accepted (main (H:=arena_with m) (ex_env full) (start (Heap ∅ ∅, tt))) =
  bool_decide (m ∈ [None; Some FreeKeepsOffset; Some FreeLeaks]).
Proof. destruct m as [[]|], full; by vm_compute. Qed.

(** The handout does not pass: whatever the uninitialised structures hold, the tests
    end with status 1 or store through NULL. *)
Theorem handout_fails (e : env) (h : heap) (null : bool) :
  blocks_positive h →
  main e (start (h, null)) = Err UB ∨ ∃ s, main e (start (h, null)) = Ok (s, inr 1).
Proof.
  intros Hh. assert (fails (main (X:=bool) e)) as Hf; [|by apply Hf].
  unfold main. apply goes_on_fails; [apply goes_on_printf|]. intros _.
  apply goes_on_fails; [apply handout_init_and_free|]. intros _. apply fails_bind, handout_basic.
Qed.

(** What a run on a terminal and one into a file write, cut at the fork. *)
Section cut.
Context {X : Type}.
Implicit Types (r : res (tester (X:=X) * (unit + Z))).

Definition same_until_fork r r' (n : nat) : bool :=
  match r, r' with
  | Ok (s, inr 0), Ok (s', inr 0) =>
      let before := take n (sent s) in
      let after := drop (n + 8) (sent s) in
      bool_decide (sent s = before ++ RESET ++ RESET ++ after) &&
      bool_decide (sent s' = before ++ RESET ++ before ++ RESET ++ after) && negb (bool_decide (before = []))
  | _, _ => false
  end.

Lemma same_until_fork_spec r r' n : same_until_fork r r' n = true →
  ∃ s s' before after, r = Ok (s, inr 0) ∧ sent s = before ++ RESET ++ RESET ++ after ∧
    r' = Ok (s', inr 0) ∧ sent s' = before ++ RESET ++ before ++ RESET ++ after ∧ before ≠ [].
Proof.
  unfold same_until_fork. destruct r as [[s [[]|[| |]]]|]; try done. destruct r' as [[s' [[]|[| |]]]|]; try done.
  cbn zeta. intros [[H1%bool_decide_eq_true H2%bool_decide_eq_true]%andb_prop H3]%andb_prop.
  exists s, s', (take n (sent s)), (drop (n + 8) (sent s)). split_and!; [done|exact H1|done|exact H2|].
  intros E. by rewrite E in H3.
Qed.
End cut.

(** The child that the overflow test forks has a copy of the buffer, which the exit
    in [arena_alloc] writes out: on a terminal that is only the escape sequence
    after the last newline, but in a file everything written before the fork is
    there twice. *)
Theorem fork_duplicates_output :
  ∃ s s' before after,
    main (H:=arena_with None) (ex_env false) (start (Heap ∅ ∅, tt)) = Ok (s, inr 0) ∧ sent s = before ++ RESET ++ RESET ++ after ∧
    main (H:=arena_with None) (ex_env true) (start (Heap ∅ ∅, tt)) = Ok (s', inr 0) ∧
    sent s' = before ++ RESET ++ before ++ RESET ++ after ∧ before ≠ [].
Proof. apply (same_until_fork_spec _ _ (Z.to_nat 1063)). by vm_compute. Qed.
