(* ===== verification/ListTest.v ===== *)
(** * The tests of the linked list exercise

    Models modules/m2/double_link/linked_list/linked_list_test.c.  The functions
    under test are an interface ([ListLib]), on the heap of [LinkedList]; the
    instance [repaired] has the handout's functions, or, where a flag says so, a
    repaired one, and the theorem says which repairs the tests ask for.

    A block of characters or an integer is a block of bytes; string literals and
    local variables are blocks at addresses that are arguments. *)
From Stdlib Require Import ZArith Lia.
From stdpp Require Import base tactics numbers list gmap option.
From S2P Require Import Prelude CText LinkedList.

(** The functions under test: the new heap, the new head of the list and the result. *)
Class ListLib := {
  length_list : heap → Z → res Z;
  get_first : heap → Z → res Z;
  get_last : heap → Z → res Z;
  insert_first : heap → Z → Z → Z → res (heap * Z);
  insert_last : heap → Z → Z → Z → res (heap * Z);
  get : heap → Z → Z → res Z;
  remove_element : heap → Z → Z → Z → res (heap * Z * Z);
  reverse : heap → Z → res (heap * Z);
  remove_first : heap → Z → res (heap * Z * Z);
  remove_last : heap → Z → res (heap * Z * Z)
}.

(** ** Blocks *)

Definition set_block (h : heap) (p : Z) (l : bytes) : heap := Heap (nodes h) (<[p := l]> (blocks h)).

(** The string at [p], and strcmp(...) == 0. *)
Definition c_str (h : heap) (p : Z) : res bytes :=
  l ← of_option UB (blocks h !! p); if bool_decide (0 ∈ l) then Ok (upto 0 l) else Err UB.
Definition same_string (h : heap) (p q : Z) : res bool := s ← c_str h p; t ← c_str h q; Ok (bool_decide (s = t)).
Definition is_string (h : heap) (p : Z) (t : bytes) : res bool := s ← c_str h p; Ok (bool_decide (s = t)).

(** Little-endian integers of [n] bytes. *)
Definition int_bytes (n : nat) (v : Z) : bytes := (λ i, v / 256 ^ i mod 256) <$> iota 0 n.
Definition int_at (n : nat) (h : heap) (p : Z) : res Z :=
  l ← of_option UB (blocks h !! p);
  if decide (n ≤ length l)%nat then Ok (foldr (λ b v, b + 256 * v) 0 (take n l)) else Err UB.

(** A pointer is tested for NULL. *)
Definition is_null (p : Z) : bool := p =? NULL.

Section test.
Context `{Malloc} `{ListLib} (lit : bytes → Z) (a_el a_two : Z).

(** malloc of a block and memcpy of [l] into it. *)
Definition malloc_bytes (h : heap) (l : bytes) : res (heap * Z) :=
  match malloc h (Z.of_nat (length l)) with Some p => Ok (set_block h p l, p) | None => Err UB end.

(** A node with a block of its own for its data (lines 11-15 and others). *)
Definition node_of (h : heap) (l : bytes) : res (heap * Z) :=
  let '(h, n) := malloc_node h in
  '(h, d) ← malloc_bytes h l;
  h ← set_data h n d;
  Ok (h, n).

(** @src modules/m2/double_link/linked_list/linked_list_test.c 24-41 test_student_implementation *)
Definition four_list (h : heap) : res (heap * Z * Z * Z * Z) :=
  let '(h, fl1) := malloc_node h in h ← set_data h fl1 (lit (str "hello"));
  let '(h, fl2) := malloc_node h in h ← set_data h fl2 (lit (str "world"));
  let '(h, fl3) := malloc_node h in h ← set_data h fl3 (lit (str "how"));
  let '(h, fl4) := malloc_node h in h ← set_data h fl4 (lit (str "cool"));
  h ← set_prev h fl1 NULL; h ← set_next h fl1 fl2;
  h ← set_prev h fl2 fl1; h ← set_next h fl2 fl3;
  h ← set_prev h fl3 fl2; h ← set_next h fl3 fl4;
  h ← set_prev h fl4 fl3; h ← set_next h fl4 NULL;
  Ok (h, fl1, fl2, fl3, fl4).

(** @src modules/m2/double_link/linked_list/linked_list_test.c 42-44 test_student_implementation *)
Fixpoint check_elements (h : heap) (hd i : Z) (check : list bytes) : res unit :=
  match check with
  | [] => Ok tt
  | c :: check =>
      p ← get h hd i; same ← is_string h p c; assert_ same ;;
      check_elements h hd (i + 1) check
  end.

(** @src modules/m2/double_link/linked_list/linked_list_test.c 50-61 test_student_implementation *)
Definition test_get (h : heap) (one_list one_int_list : Z) : res unit :=
  let empty_list := NULL in
  p ← get h empty_list 0; assert_ (is_null p) ;;
  p ← get h empty_list 2; assert_ (is_null p) ;;
  one_list_get ← get h one_list 0;
  same ← is_string h one_list_get (str "systems"); assert_ same ;;
  p ← get h one_list 1; assert_ (is_null p) ;;
  one_int_list_get ← get h one_int_list 0;
  v ← int_at 4 h one_int_list_get; assert_ (v =? 1) ;;
  p ← get h one_list 1; assert_ (is_null p).

(** @src modules/m2/double_link/linked_list/linked_list_test.c 63-83 test_student_implementation
    The heads of the three lists. *)
Definition test_insert_first (h : heap) (one_list one_int_list : Z) : res (heap * Z * Z * Z) :=
  '(h, empty_list) ← insert_first h NULL (lit (str "programming")) 12;
  n ← length_list h empty_list; assert_ (n =? 1) ;;
  p ← get_first h empty_list; q ← get_last h empty_list; same ← same_string h p q; assert_ same ;;
  p ← get_prev h empty_list; assert_ (is_null p) ;;
  p ← get_next h empty_list; assert_ (is_null p) ;;
  '(h, one_list) ← insert_first h one_list (lit (str "computer")) 9;
  p ← get_first h one_list; same ← is_string h p (str "computer"); assert_ same ;;
  p ← get_prev h one_list; assert_ (is_null p) ;;
  next_element ← get_next h one_list;
  p ← get_prev h next_element; assert_ (p =? one_list) ;;
  p ← get_data h next_element; same ← is_string h p (str "systems"); assert_ same ;;
  p ← get h one_list 1; same ← is_string h p (str "systems"); assert_ same ;;
  let h := set_block h a_two (int_bytes 4 2) in
  '(h, one_int_list) ← insert_first h one_int_list a_two 4;
  p ← get_first h one_int_list; v ← int_at 4 h p; assert_ (v =? 2) ;;
  Ok (h, empty_list, one_list, one_int_list).

(** @src modules/m2/double_link/linked_list/linked_list_test.c 85-114 test_student_implementation *)
Definition test_remove_last (h : heap) (empty_list one_list one_int_list : Z) : res heap :=
  '(h, single, removed_empty) ← remove_last h empty_list;
  p ← get_last h single; assert_ (is_null p) ;;
  p ← get h single 0; assert_ (is_null p) ;;
  n ← length_list h single; assert_ (n =? 0) ;;
  assert_ (is_null single) ;;
  '(h, single, p) ← remove_last h single; assert_ (is_null p) ;;
  h ← free_block h removed_empty;
  '(h, one_list, removed_one) ← remove_last h one_list;
  same ← is_string h removed_one (str "systems"); assert_ same ;;
  h ← free_block h removed_one;
  n ← length_list h one_list; assert_ (n =? 1) ;;
  p ← get_next h one_list; assert_ (is_null p) ;;
  p ← get_prev h one_list; assert_ (is_null p) ;;
  p ← get h one_list 1; assert_ (is_null p) ;;
  p ← get h one_list 0; same ← is_string h p (str "computer"); assert_ same ;;
  '(h, one_list, _) ← remove_element h one_list (lit (str "computer")) 9;
  '(h, one_int_list, removed) ← remove_last h one_int_list;
  v ← int_at 4 h removed; assert_ (v =? 1) ;;
  h ← free_block h removed;
  '(h, one_int_list, removed) ← remove_first h one_int_list;
  v ← int_at 4 h removed; assert_ (v =? 2) ;;
  h ← free_block h removed;
  (if is_null one_int_list then Ok h else free_node h one_int_list).

(** @src modules/m2/double_link/linked_list/linked_list_test.c 7-115 test_student_implementation *)
Definition test_student_implementation (h : heap) : res heap :=
  '(h, one_list) ← node_of h (str "systems" ++ [0]);
  h ← set_prev h one_list NULL; h ← set_next h one_list NULL;
  '(h, one_int_list) ← node_of h (int_bytes 4 1);
  h ← set_prev h one_int_list NULL; h ← set_next h one_int_list NULL;
  '(h, fl1, fl2, fl3, fl4) ← four_list h;
  check_elements h fl1 0 [str "hello"; str "world"; str "how"; str "cool"] ;;
  h ← free_node h fl1; h ← free_node h fl2; h ← free_node h fl3; h ← free_node h fl4;
  test_get h one_list one_int_list ;;
  '(h, empty_list, one_list, one_int_list) ← test_insert_first h one_list one_int_list;
  test_remove_last h empty_list one_list one_int_list.

(** @src modules/m2/double_link/linked_list/linked_list_test.c 124-144 test_linked_list *)
Definition three_list (h : heap) : res (heap * Z) :=
  '(h, new_list) ← node_of h (str "test" ++ [0]);
  h ← set_prev h new_list NULL;
  '(h, next_element) ← node_of h (str "test1" ++ [0]);
  h ← set_next h new_list next_element;
  h ← set_prev h next_element new_list;
  '(h, last_element) ← node_of h (str "test2" ++ [0]);
  h ← set_prev h last_element next_element;
  h ← set_next h next_element last_element;
  h ← set_next h last_element NULL;
  Ok (h, new_list).

(** @src modules/m2/double_link/linked_list/linked_list_test.c 120-187 test_linked_list *)
Definition test_linked_list (h : heap) : res heap :=
  let empty_list := NULL in
  '(h, new_list) ← three_list h;
  three_element_len ← length_list h new_list; assert_ (three_element_len =? 3) ;;
  first_empty ← get_first h empty_list; assert_ (is_null first_empty) ;;
  first_three_elements ← get_first h new_list;
  same ← is_string h first_three_elements (str "test"); assert_ same ;;
  '(h, new_list, removed) ← remove_first h new_list;
  same ← is_string h removed (str "test"); assert_ same ;;
  h ← free_block h removed;
  let h := set_block h a_el (int_bytes 8 401) in
  '(h, new_list) ← insert_last h new_list a_el 8;
  last_el ← get_last h new_list;
  v ← int_at 8 h last_el; assert_ (v =? 401) ;;
  '(h, empty_list) ← reverse h empty_list;
  '(h, new_list) ← reverse h new_list;
  new_first_element ← get_first h new_list;
  v ← int_at 8 h new_first_element; assert_ (v =? 401) ;;
  new_last_element ← get_last h new_list;
  same ← is_string h new_last_element (str "test1"); assert_ same ;;
  '(h, new_list, _) ← remove_element h new_list (lit (str "test1")) 6;
  '(h, new_list, _) ← remove_element h new_list (lit (str "test2")) 6;
  '(h, new_list, _) ← remove_element h new_list a_el 8;
  Ok h.

Definition ESC : Z := 27.
Definition passed (t : bytes) : bytes := ESC :: str "[32m" ++ t ++ ESC :: str "[0m" ++ [10].
Definition usage : bytes := str "usage: <all | existing | student>" ++ [10].

(** @src modules/m2/double_link/linked_list/linked_list_test.c 189-210 main
    What is printed by a run that returns, and the heap it leaves. *)
Definition main (h : heap) (argv : list bytes) : res (bytes * heap) :=
  match argv with
  | [_; arg] =>
      if bool_decide (arg = str "all") then
        h ← test_linked_list h; h ← test_student_implementation h;
        Ok (str "===Running all linked list tests===" ++ [10] ++ passed (str "ALL TESTS PASSED!"), h)
      else if bool_decide (arg = str "existing") then
        h ← test_linked_list h;
        Ok (str "===Running only existing implementation tests===" ++ [10] ++
            passed (str "ALL EXISTING TESTS PASSED!"), h)
      else if bool_decide (arg = str "student") then
        h ← test_student_implementation h;
        Ok (str "===Running only student implementation tests===" ++ [10] ++
            passed (str "ALL STUDENT TESTS PASSED!"), h)
      else Ok (usage, h)
  | _ => Ok (usage, h)
  end.
End test.

(** ** Repairs *)

(** Which functions are repaired; [r_student] is the three that students write. *)
Record repairs := Repairs {
  r_length : bool; r_get_first : bool; r_insert_last : bool; r_reverse : bool; r_remove_first : bool; r_student : bool
}.

Section repaired.
Context `{Malloc} (fuel : nat).

Fixpoint good_length (fuel : nat) (h : heap) (hd : Z) : res Z :=
  match fuel with
  | O => Err NoFuel
  | S fuel => if is_null hd then Ok 0 else n ← get_next h hd; len ← good_length fuel h n; Ok (len + 1)
  end.

Definition good_get_first (h : heap) (hd : Z) : res Z := if is_null hd then Ok NULL else get_data h hd.

Definition good_insert_last (h : heap) (hd to_add size : Z) : res (heap * Z) :=
  if is_null to_add then Ok (h, hd) else
  let '(h, n) := malloc_node h in
  '(h, d) ← malloc_copy h to_add size;
  h ← set_data h n d;
  h ← set_next h n NULL;
  link_last fuel h hd n.

Definition good_reverse (h : heap) (hd : Z) : res (heap * Z) :=
  if is_null hd then Ok (h, hd) else reverse_helper fuel h hd.

Definition good_remove_first (h : heap) (hd : Z) : res (heap * Z * Z) :=
  if is_null hd then Ok (h, hd, NULL) else
  n ← get_next h hd;
  h ← (if is_null n then Ok h else set_prev h n NULL);
  d ← get_data h hd;
  h ← free_node h hd;
  Ok (h, n, d).

Definition good_insert_first (h : heap) (hd to_add size : Z) : res (heap * Z) :=
  if is_null to_add then Ok (h, hd) else
  let '(h, n) := malloc_node h in
  '(h, d) ← malloc_copy h to_add size;
  h ← set_data h n d;
  h ← set_prev h n NULL;
  h ← set_next h n hd;
  h ← (if is_null hd then Ok h else set_prev h hd n);
  Ok (h, n).

Fixpoint good_get (fuel : nat) (h : heap) (hd index : Z) : res Z :=
  match fuel with
  | O => Err NoFuel
  | S fuel =>
      if is_null hd || (index <? 0) then Ok NULL
      else if index =? 0 then get_data h hd else n ← get_next h hd; good_get fuel h n (index - 1)
  end.

Definition good_remove_last (h : heap) (hd : Z) : res (heap * Z * Z) :=
  if is_null hd then Ok (h, hd, NULL) else
  curr ← last_loop fuel h hd;
  p ← get_prev h curr;
  h ← (if is_null p then Ok h else set_next h p NULL);
  d ← get_data h curr;
  h ← free_node h curr;
  Ok (h, if is_null p then NULL else hd, d).

(** The handout's functions where they are not repaired.  [length_list] loops on
    every list that is not empty, whatever the fuel. *)
Definition repaired (r : repairs) : ListLib := {|
  length_list h hd := if r_length r then good_length fuel h hd else if is_null hd then Ok 0 else Err NoFuel;
  get_first := if r_get_first r then good_get_first else LinkedList.get_first;
  get_last := LinkedList.get_last fuel;
  insert_first := if r_student r then good_insert_first else λ h hd to_add size, Ok (LinkedList.insert_first h hd to_add size);
  insert_last := if r_insert_last r then good_insert_last else LinkedList.insert_last fuel;
  get := if r_student r then good_get fuel else λ h hd index, Ok (LinkedList.get h hd index);
  remove_element := LinkedList.remove_element fuel;
  reverse h hd := if r_reverse r then good_reverse h hd else
    '(h, hd) ← LinkedList.reverse fuel h (Some hd); hd ← of_option UB hd; Ok (h, hd);
  remove_first := if r_remove_first r then good_remove_first else LinkedList.remove_first;
  remove_last := if r_student r then good_remove_last else λ h hd, Ok (LinkedList.remove_last h hd)
|}.
End repaired.

Lemma length_list_loops `{Malloc} fuel n r h hd :
  r_length r = false → length_list (ListLib := repaired fuel r) h hd = LinkedList.length_list n hd.
Proof.
  intros Hr. cbn. rewrite Hr. unfold LinkedList.length_list, is_null. destruct (Z.eqb_spec hd NULL) as [|Hn]; [done|]. generalize 0 as len.
  induction n as [|n IH]; intros len; [done|]. cbn [length_loop]. destruct (Z.eqb_spec hd NULL); [done|]. apply IH.
Qed.

(** ** A concrete run *)

Definition literals : list bytes :=
  [str "hello"; str "world"; str "how"; str "cool"; str "programming"; str "computer"; str "test1"; str "test2"].
Definition ex_lit (s : bytes) : Z :=
  match list_find (λ t, t = s) literals with Some (i, _) => 1 + Z.of_nat i | None => 0 end.
Definition ex_heap : heap := Heap ∅ (list_to_map ((λ s, (ex_lit s, s ++ [0])) <$> literals)).
Definition run_main (r : repairs) (arg : bytes) : res (bytes * heap) :=
  main (H0 := repaired 10 r) ex_lit 100 101 ex_heap [str "linked_list_test"; arg].

(** The run passes, and no node of a list is left. *)
Definition passes (r : repairs) (arg : bytes) : bool :=
  match run_main r arg with Ok (_, h) => bool_decide (nodes h = ∅) | Err _ => false end.

(** ** Theorems *)

(** What the tests ask for.  The tests of the existing functions pass if and only if
    all five functions with a defect are repaired, so none of the defects goes
    unnoticed; those of the student's functions ask for these three and for two of
    the repairs; all of them together for everything. *)
Theorem list_tests_judge r :
  passes r (str "existing") = r_length r && r_get_first r && r_insert_last r && r_reverse r && r_remove_first r ∧
  passes r (str "student") = r_length r && r_remove_first r && r_student r ∧
  passes r (str "all") = passes r (str "existing") && r_student r.
Proof. destruct r as [[] [] [] [] [] []]; by vm_compute. Qed.

(** The handout as it is: the tests of the existing functions hang in
    [length_list], those of the student's use NULL as a string. *)
Theorem handout_runs :
  run_main (Repairs false false false false false false) (str "existing") = Err NoFuel ∧
  run_main (Repairs false false false false false false) (str "student") = Err UB.
Proof. by vm_compute. Qed.
