(* ===== verification/Instr.v ===== *)
(** * Instructions that no C function of the kernel uses

    The string transfers between ports and memory, the atomic addition and the
    processor queries of src/modules/m3/x86-64.h.  They are there for the students'
    code; [Boot] has the one the boot loader uses, insl.  The answers of cpuid are
    an argument. *)
From stdpp Require Import base tactics numbers list gmap.
From Stdlib Require Import ZArith Lia.
From S2P Require Import Prelude Mem Machine.

Section instr.
Context {D : Type} `{PortBus D}.

(** One read from a port, and one write to it, of [w] bytes. *)
Definition port_in (w : nat) (port : Z) : M D Z := λ s,
  let '(d, v) := bus_in (dev s) (u16 port) (8 * Z.of_nat w) in Ret (wrapU (8 * Z.of_nat w) v) (set_dev d s).
Definition port_out (w : nat) (port data : Z) : M D unit :=
  modify (λ s, set_dev (bus_out (dev s) (u16 port) (8 * Z.of_nat w) (wrapU (8 * Z.of_nat w) data)) s).

(** [cnt] elements of [w] bytes, upwards (cld clears the direction flag). *)
Fixpoint ins (w : nat) (port addr : Z) (cnt : nat) : M D unit :=
  match cnt with
  | O => mret tt
  | S cnt =>
      v ← port_in w port;
      modify (λ s, set_memory (stn w (memory s) addr v) s);;
      ins w port (u64 (addr + Z.of_nat w)) cnt
  end.
Fixpoint outs (w : nat) (port addr : Z) (cnt : nat) : M D unit :=
  match cnt with
  | O => mret tt
  | S cnt =>
      v ← get (λ s, ldn w (memory s) addr);
      port_out w port v;;
      outs w port (u64 (addr + Z.of_nat w)) cnt
  end.

(** @src modules/m3/x86-64.h 208-213 insb *)
Definition insb (port addr : Z) (cnt : nat) : M D unit := ins 1 port addr cnt.
(** @src modules/m3/x86-64.h 221-226 insw *)
Definition insw (port addr : Z) (cnt : nat) : M D unit := ins 2 port addr cnt.
(** @src modules/m3/x86-64.h 245-250 outsb *)
Definition outsb (port addr : Z) (cnt : nat) : M D unit := outs 1 port addr cnt.
(** @src modules/m3/x86-64.h 256-261 outsw *)
Definition outsw (port addr : Z) (cnt : nat) : M D unit := outs 2 port addr cnt.
(** @src modules/m3/x86-64.h 263-268 outsl *)
Definition outsl (port addr : Z) (cnt : nat) : M D unit := outs 4 port addr cnt.

(** @src modules/m3/x86-64.h 312-316 rcr3 *)
Definition rcr3 : M D Z := get (λ s, cr3 (cpu s)).

(** @src modules/m3/x86-64.h 391-396 fetch_and_addl *)
Definition fetch_and_addl (object addend : Z) : M D Z :=
  old ← get (λ s, ld32 (memory s) object);
  modify (λ s, set_memory (stn 4 (memory s) object (u32 (old + addend))) s);;
  mret old.

(** @src modules/m3/x86-64.h 365-383 cpuid
    [answer] is what the processor leaves in eax, ebx, ecx and edx; a NULL pointer
    asks for nothing. *)
Definition cpuid (answer : Z → Z * Z * Z * Z) (info eaxp ebxp ecxp edxp : Z) : M D unit :=
  let '(eax, ebx, ecx, edx) := answer (u32 info) in
  let put (p v : Z) : M D unit :=
    if p =? 0 then mret tt else modify (λ s, set_memory (stn 4 (memory s) p (u32 v)) s) in
  put eaxp eax;; put ebxp ebx;; put ecxp ecx;; put edxp edx.

(** ** What the transfers do *)

(** The device and the values it gives to [n] reads. *)
Fixpoint bus_reads (w : nat) (port : Z) (n : nat) (d : D) : D * list Z :=
  match n with
  | O => (d, [])
  | S n =>
      let '(d, v) := bus_in d (u16 port) (8 * Z.of_nat w) in
      let '(d, vs) := bus_reads w port n d in
      (d, wrapU (8 * Z.of_nat w) v :: vs)
  end.
Definition bus_writes (w : nat) (port : Z) (vs : list Z) (d : D) : D :=
  foldl (λ d v, bus_out d (u16 port) (8 * Z.of_nat w) v) d vs.

(** The elements of [w] bytes stored at [a]. *)
Fixpoint stores (w : nat) (m : mem) (a : Z) (vs : list Z) : mem :=
  match vs with [] => m | v :: vs => stores w (stn w m a v) (a + Z.of_nat w) vs end.
Fixpoint loads (w n : nat) (m : mem) (a : Z) : list Z :=
  match n with O => [] | S n => ldn w m a :: loads w n m (a + Z.of_nat w) end.

Lemma rd_stores_out w vs m a b :
  ¬ (a ≤ b < a + Z.of_nat w * Z.of_nat (length vs)) → rd (stores w m a vs) b = rd m b.
Proof.
  revert m a. induction vs as [|v vs IH]; intros m a Hb; cbn [stores length] in *; [done|].
  rewrite IH by lia. apply rd_stn_out. lia.
Qed.

Lemma loads_stores w vs m a :
  (∀ v, v ∈ vs → 0 ≤ v < 2 ^ (8 * Z.of_nat w)) → loads w (length vs) (stores w m a vs) a = vs.
Proof.
  revert m a. induction vs as [|v vs IH]; intros m a Hv; cbn [stores loads length]; [done|]. f_equal.
  - rewrite (ldn_ext w _ (stn w m a v)).
    + apply ldn_stn, Hv. left.
    + intros c Hc. apply rd_stores_out. lia.
  - apply IH. intros u Hu. apply Hv. by right.
Qed.

Lemma length_bus_reads w port n d : length (bus_reads w port n d).2 = n.
Proof.
  revert d. induction n as [|n IH]; intros d; cbn; [done|]. destruct (bus_in _ _ _) as [d1 v].
  specialize (IH d1). destruct (bus_reads w port n d1). cbn in *. by f_equal.
Qed.

Lemma bus_reads_range w port n d v : v ∈ (bus_reads w port n d).2 → 0 ≤ v < 2 ^ (8 * Z.of_nat w).
Proof.
  revert d. induction n as [|n IH]; intros d; cbn; [by intros ?%elem_of_nil|]. destruct (bus_in _ _ _) as [d1 u].
  specialize (IH d1). destruct (bus_reads w port n d1). cbn in *.
  intros [-> |?]%elem_of_cons; [apply wrapU_range; lia|auto].
Qed.

Lemma ins_ok w port n addr s :
  0 ≤ addr → addr + Z.of_nat w * Z.of_nat n < 2 ^ 64 →
  ins w port addr n s =
    Ret tt (set_memory (stores w (memory s) addr (bus_reads w port n (dev s)).2)
              (set_dev (bus_reads w port n (dev s)).1 s)).
Proof.
  revert addr s. induction n as [|n IH]; intros addr s Ha Hn; cbn [ins bus_reads]; [by destruct s|].
  unfold mbind, M_bind, port_in, modify. destruct (bus_in (dev s) _ _) as [d v].
  rewrite wrapU_small, IH by lia. cbn [dev memory set_memory set_dev].
  by destruct (bus_reads w port n d) as [d' vs].
Qed.

Lemma outs_ok w port n addr s :
  0 ≤ addr → addr + Z.of_nat w * Z.of_nat n < 2 ^ 64 →
  outs w port addr n s = Ret tt (set_dev (bus_writes w port (loads w n (memory s) addr) (dev s)) s).
Proof.
  revert addr s. induction n as [|n IH]; intros addr s Ha Hn; cbn [outs loads]; [by destruct s|].
  unfold mbind, M_bind, port_out, modify, get.
  rewrite (wrapU_small _ (ldn w _ _)) by apply ldn_range. rewrite wrapU_small, IH by lia. done.
Qed.

(** A transfer in followed by one out of the same memory sends to the second port
    exactly the values that the first gave, in order, and changes no other byte of
    memory. *)
Theorem ins_outs w port port' n addr s :
  0 ≤ addr → addr + Z.of_nat w * Z.of_nat n < 2 ^ 64 →
  let '(d, vs) := bus_reads w port n (dev s) in
  ∃ s', (ins w port addr n;; outs w port' addr n) s = Ret tt s' ∧ dev s' = bus_writes w port' vs d ∧
    length vs = n ∧ ∀ b, ¬ (addr ≤ b < addr + Z.of_nat w * Z.of_nat n) → rd (memory s') b = rd (memory s) b.
Proof.
  intros Ha Hn. pose proof (length_bus_reads w port n (dev s)) as Hl.
  pose proof (bus_reads_range w port n (dev s)) as Hr. pose proof (ins_ok w port n addr s Ha Hn) as E.
  destruct (bus_reads w port n (dev s)) as [d vs]. cbn [fst snd] in *.
  eexists. split; [unfold mbind, M_bind; rewrite E; by apply outs_ok|]. cbn [dev memory set_memory set_dev].
  split_and!; [|done|].
  - rewrite <- Hl at 1. by rewrite loads_stores.
  - intros b Hb. apply rd_stores_out. by rewrite Hl.
Qed.

(** [fetch_and_addl] returns the old value and leaves the sum, modulo 2^32. *)
Theorem fetch_and_addl_spec object addend s :
  ∃ s', fetch_and_addl object addend s = Ret (ld32 (memory s) object) s' ∧
    ld32 (memory s') object = u32 (ld32 (memory s) object + addend) ∧
    ∀ b, ¬ (object ≤ b < object + 4) → rd (memory s') b = rd (memory s) b.
Proof.
  eexists. split; [reflexivity|]. cbn [memory set_memory]. split.
  - apply ldn_stn. change (2 ^ (8 * Z.of_nat 4)) with (2 ^ 32). by apply wrapU_range.
  - intros b Hb. by apply rd_stn_out.
Qed.
End instr.
